(** * Entitlement ledger of the central dashboard: model and properties

    A shallow embedding of the entitlement services
    ([src/lib/services/entitlements.service.ts], [stripe.service.ts],
    [app-sync.service.ts], [lib/types]) and of the Stripe webhook route,
    followed by the properties of the ledger checked against it.

    Conventions of the embedding
    - A JavaScript [Date] is its time value: milliseconds since the epoch
      as a [Z], or [InvalidDate] when the time value is NaN.  The process
      time zone is UTC, so [LocalTime t = t].
    - A Prisma table is the list of its rows in insertion order; a row is
      a record.  [undefined] in the [data] of an update leaves the column
      as it is, [null] clears it.
    - A thrown [Error] is the [Err] result; writes made before the throw
      stay in the store (no call of the source opens a transaction).
    - Strings are byte strings; [toLowerCase] acts on ASCII letters.
    - A function that calls [new Date()] takes the reading of the clock
      as an argument [now]; [checkAccess] and [revokeEntitlementById] read
      the clock twice and take both readings.
    - The Prisma schema is not among the sources.  The columns
      [Entitlement.id] and [Entitlement.amountPaid] are [Int] columns of
      32 bits, and a write or a [where] with a value beyond them is
      rejected.  The rows an insert refers to (the identity and the product
      of an entitlement or of an email binding) are taken to exist: what an
      insert does for a missing one is not modelled, and the properties of
      calls whose ids come from a request carry the existence as a
      hypothesis.
    - Values the source draws at random ([nanoid]) are arguments.
    - The outbound traffic ([fetch] to the apps, mails) is recorded in the
      store in the order it is sent; console output is left out. *)

From Stdlib Require Import ZArith List String Ascii Bool Lia.
Import ListNotations.
Open Scope string_scope.
Open Scope list_scope.
Open Scope Z_scope.

(** ** Dates (ECMAScript time values) *)

Module JSDate.

Definition msPerDay : Z := 86400000.

Definition Day (t : Z) : Z := t / msPerDay.
Definition TimeWithinDay (t : Z) : Z := t mod msPerDay.

Definition DaysInYear (y : Z) : Z :=
  if negb (y mod 4 =? 0) then 365
  else if negb (y mod 100 =? 0) then 366
  else if negb (y mod 400 =? 0) then 365
  else 366.

Definition DayFromYear (y : Z) : Z :=
  365 * (y - 1970) + (y - 1969) / 4 - (y - 1901) / 100 + (y - 1601) / 400.

(** The largest year [y] with [DayFromYear y <= d]: the mean year of
    146097/400 days gives an estimate that is off by at most one. *)
Definition YearFromDay (d : Z) : Z :=
  let e := 1970 + (400 * d) / 146097 in
  if DayFromYear (e + 1) <=? d then e + 1
  else if DayFromYear e <=? d then e
  else e - 1.

Definition YearFromTime (t : Z) : Z := YearFromDay (Day t).

Definition LeapDays (y : Z) : Z := if DaysInYear y =? 366 then 1 else 0.

Definition InLeapYear (t : Z) : Z := LeapDays (YearFromTime t).

Definition DayWithinYear (t : Z) : Z := Day t - DayFromYear (YearFromTime t).

(** Number of days of the year before month [m] (0 = January). *)
Definition DaysBeforeMonth (m leap : Z) : Z :=
  if m =? 0 then 0
  else if m =? 1 then 31
  else if m =? 2 then 59 + leap
  else if m =? 3 then 90 + leap
  else if m =? 4 then 120 + leap
  else if m =? 5 then 151 + leap
  else if m =? 6 then 181 + leap
  else if m =? 7 then 212 + leap
  else if m =? 8 then 243 + leap
  else if m =? 9 then 273 + leap
  else if m =? 10 then 304 + leap
  else 334 + leap.

Definition DaysInMonth (y m : Z) : Z :=
  if m =? 11 then 31
  else DaysBeforeMonth (m + 1) (LeapDays y) - DaysBeforeMonth m (LeapDays y).

Definition MonthFromTime (t : Z) : Z :=
  let d := DayWithinYear t in
  let l := InLeapYear t in
  if d <? 31 then 0
  else if d <? 59 + l then 1
  else if d <? 90 + l then 2
  else if d <? 120 + l then 3
  else if d <? 151 + l then 4
  else if d <? 181 + l then 5
  else if d <? 212 + l then 6
  else if d <? 243 + l then 7
  else if d <? 273 + l then 8
  else if d <? 304 + l then 9
  else if d <? 334 + l then 10
  else 11.

Definition DateFromTime (t : Z) : Z :=
  DayWithinYear t - DaysBeforeMonth (MonthFromTime t) (InLeapYear t) + 1.

(** [MakeDay year month date]: the day number of the first of the month
    [month mod 12] of the year [year + floor (month / 12)], plus
    [date - 1].  Nothing is clamped: a [date] past the end of the month
    counts on into the months after it. *)
Definition MakeDay (year month date : Z) : Z :=
  let ym := year + month / 12 in
  let mn := month mod 12 in
  DayFromYear ym + DaysBeforeMonth mn (LeapDays ym) + date - 1.

Definition MakeDate (day time : Z) : Z := day * msPerDay + time.

Inductive Date : Type :=
| DateOf (t : Z)
| InvalidDate.

Definition maxTime : Z := 8640000000000000.

Definition TimeClip (t : Z) : Date :=
  if Z.abs t <=? maxTime then DateOf t else InvalidDate.

(** [d.getDate()], [d.getMonth()], [d.getFullYear()] of a valid date. *)
Definition getDate (t : Z) : Z := DateFromTime t.
Definition getMonth (t : Z) : Z := MonthFromTime t.
Definition getFullYear (t : Z) : Z := YearFromTime t.

(** [d.setDate(dt)], [d.setMonth(m)], [d.setFullYear(y)]: the new time
    value, which is also what the call returns. *)
Definition setDate (t dt : Z) : Date :=
  TimeClip (MakeDate (MakeDay (YearFromTime t) (MonthFromTime t) dt)
                     (TimeWithinDay t)).

Definition setMonth (t m : Z) : Date :=
  TimeClip (MakeDate (MakeDay (YearFromTime t) m (DateFromTime t))
                     (TimeWithinDay t)).

Definition setFullYear (t y : Z) : Date :=
  TimeClip (MakeDate (MakeDay y (MonthFromTime t) (DateFromTime t))
                     (TimeWithinDay t)).

End JSDate.

Import JSDate.

(** ** [lib/types]: duration arithmetic *)

(** [calculateExpiryDate(durationType, durationValue)] with the clock
    reading [now] of its [new Date()].  [None] is [null]. *)
Definition calculateExpiryDate
    (durationType : string) (durationValue : option Z) (now : Z)
  : option Date :=
  if (durationType =? "lifetime")%string then None
  else
    match durationValue with
    | None => None
    | Some v =>
        if v =? 0 then None
        else if (durationType =? "days")%string
        then Some (setDate now (getDate now + v))
        else if (durationType =? "months")%string
        then Some (setMonth now (getMonth now + v))
        else if (durationType =? "years")%string
        then Some (setFullYear now (getFullYear now + v))
        else None
    end.

(** ** Strings and truthiness *)

Definition lower_ascii (c : ascii) : ascii :=
  let n := nat_of_ascii c in
  if (Nat.leb 65 n && Nat.leb n 90)%bool then ascii_of_nat (n + 32) else c.

(** [s.toLowerCase()] on ASCII text. *)
Fixpoint toLowerCase (s : string) : string :=
  match s with
  | EmptyString => EmptyString
  | String c r => String (lower_ascii c) (toLowerCase r)
  end.

(** A string is truthy when it is not empty; [undefined] and [null]
    ([None]) are falsy. *)
Definition truthy (s : string) : bool := negb (s =? "")%string.

Definition truthy_opt (o : option string) : bool :=
  match o with Some s => truthy s | None => false end.

(** [a || b] on an optional string. *)
Definition or_else (o : option string) (d : string) : string :=
  match o with
  | Some s => if truthy s then s else d
  | None => d
  end.

Definition eqb_opt_string (a b : option string) : bool :=
  match a, b with
  | Some x, Some y => (x =? y)%string
  | None, None => true
  | _, _ => false
  end.

(** ** Rows of the database *)

(** Identity ids (cuid strings in the database) are modelled by the
    value of the table's row counter. *)
Record Identity : Type := mkIdentity {
  identity_id : Z;
  primaryEmail : string;
  stripeCustomerId : option string
}.

(** Unique on [(email, productId)]. *)
Record IdentityEmail : Type := mkIdentityEmail {
  ie_email : string;
  ie_productId : string;
  ie_identityId : Z
}.

Record Entitlement : Type := mkEntitlement {
  ent_id : Z;
  ent_identityId : Z;
  ent_productId : string;
  ent_source : string;
  ent_sourceApp : string;
  ent_bundleId : option Z;
  grantedAt : Z;
  expiresAt : option Z;
  revokedAt : option Z;
  revokedReason : option string;
  ent_stripeSubscriptionId : option string;
  ent_stripePriceId : option string;
  amountPaid : option Z;
  currency : option string
}.

Record Bundle : Type := mkBundle {
  bundle_id : Z;
  bundle_name : string;
  bundle_stripePriceId : string;
  productIds : list string;
  durationType : string;
  durationValue : option Z
}.

(** Only the columns the services read: the id and whether a
    [formSchema] is stored. *)
Record Product : Type := mkProduct {
  product_id : string;
  hasFormSchema : bool
}.

Record ClaimToken : Type := mkClaimToken {
  token : string;
  ct_identityId : Z;
  ct_bundleId : Z;
  purchaseEmail : string;
  stripeSessionId : option string;
  ct_expiresAt : Z;
  claimed : bool;
  claimedAt : option Z
}.

Definition FormData : Type := list (string * string).

Record ProductSubmission : Type := mkProductSubmission {
  ps_identityId : Z;
  ps_productId : string;
  formData : FormData
}.

Record AuditLog : Type := mkAuditLog {
  action : string;
  al_identityId : Z;
  al_productIds : list string;
  adminEmail : option string
}.

Record WebhookLog : Type := mkWebhookLog {
  eventId : string;
  eventType : string;
  status : string;
  errorMessage : option string
}.

(** One [fetch] of [syncToApp]: the body posted to an app's
    [/api/admin/sync-subscription]. *)
Record SyncPush : Type := mkSyncPush {
  push_app : string;
  push_email : string;
  push_tier : string;
  push_source : string;
  push_reason : string
}.

(** One mail handed to [sendBundlePurchaseEmail] (recipient, bundle and
    products; the customer name, links and expiry line are left out). *)
Record PurchaseEmail : Type := mkPurchaseEmail {
  mail_to : string;
  mail_bundleName : string;
  mail_productIds : list string
}.

(** ** The store: the database tables, the row counters, the outbound
    traffic and the configuration *)

Record Store : Type := mkStore {
  identities : list Identity;
  identityEmails : list IdentityEmail;
  entitlements : list Entitlement;
  bundles : list Bundle;
  products : list Product;
  claimTokens : list ClaimToken;
  productSubmissions : list ProductSubmission;
  auditLogs : list AuditLog;
  webhookLogs : list WebhookLog;
  nextIdentityId : Z;
  nextEntitlementId : Z;
  syncPushes : list SyncPush;
  sentEmails : list PurchaseEmail;
  ADMIN_API_KEY : option string
}.

Definition with_identities (v : list Identity) (s : Store) : Store :=
  mkStore v (identityEmails s) (entitlements s) (bundles s) (products s)
    (claimTokens s) (productSubmissions s) (auditLogs s) (webhookLogs s)
    (nextIdentityId s) (nextEntitlementId s) (syncPushes s) (sentEmails s)
    (ADMIN_API_KEY s).

Definition with_identityEmails (v : list IdentityEmail) (s : Store) : Store :=
  mkStore (identities s) v (entitlements s) (bundles s) (products s)
    (claimTokens s) (productSubmissions s) (auditLogs s) (webhookLogs s)
    (nextIdentityId s) (nextEntitlementId s) (syncPushes s) (sentEmails s)
    (ADMIN_API_KEY s).

Definition with_entitlements (v : list Entitlement) (s : Store) : Store :=
  mkStore (identities s) (identityEmails s) v (bundles s) (products s)
    (claimTokens s) (productSubmissions s) (auditLogs s) (webhookLogs s)
    (nextIdentityId s) (nextEntitlementId s) (syncPushes s) (sentEmails s)
    (ADMIN_API_KEY s).

Definition with_claimTokens (v : list ClaimToken) (s : Store) : Store :=
  mkStore (identities s) (identityEmails s) (entitlements s) (bundles s)
    (products s) v (productSubmissions s) (auditLogs s) (webhookLogs s)
    (nextIdentityId s) (nextEntitlementId s) (syncPushes s) (sentEmails s)
    (ADMIN_API_KEY s).

Definition with_productSubmissions (v : list ProductSubmission) (s : Store)
  : Store :=
  mkStore (identities s) (identityEmails s) (entitlements s) (bundles s)
    (products s) (claimTokens s) v (auditLogs s) (webhookLogs s)
    (nextIdentityId s) (nextEntitlementId s) (syncPushes s) (sentEmails s)
    (ADMIN_API_KEY s).

Definition with_auditLogs (v : list AuditLog) (s : Store) : Store :=
  mkStore (identities s) (identityEmails s) (entitlements s) (bundles s)
    (products s) (claimTokens s) (productSubmissions s) v (webhookLogs s)
    (nextIdentityId s) (nextEntitlementId s) (syncPushes s) (sentEmails s)
    (ADMIN_API_KEY s).

Definition with_webhookLogs (v : list WebhookLog) (s : Store) : Store :=
  mkStore (identities s) (identityEmails s) (entitlements s) (bundles s)
    (products s) (claimTokens s) (productSubmissions s) (auditLogs s) v
    (nextIdentityId s) (nextEntitlementId s) (syncPushes s) (sentEmails s)
    (ADMIN_API_KEY s).

Definition with_nextIdentityId (v : Z) (s : Store) : Store :=
  mkStore (identities s) (identityEmails s) (entitlements s) (bundles s)
    (products s) (claimTokens s) (productSubmissions s) (auditLogs s)
    (webhookLogs s) v (nextEntitlementId s) (syncPushes s) (sentEmails s)
    (ADMIN_API_KEY s).

Definition with_nextEntitlementId (v : Z) (s : Store) : Store :=
  mkStore (identities s) (identityEmails s) (entitlements s) (bundles s)
    (products s) (claimTokens s) (productSubmissions s) (auditLogs s)
    (webhookLogs s) (nextIdentityId s) v (syncPushes s) (sentEmails s)
    (ADMIN_API_KEY s).

Definition with_syncPushes (v : list SyncPush) (s : Store) : Store :=
  mkStore (identities s) (identityEmails s) (entitlements s) (bundles s)
    (products s) (claimTokens s) (productSubmissions s) (auditLogs s)
    (webhookLogs s) (nextIdentityId s) (nextEntitlementId s) v (sentEmails s)
    (ADMIN_API_KEY s).

Definition with_sentEmails (v : list PurchaseEmail) (s : Store) : Store :=
  mkStore (identities s) (identityEmails s) (entitlements s) (bundles s)
    (products s) (claimTokens s) (productSubmissions s) (auditLogs s)
    (webhookLogs s) (nextIdentityId s) (nextEntitlementId s) (syncPushes s) v
    (ADMIN_API_KEY s).

(** ** Results and the store monad *)

Inductive Result (A : Type) : Type :=
| Ok (a : A)
| Err (msg : string).

Arguments Ok {A} a.
Arguments Err {A} msg.

(** An [async] function of the services: it reads and writes the store
    and resolves ([Ok]) or rejects ([Err]).  The store it leaves keeps
    every write made before a rejection. *)
Definition M (A : Type) : Type := Store -> Result A * Store.

Definition ret {A : Type} (a : A) : M A := fun s => (Ok a, s).

Definition throw {A : Type} (msg : string) : M A := fun s => (Err msg, s).

Definition bind {A B : Type} (m : M A) (k : A -> M B) : M B :=
  fun s =>
    match m s with
    | (Ok a, s') => k a s'
    | (Err e, s') => (Err e, s')
    end.

Definition gets {A : Type} (f : Store -> A) : M A := fun s => (Ok (f s), s).

Definition modify (f : Store -> Store) : M unit := fun s => (Ok tt, f s).

Notation "x <- m ;; k" := (bind m (fun x => k))
  (at level 61, m at next level, right associativity).
Notation "m ;;; k" := (bind m (fun _ => k))
  (at level 61, right associativity).

(** [for (const x of xs) { await f(x) }] *)
Fixpoint forEach {A : Type} (f : A -> M unit) (xs : list A) : M unit :=
  match xs with
  | [] => ret tt
  | x :: r => f x ;;; forEach f r
  end.

(** Sequential [map] with effects, results in order. *)
Fixpoint mapM {A B : Type} (f : A -> M B) (xs : list A) : M (list B) :=
  match xs with
  | [] => ret []
  | x :: r => y <- f x ;; ys <- mapM f r ;; ret (y :: ys)
  end.

(** Prisma refuses a [Date] whose time value is NaN; a valid date is
    stored as its time value and [null] as [NULL]. *)
Definition dbDate (d : option Date) : M (option Z) :=
  match d with
  | None => ret None
  | Some (DateOf t) => ret (Some t)
  | Some InvalidDate => throw "Invalid value for argument: Provided Date object is invalid"
  end.

(** An [Int] column holds 32 bits. *)
Definition int4 (v : Z) : bool := (-2147483648 <=? v) && (v <=? 2147483647).

(** Prisma refuses a number beyond the column for an [Int] column, in the
    [data] of a write as in a [where]; [undefined] ([None]) is left out of
    the query. *)
Definition dbInt (v : option Z) : M unit :=
  match v with
  | Some x =>
      if int4 x then ret tt
      else throw "Unable to fit integer value into an INT4"
  | None => ret tt
  end.

(** [data: { col: v }] of a Prisma update: [undefined] ([None]) keeps the
    stored value. *)
Definition upd {A : Type} (v : option A) (old : option A) : option A :=
  match v with
  | Some x => Some x
  | None => old
  end.

(** ** [entitlements.service]: the access query *)

Record AccessResult : Type := mkAccessResult {
  hasAccess : bool;
  ar_product : string;
  ar_source : option string;
  ar_bundleName : option string;
  ar_expires : option Z;
  ar_grantedAt : option Z
}.

Definition noAccess (productId : string) : AccessResult :=
  mkAccessResult false productId None None None None.

(** [where: { revokedAt: null, OR: [{ expiresAt: null },
    { expiresAt: { gt: now } }] }] *)
Definition isActive (now : Z) (e : Entitlement) : bool :=
  match revokedAt e with
  | Some _ => false
  | None =>
      match expiresAt e with
      | None => true
      | Some x => now <? x
      end
  end.

(** [orderBy: { grantedAt: 'desc' }], rows of equal [grantedAt] in table
    order. *)
Fixpoint insert_desc (e : Entitlement) (l : list Entitlement)
  : list Entitlement :=
  match l with
  | [] => [e]
  | x :: r =>
      if grantedAt x <=? grantedAt e then e :: x :: r
      else x :: insert_desc e r
  end.

Definition orderBy_grantedAt_desc (l : list Entitlement) : list Entitlement :=
  fold_right insert_desc [] l.

(** The [entitlements] included with an identity by [checkAccess]. *)
Definition activeEntitlements (identityId : Z) (productId : string) (now : Z)
    (s : Store) : list Entitlement :=
  orderBy_grantedAt_desc
    (filter (fun e => (ent_identityId e =? identityId)
                      && (ent_productId e =? productId)%string
                      && isActive now e)
            (entitlements s)).

(** [include: { bundle: true }] *)
Definition bundleOf (s : Store) (e : Entitlement) : option Bundle :=
  match ent_bundleId e with
  | Some b => find (fun x => bundle_id x =? b) (bundles s)
  | None => None
  end.

Definition checkEntitlementAccess (s : Store) (now : Z)
    (entitlement : Entitlement) (productId : string) : AccessResult :=
  match revokedAt entitlement with
  | Some _ => noAccess productId
  | None =>
      if match expiresAt entitlement with
         | Some x => x <? now
         | None => false
         end
      then noAccess productId
      else mkAccessResult true productId
             (Some (ent_source entitlement))
             (option_map bundle_name (bundleOf s entitlement))
             (expiresAt entitlement)
             (Some (grantedAt entitlement))
  end.

(** [checkAccess(email, productId)]; [now] is the clock at the query and
    [now'] the clock read afterwards by [checkEntitlementAccess]. *)
Definition checkAccess (email productId : string) (now now' : Z)
  : M AccessResult :=
  identityEmail <-
    gets (fun s =>
      find (fun ie => (ie_email ie =? toLowerCase email)%string
                      && (ie_productId ie =? productId)%string)
           (identityEmails s)) ;;
  match identityEmail with
  | None =>
      identity <-
        gets (fun s =>
          find (fun i => (primaryEmail i =? toLowerCase email)%string)
               (identities s)) ;;
      match identity with
      | None => ret (noAccess productId)
      | Some i =>
          ents <- gets (activeEntitlements (identity_id i) productId now) ;;
          match ents with
          | [] => ret (noAccess productId)
          | entitlement :: _ =>
              gets (fun s => checkEntitlementAccess s now' entitlement productId)
          end
      end
  | Some ie =>
      ents <- gets (activeEntitlements (ie_identityId ie) productId now) ;;
      match ents with
      | [] => ret (noAccess productId)
      | entitlement :: _ =>
          gets (fun s => checkEntitlementAccess s now' entitlement productId)
      end
  end.

(** ** [entitlements.service]: identities and email bindings *)

Definition auditLog_create (a : AuditLog) : M unit :=
  modify (fun s => with_auditLogs (auditLogs s ++ [a]) s).

Definition getOrCreateIdentity (email : string)
    (customerId : option string) : M Identity :=
  let normalizedEmail := toLowerCase email in
  found <-
    gets (fun s =>
      find (fun i => (primaryEmail i =? normalizedEmail)%string)
           (identities s)) ;;
  match found with
  | None =>
      id <- gets nextIdentityId ;;
      let identity := mkIdentity id normalizedEmail customerId in
      modify (fun s =>
        with_nextIdentityId (id + 1)
          (with_identities (identities s ++ [identity]) s)) ;;;
      ret identity
  | Some identity =>
      if truthy_opt customerId && negb (truthy_opt (stripeCustomerId identity))
      then
        let identity' :=
          mkIdentity (identity_id identity) (primaryEmail identity) customerId in
        modify (fun s =>
          with_identities
            (map (fun i => if identity_id i =? identity_id identity
                           then mkIdentity (identity_id i) (primaryEmail i)
                                           customerId
                           else i)
                 (identities s)) s) ;;;
        ret identity'
      else ret identity
  end.

Definition sameBinding (email productId : string) (ie : IdentityEmail) : bool :=
  (ie_email ie =? email)%string && (ie_productId ie =? productId)%string.

(** [identityEmail.upsert] on the key [(email, productId)]: [update] is
    [Some identityId] for [update: { identityId }] and [None] for
    [update: {}]. *)
Definition identityEmail_upsert (email productId : string) (identityId : Z)
    (update : option Z) : M unit :=
  modify (fun s =>
    if existsb (sameBinding email productId) (identityEmails s)
    then
      match update with
      | None => s
      | Some i =>
          with_identityEmails
            (map (fun ie => if sameBinding email productId ie
                            then mkIdentityEmail (ie_email ie) (ie_productId ie) i
                            else ie)
                 (identityEmails s)) s
      end
    else
      with_identityEmails
        (identityEmails s ++ [mkIdentityEmail email productId identityId]) s).

Definition linkEmailToIdentity (identityId : Z) (email productId : string)
  : M unit :=
  let normalizedEmail := toLowerCase email in
  identityEmail_upsert normalizedEmail productId identityId (Some identityId).

(** ** [entitlements.service]: granting *)

Record GrantParams : Type := mkGrantParams {
  g_identityId : Z;
  g_productIds : list string;
  g_source : string;
  g_sourceApp : option string;
  g_bundleId : option Z;
  g_durationType : option string;
  g_durationValue : option Z;
  g_stripeSubscriptionId : option string;
  g_stripePriceId : option string;
  g_amountPaid : option Z;
  g_currency : option string
}.

(** [where: { identityId, productId, source, sourceApp }] *)
Definition sameKey (identityId : Z) (productId source sourceApp : string)
    (e : Entitlement) : bool :=
  (ent_identityId e =? identityId)
  && (ent_productId e =? productId)%string
  && (ent_source e =? source)%string
  && (ent_sourceApp e =? sourceApp)%string.

Definition entitlement_findFirst (p : Entitlement -> bool)
  : M (option Entitlement) :=
  gets (fun s => find p (entitlements s)).

(** [entitlement.update({ where: { id }, data })]: the row after the
    update. *)
Definition entitlement_update (id : Z) (data : Entitlement -> Entitlement)
  : M Entitlement :=
  found <- gets (fun s => find (fun e => ent_id e =? id) (entitlements s)) ;;
  match found with
  | None => throw "Record to update not found."
  | Some e =>
      modify (fun s =>
        with_entitlements
          (map (fun x => if ent_id x =? id then data x else x)
               (entitlements s)) s) ;;;
      ret (data e)
  end.

(** [entitlement.create({ data })]: the id comes from the table's
    sequence, [grantedAt] defaults to the time of the insert.  The insert
    is modelled for a row whose identity and product exist (see the
    conventions); the callers check the dates and numbers of [data]
    before it. *)
Definition entitlement_create (row : Z -> Entitlement) : M Entitlement :=
  id <- gets nextEntitlementId ;;
  modify (fun s =>
    with_nextEntitlementId (id + 1)
      (with_entitlements (entitlements s ++ [row id]) s)) ;;;
  ret (row id).

(** [entitlement.updateMany({ where, data })] *)
Definition entitlement_updateMany (p : Entitlement -> bool)
    (data : Entitlement -> Entitlement) : M unit :=
  modify (fun s =>
    with_entitlements
      (map (fun x => if p x then data x else x) (entitlements s)) s).

(** [data: { revokedAt: new Date(), revokedReason: reason }] *)
Definition revoked (now : Z) (reason : option string) (e : Entitlement)
  : Entitlement :=
  mkEntitlement (ent_id e) (ent_identityId e) (ent_productId e) (ent_source e)
    (ent_sourceApp e) (ent_bundleId e) (grantedAt e) (expiresAt e)
    (Some now) (upd reason (revokedReason e))
    (ent_stripeSubscriptionId e) (ent_stripePriceId e) (amountPaid e)
    (currency e).

(** The [data] of the update in [grantAccess]. *)
Definition regranted (params : GrantParams) (expires : option Z)
    (e : Entitlement) : Entitlement :=
  mkEntitlement (ent_id e) (ent_identityId e) (ent_productId e) (ent_source e)
    (ent_sourceApp e)
    (upd (g_bundleId params) (ent_bundleId e))
    (grantedAt e)
    expires
    None None
    (upd (g_stripeSubscriptionId params) (ent_stripeSubscriptionId e))
    (upd (g_stripePriceId params) (ent_stripePriceId e))
    (upd (g_amountPaid params) (amountPaid e))
    (upd (g_currency params) (currency e)).

(** The [data] of the create in [grantAccess]. *)
Definition granted (params : GrantParams) (productId sourceApp : string)
    (expires : option Z) (now : Z) (id : Z) : Entitlement :=
  mkEntitlement id (g_identityId params) productId (g_source params) sourceApp
    (g_bundleId params) now expires None None
    (g_stripeSubscriptionId params) (g_stripePriceId params)
    (g_amountPaid params) (g_currency params).

Definition default_to {A : Type} (d : A) (o : option A) : A :=
  match o with Some x => x | None => d end.

(** [grantAccess(params)].  [Promise.all(productIds.map(async ...))] runs
    every callback up to its first [await] before any continuation, so
    each [findFirst] is issued before the first write; the writes follow
    in the order of [productIds].  A write is rejected for an invalid
    [expiresAt] or an [amountPaid] beyond the column, which are the same
    for every callback: they all reject, and nothing is written.  The
    [details] of the audit entry carry [expiresAt], and an invalid one is
    refused there as well. *)
Definition grantAccess (params : GrantParams) (now : Z)
  : M (list Entitlement) :=
  let identityId := g_identityId params in
  let source := g_source params in
  let sourceApp := default_to "central" (g_sourceApp params) in
  let durationType := default_to "lifetime" (g_durationType params) in
  let expiresAt :=
    calculateExpiryDate durationType (g_durationValue params) now in
  found <-
    mapM (fun productId =>
            existingEntitlement <-
              entitlement_findFirst
                (sameKey identityId productId source sourceApp) ;;
            ret (productId, existingEntitlement))
         (g_productIds params) ;;
  entitlements <-
    mapM (fun '(productId, existingEntitlement) =>
            expires <- dbDate expiresAt ;;
            dbInt (g_amountPaid params) ;;;
            match existingEntitlement with
            | Some e => entitlement_update (ent_id e) (regranted params expires)
            | None =>
                entitlement_create
                  (granted params productId sourceApp expires now)
            end)
         found ;;
  dbDate expiresAt ;;;
  auditLog_create
    (mkAuditLog "grant" identityId (g_productIds params) None) ;;;
  ret entitlements.

(** ** [app-sync.service] *)

(** The keys of [APP_CONFIG] with the display name of each app. *)
Definition APP_CONFIG (appKey : string) : option string :=
  if (appKey =? "rezume")%string then Some "Rezume"
  else if (appKey =? "aicoach")%string then Some "AI Interview Coach"
  else None.

Definition inb (x : string) (l : list string) : bool :=
  existsb (fun y => (y =? x)%string) l.

(** The [Set] built by [syncToApps]: the configured app keys among the
    lower-cased product ids, each once, in order of first insertion. *)
Fixpoint appsToSync_from (seen : list string) (productIds : list string)
  : list string :=
  match productIds with
  | [] => seen
  | productId :: r =>
      let appKey := toLowerCase productId in
      match APP_CONFIG appKey with
      | Some _ =>
          if inb appKey seen then appsToSync_from seen r
          else appsToSync_from (seen ++ [appKey]) r
      | None => appsToSync_from seen r
      end
  end.

Definition appsToSync (productIds : list string) : list string :=
  appsToSync_from [] productIds.

(** [syncToApp]: without an API key nothing is sent; otherwise one
    [fetch] goes out (its answer only reaches the console and the result
    list). *)
Definition syncToApp (appKey email tier source reason : string) : M unit :=
  key <- gets ADMIN_API_KEY ;;
  if truthy_opt key
  then modify (fun s =>
         with_syncPushes
           (syncPushes s ++ [mkSyncPush appKey email tier source reason]) s)
  else ret tt.

Definition syncToApps (productIds : list string)
    (email tier source reason : string) : M unit :=
  forEach (fun appKey => syncToApp appKey email tier source reason)
          (appsToSync productIds).

Definition grantAccessAndSync (email : string) (productIds : list string)
    (reason : option string) : M unit :=
  syncToApps productIds email "pro" "bundle"
    (or_else reason "Bundle access granted via Central Dashboard").

Definition revokeAccessAndSync (email : string) (productIds : list string)
    (reason : option string) : M unit :=
  syncToApps productIds email "free" "revoked"
    (or_else reason "Access revoked via Central Dashboard").

(** ** [entitlements.service]: revoking *)

Definition revokeReason (reason adminEmail : option string) : string :=
  or_else reason
    ("Access revoked via Central Dashboard"
       ++ (match adminEmail with
           | Some a => if truthy a then " by " ++ a else ""
           | None => ""
           end))%string.

Record RevokeOneResult : Type := mkRevokeOneResult {
  ro_entitlementId : Z;
  remainingActive : Z
}.

(** [entitlement.findUnique({ where: { id } })].  The ids of the rows
    are values of the column, so an id beyond it names no row; the query
    for such an id is rejected. *)
Definition entitlement_findUnique (id : Z) : M (option Entitlement) :=
  found <- gets (fun s => find (fun e => ent_id e =? id) (entitlements s)) ;;
  match found with
  | Some e => ret (Some e)
  | None => dbInt (Some id) ;;; ret None
  end.

(** [revokeEntitlementById(params)]; [now] is the clock at the update,
    which becomes [revokedAt], and [now'] the clock read afterwards by the
    count of the rows that are still active. *)
Definition revokeEntitlementById (entitlementId : Z)
    (reason adminEmail : option string) (now now' : Z) : M RevokeOneResult :=
  found <- entitlement_findUnique entitlementId ;;
  match found with
  | None => throw "Entitlement not found"
  | Some entitlement =>
      owner <-
        gets (fun s =>
          find (fun i => identity_id i =? ent_identityId entitlement)
               (identities s)) ;;
      match owner with
      | None => throw "Inconsistent query result: identity is required"
      | Some ownerIdentity =>
          entitlement_update entitlementId (revoked now reason) ;;;
          auditLog_create
            (mkAuditLog "revoke_single" (ent_identityId entitlement)
               [ent_productId entitlement] adminEmail) ;;;
          remaining <-
            gets (fun s =>
              Z.of_nat (List.length
                (filter (fun e =>
                           (ent_identityId e =? ent_identityId entitlement)
                           && (ent_productId e =? ent_productId entitlement)%string
                           && isActive now' e)
                        (entitlements s)))) ;;
          (if (remaining =? 0) && truthy (primaryEmail ownerIdentity)
           then revokeAccessAndSync (primaryEmail ownerIdentity)
                  [ent_productId entitlement]
                  (Some (revokeReason reason adminEmail))
           else ret tt) ;;;
          ret (mkRevokeOneResult entitlementId remaining)
      end
  end.

(** [revokeAccess]: the blanket revocation of every row of the given
    products, followed by the push to the apps. *)
Definition revokeAccess (identityId : Z) (productIds : list string)
    (reason adminEmail : option string) (now : Z) : M unit :=
  identity <-
    gets (fun s => find (fun i => identity_id i =? identityId) (identities s)) ;;
  forEach (fun productId =>
             entitlement_updateMany
               (fun e => (ent_identityId e =? identityId)
                         && (ent_productId e =? productId)%string)
               (revoked now reason))
          productIds ;;;
  auditLog_create (mkAuditLog "revoke" identityId productIds adminEmail) ;;;
  match identity with
  | Some i =>
      if truthy (primaryEmail i)
      then
        revokeAccessAndSync (primaryEmail i) productIds
          (Some (revokeReason reason adminEmail)) ;;;
        auditLog_create
          (mkAuditLog "app_sync_revoke" identityId productIds adminEmail)
      else ret tt
  | None => ret tt
  end.

(** ** [entitlements.service]: reports of the apps *)

Inductive ReportAction : Type := grant | revoke.

Record ReportParams : Type := mkReportParams {
  r_email : string;
  r_productId : string;
  r_action : ReportAction;
  r_sourceApp : string;
  r_stripeSubscriptionId : option string;
  r_stripePriceId : option string;
  r_amountPaid : option Z;
  r_currency : option string;
  r_expiresAt : option Date;
  r_reason : option string
}.

(** The [data] of the update of a reported grant; [expires] is [None]
    when the report carries no [expiresAt]. *)
Definition reported_update (params : ReportParams) (expires : option Z)
    (e : Entitlement) : Entitlement :=
  mkEntitlement (ent_id e) (ent_identityId e) (ent_productId e) (ent_source e)
    (ent_sourceApp e) (ent_bundleId e) (grantedAt e)
    (match expires with Some t => Some t | None => expiresAt e end)
    None None
    (upd (r_stripeSubscriptionId params) (ent_stripeSubscriptionId e))
    (upd (r_stripePriceId params) (ent_stripePriceId e))
    (upd (r_amountPaid params) (amountPaid e))
    (upd (r_currency params) (currency e)).

Definition reported_create (params : ReportParams) (identityId : Z)
    (expires : option Z) (now : Z) (id : Z) : Entitlement :=
  mkEntitlement id identityId (r_productId params) "direct"
    (r_sourceApp params) None now expires None None
    (r_stripeSubscriptionId params) (r_stripePriceId params)
    (r_amountPaid params) (r_currency params).

(** The [where] of the revocation: the key of the direct row, narrowed
    to the subscription id when the report carries a non-empty one. *)
Definition reportedRows (params : ReportParams) (identityId : Z)
    (e : Entitlement) : bool :=
  sameKey identityId (r_productId params) "direct" (r_sourceApp params) e
  && (if truthy_opt (r_stripeSubscriptionId params)
      then eqb_opt_string (ent_stripeSubscriptionId e)
                          (r_stripeSubscriptionId params)
      else true).

Definition reportExternalSubscription (params : ReportParams) (now : Z)
  : M (string * string) :=
  let normalizedEmail := toLowerCase (r_email params) in
  let productId := r_productId params in
  let sourceApp := r_sourceApp params in
  identity <- getOrCreateIdentity normalizedEmail None ;;
  identityEmail_upsert normalizedEmail productId (identity_id identity) None ;;;
  match r_action params with
  | grant =>
      existingEntitlement <-
        entitlement_findFirst
          (sameKey (identity_id identity) productId "direct" sourceApp) ;;
      expires <- dbDate (r_expiresAt params) ;;
      dbInt (r_amountPaid params) ;;;
      match existingEntitlement with
      | Some e =>
          entitlement_update (ent_id e) (reported_update params expires) ;;;
          ret tt
      | None =>
          entitlement_create
            (reported_create params (identity_id identity) expires now) ;;;
          ret tt
      end ;;;
      auditLog_create
        (mkAuditLog "external_grant" (identity_id identity) [productId] None) ;;;
      ret ("granted", sourceApp)
  | revoke =>
      entitlement_updateMany (reportedRows params (identity_id identity))
        (revoked now
           (Some (or_else (r_reason params) ("Revoked by " ++ sourceApp)%string))) ;;;
      auditLog_create
        (mkAuditLog "external_revoke" (identity_id identity) [productId] None) ;;;
      ret ("revoked", sourceApp)
  end.

(** ** [entitlements.service]: claim tokens *)

(** [createClaimToken(params)]: [newToken] is the value drawn by
    [nanoid(32)]; the token expires 30 days after [now]. *)
Definition createClaimToken (identityId bundleId : Z) (email : string)
    (sessionId : option string) (newToken : string) (now : Z)
  : M ClaimToken :=
  match setDate now (getDate now + 30) with
  | InvalidDate =>
      throw "Invalid value for argument: Provided Date object is invalid"
  | DateOf expires =>
      let row :=
        mkClaimToken newToken identityId bundleId email sessionId
          expires false None in
      modify (fun s => with_claimTokens (claimTokens s ++ [row]) s) ;;;
      ret row
  end.

Record ProductData : Type := mkProductData {
  pd_email : string;
  pd_formData : option FormData
}.

(** [productEmails[productId]] *)
Fixpoint lookup (productId : string) (productEmails : list (string * ProductData))
  : option ProductData :=
  match productEmails with
  | [] => None
  | (k, v) :: r => if (k =? productId)%string then Some v else lookup productId r
  end.

Definition productSubmission_create (row : ProductSubmission) : M unit :=
  modify (fun s => with_productSubmissions (productSubmissions s ++ [row]) s).

(** [claimToken.update({ where: { token }, data: { claimed: true,
    claimedAt: new Date() } })]: the [where] names the token only. *)
Definition claimToken_markClaimed (tok : string) (now : Z) : M unit :=
  found <- gets (fun s => find (fun c => (token c =? tok)%string) (claimTokens s)) ;;
  match found with
  | None => throw "Record to update not found."
  | Some _ =>
      modify (fun s =>
        with_claimTokens
          (map (fun c => if (token c =? tok)%string
                         then mkClaimToken (token c) (ct_identityId c)
                                (ct_bundleId c) (purchaseEmail c)
                                (stripeSessionId c) (ct_expiresAt c)
                                true (Some now)
                         else c)
               (claimTokens s)) s)
  end.

(** The first part of [processClaim]: the read of the token with its
    bundle and identity, and the three checks. *)
Definition processClaim_validate (tok : string) (now : Z)
  : M (ClaimToken * Bundle * Identity) :=
  claimToken <-
    gets (fun s => find (fun c => (token c =? tok)%string) (claimTokens s)) ;;
  match claimToken with
  | None => throw "Invalid claim token"
  | Some c =>
      b <- gets (fun s => find (fun x => bundle_id x =? ct_bundleId c) (bundles s)) ;;
      i <- gets (fun s =>
             find (fun x => identity_id x =? ct_identityId c) (identities s)) ;;
      match b, i with
      | Some bundle, Some ident =>
          if claimed c then throw "Token already claimed"
          else if ct_expiresAt c <? now then throw "Token expired"
          else ret (c, bundle, ident)
      | _, _ => throw "Inconsistent query result: relation is required"
      end
  end.

(** The awaited calls of [processClaim] after the checks, in order: per
    product of the bundle the email binding and the form submission
    (each only when supplied), then the grant, the update of the token
    and the audit entry. *)
Definition processClaim_calls (tok : string)
    (productEmails : list (string * ProductData))
    (bundle : Bundle) (ident : Identity) (now : Z) : list (M unit) :=
  (flat_map
    (fun productId =>
       match lookup productId productEmails with
       | Some productData =>
           (if truthy (pd_email productData)
            then [linkEmailToIdentity (identity_id ident)
                    (pd_email productData) productId]
            else [])
           ++
           match pd_formData productData with
           | Some fd =>
               [productSubmission_create
                  (mkProductSubmission (identity_id ident) productId fd)]
           | None => []
           end
       | None => []
       end)
    (productIds bundle)
  ++ [ grantAccess
         (mkGrantParams (identity_id ident) (productIds bundle) "bundle" None
            (Some (bundle_id bundle)) (Some (durationType bundle))
            (durationValue bundle) None None None None) now ;;; ret tt
     ; claimToken_markClaimed tok now
     ; auditLog_create
         (mkAuditLog "claim" (identity_id ident) (productIds bundle) None) ])%list.

(** A sequence of awaited calls.  [failAt = Some k] makes the database
    reject the call of index [k] before it writes anything; the calls
    before it have been applied, the calls after it are not reached. *)
Fixpoint awaitAll (failAt : option nat) (calls : list (M unit)) : M unit :=
  match calls with
  | [] => ret tt
  | c :: r =>
      match failAt with
      | Some O => throw "Can't reach database server"
      | Some (S k) => c ;;; awaitAll (Some k) r
      | None => c ;;; awaitAll None r
      end
  end.

(** [grantAccess] with a database that may reject one of its writes.
    [failAt = Some k] with [k] below the number of products rejects the
    write for the product of index [k]: the callbacks of [Promise.all] do
    not wait for one another, so the writes for the other products are
    made all the same, and the call rejects without an audit entry.
    [failAt = Some k] with [k] the number of products rejects the insert
    of the audit entry.  A greater [k] is not reached. *)
Definition grantAccess_failing (failAt : option nat) (params : GrantParams)
    (now : Z) : M (list Entitlement) :=
  let identityId := g_identityId params in
  let source := g_source params in
  let sourceApp := default_to "central" (g_sourceApp params) in
  let durationType := default_to "lifetime" (g_durationType params) in
  let expiresAt :=
    calculateExpiryDate durationType (g_durationValue params) now in
  let write := fun '(productId, existingEntitlement) =>
    expires <- dbDate expiresAt ;;
    dbInt (g_amountPaid params) ;;;
    match existingEntitlement with
    | Some e => entitlement_update (ent_id e) (regranted params expires)
    | None =>
        entitlement_create (granted params productId sourceApp expires now)
    end in
  found <-
    mapM (fun productId =>
            existingEntitlement <-
              entitlement_findFirst
                (sameKey identityId productId source sourceApp) ;;
            ret (productId, existingEntitlement))
         (g_productIds params) ;;
  match failAt with
  | Some k =>
      if (k <? List.length found)%nat
      then
        mapM write (firstn k found ++ skipn (S k) found) ;;;
        throw "Can't reach database server"
      else
        entitlements <- mapM write found ;;
        if (k =? List.length found)%nat
        then throw "Can't reach database server"
        else
          dbDate expiresAt ;;;
          auditLog_create
            (mkAuditLog "grant" identityId (g_productIds params) None) ;;;
          ret entitlements
  | None =>
      entitlements <- mapM write found ;;
      dbDate expiresAt ;;;
      auditLog_create
        (mkAuditLog "grant" identityId (g_productIds params) None) ;;;
      ret entitlements
  end.

(** The writes of [processClaim] before the grant: per product of the
    bundle the email binding and the form submission, each only when
    supplied. *)
Definition processClaim_bindings
    (productEmails : list (string * ProductData))
    (bundle : Bundle) (ident : Identity) : list (M unit) :=
  flat_map
    (fun productId =>
       match lookup productId productEmails with
       | Some productData =>
           (if truthy (pd_email productData)
            then [linkEmailToIdentity (identity_id ident)
                    (pd_email productData) productId]
            else [])
           ++
           match pd_formData productData with
           | Some fd =>
               [productSubmission_create
                  (mkProductSubmission (identity_id ident) productId fd)]
           | None => []
           end
       | None => []
       end)
    (productIds bundle).

(** The index of a write within the writes that follow the first [n]. *)
Definition after (n : nat) (failAt : option nat) : option nat :=
  option_map (fun k => (k - n)%nat) failAt.

(** [processClaim] with a database that may reject one of its writes:
    [failAt = Some k] rejects the write of index [k], counting the
    bindings and submissions, then the writes of the grant (one for each
    product of the bundle, and the audit entry), the update of the token
    and the claim's audit entry.  A rejected write that is awaited alone
    ends the activation there; a rejected write of the grant ends it once
    the other writes of the grant are made. *)
Definition processClaim_failing (failAt : option nat) (tok : string)
    (productEmails : list (string * ProductData)) (now : Z)
  : M (Bundle * Identity) :=
  v <- processClaim_validate tok now ;;
  let '(_, bundle, ident) := v in
  let bindings := processClaim_bindings productEmails bundle ident in
  let writes := (List.length bindings + List.length (productIds bundle) + 1)%nat in
  awaitAll failAt bindings ;;;
  grantAccess_failing (after (List.length bindings) failAt)
    (mkGrantParams (identity_id ident) (productIds bundle) "bundle" None
       (Some (bundle_id bundle)) (Some (durationType bundle))
       (durationValue bundle) None None None None) now ;;;
  awaitAll (after writes failAt)
    [ claimToken_markClaimed tok now
    ; auditLog_create
        (mkAuditLog "claim" (identity_id ident) (productIds bundle) None) ] ;;;
  ret (bundle, ident).

(** [processClaim(token, productEmails)] *)
Definition processClaim (tok : string)
    (productEmails : list (string * ProductData)) (now : Z)
  : M (Bundle * Identity) :=
  processClaim_failing None tok productEmails now.

(** Two activations of one token whose reads both come back before
    either of them writes: each call awaits its [findUnique] first, so
    the second read can be served before the first call goes on. *)
Definition processClaim_race (tok : string)
    (productEmails1 productEmails2 : list (string * ProductData)) (now : Z)
  : Store -> Result (Bundle * Identity) * Result (Bundle * Identity) * Store :=
  fun s =>
    let (v1, s1) := processClaim_validate tok now s in
    let (v2, s2) := processClaim_validate tok now s1 in
    let (r1, s3) :=
      match v1 with
      | Ok (_, bundle, ident) =>
          (awaitAll None (processClaim_calls tok productEmails1 bundle ident now)
             ;;; ret (bundle, ident)) s2
      | Err e => (Err e, s2)
      end in
    let (r2, s4) :=
      match v2 with
      | Ok (_, bundle, ident) =>
          (awaitAll None (processClaim_calls tok productEmails2 bundle ident now)
             ;;; ret (bundle, ident)) s3
      | Err e => (Err e, s3)
      end in
    (r1, r2, s4).

(** ** [email.service] *)

(** [sendBundlePurchaseEmail] never rejects; the mail is recorded as
    handed over. *)
Definition sendBundlePurchaseEmail (mail : PurchaseEmail) : M unit :=
  modify (fun s => with_sentEmails (sentEmails s ++ [mail]) s).

(** ** [stripe.service]: the handlers of the gateway events *)

(** A checkout session as the handler sees it: [lineItems] is the
    [data] answered by [checkout.sessions.listLineItems(session.id,
    { limit: 1 })], each item with the id of its price if it has one. *)
Record Session : Type := mkSession {
  session_id : string;
  customer_email : option string;
  customer_name : option string;
  session_customer : option string;
  lineItems : list (option string)
}.

Record Subscription : Type := mkSubscription {
  subscription_id : string;
  subscription_customer : string;
  subscription_prices : list string;
  subscription_status : string
}.

(** What a handler returns: [handled] and, for a checkout, what was
    done. *)
Record Handled : Type := mkHandled {
  handled : bool;
  handled_action : option string
}.

Definition handleCheckoutCompleted (session : Session) (newToken : string)
    (now : Z) : M Handled :=
  match customer_email session with
  | None => throw "No customer email in session"
  | Some customerEmail =>
      if negb (truthy customerEmail) then throw "No customer email in session"
      else
        match lineItems session with
        | [] => throw "No line items in session"
        | item :: _ =>
            match item with
            | None => throw "No price ID in line items"
            | Some priceId =>
                if negb (truthy priceId) then throw "No price ID in line items"
                else
                  found <-
                    gets (fun s =>
                      find (fun b => (bundle_stripePriceId b =? priceId)%string)
                           (bundles s)) ;;
                  match found with
                  | None => ret (mkHandled false None)
                  | Some bundle =>
                      ident <-
                        getOrCreateIdentity customerEmail
                          (if truthy_opt (session_customer session)
                           then session_customer session else None) ;;
                      productsWithForms <-
                        gets (fun s =>
                          filter (fun p => inb (product_id p) (productIds bundle)
                                           && hasFormSchema p)
                                 (products s)) ;;
                      match productsWithForms with
                      | _ :: _ =>
                          createClaimToken (identity_id ident) (bundle_id bundle)
                            customerEmail (Some (session_id session))
                            newToken now ;;;
                          ret (mkHandled true (Some "claim_token_created"))
                      | [] =>
                          forEach
                            (fun productId =>
                               identityEmail_upsert (toLowerCase customerEmail)
                                 productId (identity_id ident) None)
                            (productIds bundle) ;;;
                          grantAccess
                            (mkGrantParams (identity_id ident)
                               (productIds bundle) "bundle" None
                               (Some (bundle_id bundle))
                               (Some (durationType bundle))
                               (durationValue bundle) None None None None)
                            now ;;;
                          sendBundlePurchaseEmail
                            (mkPurchaseEmail customerEmail (bundle_name bundle)
                               (productIds bundle)) ;;;
                          ret (mkHandled true (Some "access_granted"))
                      end
                  end
            end
        end
  end.

Definition handleSubscriptionUpdated (subscription : Subscription) (now : Z)
  : M Handled :=
  found <-
    gets (fun s =>
      find (fun i => eqb_opt_string (stripeCustomerId i)
                       (Some (subscription_customer subscription)))
           (identities s)) ;;
  match found with
  | None => ret (mkHandled false None)
  | Some ident =>
      match subscription_prices subscription with
      | [] => ret (mkHandled false None)
      | priceId :: _ =>
          if negb (truthy priceId) then ret (mkHandled false None)
          else
            b <-
              gets (fun s =>
                find (fun b => (bundle_stripePriceId b =? priceId)%string)
                     (bundles s)) ;;
            match b with
            | None => ret (mkHandled false None)
            | Some bundle =>
                let st := subscription_status subscription in
                (if (st =? "active")%string || (st =? "trialing")%string
                 then
                   grantAccess
                     (mkGrantParams (identity_id ident) (productIds bundle)
                        "bundle" None (Some (bundle_id bundle))
                        (Some (durationType bundle)) (durationValue bundle)
                        (Some (subscription_id subscription)) None None None)
                     now ;;; ret tt
                 else if (st =? "canceled")%string || (st =? "unpaid")%string
                         || (st =? "past_due")%string
                 then
                   forEach
                     (fun productId =>
                        entitlement_updateMany
                          (fun e =>
                             (ent_identityId e =? identity_id ident)
                             && (ent_productId e =? productId)%string
                             && eqb_opt_string (ent_stripeSubscriptionId e)
                                  (Some (subscription_id subscription)))
                          (revoked now (Some ("Subscription " ++ st)%string)))
                     (productIds bundle)
                 else ret tt) ;;;
                ret (mkHandled true None)
            end
      end
  end.

Definition handleSubscriptionDeleted (subscription : Subscription) (now : Z)
  : M Handled :=
  found <-
    gets (fun s =>
      find (fun i => eqb_opt_string (stripeCustomerId i)
                       (Some (subscription_customer subscription)))
           (identities s)) ;;
  match found with
  | None => ret (mkHandled false None)
  | Some ident =>
      entitlement_updateMany
        (fun e =>
           (ent_identityId e =? identity_id ident)
           && eqb_opt_string (ent_stripeSubscriptionId e)
                (Some (subscription_id subscription)))
        (revoked now (Some "Subscription deleted")) ;;;
      ret (mkHandled true None)
  end.

(** [logWebhookEvent]: an upsert on [eventId]; the update writes the
    status, and the error message when one is given. *)
Definition logWebhookEvent (id type st : string) (message : option string)
  : M unit :=
  modify (fun s =>
    if existsb (fun w => (eventId w =? id)%string) (webhookLogs s)
    then
      with_webhookLogs
        (map (fun w => if (eventId w =? id)%string
                       then mkWebhookLog (eventId w) (eventType w) st
                              (upd message (errorMessage w))
                       else w)
             (webhookLogs s)) s
    else with_webhookLogs (webhookLogs s ++ [mkWebhookLog id type st message]) s).

(** ** The webhook route *)

Inductive EventObject : Type :=
| CheckoutSessionCompleted (session : Session)
| CustomerSubscriptionCreated (subscription : Subscription)
| CustomerSubscriptionUpdated (subscription : Subscription)
| CustomerSubscriptionDeleted (subscription : Subscription)
| OtherEvent (type : string).

Record Event : Type := mkEvent {
  event_id : string;
  event_object : EventObject
}.

(** [event.type] *)
Definition event_type (event : Event) : string :=
  match event_object event with
  | CheckoutSessionCompleted _ => "checkout.session.completed"
  | CustomerSubscriptionCreated _ => "customer.subscription.created"
  | CustomerSubscriptionUpdated _ => "customer.subscription.updated"
  | CustomerSubscriptionDeleted _ => "customer.subscription.deleted"
  | OtherEvent type => type
  end.

Record Response : Type := mkResponse {
  response_status : Z;
  response_handled : option bool
}.

(** [try { ... } catch (err) { ... }]: the handler sees the store as the
    rejected call left it. *)
Definition tryCatch {A : Type} (m : M A) (h : string -> M A) : M A :=
  fun s =>
    match m s with
    | (Ok a, s') => (Ok a, s')
    | (Err e, s') => h e s'
    end.

(** [POST] of the Stripe webhook route for an event whose signature has
    been verified. *)
Definition POST (event : Event) (newToken : string) (now : Z) : M Response :=
  tryCatch
    (match event_object event with
     | OtherEvent _ =>
         logWebhookEvent (event_id event) (event_type event) "ignored" None ;;;
         ret (mkResponse 200 (Some false))
     | obj =>
         result <-
           match obj with
           | CheckoutSessionCompleted session =>
               handleCheckoutCompleted session newToken now
           | CustomerSubscriptionCreated subscription
           | CustomerSubscriptionUpdated subscription =>
               handleSubscriptionUpdated subscription now
           | CustomerSubscriptionDeleted subscription =>
               handleSubscriptionDeleted subscription now
           | OtherEvent _ => ret (mkHandled false None)
           end ;;
         logWebhookEvent (event_id event) (event_type event)
           (if handled result then "success" else "ignored") None ;;;
         ret (mkResponse 200 (Some (handled result)))
     end)
    (fun message =>
       logWebhookEvent (event_id event) (event_type event) "failed"
         (Some message) ;;;
       ret (mkResponse 500 None)).

(** ** The routes of the API *)

(** What a route answers: the status, and the body, which is either the
    data of a success ([Ok]) or [{ error: message }] ([Err]). *)
Record Reply (A : Type) : Type := mkReply {
  reply_status : Z;
  reply_body : Result A
}.

Arguments mkReply {A} reply_status reply_body.
Arguments reply_status {A} r.
Arguments reply_body {A} r.

(** A query parameter, header or body field that is present and not
    empty: [!x] is false. *)
Definition present (o : option string) : option string :=
  match o with
  | Some x => if truthy x then Some x else None
  | None => None
  end.

(** The outcome of [verifyAdminAuth(request)]: the admin user of the
    bearer token, or the error, which the routes answer with status
    401. *)
Inductive AuthResult : Type :=
| Admin (email : string)
| AuthError (error : string).

(** [GET /api/v1/check?email=..&product=..] *)
Definition GET_check (email product : option string) (now now' : Z)
  : M (Reply AccessResult) :=
  match present email with
  | None => ret (mkReply 400 (Err "Missing email parameter"))
  | Some e =>
      match present product with
      | None => ret (mkReply 400 (Err "Missing product parameter"))
      | Some p =>
          tryCatch
            (result <- checkAccess (toLowerCase e) p now now' ;;
             ret (mkReply 200 (Ok result)))
            (fun _ => ret (mkReply 500 (Err "Internal server error")))
      end
  end.

(** The JSON body of a report, for a request whose body parses.  A field
    is absent ([None]) or holds a string; [b_amountPaid] holds an integer
    that [parseInt] reads back as it is; [b_expiresAt] is the value of
    [new Date(expiresAt)] for a field that is present and not empty. *)
Record ReportBody : Type := mkReportBody {
  b_email : option string;
  b_productId : option string;
  b_action : option string;
  b_sourceApp : option string;
  b_stripeSubscriptionId : option string;
  b_stripePriceId : option string;
  b_amountPaid : option Z;
  b_currency : option string;
  b_expiresAt : option Date;
  b_reason : option string
}.

(** The double quote, for the messages that hold one. *)
Definition dq : string := String (ascii_of_nat 34) EmptyString.

Definition invalidAction : string :=
  ("Missing or invalid field: action (must be " ++ dq ++ "grant" ++ dq
   ++ " or " ++ dq ++ "revoke" ++ dq ++ ")")%string.

Definition invalidSourceApp : string :=
  ("Missing or invalid field: sourceApp (must be " ++ dq ++ "rezume" ++ dq
   ++ " or " ++ dq ++ "aicoach" ++ dq ++ ")")%string.

(** [['grant', 'revoke'].includes(action)] *)
Definition parseAction (a : string) : option ReportAction :=
  if (a =? "grant")%string then Some grant
  else if (a =? "revoke")%string then Some revoke
  else None.

(** [amountPaid ? parseInt(amountPaid) : undefined] *)
Definition parseAmount (a : option Z) : option Z :=
  match a with
  | Some v => if v =? 0 then None else Some v
  | None => None
  end.

(** [POST /api/v1/entitlements/report]; [apiKey] is the header
    [x-admin-api-key]. *)
Definition POST_report (apiKey : option string) (body : ReportBody) (now : Z)
  : M (Reply (string * string)) :=
  key <- gets ADMIN_API_KEY ;;
  if negb (truthy_opt key)
  then ret (mkReply 500 (Err "Server configuration error"))
  else if negb (truthy_opt apiKey) || negb (eqb_opt_string apiKey key)
  then ret (mkReply 401 (Err "Unauthorized"))
  else
    tryCatch
      (match present (b_email body) with
       | None => ret (mkReply 400 (Err "Missing required field: email"))
       | Some email =>
       match present (b_productId body) with
       | None => ret (mkReply 400 (Err "Missing required field: productId"))
       | Some productId =>
       match match present (b_action body) with
             | Some a => parseAction a
             | None => None
             end with
       | None => ret (mkReply 400 (Err invalidAction))
       | Some action =>
       match present (b_sourceApp body) with
       | None => ret (mkReply 400 (Err invalidSourceApp))
       | Some sourceApp =>
           if negb (inb sourceApp ["rezume"; "aicoach"])
           then ret (mkReply 400 (Err invalidSourceApp))
           else
             result <-
               reportExternalSubscription
                 (mkReportParams email productId action sourceApp
                    (b_stripeSubscriptionId body) (b_stripePriceId body)
                    (parseAmount (b_amountPaid body)) (b_currency body)
                    (b_expiresAt body) (b_reason body))
                 now ;;
             ret (mkReply 200 (Ok result))
       end end end end)
      (fun _ => ret (mkReply 500 (Err "Internal server error"))).

(** [DELETE /api/v1/admin/entitlements/:id].  [entitlementId] is
    [parseInt(id, 10)], [None] for NaN; [queryReason] is the [reason] of
    the query string and [bodyReason] that of the body, if the request has
    one that parses; [now] and [now'] are the two readings of the clock of
    [revokeEntitlementById]. *)
Definition DELETE_entitlement (authResult : AuthResult)
    (entitlementId : option Z) (queryReason bodyReason : option string)
    (now now' : Z) : M (Reply Z) :=
  match authResult with
  | AuthError error => ret (mkReply 401 (Err error))
  | Admin adminEmail =>
      match entitlementId with
      | None => ret (mkReply 400 (Err "Invalid entitlement ID"))
      | Some id =>
          tryCatch
            (let reason :=
               if truthy_opt queryReason then queryReason else bodyReason in
             result <-
               revokeEntitlementById id
                 (Some (or_else reason "Revoked by admin"))
                 (Some adminEmail) now now' ;;
             ret (mkReply 200 (Ok (remainingActive result))))
            (fun message =>
               ret (mkReply
                      (if (message =? "Entitlement not found")%string
                       then 404 else 500)
                      (Err message)))
      end
  end.

(** [!productIds || productIds.length === 0] *)
Definition someProducts (productIds : option (list string))
  : option (list string) :=
  match productIds with
  | Some (p :: r) => Some (p :: r)
  | _ => None
  end.

(** [POST /api/v1/admin/users/:id/revoke] *)
Definition POST_revoke (authResult : AuthResult) (id : Z)
    (productIds : option (list string)) (reason : option string) (now : Z)
  : M (Reply unit) :=
  match authResult with
  | AuthError error => ret (mkReply 401 (Err error))
  | Admin adminEmail =>
      tryCatch
        (match someProducts productIds with
         | None => ret (mkReply 400 (Err "At least one product is required"))
         | Some pids =>
             revokeAccess id pids reason (Some adminEmail) now ;;;
             ret (mkReply 200 (Ok tt))
         end)
        (fun _ => ret (mkReply 500 (Err "Internal server error")))
  end.

(** [data: { expiresAt }] *)
Definition extended (expires : option Z) (e : Entitlement) : Entitlement :=
  mkEntitlement (ent_id e) (ent_identityId e) (ent_productId e) (ent_source e)
    (ent_sourceApp e) (ent_bundleId e) (grantedAt e) expires (revokedAt e)
    (revokedReason e) (ent_stripeSubscriptionId e) (ent_stripePriceId e)
    (amountPaid e) (currency e).

(** [PUT /api/v1/admin/users/:id/extend].  [newExpiresAt] is [None] when
    the field is absent or empty, which clears the expiry, and otherwise
    the value of [new Date(newExpiresAt)]. *)
Definition PUT_extend (authResult : AuthResult) (id : Z)
    (productIds : option (list string)) (newExpiresAt : option Date)
  : M (Reply unit) :=
  match authResult with
  | AuthError error => ret (mkReply 401 (Err error))
  | Admin adminEmail =>
      tryCatch
        (match someProducts productIds with
         | None => ret (mkReply 400 (Err "At least one product is required"))
         | Some pids =>
             forEach
               (fun productId =>
                  expiresAt <- dbDate newExpiresAt ;;
                  entitlement_updateMany
                    (fun e => (ent_identityId e =? id)
                              && (ent_productId e =? productId)%string)
                    (extended expiresAt))
               pids ;;;
             auditLog_create
               (mkAuditLog "extend_access" id pids (Some adminEmail)) ;;;
             ret (mkReply 200 (Ok tt))
         end)
        (fun _ => ret (mkReply 500 (Err "Internal server error")))
  end.

(** [durationValue || null] *)
Definition nonzero (v : option Z) : option Z :=
  match v with
  | Some x => if x =? 0 then None else Some x
  | None => None
  end.

(** [PATCH /api/v1/admin/users/:id/grant] *)
Definition PATCH_grant (authResult : AuthResult) (id : Z)
    (productIds : option (list string)) (durationType : option string)
    (durationValue : option Z) (source : option string) (now : Z)
  : M (Reply unit) :=
  match authResult with
  | AuthError error => ret (mkReply 401 (Err error))
  | Admin adminEmail =>
      tryCatch
        (match someProducts productIds with
         | None => ret (mkReply 400 (Err "At least one product is required"))
         | Some pids =>
             identity <-
               gets (fun s =>
                 find (fun i => identity_id i =? id) (identities s)) ;;
             match identity with
             | None => ret (mkReply 404 (Err "User not found"))
             | Some _ =>
                 grantAccess
                   (mkGrantParams id pids (or_else source "manual") None None
                      (Some (or_else durationType "lifetime"))
                      (nonzero durationValue) None None None None)
                   now ;;;
                 auditLog_create
                   (mkAuditLog "admin_grant" id pids (Some adminEmail)) ;;;
                 ret (mkReply 200 (Ok tt))
             end
         end)
        (fun _ => ret (mkReply 500 (Err "Internal server error")))
  end.

(** [POST /api/v1/admin/users]: the manual grant.  [source] and
    [durationType] take their defaults when the field is absent. *)
Definition POST_grant (authResult : AuthResult) (email : option string)
    (productIds : option (list string)) (source durationType : option string)
    (durationValue : option Z) (now : Z) : M (Reply unit) :=
  match authResult with
  | AuthError error => ret (mkReply 401 (Err error))
  | Admin adminEmail =>
      tryCatch
        (match present email, someProducts productIds with
         | Some email, Some pids =>
             identity <- getOrCreateIdentity email None ;;
             forEach
               (fun productId =>
                  identityEmail_upsert (toLowerCase email) productId
                    (identity_id identity) None)
               pids ;;;
             grantAccess
               (mkGrantParams (identity_id identity) pids
                  (default_to "manual" source) None None
                  (Some (default_to "lifetime" durationType))
                  durationValue None None None None)
               now ;;;
             auditLog_create
               (mkAuditLog "manual_grant" (identity_id identity) pids
                  (Some adminEmail)) ;;;
             ret (mkReply 200 (Ok tt))
         | _, _ =>
             ret (mkReply 400
                    (Err "Email and at least one product are required"))
         end)
        (fun _ => ret (mkReply 500 (Err "Internal server error")))
  end.

(** * Specification

    The predicates and the closed forms the properties are stated with,
    and the data of the examples. *)

(** The calendar date of a time value. *)
Definition civil (t : Z) : Z * Z * Z :=
  (YearFromTime t, MonthFromTime t, DateFromTime t).

(** Where [MakeDay] lands when the day of the month is kept: on that day
    when the month has it, otherwise as many days into the next month as
    the month falls short. *)
Definition rollover (y m d : Z) : Z * Z * Z :=
  if d <=? DaysInMonth y m then (y, m, d)
  else (y, m + 1, d - DaysInMonth y m).

Definition grantKey (params : GrantParams) (productId : string)
  : Entitlement -> bool :=
  sameKey (g_identityId params) productId (g_source params)
          (default_to "central" (g_sourceApp params)).

Definition grantExpiry (params : GrantParams) (now : Z) : option Date :=
  calculateExpiryDate (default_to "lifetime" (g_durationType params))
                      (g_durationValue params) now.

(** What the reads of [grantAccess] return on the table [es]. *)
Definition grantFound (params : GrantParams) (es : list Entitlement)
  : list (string * option Entitlement) :=
  map (fun productId => (productId, find (grantKey params productId) es))
      (g_productIds params).

(** The writes of [grantAccess] on the table and its sequence. *)
Fixpoint grantWrites (params : GrantParams) (expires : option Z) (now : Z)
    (found : list (string * option Entitlement))
    (es : list Entitlement) (n : Z) : list Entitlement * Z :=
  match found with
  | [] => (es, n)
  | (_, Some e) :: r =>
      grantWrites params expires now r
        (map (fun x => if ent_id x =? ent_id e
                       then regranted params expires x else x) es) n
  | (productId, None) :: r =>
      grantWrites params expires now r
        (es ++ [granted params productId
                  (default_to "central" (g_sourceApp params)) expires now n])
        (n + 1)
  end.

Definition foundId (x : Entitlement) (f : string * option Entitlement) : bool :=
  match snd f with
  | Some e => ent_id x =? ent_id e
  | None => false
  end.

(** The rows inserted by the writes. *)
Fixpoint grantCreated (params : GrantParams) (expires : option Z) (now : Z)
    (found : list (string * option Entitlement)) (n : Z) : list Entitlement :=
  match found with
  | [] => []
  | (_, Some _) :: r => grantCreated params expires now r n
  | (productId, None) :: r =>
      granted params productId (default_to "central" (g_sourceApp params))
        expires now n
      :: grantCreated params expires now r (n + 1)
  end.

(** Primary key and sequence of the entitlement table. *)
Definition wf_entitlements (es : list Entitlement) (n : Z) : Prop :=
  NoDup (map ent_id es) /\ Forall (fun e => ent_id e < n) es.

Definition idsPresent (found : list (string * option Entitlement))
    (es : list Entitlement) : Prop :=
  forall p e, In (p, Some e) found -> In (ent_id e) (map ent_id es).

Definition touched (found : list (string * option Entitlement))
    (x : Entitlement) : bool :=
  existsb (foundId x) found.

Definition dbDateOf (d : option Date) (expires : option Z) : Prop :=
  d = option_map DateOf expires.

Definition grantAudit (params : GrantParams) : AuditLog :=
  mkAuditLog "grant" (g_identityId params) (g_productIds params) None.

(** The table and the sequence after a grant whose expiry is a valid
    date. *)
Definition grantTable (params : GrantParams) (expires : option Z) (now : Z)
    (es : list Entitlement) (n : Z) : list Entitlement * Z :=
  grantWrites params expires now (grantFound params es) es n.

Definition entKey (e : Entitlement) : Z * string * string * string :=
  (ent_identityId e, ent_productId e, ent_source e, ent_sourceApp e).

(** At most one row for each (identityId, productId, source, sourceApp). *)
Definition uniqueKeys (es : list Entitlement) : Prop :=
  NoDup (map entKey es).

(** The rows a grant refreshes. *)
Definition isGranted (params : GrantParams) (x : Entitlement) : bool :=
  grantKey params (ent_productId x) x && inb (ent_productId x) (g_productIds params).

Definition emptyStore : Store :=
  mkStore [] [] [] [] [] [] [] [] [] 1 1 [] [] (Some "secret").

Definition preserves {A B : Type} (f : Store -> B) (m : M A) : Prop :=
  forall s, f (snd (m s)) = f s.

(** The pushes of one [syncToApps]. *)
Definition pushesFor (key : option string) (productIds : list string)
    (email tier source reason : string) : list SyncPush :=
  if truthy_opt key
  then map (fun appKey => mkSyncPush appKey email tier source reason)
           (appsToSync productIds)
  else [].

(** The rows of one identity and product that are active at [now]. *)
Definition activeRows (identityId : Z) (productId : string) (now : Z)
    (es : list Entitlement) : list Entitlement :=
  filter (fun e => (ent_identityId e =? identityId)
                   && (ent_productId e =? productId)%string
                   && isActive now e) es.

(** The identity [checkAccess] resolves an email to: the one bound to
    (email, productId), else the one whose primary email it is. *)
Definition resolveIdentity (email productId : string) (s : Store) : option Z :=
  match find (fun ie => (ie_email ie =? toLowerCase email)%string
                        && (ie_productId ie =? productId)%string)
             (identityEmails s) with
  | Some ie => Some (ie_identityId ie)
  | None =>
      option_map identity_id
        (find (fun i => (primaryEmail i =? toLowerCase email)%string)
              (identities s))
  end.

Definition accessOf (s : Store) (productId : string) (e : Entitlement)
  : AccessResult :=
  mkAccessResult true productId (Some (ent_source e))
    (option_map bundle_name (bundleOf s e)) (expiresAt e) (Some (grantedAt e)).

Definition headMax (l : list Entitlement) : Prop :=
  match l with
  | [] => True
  | h :: _ => forall x, In x l -> grantedAt x <= grantedAt h
  end.

(** The letters of ASCII, capital and small, in the order of the
    alphabet. *)
Definition capitals : string := "ABCDEFGHIJKLMNOPQRSTUVWXYZ".
Definition smalls : string := "abcdefghijklmnopqrstuvwxyz".

(** The letter of [to] at the place [c] has in [from], if it has one. *)
Fixpoint letterAt (c : ascii) (from to : string) : option ascii :=
  match from, to with
  | String a r, String b r' =>
      if Ascii.eqb c a then Some b else letterAt c r r'
  | _, _ => None
  end.

Definition isCapital (c : ascii) : bool :=
  match letterAt c capitals smalls with Some _ => true | None => false end.

(** The small letter of a capital letter; any other character is
    itself. *)
Definition small (c : ascii) : ascii :=
  match letterAt c capitals smalls with Some b => b | None => c end.





(** The id of the identity [getOrCreateIdentity] returns for an email:
    that of the first identity with this primary email, else the next
    value of the sequence. *)
Definition identityIdFor (email : string) (s : Store) : Z :=
  match find (fun i => (primaryEmail i =? toLowerCase email)%string)
             (identities s) with
  | Some i => identity_id i
  | None => nextIdentityId s
  end.

(** The value stored for an expiry. *)
Definition expiryValue (d : option Date) : option Z :=
  match d with
  | Some (DateOf t) => Some t
  | _ => None
  end.

(** A number, if given, that fits the column. *)
Definition fits (v : option Z) : bool :=
  match v with Some x => int4 x | None => true end.

(** A grant is rejected when its expiry is not a valid date, or when
    there is a row to write and the amount does not fit the column. *)
Definition grantRejected (params : GrantParams) (now : Z) : bool :=
  match grantExpiry params now with
  | Some InvalidDate => true
  | _ =>
      match g_productIds params with
      | [] => false
      | _ :: _ => negb (fits (g_amountPaid params))
      end
  end.

(** The table and the sequence after [grantAccess]. *)
Definition grantEffect (params : GrantParams) (now : Z)
    (es : list Entitlement) (n : Z) : list Entitlement * Z :=
  if grantRejected params now then (es, n)
  else grantTable params (expiryValue (grantExpiry params now)) now es n.

Definition isOk {A : Type} (r : Result A) : bool :=
  match r with Ok _ => true | Err _ => false end.

(** A row of the key for [productId] that is not revoked and expires at
    [expires]. *)
Definition grantedRow (params : GrantParams) (expires : option Z)
    (productId : string) (e : Entitlement) : Prop :=
  grantKey params productId e = true
  /\ revokedAt e = None /\ revokedReason e = None /\ expiresAt e = expires.

(** The grant of an activation. *)
Definition claimGrant (bundle : Bundle) (ident : Identity) : GrantParams :=
  mkGrantParams (identity_id ident) (productIds bundle) "bundle" None
    (Some (bundle_id bundle)) (Some (durationType bundle))
    (durationValue bundle) None None None None.

Definition claimAudit (bundle : Bundle) (ident : Identity) : AuditLog :=
  mkAuditLog "claim" (identity_id ident) (productIds bundle) None.

(** The token table after the update of [processClaim]. *)
Definition markedClaimed (tok : string) (now : Z) (cs : list ClaimToken)
  : list ClaimToken :=
  map (fun c => if (token c =? tok)%string
                then mkClaimToken (token c) (ct_identityId c) (ct_bundleId c)
                       (purchaseEmail c) (stripeSessionId c) (ct_expiresAt c)
                       true (Some now)
                else c) cs.

(** The calls of [processClaim] before the grant. *)
Definition claimPrep (productEmails : list (string * ProductData))
    (ident : Identity) (pids : list string) : list (M unit) :=
  flat_map
    (fun productId =>
       match lookup productId productEmails with
       | Some productData =>
           (if truthy (pd_email productData)
            then [linkEmailToIdentity (identity_id ident)
                    (pd_email productData) productId]
            else [])
           ++
           match pd_formData productData with
           | Some fd =>
               [productSubmission_create
                  (mkProductSubmission (identity_id ident) productId fd)]
           | None => []
           end
       | None => []
       end) pids.

(** The form submissions an activation stores. *)
Definition submissionsOf (productEmails : list (string * ProductData))
    (ident : Identity) (pids : list string) : list ProductSubmission :=
  flat_map
    (fun productId =>
       match lookup productId productEmails with
       | Some productData =>
           match pd_formData productData with
           | Some fd => [mkProductSubmission (identity_id ident) productId fd]
           | None => []
           end
       | None => []
       end) pids.

Definition neverFails (c : M unit) : Prop := forall s, fst (c s) = Ok tt.

(** The calls of [processClaim] from the grant on. *)
Definition claimRest (tok : string) (bundle : Bundle) (ident : Identity)
    (now : Z) : list (M unit) :=
  [ grantAccess (claimGrant bundle ident) now ;;; ret tt
  ; claimToken_markClaimed tok now
  ; auditLog_create (claimAudit bundle ident) ].

Record RestFacts (tok : string) (bundle : Bundle) (ident : Identity) (now : Z)
    (sp : Store) (o : Result unit * Store) : Prop := mkRestFacts {
  rest_tokens :
    claimTokens (snd o) = claimTokens sp
    \/ (claimTokens (snd o) = markedClaimed tok now (claimTokens sp)
        /\ grantRejected (claimGrant bundle ident) now = false
        /\ entitlements (snd o)
           = fst (grantEffect (claimGrant bundle ident) now
                    (entitlements sp) (nextEntitlementId sp)));
  rest_entitlements :
    entitlements (snd o) = entitlements sp
    \/ entitlements (snd o)
       = fst (grantEffect (claimGrant bundle ident) now
                (entitlements sp) (nextEntitlementId sp));
  rest_ok :
    isOk (fst o) = true ->
    grantRejected (claimGrant bundle ident) now = false
    /\ claimTokens (snd o) = markedClaimed tok now (claimTokens sp)
    /\ entitlements (snd o)
       = fst (grantEffect (claimGrant bundle ident) now
                (entitlements sp) (nextEntitlementId sp))
    /\ auditLogs (snd o)
       = auditLogs sp ++ [grantAudit (claimGrant bundle ident);
                          claimAudit bundle ident]
}.

(** The grant a checkout session leads to, if it leads to one: the
    session has an email and a price, the price is that of a bundle,
    and no product of the bundle asks for a form. *)
Definition checkoutGrant (session : Session) (s : Store) : option GrantParams :=
  match customer_email session with
  | None => None
  | Some customerEmail =>
      if negb (truthy customerEmail) then None
      else
        match lineItems session with
        | Some priceId :: _ =>
            if negb (truthy priceId) then None
            else
              match find (fun b => (bundle_stripePriceId b =? priceId)%string)
                         (bundles s) with
              | None => None
              | Some bundle =>
                  match filter (fun p => inb (product_id p) (productIds bundle)
                                         && hasFormSchema p)
                               (products s) with
                  | [] =>
                      Some (mkGrantParams (identityIdFor customerEmail s)
                              (productIds bundle) "bundle" None
                              (Some (bundle_id bundle))
                              (Some (durationType bundle))
                              (durationValue bundle) None None None None)
                  | _ :: _ => None
                  end
              end
        | _ => None
        end
  end.

(** The table and sequence after a checkout. *)
Definition checkoutEffect (session : Session) (now : Z) (s : Store)
  : list Entitlement * Z :=
  match checkoutGrant session s with
  | Some params => grantEffect params now (entitlements s) (nextEntitlementId s)
  | None => (entitlements s, nextEntitlementId s)
  end.

(** A row with its revocation columns cleared: two rows that agree on it
    differ in [revokedAt] and [revokedReason] at most. *)
Definition clearRevocation (e : Entitlement) : Entitlement :=
  mkEntitlement (ent_id e) (ent_identityId e) (ent_productId e) (ent_source e)
    (ent_sourceApp e) (ent_bundleId e) (grantedAt e) (expiresAt e) None None
    (ent_stripeSubscriptionId e) (ent_stripePriceId e) (amountPaid e)
    (currency e).

Definition clearExpiry (e : Entitlement) : Entitlement :=
  mkEntitlement (ent_id e) (ent_identityId e) (ent_productId e) (ent_source e)
    (ent_sourceApp e) (ent_bundleId e) (grantedAt e) None (revokedAt e)
    (revokedReason e) (ent_stripeSubscriptionId e) (ent_stripePriceId e)
    (amountPaid e) (currency e).

(** Rows of the webhook log for one event id. *)
Definition logCount (id : string) (s : Store) : nat :=
  List.length (filter (fun w => (eventId w =? id)%string) (webhookLogs s)).

Record CheckoutFacts (session : Session) (now : Z) (s : Store)
    (out : Result Handled * Store) : Prop := mkCheckoutFacts {
  co_entitlements :
    entitlements (snd out) = fst (checkoutEffect session now s);
  co_next :
    nextEntitlementId (snd out) = snd (checkoutEffect session now s);
  co_ok :
    isOk (fst out) = true ->
    forall params, checkoutGrant session s = Some params ->
                   grantRejected params now = false;
  co_stable : checkoutGrant session (snd out) = checkoutGrant session s
}.

Definition proSuite : Bundle :=
  mkBundle 1 "Pro Suite" "price_1" ["rezume"; "aicoach"] "months" (Some 6).

Definition shopStore : Store :=
  mkStore [] [] [] [proSuite]
    [mkProduct "rezume" false; mkProduct "aicoach" false]
    [] [] [] [] 1 1 [] [] (Some "secret").

Definition buyerSession : Session :=
  mkSession "cs_1" (Some "buyer@example.com") None (Some "cus_1")
            [Some "price_1"].

Definition buyerEvent : Event :=
  mkEvent "evt_1" (CheckoutSessionCompleted buyerSession).

Definition buyer : Identity := mkIdentity 1 "buyer@example.com" None.

Definition lifetimeBundle : Bundle :=
  mkBundle 1 "Pro Suite" "price_1" ["rezume"] "lifetime" None.

Definition buyerToken : ClaimToken :=
  mkClaimToken "tok" 1 1 "buyer@example.com" None 2000 false None.

Definition claimStore : Store :=
  mkStore [buyer] [] [] [lifetimeBundle] [] [buyerToken] [] [] [] 2 1 [] []
          (Some "secret").

Definition bundleRow : Entitlement :=
  mkEntitlement 1 1 "rezume" "bundle" "central" (Some 1) 1000 None None None
                None None None None.

Definition directRow : Entitlement :=
  mkEntitlement 2 1 "rezume" "direct" "rezume" None 1500 None None None
                (Some "sub_1") None None None.

Definition twoSourceStore : Store :=
  mkStore [buyer] [mkIdentityEmail "buyer@example.com" "rezume" 1]
          [bundleRow; directRow] [lifetimeBundle] [] [] [] [] [] 2 3 [] []
          (Some "secret").

(** A row that is neither revoked nor expired at [now]. *)
Definition unexpired (now : Z) (e : Entitlement) : Prop :=
  revokedAt e = None
  /\ (expiresAt e = None \/ exists t, expiresAt e = Some t /\ now < t).

(** The rows a grant refers to exist: the identity, each product, and
    the bundle when one is given. *)
Definition knownIdentity (identityId : Z) (s : Store) : Prop :=
  find (fun i => identity_id i =? identityId) (identities s) <> None.

Definition knownProducts (pids : list string) (s : Store) : Prop :=
  forall p, In p pids ->
            existsb (fun x => (product_id x =? p)%string) (products s) = true.

Definition grantRefs (params : GrantParams) (s : Store) : Prop :=
  knownIdentity (g_identityId params) s
  /\ knownProducts (g_productIds params) s
  /\ match g_bundleId params with
     | Some b => find (fun x => bundle_id x =? b) (bundles s) <> None
     | None => True
     end.

(** A store for activations: the buyer, two bundles whose products ask
    for a form, and an unclaimed token for each. *)
Definition formSuite : Bundle :=
  mkBundle 2 "Form Suite" "price_2" ["rezume"; "aicoach"] "lifetime" None.

Definition suiteToken : ClaimToken :=
  mkClaimToken "tok2" 1 2 "buyer@example.com" None 2000 false None.

Definition activationStore : Store :=
  mkStore [buyer] [] [] [lifetimeBundle; formSuite]
          [mkProduct "rezume" true; mkProduct "aicoach" true]
          [buyerToken; suiteToken] [] [] [] 2 1 [] [] (Some "secret").

(** What a claimant submits for the one product of the first bundle. *)
Definition claimantData : list (string * ProductData) :=
  [("rezume", mkProductData "Claimant@Example.com" (Some [("name", "Ada")]))].

(** A store with the buyer, the two products and both kinds of row. *)
Definition catalogStore : Store :=
  mkStore [buyer] [mkIdentityEmail "buyer@example.com" "rezume" 1]
          [bundleRow; directRow] [lifetimeBundle]
          [mkProduct "rezume" false; mkProduct "aicoach" false]
          [] [] [] [] 2 3 [] [] (Some "secret").

(** The same with a bundle row that expires at 1700. *)
Definition expiringRow : Entitlement :=
  mkEntitlement 1 1 "rezume" "bundle" "central" (Some 1) 1000 (Some 1700)
                None None None None None None.

Definition expiringStore : Store :=
  mkStore [buyer] [mkIdentityEmail "buyer@example.com" "rezume" 1]
          [expiringRow; directRow] [lifetimeBundle]
          [mkProduct "rezume" false; mkProduct "aicoach" false]
          [] [] [] [] 2 3 [] [] (Some "secret").

(** ** The routes and the handlers *)

(** What [checkAccess] answers when both readings of the clock are [n]. *)
Definition hasAccessAt (email productId : string) (n : Z) (s : Store) : bool :=
  match fst (checkAccess email productId n n s) with
  | Ok r => hasAccess r
  | Err _ => false
  end.

(** An expiry that lies after [n], or none. *)
Definition validAt (n : Z) (expires : option Z) : Prop :=
  match expires with
  | Some x => n < x
  | None => True
  end.

(** The answer of [checkAccess] in terms of the identity it resolves. *)
Definition accessAnswer (email productId : string) (now now' : Z) (s : Store)
  : AccessResult :=
  match resolveIdentity email productId s with
  | None => noAccess productId
  | Some i =>
      match activeEntitlements i productId now s with
      | [] => noAccess productId
      | e :: _ => checkEntitlementAccess s now' e productId
      end
  end.

(** Every table but the webhook log, the outbound traffic included. *)
Definition sameButLog (s s' : Store) : Prop :=
  with_webhookLogs (webhookLogs s) s' = s.

(** The bundle a checkout session names: the session has an email and a
    first line item with a price, and the price is that of a bundle. *)
Definition checkoutBundle (session : Session) (s : Store) : option Bundle :=
  match present (customer_email session) with
  | None => None
  | Some _ =>
      match lineItems session with
      | Some priceId :: _ =>
          if truthy priceId
          then find (fun b => (bundle_stripePriceId b =? priceId)%string)
                    (bundles s)
          else None
      | _ => None
      end
  end.

(** The products of a bundle that ask for a form. *)
Definition formProducts (bundle : Bundle) (s : Store) : list Product :=
  filter (fun p => inb (product_id p) (productIds bundle) && hasFormSchema p)
         (products s).

(** The handler the webhook route hands an event to; an event of
    another type is not handled. *)
Definition dispatch (event : Event) (newToken : string) (now : Z) : M Handled :=
  match event_object event with
  | CheckoutSessionCompleted session =>
      handleCheckoutCompleted session newToken now
  | CustomerSubscriptionCreated subscription
  | CustomerSubscriptionUpdated subscription =>
      handleSubscriptionUpdated subscription now
  | CustomerSubscriptionDeleted subscription =>
      handleSubscriptionDeleted subscription now
  | OtherEvent _ => ret (mkHandled false None)
  end.

(** The identity of a Stripe customer. *)
Definition customerIdentity (customer : string) (s : Store) : option Identity :=
  find (fun i => eqb_opt_string (stripeCustomerId i) (Some customer))
       (identities s).

(** An event the ledger has nothing to do for: a type without handler,
    a checkout that names no bundle, a subscription of a customer no
    identity has. *)
Definition ignorable (event : Event) (s : Store) : Prop :=
  match event_object event with
  | CheckoutSessionCompleted session => checkoutBundle session s = None
  | CustomerSubscriptionCreated subscription
  | CustomerSubscriptionUpdated subscription
  | CustomerSubscriptionDeleted subscription =>
      customerIdentity (subscription_customer subscription) s = None
  | OtherEvent _ => True
  end.

(** The status the webhook log holds for an answer. *)
Definition loggedStatus (resp : Response) : string :=
  match response_handled resp with
  | Some true => "success"
  | Some false => "ignored"
  | None => "failed"
  end.

(** The rows of the pair (email, productId) in the binding table all
    point to the identity [i], and there is one. *)
Definition onlyTo (email productId : string) (i : Z) (s : Store) : Prop :=
  forall row, In row (identityEmails s) ->
              sameBinding email productId row = true -> ie_identityId row = i.

Definition boundTo (email productId : string) (i : Z) (s : Store) : Prop :=
  existsb (sameBinding email productId) (identityEmails s) = true
  /\ onlyTo email productId i s.

(** The expiry the direct row has after a reported grant: the reported
    one, else the one the row had, else none. *)
Definition reportedExpiry (params : ReportParams) (expires : option Z)
    (s : Store) : option Z :=
  match expires with
  | Some t => Some t
  | None =>
      match find (sameKey (identityIdFor (r_email params) s)
                    (r_productId params) "direct" (r_sourceApp params))
                 (entitlements s) with
      | Some e => expiresAt e
      | None => None
      end
  end.

(** The bundle a subscription is for: that of the price of its first
    item. *)
Definition subscriptionBundle (subscription : Subscription) (s : Store)
  : option Bundle :=
  match subscription_prices subscription with
  | priceId :: _ =>
      if truthy priceId
      then find (fun b => (bundle_stripePriceId b =? priceId)%string) (bundles s)
      else None
  | [] => None
  end.

(** The grant of a subscription that is active or trialing. *)
Definition subscriptionGrant (subscription : Subscription) (ident : Identity)
    (bundle : Bundle) : GrantParams :=
  mkGrantParams (identity_id ident) (productIds bundle) "bundle" None
    (Some (bundle_id bundle)) (Some (durationType bundle))
    (durationValue bundle) (Some (subscription_id subscription))
    None None None.

(** The rows a status canceled, unpaid or past_due revokes. *)
Definition lapsedRows (subscription : Subscription) (ident : Identity)
    (bundle : Bundle) (e : Entitlement) : bool :=
  (ent_identityId e =? identity_id ident)
  && inb (ent_productId e) (productIds bundle)
  && eqb_opt_string (ent_stripeSubscriptionId e)
       (Some (subscription_id subscription)).

(** The reason a revocation through the admin route records: that of
    the query string, else that of the body, else the default. *)
Definition deleteReason (queryReason bodyReason : option string) : string :=
  match present queryReason with
  | Some r => r
  | None =>
      match present bodyReason with
      | Some r => r
      | None => "Revoked by admin"
      end
  end.

(** The parameters the report route passes on for a body it accepts. *)
Definition reportOf (body : ReportBody) (email productId : string)
    (action : ReportAction) (sourceApp : string) : ReportParams :=
  mkReportParams email productId action sourceApp
    (b_stripeSubscriptionId body) (b_stripePriceId body)
    (parseAmount (b_amountPaid body)) (b_currency body)
    (b_expiresAt body) (b_reason body).

(** Further data of the examples. *)
Definition formStore : Store :=
  mkStore [] [] [] [proSuite]
    [mkProduct "rezume" false; mkProduct "aicoach" true]
    [] [] [] [] 1 1 [] [] (Some "secret").


Definition subscriber : Identity :=
  mkIdentity 1 "buyer@example.com" (Some "cus_1").

Definition subscriberStore : Store :=
  mkStore [subscriber] [] [] [lifetimeBundle] [] [] [] [] [] 2 1 [] []
          (Some "secret").

Definition activeSubscription : Subscription :=
  mkSubscription "sub_1" "cus_1" ["price_1"] "active".

Definition canceledSubscription : Subscription :=
  mkSubscription "sub_1" "cus_1" ["price_1"] "canceled".

Definition grantReport : ReportBody :=
  mkReportBody (Some "New@Example.com") (Some "rezume") (Some "grant")
    (Some "rezume") (Some "sub_9") None (Some 1999) (Some "cad") None None.

(** A grant and a report whose amount is beyond the 32 bits of the
    column. *)
Definition costlyGrant : GrantParams :=
  mkGrantParams 1 ["aicoach"] "manual" None None None None None None
    (Some 3000000000) None.

Definition costlyReport : ReportParams :=
  mkReportParams "New@Example.com" "rezume" grant "rezume" None None
    (Some 3000000000) None None None.

(** A store in which the subscription of the subscriber was granted: the
    bundle row carries the id of the subscription, the direct row that of
    another one. *)
Definition subscriptionRow : Entitlement :=
  mkEntitlement 1 1 "rezume" "bundle" "central" (Some 1) 1000 None None None
                (Some "sub_1") (Some "price_1") None None.

Definition otherRow : Entitlement :=
  mkEntitlement 2 1 "rezume" "direct" "rezume" None 1500 None None None
                (Some "sub_2") None None None.

Definition subscribedStore : Store :=
  mkStore [subscriber] [mkIdentityEmail "buyer@example.com" "rezume" 1]
          [subscriptionRow; otherRow] [lifetimeBundle]
          [mkProduct "rezume" false; mkProduct "aicoach" false]
          [] [] [] [] 2 3 [] [] (Some "secret").

(** * Properties *)

(** ** Calendar arithmetic *)

Ltac by_cases_on_tests :=
  repeat match goal with
         | |- context [ ?a =? ?b ] => destruct (Z.eqb_spec a b)
         | |- context [ ?a <=? ?b ] => destruct (Z.leb_spec a b)
         | |- context [ ?a <? ?b ] => destruct (Z.ltb_spec a b)
         end.

Lemma DayFromYear_succ (y : Z) :
  DayFromYear (y + 1) = DayFromYear y + DaysInYear y.
Proof.
  unfold DayFromYear, DaysInYear.
  replace (y + 1 - 1969) with (y - 1969 + 1) by lia.
  replace (y + 1 - 1901) with (y - 1901 + 1) by lia.
  replace (y + 1 - 1601) with (y - 1601 + 1) by lia.
  by_cases_on_tests; simpl negb; cbv iota;
    Z.to_euclidean_division_equations; lia.
Qed.

Lemma DaysInYear_cases (y : Z) : DaysInYear y = 365 + LeapDays y.
Proof.
  unfold LeapDays, DaysInYear. by_cases_on_tests; simpl; try lia.
  all: by_cases_on_tests; simpl in *; lia.
Qed.

Lemma LeapDays_range (y : Z) : LeapDays y = 0 \/ LeapDays y = 1.
Proof. unfold LeapDays. by_cases_on_tests; auto. Qed.

Lemma YearFromDay_unique (y d : Z) :
  DayFromYear y <= d < DayFromYear (y + 1) -> YearFromDay d = y.
Proof.
  intros H. unfold YearFromDay. by_cases_on_tests;
    unfold DayFromYear in *; Z.to_euclidean_division_equations; lia.
Qed.

Lemma YearFromDay_bounds (d : Z) :
  DayFromYear (YearFromDay d) <= d < DayFromYear (YearFromDay d + 1).
Proof.
  unfold YearFromDay. by_cases_on_tests;
    unfold DayFromYear in *; Z.to_euclidean_division_equations; lia.
Qed.

Lemma DayWithinYear_range (t : Z) :
  0 <= DayWithinYear t < 365 + InLeapYear t.
Proof.
  unfold DayWithinYear, InLeapYear, YearFromTime.
  pose proof (YearFromDay_bounds (Day t)) as H.
  rewrite DayFromYear_succ, DaysInYear_cases in H. lia.
Qed.

Lemma MonthFromTime_range (t : Z) : 0 <= MonthFromTime t <= 11.
Proof. unfold MonthFromTime. by_cases_on_tests; lia. Qed.

Lemma DateFromTime_range (t : Z) :
  1 <= DateFromTime t <= DaysInMonth (YearFromTime t) (MonthFromTime t).
Proof.
  pose proof (DayWithinYear_range t) as H.
  unfold DateFromTime, DaysInMonth, MonthFromTime.
  fold (InLeapYear t).
  destruct (LeapDays_range (YearFromTime t)) as [L | L];
    unfold InLeapYear in *; rewrite L in *;
    by_cases_on_tests; simpl; try lia;
    unfold DaysBeforeMonth; simpl; lia.
Qed.

Ltac month_cases m :=
  let H := fresh "Hmonth" in
  assert (m = 0 \/ m = 1 \/ m = 2 \/ m = 3 \/ m = 4 \/ m = 5 \/ m = 6
          \/ m = 7 \/ m = 8 \/ m = 9 \/ m = 10 \/ m = 11) as H by lia;
  repeat (destruct H as [H | H]); subst m.

Ltac closed_pos p :=
  lazymatch p with
  | xH => idtac
  | xO ?q => closed_pos q
  | xI ?q => closed_pos q
  end.

Ltac closed_Z a :=
  lazymatch a with
  | Z0 => idtac
  | Zpos ?p => closed_pos p
  | Zneg ?p => closed_pos p
  | Z.add ?x ?y => closed_Z x; closed_Z y
  | Z.sub ?x ?y => closed_Z x; closed_Z y
  end.

(** Evaluates the month table and the tests on literals. *)
Ltac calendar_compute :=
  repeat match goal with
         | |- context [ DaysBeforeMonth ?a ?b ] =>
             closed_Z a; closed_Z b;
             let v := eval vm_compute in (DaysBeforeMonth a b) in
             change (DaysBeforeMonth a b) with v
         | H : context [ DaysBeforeMonth ?a ?b ] |- _ =>
             closed_Z a; closed_Z b;
             let v := eval vm_compute in (DaysBeforeMonth a b) in
             change (DaysBeforeMonth a b) with v in H
         | |- context [ ?a =? ?b ] =>
             closed_Z a; closed_Z b;
             let v := eval vm_compute in (a =? b) in
             change (a =? b) with v
         | H : context [ ?a =? ?b ] |- _ =>
             closed_Z a; closed_Z b;
             let v := eval vm_compute in (a =? b) in
             change (a =? b) with v in H
         end;
  cbv iota in *.

Ltac decide_tests :=
  repeat match goal with
         | |- context [ ?a <? ?b ] =>
             destruct (Z.ltb_spec a b); [ try lia | try lia ]
         end.

Lemma msPerDay_pos : 0 < msPerDay.
Proof. reflexivity. Qed.

Lemma Day_MakeDate (day time : Z) :
  0 <= time < msPerDay -> Day (MakeDate day time) = day.
Proof.
  intros H. unfold Day, MakeDate.
  rewrite Z.add_comm, Z.div_add by (unfold msPerDay; lia).
  rewrite Z.div_small by assumption. lia.
Qed.

Lemma TimeWithinDay_MakeDate (day time : Z) :
  0 <= time < msPerDay -> TimeWithinDay (MakeDate day time) = time.
Proof.
  intros H. unfold TimeWithinDay, MakeDate.
  rewrite Z.add_comm, Z.mod_add by (unfold msPerDay; lia).
  apply Z.mod_small; assumption.
Qed.

Lemma TimeWithinDay_range (t : Z) : 0 <= TimeWithinDay t < msPerDay.
Proof. apply Z.mod_pos_bound, msPerDay_pos. Qed.

Lemma MakeDate_Day (t : Z) : MakeDate (Day t) (TimeWithinDay t) = t.
Proof.
  unfold MakeDate, Day, TimeWithinDay.
  pose proof (Z.div_mod t msPerDay). unfold msPerDay in *. lia.
Qed.

(** A day [d] of the month [m] of the year [y], inside the month, is
    read back as [(y, m, d)]. *)
Lemma civil_of_day (y m d t : Z) :
  0 <= m <= 11 -> 1 <= d <= DaysInMonth y m ->
  Day t = DayFromYear y + DaysBeforeMonth m (LeapDays y) + d - 1 ->
  civil t = (y, m, d).
Proof.
  intros Hm Hd Ht.
  assert (Hy : YearFromTime t = y).
  { unfold YearFromTime. apply YearFromDay_unique. rewrite Ht.
    rewrite DayFromYear_succ, DaysInYear_cases.
    unfold DaysInMonth in Hd.
    destruct (LeapDays_range y) as [L | L]; rewrite L in *;
      month_cases m; calendar_compute; lia. }
  unfold civil. rewrite Hy.
  assert (Hw : DayWithinYear t = DaysBeforeMonth m (LeapDays y) + d - 1).
  { unfold DayWithinYear. rewrite Hy, Ht. lia. }
  assert (Hmo : MonthFromTime t = m).
  { unfold MonthFromTime, InLeapYear. rewrite Hy, Hw.
    unfold DaysInMonth in Hd.
    destruct (LeapDays_range y) as [L | L]; rewrite L in *;
      month_cases m; calendar_compute; decide_tests. }
  rewrite Hmo. unfold DateFromTime, InLeapYear. rewrite Hmo, Hy, Hw.
  f_equal. lia.
Qed.

Lemma civil_range (t : Z) :
  0 <= MonthFromTime t <= 11
  /\ 1 <= DateFromTime t <= DaysInMonth (YearFromTime t) (MonthFromTime t).
Proof. split; [apply MonthFromTime_range | apply DateFromTime_range]. Qed.

Lemma DaysInMonth_range (y m : Z) : 0 <= m <= 11 -> 28 <= DaysInMonth y m <= 31.
Proof.
  intros H. unfold DaysInMonth.
  destruct (LeapDays_range y) as [L | L]; rewrite L;
    month_cases m; calendar_compute; lia.
Qed.

Lemma civil_MakeDay (year month d tod : Z) :
  1 <= d <= 31 -> 0 <= tod < msPerDay ->
  civil (MakeDate (MakeDay year month d) tod)
  = rollover (year + month / 12) (month mod 12) d.
Proof.
  intros Hd Htod. unfold rollover.
  set (ym := year + month / 12). set (mn := month mod 12).
  assert (Hmn : 0 <= mn <= 11).
  { subst mn. pose proof (Z.mod_pos_bound month 12). lia. }
  destruct (Z.leb_spec d (DaysInMonth ym mn)) as [Hin | Hout].
  - apply civil_of_day; [assumption | lia |].
    rewrite Day_MakeDate by assumption. reflexivity.
  - pose proof (DaysInMonth_range ym mn Hmn) as R.
    assert (Hm1 : mn <> 11).
    { intros E. rewrite E in Hout. unfold DaysInMonth in Hout.
      calendar_compute. lia. }
    apply civil_of_day.
    + lia.
    + pose proof (DaysInMonth_range ym (mn + 1)). lia.
    + rewrite Day_MakeDate by assumption. unfold MakeDay.
      fold ym mn. unfold DaysInMonth.
      destruct (Z.eqb_spec mn 11); [contradiction | lia].
Qed.

Lemma MakeDay_same_month (t n : Z) :
  MakeDay (YearFromTime t) (MonthFromTime t) (DateFromTime t + n) = Day t + n.
Proof.
  pose proof (MonthFromTime_range t) as Hm.
  unfold MakeDay.
  rewrite Z.div_small, Z.mod_small, Z.add_0_r by lia.
  unfold DateFromTime, InLeapYear, DayWithinYear. lia.
Qed.

Lemma setDate_getDate (t n : Z) :
  setDate t (getDate t + n) = TimeClip (t + n * msPerDay).
Proof.
  unfold setDate, getDate. rewrite MakeDay_same_month. f_equal.
  rewrite <- (MakeDate_Day t) at 3. unfold MakeDate. lia.
Qed.

(** C1, counterexample.  From January 31, 2025 (noon UTC) one month lands
    on March 3, 2025: [setMonth] keeps day 31 and February has 28 days, so
    the result is not the last day of February. *)
Lemma calculateExpiryDate_jan31_not_clamped :
  let now := 1738324800000 in
  civil now = (2025, 0, 31)
  /\ calculateExpiryDate "months" (Some 1) now = Some (DateOf 1741003200000)
  /\ civil 1741003200000 = (2025, 2, 3)
  /\ ~ (exists r, calculateExpiryDate "months" (Some 1) now = Some (DateOf r)
                  /\ MonthFromTime r = 1
                  /\ DateFromTime r = DaysInMonth (YearFromTime r) 1).
Proof.
  assert (E : calculateExpiryDate "months" (Some 1) 1738324800000
              = Some (DateOf 1741003200000)) by (vm_compute; reflexivity).
  split; [vm_compute; reflexivity |].
  split; [exact E |].
  split; [vm_compute; reflexivity |].
  intros [r [H [Hm _]]]. rewrite E in H. inversion H; subst r.
  vm_compute in Hm. discriminate.
Qed.

Ltac string_tests :=
  repeat match goal with
         | |- context [ String.eqb ?a ?b ] =>
             let v := eval vm_compute in (String.eqb a b) in
             change (String.eqb a b) with v
         end;
  cbv iota.

Lemma calculateExpiryDate_days (n now : Z) :
  n <> 0 ->
  calculateExpiryDate "days" (Some n) now = Some (setDate now (getDate now + n)).
Proof.
  intros Hn. unfold calculateExpiryDate. string_tests.
  destruct (Z.eqb_spec n 0); [contradiction | reflexivity].
Qed.

Lemma calculateExpiryDate_months (n now : Z) :
  n <> 0 ->
  calculateExpiryDate "months" (Some n) now
  = Some (setMonth now (getMonth now + n)).
Proof.
  intros Hn. unfold calculateExpiryDate. string_tests.
  destruct (Z.eqb_spec n 0); [contradiction | reflexivity].
Qed.

Lemma calculateExpiryDate_years (n now : Z) :
  n <> 0 ->
  calculateExpiryDate "years" (Some n) now
  = Some (setFullYear now (getFullYear now + n)).
Proof.
  intros Hn. unfold calculateExpiryDate. string_tests.
  destruct (Z.eqb_spec n 0); [contradiction | reflexivity].
Qed.

(** C1, as amended.  [calculateExpiryDate] returns [null] for a lifetime
    duration, for a null or zero value and for an unknown type.  N days
    give now plus N days.  N months or years keep the day of the month and
    the time of day and clamp nothing: when the target month has that day
    the result is that day, otherwise it rolls over into the next month by
    the days the target month falls short.  January 31 plus one month is
    March 3 (March 2 in a leap year); February 29 plus one year is March 1.
    The function is total; its result is an invalid date only when the
    time value leaves the range [TimeClip] accepts. *)
Theorem calculateExpiryDate_rollover :
  (forall v now, calculateExpiryDate "lifetime" v now = None)
  /\ (forall ty now,
        calculateExpiryDate ty None now = None
        /\ calculateExpiryDate ty (Some 0) now = None)
  /\ (forall ty n now,
        ty <> "days" -> ty <> "months" -> ty <> "years" ->
        calculateExpiryDate ty (Some n) now = None)
  /\ (forall n now,
        n <> 0 ->
        calculateExpiryDate "days" (Some n) now
        = Some (TimeClip (now + n * msPerDay)))
  /\ (forall n now,
        n <> 0 ->
        exists r,
          calculateExpiryDate "months" (Some n) now = Some (TimeClip r)
          /\ TimeWithinDay r = TimeWithinDay now
          /\ civil r
             = rollover (YearFromTime now + (MonthFromTime now + n) / 12)
                        ((MonthFromTime now + n) mod 12)
                        (DateFromTime now))
  /\ (forall n now,
        n <> 0 ->
        exists r,
          calculateExpiryDate "years" (Some n) now = Some (TimeClip r)
          /\ TimeWithinDay r = TimeWithinDay now
          /\ civil r
             = rollover (YearFromTime now + n) (MonthFromTime now)
                        (DateFromTime now))
  /\ (forall now,
        MonthFromTime now = 0 -> DateFromTime now = 31 ->
        exists r,
          calculateExpiryDate "months" (Some 1) now = Some (TimeClip r)
          /\ civil r = (YearFromTime now, 2, 3 - LeapDays (YearFromTime now)))
  /\ (forall now,
        MonthFromTime now = 1 -> DateFromTime now = 29 ->
        exists r,
          calculateExpiryDate "years" (Some 1) now = Some (TimeClip r)
          /\ civil r = (YearFromTime now + 1, 2, 1)).
Proof.
  assert (Hmonths : forall n now, n <> 0 ->
            exists r,
              calculateExpiryDate "months" (Some n) now = Some (TimeClip r)
              /\ TimeWithinDay r = TimeWithinDay now
              /\ civil r
                 = rollover (YearFromTime now + (MonthFromTime now + n) / 12)
                            ((MonthFromTime now + n) mod 12)
                            (DateFromTime now)).
  { intros n now Hn.
    pose proof (civil_range now) as [Hm Hd].
    pose proof (DaysInMonth_range (YearFromTime now) _ Hm) as Hdim.
    pose proof (TimeWithinDay_range now) as Ht.
    eexists. split; [| split].
    - rewrite calculateExpiryDate_months by assumption. reflexivity.
    - apply TimeWithinDay_MakeDate, Ht.
    - unfold getMonth. apply civil_MakeDay; [lia | exact Ht]. }
  assert (Hyears : forall n now, n <> 0 ->
            exists r,
              calculateExpiryDate "years" (Some n) now = Some (TimeClip r)
              /\ TimeWithinDay r = TimeWithinDay now
              /\ civil r
                 = rollover (YearFromTime now + n) (MonthFromTime now)
                            (DateFromTime now)).
  { intros n now Hn.
    pose proof (civil_range now) as [Hm Hd].
    pose proof (DaysInMonth_range (YearFromTime now) _ Hm) as Hdim.
    pose proof (TimeWithinDay_range now) as Ht.
    eexists. split; [| split].
    - rewrite calculateExpiryDate_years by assumption. reflexivity.
    - apply TimeWithinDay_MakeDate, Ht.
    - unfold getFullYear. rewrite civil_MakeDay by (lia || exact Ht).
      rewrite Z.div_small, Z.mod_small, Z.add_0_r by lia. reflexivity. }
  split; [reflexivity |].
  split.
  { intros ty now. unfold calculateExpiryDate.
    destruct (ty =? "lifetime")%string; split; reflexivity. }
  split.
  { intros ty n now Hd Hm Hy. unfold calculateExpiryDate.
    destruct (ty =? "lifetime")%string; [reflexivity |].
    destruct (n =? 0); [reflexivity |].
    destruct (String.eqb_spec ty "days"); [contradiction |].
    destruct (String.eqb_spec ty "months"); [contradiction |].
    destruct (String.eqb_spec ty "years"); [contradiction | reflexivity]. }
  split.
  { intros n now Hn. rewrite calculateExpiryDate_days by assumption.
    rewrite setDate_getDate. reflexivity. }
  split; [exact Hmonths |].
  split; [exact Hyears |].
  split.
  - intros now Hm Hd.
    destruct (Hmonths 1 now ltac:(lia)) as [r [E [_ C]]].
    exists r. split; [exact E |].
    rewrite C, Hm, Hd. unfold rollover, DaysInMonth.
    change ((0 + 1) / 12) with 0. change ((0 + 1) mod 12) with 1.
    rewrite Z.add_0_r.
    destruct (LeapDays_range (YearFromTime now)) as [L | L]; rewrite L;
      reflexivity.
  - intros now Hm Hd.
    destruct (Hyears 1 now ltac:(lia)) as [r [E [_ C]]].
    exists r. split; [exact E |].
    rewrite C, Hm, Hd. unfold rollover, DaysInMonth.
    pose proof (DateFromTime_range now) as R. rewrite Hm, Hd in R.
    unfold DaysInMonth in R.
    destruct (LeapDays_range (YearFromTime now)) as [L | L];
      rewrite L in R; calendar_compute; try lia.
    assert (L1 : LeapDays (YearFromTime now + 1) = 0).
    { unfold LeapDays, DaysInYear in *.
      repeat match goal with
             | H : context [ ?a =? ?b ] |- _ => destruct (Z.eqb_spec a b)
             | |- context [ ?a =? ?b ] => destruct (Z.eqb_spec a b)
             end; simpl in *; try reflexivity; try discriminate;
        Z.to_euclidean_division_equations; lia. }
    rewrite L1. reflexivity.
Qed.

(** ** Grants *)

Ltac store_simpl :=
  cbn [identities identityEmails entitlements bundles products claimTokens
       productSubmissions auditLogs webhookLogs nextIdentityId
       nextEntitlementId syncPushes sentEmails ADMIN_API_KEY
       with_identities with_identityEmails with_entitlements with_claimTokens
       with_productSubmissions with_auditLogs with_webhookLogs
       with_nextIdentityId with_nextEntitlementId with_syncPushes
       with_sentEmails] in *.

Ltac monad_simpl :=
  cbv beta iota zeta delta [bind ret gets modify throw] in *.

Lemma bind_ok {A B : Type} (m : M A) (k : A -> M B) (s s' : Store) (a : A) :
  m s = (Ok a, s') -> bind m k s = k a s'.
Proof. intros H. unfold bind. rewrite H. reflexivity. Qed.

Lemma bind_err {A B : Type} (m : M A) (k : A -> M B) (s s' : Store) e :
  m s = (Err e, s') -> bind m k s = (Err e, s').
Proof. intros H. unfold bind. rewrite H. reflexivity. Qed.

Lemma bind_ret {A B : Type} (a : A) (k : A -> M B) (s : Store) :
  bind (ret a) k s = k a s.
Proof. reflexivity. Qed.

Lemma bind_gets {A B : Type} (f : Store -> A) (k : A -> M B) (s : Store) :
  bind (gets f) k s = k (f s) s.
Proof. reflexivity. Qed.

Lemma bind_modify {B : Type} (f : Store -> Store) (k : unit -> M B) (s : Store) :
  bind (modify f) k s = k tt (f s).
Proof. reflexivity. Qed.

Lemma bind_throw {A B : Type} (msg : string) (k : A -> M B) (s : Store) :
  bind (throw msg) k s = (Err msg, s).
Proof. reflexivity. Qed.

Lemma bind_bind {A B C : Type} (m : M A) (k : A -> M B) (h : B -> M C)
    (s : Store) :
  bind (bind m k) h s = bind m (fun a => bind (k a) h) s.
Proof. unfold bind. destruct (m s) as [[a | e] s']; reflexivity. Qed.

Lemma with_entitlements_id (s : Store) :
  with_nextEntitlementId (nextEntitlementId s)
    (with_entitlements (entitlements s) s) = s.
Proof. destruct s; reflexivity. Qed.

Lemma grantFound_reads (params : GrantParams) (s : Store) (pids : list string) :
  mapM (fun productId =>
          existingEntitlement <-
            entitlement_findFirst (grantKey params productId) ;;
          ret (productId, existingEntitlement)) pids s
  = (Ok (map (fun productId =>
                (productId, find (grantKey params productId) (entitlements s)))
             pids), s).
Proof.
  induction pids as [| p r IH]; [reflexivity |].
  cbn [mapM map]. unfold entitlement_findFirst at 1.
  monad_simpl. monad_simpl. rewrite IH. reflexivity.
Qed.

Lemma find_id_present (es : list Entitlement) (id : Z) :
  In id (map ent_id es) ->
  exists e, find (fun x => ent_id x =? id) es = Some e /\ ent_id e = id.
Proof.
  induction es as [| x r IH]; intros H; [contradiction |].
  cbn [find]. destruct (Z.eqb_spec (ent_id x) id) as [E | E].
  - exists x. auto.
  - destruct H as [H | H]; [contradiction |]. auto.
Qed.

Lemma map_ids_update (es : list Entitlement) (id : Z) (f : Entitlement -> Entitlement) :
  (forall x, ent_id (f x) = ent_id x) ->
  map ent_id (map (fun x => if ent_id x =? id then f x else x) es)
  = map ent_id es.
Proof.
  intros Hf. rewrite map_map. apply map_ext. intros x.
  destruct (ent_id x =? id); [apply Hf | reflexivity].
Qed.

Lemma entitlement_update_run (id : Z) (f : Entitlement -> Entitlement)
    (s : Store) (e : Entitlement) :
  find (fun x => ent_id x =? id) (entitlements s) = Some e ->
  entitlement_update id f s
  = (Ok (f e),
     with_entitlements
       (map (fun x => if ent_id x =? id then f x else x) (entitlements s)) s).
Proof.
  intros F. unfold entitlement_update.
  rewrite bind_gets, F, bind_modify. reflexivity.
Qed.

Lemma entitlement_create_run (row : Z -> Entitlement) (s : Store) :
  entitlement_create row s
  = (Ok (row (nextEntitlementId s)),
     with_nextEntitlementId (nextEntitlementId s + 1)
       (with_entitlements (entitlements s ++ [row (nextEntitlementId s)]) s)).
Proof. reflexivity. Qed.

Lemma dbInt_ok (v : option Z) (s : Store) :
  fits v = true -> dbInt v s = (Ok tt, s).
Proof.
  destruct v as [x |]; cbn [fits dbInt]; [| reflexivity].
  intros ->. reflexivity.
Qed.

Lemma dbInt_err (v : option Z) (s : Store) :
  fits v = false -> exists msg, dbInt v s = (Err msg, s).
Proof.
  destruct v as [x |]; cbn [fits dbInt]; [| discriminate].
  intros ->. eexists. reflexivity.
Qed.

Lemma grantWrites_run (params : GrantParams) (expires : option Z) (now : Z)
    (d : option Date) (found : list (string * option Entitlement)) :
  (forall s, dbDate d s = (Ok expires, s)) ->
  fits (g_amountPaid params) = true ->
  forall s,
    idsPresent found (entitlements s) ->
    exists rows,
    mapM (fun '(productId, existingEntitlement) =>
            expires <- dbDate d ;;
            dbInt (g_amountPaid params) ;;;
            match existingEntitlement with
            | Some e => entitlement_update (ent_id e) (regranted params expires)
            | None =>
                entitlement_create
                  (granted params productId
                     (default_to "central" (g_sourceApp params)) expires now)
            end) found s
    = (Ok rows,
       with_nextEntitlementId
         (snd (grantWrites params expires now found
                 (entitlements s) (nextEntitlementId s)))
         (with_entitlements
            (fst (grantWrites params expires now found
                    (entitlements s) (nextEntitlementId s))) s)).
Proof.
  intros Hd Hfit. induction found as [| [p [e |]] r IH]; intros s Hp.
  - exists []. cbn. rewrite with_entitlements_id. reflexivity.
  - destruct (find_id_present (entitlements s) (ent_id e)) as [e0 [F E0]].
    { apply (Hp p e). left. reflexivity. }
    set (s1 := with_entitlements
                 (map (fun x => if ent_id x =? ent_id e
                                then regranted params expires x else x)
                      (entitlements s)) s).
    destruct (IH s1) as [rows Hrows].
    { intros q e' Hin. subst s1. store_simpl.
      rewrite map_ids_update by reflexivity.
      apply (Hp q e'). right. exact Hin. }
    exists (regranted params expires e0 :: rows).
    cbn [mapM grantWrites].
    rewrite bind_bind, (bind_ok _ _ _ _ _ (Hd s)).
    rewrite bind_bind, (bind_ok _ _ _ _ _ (dbInt_ok _ s Hfit)).
    rewrite (bind_ok _ _ _ _ _ (entitlement_update_run _ _ _ _ F)).
    fold s1. rewrite (bind_ok _ _ _ _ _ Hrows). cbv beta.
    subst s1. store_simpl. unfold ret.
    solve [ reflexivity | f_equal; destruct s; reflexivity ].
  - set (row := granted params p (default_to "central" (g_sourceApp params))
                  expires now (nextEntitlementId s)).
    set (s1 := with_nextEntitlementId (nextEntitlementId s + 1)
                 (with_entitlements (entitlements s ++ [row]) s)).
    destruct (IH s1) as [rows Hrows].
    { intros q e' Hin. subst s1. store_simpl.
      rewrite map_app, in_app_iff. left.
      apply (Hp q e'). right. exact Hin. }
    exists (row :: rows).
    cbn [mapM grantWrites].
    rewrite bind_bind, (bind_ok _ _ _ _ _ (Hd s)).
    rewrite bind_bind, (bind_ok _ _ _ _ _ (dbInt_ok _ s Hfit)).
    rewrite (bind_ok _ _ _ _ _ (entitlement_create_run _ _)).
    fold row. fold s1. rewrite (bind_ok _ _ _ _ _ Hrows). cbv beta.
    subst s1. store_simpl. unfold ret.
    solve [ reflexivity | f_equal; destruct s; reflexivity ].
Qed.

Lemma regranted_idem (params : GrantParams) (expires : option Z) (x : Entitlement) :
  regranted params expires (regranted params expires x)
  = regranted params expires x.
Proof.
  unfold regranted; cbn.
  destruct (g_bundleId params), (g_stripeSubscriptionId params),
    (g_stripePriceId params), (g_amountPaid params), (g_currency params);
    reflexivity.
Qed.

Lemma grantCreated_ids (params : GrantParams) expires now found n :
  Forall (fun e => n <= ent_id e
                   < n + Z.of_nat (List.length (grantCreated params expires now found n)))
         (grantCreated params expires now found n).
Proof.
  revert n. induction found as [| [p [e |]] r IH]; intros n; cbn [grantCreated].
  - constructor.
  - apply IH.
  - constructor.
    + cbn. lia.
    + eapply Forall_impl; [| apply (IH (n + 1))].
      cbn beta. intros a Ha. cbn [List.length]. lia.
Qed.

Lemma grantWrites_closed (params : GrantParams) expires now found :
  forall es n,
    Forall (fun e => ent_id e < n) es ->
    (forall p e, In (p, Some e) found -> ent_id e < n) ->
    grantWrites params expires now found es n
    = (map (fun x => if touched found x then regranted params expires x else x) es
         ++ grantCreated params expires now found n,
       n + Z.of_nat (List.length (grantCreated params expires now found n))).
Proof.
  induction found as [| [p [e |]] r IH]; intros es n Hes Hf.
  - cbn. rewrite app_nil_r, Z.add_0_r. f_equal.
    rewrite <- (map_id es) at 1. reflexivity.
  - cbn [grantWrites grantCreated]. rewrite IH.
    + f_equal. f_equal. rewrite map_map. apply map_ext. intros x.
      change (touched ((p, Some e) :: r) x)
        with ((ent_id x =? ent_id e) || touched r x).
      destruct (Z.eqb_spec (ent_id x) (ent_id e)) as [E | E]; cbn [orb].
      * change (touched r (regranted params expires x)) with (touched r x).
        destruct (touched r x); [apply regranted_idem | reflexivity].
      * reflexivity.
    + rewrite Forall_forall in *. intros x Hx. rewrite in_map_iff in Hx.
      destruct Hx as [y [<- Hy]].
      destruct (ent_id y =? ent_id e); [cbn |]; apply Hes; assumption.
    + intros q e' Hin. apply (Hf q e'). right. exact Hin.
  - cbn [grantWrites grantCreated]. rewrite IH.
    + cbn [List.length]. rewrite map_app, <- app_assoc. cbn [map app].
      f_equal; [| lia]. f_equal. f_equal.
      assert (T : touched r (granted params p
                    (default_to "central" (g_sourceApp params)) expires now n)
                  = false).
      { unfold touched. apply not_true_is_false. intros H.
        apply existsb_exists in H. destruct H as [[q [e' |]] [Hin Hid]];
          unfold foundId in Hid; cbn in Hid; [| discriminate].
        apply Z.eqb_eq in Hid. specialize (Hf q e' (or_intror Hin)). lia. }
      rewrite T. reflexivity.
    + rewrite Forall_app. split.
      * eapply Forall_impl; [| exact Hes]. cbn beta. intros; lia.
      * constructor; [cbn; lia | constructor].
    + intros q e' Hin. specialize (Hf q e' (or_intror Hin)). lia.
Qed.

Lemma grantFound_in (params : GrantParams) (es : list Entitlement) p e :
  In (p, Some e) (grantFound params es) ->
  In p (g_productIds params) /\ In e es /\ grantKey params p e = true
  /\ find (grantKey params p) es = Some e.
Proof.
  unfold grantFound. rewrite in_map_iff. intros [q [E Hq]].
  inversion E; subst q. rewrite H1.
  destruct (find_some _ _ H1). auto.
Qed.

Lemma dbDate_ok (d : option Date) (expires : option Z) :
  dbDateOf d expires -> forall s, dbDate d s = (Ok expires, s).
Proof. intros -> s. destruct expires; reflexivity. Qed.

Lemma grantAccess_ok (params : GrantParams) (now : Z) (expires : option Z)
    (s : Store) :
  dbDateOf (grantExpiry params now) expires ->
  fits (g_amountPaid params) = true ->
  exists rows,
    grantAccess params now s
    = (Ok rows,
       with_auditLogs (auditLogs s ++ [grantAudit params])
         (with_nextEntitlementId
            (snd (grantTable params expires now (entitlements s)
                    (nextEntitlementId s)))
            (with_entitlements
               (fst (grantTable params expires now (entitlements s)
                       (nextEntitlementId s))) s))).
Proof.
  intros Hd Hfit. unfold grantAccess. cbv zeta.
  erewrite bind_ok; [| apply (grantFound_reads params)].
  destruct (grantWrites_run params expires now (grantExpiry params now)
              (grantFound params (entitlements s)) (dbDate_ok _ _ Hd) Hfit s)
    as [rows Hrows].
  { intros p e Hin. apply grantFound_in in Hin. apply in_map. tauto. }
  exists rows.
  erewrite bind_ok; [| exact Hrows].
  erewrite bind_ok; [| apply (dbDate_ok _ _ Hd)].
  unfold auditLog_create. rewrite bind_modify. reflexivity.
Qed.

Lemma grantAccess_invalid (params : GrantParams) (now : Z) (s : Store) :
  grantExpiry params now = Some InvalidDate ->
  exists msg, grantAccess params now s = (Err msg, s).
Proof.
  intros Hd. unfold grantAccess. cbv zeta.
  erewrite bind_ok; [| apply (grantFound_reads params)].
  fold (grantExpiry params now). rewrite Hd.
  destruct (g_productIds params) as [| p r]; eexists; cbn [map mapM];
    reflexivity.
Qed.

Lemma grantAccess_unfit (params : GrantParams) (now : Z) (s : Store) :
  g_productIds params <> [] ->
  fits (g_amountPaid params) = false ->
  exists msg, grantAccess params now s = (Err msg, s).
Proof.
  intros Hp Hfit. unfold grantAccess. cbv zeta.
  erewrite bind_ok; [| apply (grantFound_reads params)].
  destruct (g_productIds params) as [| p r]; [contradiction |].
  cbn [map mapM]. rewrite !bind_bind.
  destruct (dbInt_err _ s Hfit) as [msg E].
  destruct (calculateExpiryDate (default_to "lifetime" (g_durationType params))
              (g_durationValue params) now) as [[t |] |]; cbn [dbDate].
  - rewrite bind_ret, bind_bind. erewrite bind_err; [| exact E].
    eexists. reflexivity.
  - eexists. reflexivity.
  - rewrite bind_ret, bind_bind. erewrite bind_err; [| exact E].
    eexists. reflexivity.
Qed.

Lemma grantAccess_empty (params : GrantParams) (now : Z) (expires : option Z)
    (s : Store) :
  g_productIds params = [] ->
  dbDateOf (grantExpiry params now) expires ->
  grantAccess params now s
  = (Ok [], with_auditLogs (auditLogs s ++ [grantAudit params]) s).
Proof.
  intros Hp Hd. unfold grantAccess. cbv zeta.
  erewrite bind_ok; [| apply (grantFound_reads params)].
  unfold grantAudit. rewrite Hp. cbn [map mapM]. rewrite bind_ret.
  erewrite bind_ok; [| apply (dbDate_ok _ _ Hd)].
  reflexivity.
Qed.

Lemma sameKey_spec (i : Z) (p src app : string) (e : Entitlement) :
  sameKey i p src app e = true <-> entKey e = (i, p, src, app).
Proof.
  unfold sameKey, entKey. rewrite !andb_true_iff, Z.eqb_eq, !String.eqb_eq.
  split.
  - intros [[[-> ->] ->] ->]. reflexivity.
  - intros E. inversion E. auto.
Qed.

Lemma grantKey_productId (params : GrantParams) p e :
  grantKey params p e = true -> ent_productId e = p.
Proof.
  unfold grantKey. rewrite sameKey_spec. unfold entKey. intros E.
  inversion E. reflexivity.
Qed.

Lemma inb_spec (x : string) (l : list string) : inb x l = true <-> In x l.
Proof.
  unfold inb. rewrite existsb_exists. split.
  - intros [y [Hy E]]. apply String.eqb_eq in E. subst. exact Hy.
  - intros H. exists x. split; [exact H | apply String.eqb_refl].
Qed.

Lemma NoDup_map_inj {A B : Type} (f : A -> B) (l : list A) (x y : A) :
  NoDup (map f l) -> In x l -> In y l -> f x = f y -> x = y.
Proof.
  induction l as [| a r IH]; intros N Hx Hy E; [contradiction |].
  cbn in N. inversion N as [| ? ? Hn N']; subst.
  destruct Hx as [<- | Hx], Hy as [<- | Hy].
  - reflexivity.
  - exfalso. apply Hn. rewrite E. apply in_map. exact Hy.
  - exfalso. apply Hn. rewrite <- E. apply in_map. exact Hx.
  - apply IH; assumption.
Qed.

Lemma touched_isGranted (params : GrantParams) (es : list Entitlement) x :
  NoDup (map ent_id es) -> uniqueKeys es -> In x es ->
  touched (grantFound params es) x = isGranted params x.
Proof.
  intros Nid Nk Hx. apply eq_true_iff_eq. unfold touched, isGranted.
  rewrite existsb_exists, andb_true_iff, inb_spec. split.
  - intros [[p [e |]] [Hin Hid]]; unfold foundId in Hid; cbn in Hid;
      [| discriminate].
    apply Z.eqb_eq in Hid. apply grantFound_in in Hin.
    destruct Hin as [Hp [He [Hk _]]].
    assert (x = e) by (apply (NoDup_map_inj ent_id es); assumption). subst e.
    rewrite (grantKey_productId _ _ _ Hk). auto.
  - intros [Hk Hp].
    destruct (find (grantKey params (ent_productId x)) es) as [e |] eqn:F.
    + exists (ent_productId x, Some e). split.
      * unfold grantFound. rewrite in_map_iff. exists (ent_productId x).
        rewrite F. auto.
      * unfold foundId. cbn. apply Z.eqb_eq.
        destruct (find_some _ _ F) as [He Hke].
        assert (x = e).
        { apply (NoDup_map_inj entKey es); try assumption.
          unfold grantKey in *. rewrite sameKey_spec in Hk, Hke. congruence. }
        subst; reflexivity.
    + exfalso. pose proof (find_none _ _ F x Hx). congruence.
Qed.

Lemma map_ext_in_if {A : Type} (l : list A) (p q : A -> bool) (f : A -> A) :
  (forall x, In x l -> p x = q x) ->
  map (fun x => if p x then f x else x) l
  = map (fun x => if q x then f x else x) l.
Proof. intros H. apply map_ext_in. intros x Hx. rewrite (H x Hx). reflexivity. Qed.

Lemma grantCreated_keys (params : GrantParams) expires now es :
  forall pids n,
    map entKey (grantCreated params expires now
                  (map (fun p => (p, find (grantKey params p) es)) pids) n)
    = map (fun p => (g_identityId params, p, g_source params,
                     default_to "central" (g_sourceApp params)))
          (filter (fun p => match find (grantKey params p) es with
                            | Some _ => false
                            | None => true
                            end) pids).
Proof.
  induction pids as [| p r IH]; intros n; [reflexivity |].
  cbn [map grantCreated filter].
  destruct (find (grantKey params p) es); cbn [grantCreated map].
  - apply IH.
  - rewrite IH. reflexivity.
Qed.

Lemma NoDup_filter {A : Type} (p : A -> bool) (l : list A) :
  NoDup l -> NoDup (filter p l).
Proof.
  induction 1 as [| x l Hx N IH]; cbn; [constructor |].
  destruct (p x); [| exact IH].
  constructor; [| exact IH]. rewrite filter_In. tauto.
Qed.

Lemma NoDup_map_injective {A B : Type} (f : A -> B) (l : list A) :
  (forall x y, f x = f y -> x = y) -> NoDup l -> NoDup (map f l).
Proof.
  intros Hf. induction 1 as [| x l Hx N IH]; cbn; constructor; [| exact IH].
  rewrite in_map_iff. intros [y [E Hy]]. apply Hf in E. subst. contradiction.
Qed.

Lemma NoDup_app_intro {A : Type} (l1 l2 : list A) :
  NoDup l1 -> NoDup l2 -> (forall x, In x l1 -> In x l2 -> False) ->
  NoDup (l1 ++ l2).
Proof.
  induction l1 as [| a r IH]; intros N1 N2 D; [exact N2 |].
  inversion N1; subst. cbn. constructor.
  - rewrite in_app_iff. intros [H | H]; [contradiction |].
    apply (D a); [left; reflexivity | exact H].
  - apply IH; try assumption. intros x H1' H2'. apply (D x); [right |]; assumption.
Qed.

Lemma map_if_key (params : GrantParams) expires (q : Entitlement -> bool)
    (f : Entitlement -> Z * string * string * string)
    (es : list Entitlement) :
  (forall x, f (regranted params expires x) = f x) ->
  map f (map (fun x => if q x then regranted params expires x else x) es)
  = map f es.
Proof.
  intros H. rewrite map_map. apply map_ext. intros x.
  destruct (q x); [apply H | reflexivity].
Qed.

Lemma map_if_id (params : GrantParams) expires (q : Entitlement -> bool)
    (es : list Entitlement) :
  map ent_id (map (fun x => if q x then regranted params expires x else x) es)
  = map ent_id es.
Proof.
  rewrite map_map. apply map_ext. intros x. destruct (q x); reflexivity.
Qed.

Lemma grantCreated_NoDup_ids (params : GrantParams) expires now found :
  forall n, NoDup (map ent_id (grantCreated params expires now found n)).
Proof.
  induction found as [| [p [e |]] r IH]; intros n; cbn [grantCreated map].
  - constructor.
  - apply IH.
  - constructor; [| apply IH].
    cbn. rewrite in_map_iff. intros [x [E Hx]].
    pose proof (grantCreated_ids params expires now r (n + 1)) as F.
    rewrite Forall_forall in F. specialize (F x Hx). lia.
Qed.

Lemma grantTable_closed (params : GrantParams) expires now es n :
  wf_entitlements es n ->
  grantTable params expires now es n
  = (map (fun x => if touched (grantFound params es) x
                   then regranted params expires x else x) es
       ++ grantCreated params expires now (grantFound params es) n,
     n + Z.of_nat (List.length
                     (grantCreated params expires now (grantFound params es) n))).
Proof.
  intros [Nid Hb]. unfold grantTable. apply grantWrites_closed; [exact Hb |].
  intros p e Hin. apply grantFound_in in Hin. destruct Hin as [_ [He _]].
  rewrite Forall_forall in Hb. apply Hb, He.
Qed.

Lemma grantTable_wf (params : GrantParams) expires now es n :
  wf_entitlements es n ->
  wf_entitlements (fst (grantTable params expires now es n))
                  (snd (grantTable params expires now es n)).
Proof.
  intros W. rewrite (grantTable_closed _ _ _ _ _ W). cbn [fst snd].
  destruct W as [Nid Hb].
  pose proof (grantCreated_ids params expires now (grantFound params es) n) as Hc.
  split.
  - rewrite map_app, map_if_id. apply NoDup_app_intro.
    + exact Nid.
    + apply grantCreated_NoDup_ids.
    + intros i H1 H2. rewrite in_map_iff in H1, H2.
      destruct H1 as [x [<- Hx]]. destruct H2 as [y [E Hy]].
      rewrite Forall_forall in Hb, Hc. specialize (Hb x Hx). specialize (Hc y Hy).
      lia.
  - rewrite Forall_app. split.
    + rewrite Forall_forall in *. intros x Hx. rewrite in_map_iff in Hx.
      destruct Hx as [y [<- Hy]]. specialize (Hb y Hy).
      destruct (touched _ y); cbn; lia.
    + eapply Forall_impl; [| exact Hc]. cbn beta. intros; lia.
Qed.

Lemma expiry_cases (d : option Date) :
  (exists expires, dbDateOf d expires) \/ d = Some InvalidDate.
Proof.
  destruct d as [[t |] |].
  - left. exists (Some t). reflexivity.
  - right. reflexivity.
  - left. exists None. reflexivity.
Qed.

Lemma grantCreated_nil (params : GrantParams) expires now es n :
  (forall p, In p (g_productIds params) ->
             exists e, In e es /\ grantKey params p e = true) ->
  grantCreated params expires now (grantFound params es) n = [].
Proof.
  unfold grantFound. generalize (g_productIds params) as pids.
  induction pids as [| p r IH]; intros H; [reflexivity |].
  cbn [map grantCreated].
  destruct (find (grantKey params p) es) eqn:F.
  - apply IH. intros q Hq. apply H. right. exact Hq.
  - exfalso. destruct (H p (or_introl eq_refl)) as [e [He Hk]].
    pose proof (find_none _ _ F e He). congruence.
Qed.

Lemma grantTable_uniqueKeys (params : GrantParams) expires now es n :
  wf_entitlements es n -> uniqueKeys es -> NoDup (g_productIds params) ->
  uniqueKeys (fst (grantTable params expires now es n)).
Proof.
  intros W U N. rewrite (grantTable_closed _ _ _ _ _ W). cbn [fst].
  unfold uniqueKeys in *. rewrite map_app.
  rewrite (map_if_key params expires _ entKey) by reflexivity.
  unfold grantFound at 1. rewrite grantCreated_keys.
  apply NoDup_app_intro.
  - exact U.
  - apply NoDup_map_injective.
    + intros x y E. inversion E. reflexivity.
    + apply NoDup_filter, N.
  - intros k H1 H2. rewrite in_map_iff in H1, H2.
    destruct H1 as [x [Ex Hx]]. destruct H2 as [p [Ep Hp]].
    apply filter_In in Hp. destruct Hp as [_ Hp].
    destruct (find (grantKey params p) es) eqn:F; [discriminate |].
    pose proof (find_none _ _ F x Hx) as Hn.
    unfold grantKey in Hn.
    assert (T : sameKey (g_identityId params) p (g_source params)
                  (default_to "central" (g_sourceApp params)) x = true).
    { apply sameKey_spec. congruence. }
    congruence.
Qed.

(** X26.  For pairwise distinct product ids [grantAccess] is an upsert.
    On a table with unique ids and at most one row per (identityId,
    productId, source, sourceApp), where the identity, the products and
    the bundle of the grant exist, a grant that succeeds leaves at most
    one row per key.  A row of a granted key is updated in place: it
    keeps id, key and [grantedAt], takes the newly computed expiry and
    has [revokedAt] and [revokedReason] cleared; every other row is as
    before; one row is inserted for each product that had none, and none
    when every product had one. *)
Theorem grantAccess_upsert (params : GrantParams) (now : Z) (s s' : Store)
    (rows : list Entitlement) :
  wf_entitlements (entitlements s) (nextEntitlementId s) ->
  uniqueKeys (entitlements s) ->
  grantRefs params s ->
  NoDup (g_productIds params) ->
  grantAccess params now s = (Ok rows, s') ->
  exists expires,
    dbDateOf (grantExpiry params now) expires
    /\ entitlements s'
       = map (fun x => if isGranted params x
                       then regranted params expires x else x)
             (entitlements s)
         ++ grantCreated params expires now
              (grantFound params (entitlements s)) (nextEntitlementId s)
    /\ (forall x,
          ent_id (regranted params expires x) = ent_id x
          /\ entKey (regranted params expires x) = entKey x
          /\ grantedAt (regranted params expires x) = grantedAt x
          /\ expiresAt (regranted params expires x) = expires
          /\ revokedAt (regranted params expires x) = None
          /\ revokedReason (regranted params expires x) = None)
    /\ (forall x, In x (entitlements s) ->
                  (isGranted params x = true
                   <-> ent_identityId x = g_identityId params
                       /\ In (ent_productId x) (g_productIds params)
                       /\ ent_source x = g_source params
                       /\ ent_sourceApp x
                          = default_to "central" (g_sourceApp params)))
    /\ ((forall p, In p (g_productIds params) ->
                   exists e, In e (entitlements s) /\ grantKey params p e = true) ->
        List.length (entitlements s') = List.length (entitlements s))
    /\ uniqueKeys (entitlements s')
    /\ wf_entitlements (entitlements s') (nextEntitlementId s').
Proof.
  intros W U _ N Hrun.
  destruct (expiry_cases (grantExpiry params now)) as [[expires Hd] | Hinv].
  2: { destruct (grantAccess_invalid params now s Hinv) as [msg E].
       rewrite E in Hrun. discriminate. }
  exists expires. split; [exact Hd |].
  assert (Hgr : forall x,
            isGranted params x = true
            <-> ent_identityId x = g_identityId params
                /\ In (ent_productId x) (g_productIds params)
                /\ ent_source x = g_source params
                /\ ent_sourceApp x = default_to "central" (g_sourceApp params)).
  { intros x. unfold isGranted, grantKey, sameKey.
    rewrite !andb_true_iff, inb_spec, Z.eqb_eq, !String.eqb_eq.
    intuition. }
  destruct (g_productIds params) as [| p0 r0] eqn:Hp.
  - rewrite (grantAccess_empty params now expires s Hp Hd) in Hrun.
    inversion Hrun; subst rows s'. clear Hrun. store_simpl.
    unfold grantFound, isGranted. rewrite Hp.
    cbn [map grantCreated inb existsb]. rewrite app_nil_r.
    split.
    { rewrite <- (map_id (entitlements s)) at 1. apply map_ext.
      intros x. rewrite andb_false_r. reflexivity. }
    split; [intros x; repeat split |].
    split; [intros x _; unfold isGranted in Hgr; rewrite Hp in Hgr; apply Hgr |].
    split; [reflexivity |]. split; assumption.
  - destruct (fits (g_amountPaid params)) eqn:Hfit.
    2: { destruct (grantAccess_unfit params now s) as [msg E];
           [rewrite Hp; discriminate | exact Hfit |].
         rewrite E in Hrun. discriminate. }
    rewrite <- Hp in *.
    destruct (grantAccess_ok params now expires s Hd Hfit) as [rows' Hok].
    rewrite Hok in Hrun. inversion Hrun; subst rows' s'. clear Hrun.
    store_simpl.
    pose proof (grantTable_wf params expires now _ _ W) as W'.
    pose proof (grantTable_uniqueKeys params expires now _ _ W U N) as U'.
    rewrite (grantTable_closed _ _ _ _ _ W) in *. cbn [fst snd] in *.
    destruct W as [Nid Hb].
    rewrite (map_ext_in_if _ _ (isGranted params)) in *
      by (intros x Hx; apply touched_isGranted; assumption).
    split; [reflexivity |].
    split; [intros x; repeat split |].
    split; [intros x _; apply Hgr |].
    split; [| split; assumption].
    intros Hall. rewrite (grantCreated_nil _ _ _ _ _ Hall), app_nil_r.
    apply length_map.
Qed.

(** ** Frames *)

Lemma preserves_ret {A B : Type} (f : Store -> B) (a : A) : preserves f (ret a).
Proof. intros s. reflexivity. Qed.

Lemma preserves_throw {A B : Type} (f : Store -> B) (msg : string) :
  preserves f (@throw A msg).
Proof. intros s. reflexivity. Qed.

Lemma preserves_gets {A B : Type} (f : Store -> B) (g : Store -> A) :
  preserves f (gets g).
Proof. intros s. reflexivity. Qed.

Lemma preserves_modify {B : Type} (f : Store -> B) (g : Store -> Store) :
  (forall s, f (g s) = f s) -> preserves f (modify g).
Proof. intros H s. apply H. Qed.

Lemma preserves_bind {A B C : Type} (f : Store -> C) (m : M A) (k : A -> M B) :
  preserves f m -> (forall a, preserves f (k a)) -> preserves f (bind m k).
Proof.
  intros Hm Hk s. unfold bind. specialize (Hm s).
  destruct (m s) as [[a | e] s1]; cbn [snd] in *.
  - rewrite Hk. exact Hm.
  - exact Hm.
Qed.

Lemma preserves_forEach {A C : Type} (f : Store -> C) (g : A -> M unit)
    (xs : list A) :
  (forall x, preserves f (g x)) -> preserves f (forEach g xs).
Proof.
  intros H. induction xs as [| x r IH]; cbn [forEach].
  - apply preserves_ret.
  - apply preserves_bind; [apply H | intros _; exact IH].
Qed.

Lemma preserves_mapM {A B C : Type} (f : Store -> C) (g : A -> M B)
    (xs : list A) :
  (forall x, preserves f (g x)) -> preserves f (mapM g xs).
Proof.
  intros H. induction xs as [| x r IH]; cbn [mapM].
  - apply preserves_ret.
  - apply preserves_bind; [apply H | intros y].
    apply preserves_bind; [exact IH | intros ys; apply preserves_ret].
Qed.

Lemma preserves_tryCatch {A C : Type} (f : Store -> C) (m : M A)
    (h : string -> M A) :
  preserves f m -> (forall e, preserves f (h e)) -> preserves f (tryCatch m h).
Proof.
  intros Hm Hh s. unfold tryCatch. specialize (Hm s).
  destruct (m s) as [[a | e] s1]; cbn [snd] in *.
  - exact Hm.
  - rewrite Hh. exact Hm.
Qed.

Lemma preserves_awaitAll {C : Type} (f : Store -> C) (calls : list (M unit)) :
  Forall (preserves f) calls ->
  forall failAt, preserves f (awaitAll failAt calls).
Proof.
  induction 1 as [| c r Hc Hr IH]; intros failAt; cbn [awaitAll].
  - apply preserves_ret.
  - destruct failAt as [[| k] |].
    + apply preserves_throw.
    + apply preserves_bind; [exact Hc | intros _; apply IH].
    + apply preserves_bind; [exact Hc | intros _; apply IH].
Qed.

Ltac frame_modify :=
  let s := fresh "s" in
  intros s;
  repeat match goal with
         | |- context [ if ?c then _ else _ ] => destruct c
         | |- context [ match ?c with _ => _ end ] => destruct c
         end;
  reflexivity.

Ltac frame_step :=
  match goal with
  | |- preserves _ (bind _ _) => apply preserves_bind; [| intros ?]
  | |- preserves _ (ret _) => apply preserves_ret
  | |- preserves _ (throw _) => apply preserves_throw
  | |- preserves _ (gets _) => apply preserves_gets
  | |- preserves _ (modify _) => apply preserves_modify; frame_modify
  | |- preserves _ (forEach _ _) => apply preserves_forEach; intros ?
  | |- preserves _ (mapM _ _) => apply preserves_mapM; intros ?
  | |- preserves _ (tryCatch _ _) => apply preserves_tryCatch; [| intros ?]
  | |- preserves _ (if ?c then _ else _) => destruct c
  | |- preserves _ (match ?c with _ => _ end) => destruct c
  | |- preserves _ (let '(_, _) := ?c in _) => destruct c
  end.

Ltac frame :=
  repeat (frame_step
          || (progress unfold
                auditLog_create, getOrCreateIdentity, identityEmail_upsert,
                linkEmailToIdentity, entitlement_findFirst, entitlement_update,
                entitlement_create, entitlement_updateMany, dbDate, dbInt,
                entitlement_findUnique, grantAccess, grantAccess_failing,
                syncToApps, syncToApp, grantAccessAndSync, revokeAccessAndSync,
                createClaimToken, productSubmission_create,
                claimToken_markClaimed, processClaim_validate,
                sendBundlePurchaseEmail, handleCheckoutCompleted,
                handleSubscriptionUpdated, handleSubscriptionDeleted,
                logWebhookEvent, checkAccess)).

Lemma grantAccess_no_sync (params : GrantParams) (now : Z) :
  preserves syncPushes (grantAccess params now).
Proof. frame. Qed.

Lemma handleCheckoutCompleted_no_sync (session : Session) (tok : string) (now : Z) :
  preserves syncPushes (handleCheckoutCompleted session tok now).
Proof. frame. Qed.

Lemma POST_no_sync (event : Event) (tok : string) (now : Z) :
  preserves syncPushes (POST event tok now).
Proof. unfold POST. frame. Qed.

(** ** Revocation and the pushes to the apps *)

Lemma syncToApp_run (appKey email tier source reason : string) (s : Store) :
  syncToApp appKey email tier source reason s
  = (Ok tt,
     with_syncPushes
       (syncPushes s
          ++ if truthy_opt (ADMIN_API_KEY s)
             then [mkSyncPush appKey email tier source reason] else []) s).
Proof.
  unfold syncToApp. rewrite bind_gets.
  destruct (truthy_opt (ADMIN_API_KEY s)); [reflexivity |].
  rewrite app_nil_r. destruct s; reflexivity.
Qed.

Lemma forEach_syncToApp (apps : list string) (email tier source reason : string) :
  forall s,
    forEach (fun appKey => syncToApp appKey email tier source reason) apps s
    = (Ok tt,
       with_syncPushes
         (syncPushes s
            ++ if truthy_opt (ADMIN_API_KEY s)
               then map (fun appKey => mkSyncPush appKey email tier source reason)
                        apps
               else []) s).
Proof.
  induction apps as [| a r IH]; intros s; cbn [forEach map].
  - unfold ret. f_equal. destruct (truthy_opt (ADMIN_API_KEY s));
      rewrite app_nil_r; destruct s; reflexivity.
  - erewrite bind_ok; [| apply syncToApp_run]. rewrite IH. store_simpl.
    f_equal. destruct (truthy_opt (ADMIN_API_KEY s)).
    + rewrite <- app_assoc. destruct s; reflexivity.
    + rewrite !app_nil_r. destruct s; reflexivity.
Qed.

Lemma syncToApps_run (productIds : list string) (email tier source reason : string)
    (s : Store) :
  syncToApps productIds email tier source reason s
  = (Ok tt,
     with_syncPushes
       (syncPushes s
          ++ pushesFor (ADMIN_API_KEY s) productIds email tier source reason) s).
Proof. unfold syncToApps. apply forEach_syncToApp. Qed.

Lemma revokeReason_truthy (reason adminEmail : option string) :
  truthy (revokeReason reason adminEmail) = true.
Proof.
  unfold revokeReason, or_else.
  destruct reason as [r |]; [destruct (truthy r) eqn:T; [exact T |] |];
    destruct adminEmail as [a |]; try destruct (truthy a); reflexivity.
Qed.

Lemma or_else_truthy (x d : string) : truthy x = true -> or_else (Some x) d = x.
Proof. intros H. unfold or_else. rewrite H. reflexivity. Qed.

Lemma update_unique (l1 l2 : list Entitlement) (e : Entitlement)
    (f : Entitlement -> Entitlement) :
  NoDup (map ent_id (l1 ++ e :: l2)) ->
  map (fun x => if ent_id x =? ent_id e then f x else x) (l1 ++ e :: l2)
  = l1 ++ f e :: l2.
Proof.
  intros N. rewrite map_app. cbn [map]. rewrite Z.eqb_refl.
  rewrite map_app in N. cbn [map] in N.
  assert (H1 : forall x, In x l1 -> ent_id x <> ent_id e).
  { intros x Hx E. apply NoDup_remove_2 in N. apply N.
    rewrite in_app_iff. left. rewrite <- E. apply in_map. exact Hx. }
  assert (H2 : forall x, In x l2 -> ent_id x <> ent_id e).
  { intros x Hx E. apply NoDup_remove_2 in N. apply N.
    rewrite in_app_iff. right. rewrite <- E. apply in_map. exact Hx. }
  f_equal; [| f_equal].
  - rewrite <- (map_id l1) at 2. apply map_ext_in. intros x Hx.
    destruct (Z.eqb_spec (ent_id x) (ent_id e)); [| reflexivity].
    exfalso. apply (H1 x Hx). assumption.
  - rewrite <- (map_id l2) at 2. apply map_ext_in. intros x Hx.
    destruct (Z.eqb_spec (ent_id x) (ent_id e)); [| reflexivity].
    exfalso. apply (H2 x Hx). assumption.
Qed.

Lemma find_unique_id (l1 l2 : list Entitlement) (e : Entitlement) :
  NoDup (map ent_id (l1 ++ e :: l2)) ->
  find (fun x => ent_id x =? ent_id e) (l1 ++ e :: l2) = Some e.
Proof.
  intros N. destruct (find_id_present (l1 ++ e :: l2) (ent_id e)) as [x [F E]].
  { apply in_map. rewrite in_app_iff. right. left. reflexivity. }
  rewrite F. f_equal. destruct (find_some _ _ F) as [Hx _].
  apply (NoDup_map_inj ent_id (l1 ++ e :: l2)); try assumption.
  rewrite in_app_iff. right. left. reflexivity.
Qed.

Lemma activeRows_In (i : Z) (p : string) (now : Z) (es : list Entitlement) e :
  In e (activeRows i p now es)
  <-> In e es /\ ent_identityId e = i /\ ent_productId e = p
      /\ revokedAt e = None
      /\ (expiresAt e = None \/ exists x, expiresAt e = Some x /\ now < x).
Proof.
  unfold activeRows. rewrite filter_In, !andb_true_iff, Z.eqb_eq, String.eqb_eq.
  assert (A : isActive now e = true
              <-> revokedAt e = None
                  /\ (expiresAt e = None
                      \/ exists x, expiresAt e = Some x /\ now < x)).
  { unfold isActive. destruct (revokedAt e) as [t |].
    - split; [discriminate | intros [C _]; discriminate].
    - destruct (expiresAt e) as [x |].
      + rewrite Z.ltb_lt. split.
        * intros H. split; [reflexivity | right; exists x; auto].
        * intros [_ [C | [y [E Hy]]]]; [discriminate |].
          inversion E. assumption.
      + split; auto. }
  rewrite A. tauto.
Qed.

Lemma appsToSync_one (p : string) :
  appsToSync [p]
  = match APP_CONFIG (toLowerCase p) with
    | Some _ => [toLowerCase p]
    | None => []
    end.
Proof.
  unfold appsToSync. cbn [appsToSync_from].
  destruct (APP_CONFIG (toLowerCase p)); reflexivity.
Qed.

Lemma revokeEntitlementById_run (id : Z) (reason adminEmail : option string)
    (now now' : Z) (s : Store) (e : Entitlement) (owner : Identity) :
  find (fun x => ent_id x =? id) (entitlements s) = Some e ->
  find (fun i => identity_id i =? ent_identityId e) (identities s) = Some owner ->
  let table :=
    map (fun x => if ent_id x =? id then revoked now reason x else x)
        (entitlements s) in
  let act := activeRows (ent_identityId e) (ent_productId e) now' table in
  let pushes :=
    match act with
    | [] =>
        if truthy (primaryEmail owner)
        then pushesFor (ADMIN_API_KEY s) [ent_productId e] (primaryEmail owner)
               "free" "revoked" (revokeReason reason adminEmail)
        else []
    | _ :: _ => []
    end in
  revokeEntitlementById id reason adminEmail now now' s
  = (Ok (mkRevokeOneResult id (Z.of_nat (List.length act))),
     with_syncPushes (syncPushes s ++ pushes)
       (with_auditLogs
          (auditLogs s
             ++ [mkAuditLog "revoke_single" (ent_identityId e)
                   [ent_productId e] adminEmail])
          (with_entitlements table s))).
Proof.
  intros F Fo. cbv zeta. unfold revokeEntitlementById, entitlement_findUnique.
  rewrite bind_bind, bind_gets, F, bind_ret, bind_gets, Fo.
  rewrite (bind_ok _ _ _ _ _ (entitlement_update_run _ (revoked now reason) _ _ F)).
  unfold auditLog_create. rewrite bind_modify, bind_gets. store_simpl.
  match goal with
  | |- context [ filter ?f ?l ] =>
      change (filter f l)
        with (activeRows (ent_identityId e) (ent_productId e) now' l)
  end.
  destruct (activeRows (ent_identityId e) (ent_productId e) now' _) as [| a r].
  - cbn [List.length Z.of_nat Z.eqb andb].
    destruct (truthy (primaryEmail owner)).
    + unfold revokeAccessAndSync.
      rewrite (or_else_truthy _ _ (revokeReason_truthy reason adminEmail)).
      erewrite bind_ok; [| apply syncToApps_run]. reflexivity.
    + rewrite bind_ret, app_nil_r. unfold ret.
      first [ reflexivity | f_equal; destruct s; reflexivity ].
  - replace (Z.of_nat (List.length (a :: r)) =? 0) with false
      by (symmetry; apply Z.eqb_neq; cbn [List.length]; lia).
    cbn [andb]. rewrite bind_ret, app_nil_r. unfold ret.
    first [ reflexivity | f_equal; destruct s; reflexivity ].
Qed.

(** C7.  [revokeEntitlementById] on the row [e] of a table with unique ids
    rewrites that row only: [revokedAt] becomes the first reading of the
    clock and [revokedReason] the given reason, the other columns stay,
    and every other row stays in its place.  It then counts, at the
    second reading of the clock, the rows of the same identity and
    product that are neither revoked nor expired, and returns the number.
    When a row remains, no push is sent; when none remains (and the
    identity has a primary email, the API key is configured and the
    product is one of the apps), exactly one push goes to the app of the
    product, with the tier free. *)
Theorem revokeEntitlementById_one_row (entitlementId : Z)
    (reason adminEmail : option string) (now now' : Z) (s : Store)
    (l1 l2 : list Entitlement) (e : Entitlement) (owner : Identity) :
  entitlements s = l1 ++ e :: l2 ->
  ent_id e = entitlementId ->
  NoDup (map ent_id (entitlements s)) ->
  find (fun i => identity_id i =? ent_identityId e) (identities s) = Some owner ->
  exists s' e' remaining,
    revokeEntitlementById entitlementId reason adminEmail now now' s
    = (Ok (mkRevokeOneResult entitlementId (Z.of_nat (List.length remaining))), s')
    /\ entitlements s' = l1 ++ e' :: l2
    /\ revokedAt e' = Some now
    /\ revokedReason e'
       = match reason with Some r => Some r | None => revokedReason e end
    /\ clearRevocation e' = clearRevocation e
    /\ remaining
       = activeRows (ent_identityId e) (ent_productId e) now' (l1 ++ l2)
    /\ (forall x,
          In x remaining
          <-> In x (l1 ++ l2)
              /\ ent_identityId x = ent_identityId e
              /\ ent_productId x = ent_productId e
              /\ unexpired now' x)
    /\ (remaining <> [] -> syncPushes s' = syncPushes s)
    /\ (remaining = [] ->
        truthy (primaryEmail owner) = true ->
        truthy_opt (ADMIN_API_KEY s) = true ->
        toLowerCase (ent_productId e) = "rezume"
        \/ toLowerCase (ent_productId e) = "aicoach" ->
        syncPushes s'
        = syncPushes s
          ++ [mkSyncPush (toLowerCase (ent_productId e)) (primaryEmail owner)
                "free" "revoked" (revokeReason reason adminEmail)])
    /\ (syncPushes s' = syncPushes s
        \/ exists q, syncPushes s' = syncPushes s ++ [q])
    /\ auditLogs s'
       = auditLogs s
         ++ [mkAuditLog "revoke_single" (ent_identityId e) [ent_productId e]
               adminEmail].
Proof.
  intros Hes Hid Nid Hown. subst entitlementId.
  assert (F : find (fun x => ent_id x =? ent_id e) (entitlements s) = Some e).
  { rewrite Hes. apply find_unique_id. rewrite <- Hes. exact Nid. }
  pose proof (revokeEntitlementById_run (ent_id e) reason adminEmail now now' s
                e owner F Hown) as R.
  cbv zeta in R.
  assert (T : map (fun x => if ent_id x =? ent_id e
                            then revoked now reason x else x) (entitlements s)
              = l1 ++ revoked now reason e :: l2).
  { rewrite Hes. apply update_unique. rewrite <- Hes. exact Nid. }
  rewrite T in R.
  assert (Hact : activeRows (ent_identityId e) (ent_productId e) now'
                   (l1 ++ revoked now reason e :: l2)
                 = activeRows (ent_identityId e) (ent_productId e) now' (l1 ++ l2)).
  { unfold activeRows. rewrite !filter_app. cbn [filter].
    replace (isActive now' (revoked now reason e)) with false by reflexivity.
    rewrite andb_false_r. reflexivity. }
  rewrite Hact in R.
  eexists. exists (revoked now reason e).
  exists (activeRows (ent_identityId e) (ent_productId e) now' (l1 ++ l2)).
  split; [exact R |]. store_simpl.
  split; [reflexivity |]. split; [reflexivity |].
  split; [destruct reason; reflexivity |].
  split; [reflexivity |]. split; [reflexivity |].
  split; [intros x; rewrite activeRows_In; unfold unexpired; tauto |].
  destruct (activeRows (ent_identityId e) (ent_productId e) now' (l1 ++ l2))
    as [| a r].
  - split; [intros C; contradiction |].
    split.
    + intros _ Te Tk Happ. rewrite Te. unfold pushesFor. rewrite Tk.
      rewrite appsToSync_one.
      destruct Happ as [-> | ->]; reflexivity.
    + split; [| reflexivity].
      destruct (truthy (primaryEmail owner));
        [| left; apply app_nil_r].
      unfold pushesFor. destruct (truthy_opt (ADMIN_API_KEY s));
        [| left; apply app_nil_r].
      rewrite appsToSync_one.
      destruct (APP_CONFIG (toLowerCase (ent_productId e)));
        [right; eexists; reflexivity | left; apply app_nil_r].
  - split; [intros _; apply app_nil_r |].
    split; [discriminate |].
    split; [left; apply app_nil_r | reflexivity].
Qed.

(** ** The access query *)

Lemma insert_desc_In (e x : Entitlement) (l : list Entitlement) :
  In x (insert_desc e l) <-> x = e \/ In x l.
Proof.
  induction l as [| y r IH]; cbn [insert_desc].
  - cbn. intuition.
  - destruct (grantedAt y <=? grantedAt e); cbn [In].
    + intuition.
    + rewrite IH. intuition.
Qed.

Lemma orderBy_In (x : Entitlement) (l : list Entitlement) :
  In x (orderBy_grantedAt_desc l) <-> In x l.
Proof.
  unfold orderBy_grantedAt_desc. induction l as [| y r IH]; cbn [fold_right].
  - reflexivity.
  - rewrite insert_desc_In, IH. cbn. intuition.
Qed.

Lemma insert_desc_headMax (e : Entitlement) (l : list Entitlement) :
  headMax l -> headMax (insert_desc e l).
Proof.
  destruct l as [| y r]; cbn [insert_desc headMax]; intros H.
  - intros x [<- | []]. lia.
  - destruct (Z.leb_spec (grantedAt y) (grantedAt e)); cbn [headMax].
    + intros x [<- | Hx]; [lia |]. specialize (H x Hx). lia.
    + intros x [<- | Hx]; [lia |].
      apply insert_desc_In in Hx. destruct Hx as [-> | Hx]; [lia |].
      apply H. right. exact Hx.
Qed.

Lemma orderBy_headMax (l : list Entitlement) :
  headMax (orderBy_grantedAt_desc l).
Proof.
  unfold orderBy_grantedAt_desc. induction l as [| y r IH]; cbn [fold_right].
  - exact I.
  - apply insert_desc_headMax, IH.
Qed.

Lemma activeEntitlements_spec (i : Z) (productId : string) (now : Z) (s : Store) :
  match activeEntitlements i productId now s with
  | [] => activeRows i productId now (entitlements s) = []
  | e :: _ =>
      In e (activeRows i productId now (entitlements s))
      /\ forall x, In x (activeRows i productId now (entitlements s)) ->
                   grantedAt x <= grantedAt e
  end.
Proof.
  unfold activeEntitlements. fold (activeRows i productId now (entitlements s)).
  pose proof (orderBy_headMax (activeRows i productId now (entitlements s))) as H.
  pose proof (fun x => orderBy_In x (activeRows i productId now (entitlements s)))
    as HI.
  destruct (orderBy_grantedAt_desc (activeRows i productId now (entitlements s)))
    as [| e r].
  - destruct (activeRows i productId now (entitlements s)) as [| a l];
      [reflexivity |].
    exfalso. apply (HI a). left. reflexivity.
  - split.
    + apply HI. left. reflexivity.
    + intros x Hx. apply H. apply HI. exact Hx.
Qed.

Lemma checkEntitlementAccess_active (s : Store) (now now' : Z) e productId :
  isActive now e = true ->
  checkEntitlementAccess s now' e productId
  = if match expiresAt e with Some x => x <? now' | None => false end
    then noAccess productId else accessOf s productId e.
Proof.
  unfold isActive, checkEntitlementAccess.
  destruct (revokedAt e); [discriminate | reflexivity].
Qed.

Lemma checkAccess_active (email productId : string) (now now' : Z) (s : Store) :
  exists r,
    checkAccess email productId now now' s = (Ok r, s)
    /\ ar_product r = productId
    /\ match resolveIdentity email productId s with
       | None => r = noAccess productId
       | Some i =>
           let act := activeRows i productId now (entitlements s) in
           (act = [] -> r = noAccess productId)
           /\ (hasAccess r = false -> r = noAccess productId)
           /\ (hasAccess r = true ->
               exists e,
                 In e act
                 /\ (forall x, In x act -> grantedAt x <= grantedAt e)
                 /\ (forall t, expiresAt e = Some t -> now' <= t)
                 /\ r = accessOf s productId e)
           /\ (act <> [] ->
               (forall e x, In e act -> expiresAt e = Some x -> now' <= x) ->
               hasAccess r = true)
       end.
Proof.
  assert (Hmain : forall i,
    exists r,
      (ents <- gets (activeEntitlements i productId now) ;;
       match ents with
       | [] => ret (noAccess productId)
       | entitlement :: _ =>
           gets (fun s => checkEntitlementAccess s now' entitlement productId)
       end) s = (Ok r, s)
      /\ ar_product r = productId
      /\ let act := activeRows i productId now (entitlements s) in
         (act = [] -> r = noAccess productId)
         /\ (hasAccess r = false -> r = noAccess productId)
         /\ (hasAccess r = true ->
             exists e,
               In e act
               /\ (forall x, In x act -> grantedAt x <= grantedAt e)
               /\ (forall t, expiresAt e = Some t -> now' <= t)
               /\ r = accessOf s productId e)
         /\ (act <> [] ->
             (forall e x, In e act -> expiresAt e = Some x -> now' <= x) ->
             hasAccess r = true)).
  { intros i. rewrite bind_gets.
    pose proof (activeEntitlements_spec i productId now s) as H.
    destruct (activeEntitlements i productId now s) as [| e r].
    - exists (noAccess productId). cbv zeta. rewrite H.
      repeat split; try reflexivity; try discriminate.
      intros C. contradiction.
    - destruct H as [Hin Hmax].
      assert (Hact : isActive now e = true).
      { unfold activeRows in Hin. apply filter_In in Hin.
        destruct Hin as [_ Hin]. apply andb_true_iff in Hin. tauto. }
      unfold gets. rewrite (checkEntitlementAccess_active _ _ _ _ _ Hact).
      eexists. split; [reflexivity |]. cbv zeta.
      split; [destruct (match expiresAt e with Some _ => _ | None => _ end);
              reflexivity |].
      split; [intros E; rewrite E in Hin; contradiction |].
      split.
      { destruct (match expiresAt e with Some _ => _ | None => _ end);
          [reflexivity | discriminate]. }
      split.
      + intros Hacc. exists e. split; [exact Hin |]. split; [exact Hmax |].
        destruct (expiresAt e) as [x |] eqn:Ex.
        * destruct (Z.ltb_spec x now'); [discriminate |].
          split; [| reflexivity]. intros t Et. inversion Et; subst. lia.
        * split; [discriminate | reflexivity].
      + intros _ Hexp. destruct (expiresAt e) as [x |] eqn:Ex; [| reflexivity].
        specialize (Hexp e x Hin Ex).
        destruct (Z.ltb_spec x now'); [lia | reflexivity]. }
  unfold checkAccess, resolveIdentity. rewrite bind_gets.
  destruct (find _ (identityEmails s)) as [ie |].
  - apply Hmain.
  - rewrite bind_gets. destruct (find _ (identities s)) as [i |]; cbn [option_map].
    + apply Hmain.
    + exists (noAccess productId). repeat split.
Qed.

Lemma resolveIdentity_spec (email productId : string) (s : Store) :
  let bound := fun row =>
    In row (identityEmails s)
    /\ ie_email row = toLowerCase email /\ ie_productId row = productId in
  let primary := fun i =>
    In i (identities s) /\ primaryEmail i = toLowerCase email in
  match resolveIdentity email productId s with
  | Some i =>
      (exists row, bound row /\ ie_identityId row = i)
      \/ ((forall row, ~ bound row) /\ exists x, primary x /\ identity_id x = i)
  | None => (forall row, ~ bound row) /\ (forall x, ~ primary x)
  end.
Proof.
  cbv zeta. unfold resolveIdentity.
  destruct (find _ (identityEmails s)) as [ie |] eqn:F.
  - left. apply find_some in F. destruct F as [Hin Hb].
    apply andb_true_iff in Hb. destruct Hb as [H1 H2].
    apply String.eqb_eq in H1, H2. exists ie. auto.
  - assert (Hn : forall row,
              ~ (In row (identityEmails s)
                 /\ ie_email row = toLowerCase email
                 /\ ie_productId row = productId)).
    { intros row [Hin [H1 H2]]. pose proof (find_none _ _ F row Hin) as C.
      cbv beta in C. rewrite H1, H2, !String.eqb_refl in C. discriminate. }
    destruct (find _ (identities s)) as [i |] eqn:G; cbn [option_map].
    + right. split; [exact Hn |]. apply find_some in G.
      destruct G as [Hin Hb]. apply String.eqb_eq in Hb. exists i. auto.
    + split; [exact Hn |]. intros x [Hin Hx].
      pose proof (find_none _ _ G x Hin) as C. cbv beta in C.
      rewrite Hx, String.eqb_refl in C. discriminate.
Qed.

(** C8.  [checkAccess] never fails and writes nothing.  It resolves the
    identity through a binding of the lower-cased email for the product,
    else through the primary email; without either the answer is no
    access.  The rows that count are those of the identity and product
    that are not revoked and do not expire at or before the reading of
    the clock at the query.  When there is none (no row, every row
    revoked or every row expired) the answer is no access.  When access
    is reported, the answer carries the source, the bundle name, the
    expiry and the grant time of such a row whose [grantedAt] is the
    greatest; and access is reported whenever such a row exists and none
    of them expires before the second reading of the clock. *)
Theorem checkAccess_spec (email productId : string) (now now' : Z) (s : Store) :
  let bound := fun row =>
    In row (identityEmails s)
    /\ ie_email row = toLowerCase email /\ ie_productId row = productId in
  let primary := fun i =>
    In i (identities s) /\ primaryEmail i = toLowerCase email in
  let counts := fun i e =>
    In e (entitlements s)
    /\ ent_identityId e = i /\ ent_productId e = productId
    /\ unexpired now e in
  exists r resolved,
    checkAccess email productId now now' s = (Ok r, s)
    /\ ar_product r = productId
    /\ match resolved with
       | Some i =>
           (exists row, bound row /\ ie_identityId row = i)
           \/ ((forall row, ~ bound row)
               /\ exists x, primary x /\ identity_id x = i)
       | None => (forall row, ~ bound row) /\ (forall x, ~ primary x)
       end
    /\ match resolved with
       | None => r = noAccess productId
       | Some i =>
           ((forall e, ~ counts i e) -> r = noAccess productId)
           /\ (hasAccess r = false -> r = noAccess productId)
           /\ (hasAccess r = true ->
               exists e,
                 counts i e
                 /\ (forall x, counts i x -> grantedAt x <= grantedAt e)
                 /\ (forall t, expiresAt e = Some t -> now' <= t)
                 /\ ar_source r = Some (ent_source e)
                 /\ ar_bundleName r
                    = match ent_bundleId e with
                      | Some b =>
                          option_map bundle_name
                            (find (fun x => bundle_id x =? b) (bundles s))
                      | None => None
                      end
                 /\ ar_expires r = expiresAt e
                 /\ ar_grantedAt r = Some (grantedAt e))
           /\ ((exists e, counts i e) ->
               (forall e t, counts i e -> expiresAt e = Some t -> now' <= t) ->
               hasAccess r = true)
       end.
Proof.
  cbv zeta.
  destruct (checkAccess_active email productId now now' s) as [r [Hrun [Hp H]]].
  pose proof (resolveIdentity_spec email productId s) as Hres. cbv zeta in Hres.
  exists r, (resolveIdentity email productId s).
  split; [exact Hrun |]. split; [exact Hp |]. split; [exact Hres |].
  destruct (resolveIdentity email productId s) as [i |]; [| exact H].
  cbv zeta in H. destruct H as [H1 [H2 [H3 H4]]].
  assert (Hin : forall e,
            In e (activeRows i productId now (entitlements s))
            <-> In e (entitlements s)
                /\ ent_identityId e = i /\ ent_productId e = productId
                /\ unexpired now e).
  { intros e. rewrite activeRows_In. unfold unexpired. tauto. }
  split; [| split; [exact H2 | split]].
  - intros Hno. apply H1.
    destruct (activeRows i productId now (entitlements s)) as [| a l] eqn:E;
      [reflexivity |].
    exfalso. apply (Hno a). apply Hin. left. reflexivity.
  - intros Hacc. destruct (H3 Hacc) as [e [He [Hmax [Hexp Hr]]]].
    exists e. split; [apply Hin, He |].
    split; [intros x Hx; apply Hmax, Hin, Hx |].
    split; [exact Hexp |].
    subst r. unfold accessOf, bundleOf. cbn.
    repeat split. destruct (ent_bundleId e); reflexivity.
  - intros [e He] Hexp. apply H4.
    + intros C. apply Hin in He. rewrite C in He. contradiction.
    + intros x t Hx. apply Hexp, Hin, Hx.
Qed.

(** ** Lower-cased emails *)

Lemma lower_ascii_idem (c : ascii) : lower_ascii (lower_ascii c) = lower_ascii c.
Proof. destruct c as [[] [] [] [] [] [] [] []]; reflexivity. Qed.

Lemma toLowerCase_idem (s : string) : toLowerCase (toLowerCase s) = toLowerCase s.
Proof.
  induction s as [| c r IH]; cbn [toLowerCase]; [reflexivity |].
  rewrite lower_ascii_idem, IH. reflexivity.
Qed.







Lemma link_adds (i : Z) (email p : string) (s : Store) :
  In (mkIdentityEmail (toLowerCase email) p i)
     (identityEmails (snd (linkEmailToIdentity i email p s))).
Proof.
  unfold linkEmailToIdentity, identityEmail_upsert, modify. cbn [snd].
  destruct (existsb _ (identityEmails s)) eqn:E; store_simpl.
  - apply existsb_exists in E. destruct E as [ie [Hin Hb]].
    apply in_map_iff. exists ie. split; [| exact Hin]. rewrite Hb.
    unfold sameBinding in Hb. apply andb_true_iff in Hb.
    destruct Hb as [H1 H2]. apply String.eqb_eq in H1, H2.
    rewrite H1, H2. reflexivity.
  - rewrite in_app_iff. right. left. reflexivity.
Qed.



Lemma small_not_capital (c : ascii) : isCapital (small c) = false.
Proof. destruct c as [[] [] [] [] [] [] [] []]; reflexivity. Qed.








(** ** Reports of the apps *)

Lemma getOrCreateIdentity_id (email : string) (c : option string) (s : Store) :
  exists ident s1,
    getOrCreateIdentity email c s = (Ok ident, s1)
    /\ identity_id ident = identityIdFor email s
    /\ primaryEmail ident = toLowerCase email.
Proof.
  unfold getOrCreateIdentity, identityIdFor. rewrite bind_gets.
  destruct (find _ (identities s)) as [i |] eqn:F.
  - apply find_some in F. destruct F as [_ F]. apply String.eqb_eq in F.
    destruct (truthy_opt c && negb (truthy_opt (stripeCustomerId i)));
      do 2 eexists; (split; [reflexivity |]); split; try reflexivity; exact F.
  - do 2 eexists. split; [reflexivity |]. split; reflexivity.
Qed.





(** ** The effect of a grant *)

Lemma grantAccess_effect (params : GrantParams) (now : Z) (s : Store) :
  isOk (fst (grantAccess params now s)) = negb (grantRejected params now)
  /\ entitlements (snd (grantAccess params now s))
     = fst (grantEffect params now (entitlements s) (nextEntitlementId s))
  /\ nextEntitlementId (snd (grantAccess params now s))
     = snd (grantEffect params now (entitlements s) (nextEntitlementId s))
  /\ auditLogs (snd (grantAccess params now s))
     = if grantRejected params now then auditLogs s
       else auditLogs s ++ [grantAudit params].
Proof.
  unfold grantEffect.
  destruct (expiry_cases (grantExpiry params now)) as [[expires Hd] | Hinv].
  - assert (Hv : expiryValue (grantExpiry params now) = expires)
      by (rewrite Hd; destruct expires; reflexivity).
    destruct (g_productIds params) as [| p r] eqn:Hp.
    + assert (R : grantRejected params now = false).
      { unfold grantRejected. rewrite Hd, Hp. destruct expires; reflexivity. }
      rewrite R, (grantAccess_empty params now expires s Hp Hd).
      cbn [fst snd isOk negb]. store_simpl.
      unfold grantTable, grantFound. rewrite Hp. cbn. auto.
    + destruct (fits (g_amountPaid params)) eqn:Hfit.
      * assert (R : grantRejected params now = false).
        { unfold grantRejected. rewrite Hd, Hp, Hfit.
          destruct expires; reflexivity. }
        rewrite R, Hv.
        destruct (grantAccess_ok params now expires s Hd Hfit) as [rows H].
        rewrite H. cbn [fst snd isOk negb]. store_simpl. auto.
      * assert (R : grantRejected params now = true).
        { unfold grantRejected. rewrite Hd, Hp, Hfit.
          destruct expires; reflexivity. }
        rewrite R.
        destruct (grantAccess_unfit params now s) as [msg H];
          [rewrite Hp; discriminate | exact Hfit |].
        rewrite H. cbn [fst snd isOk negb]. auto.
  - assert (R : grantRejected params now = true)
      by (unfold grantRejected; rewrite Hinv; reflexivity).
    rewrite R. destruct (grantAccess_invalid params now s Hinv) as [msg H].
    rewrite H. cbn [fst snd isOk negb]. auto.
Qed.

(** What a grant that is not rejected has: an expiry that is a valid
    date or none, and an amount that fits when a row is written. *)
Lemma grantRejected_false (params : GrantParams) (now : Z) :
  grantRejected params now = false ->
  dbDateOf (grantExpiry params now) (expiryValue (grantExpiry params now))
  /\ (g_productIds params = [] \/ fits (g_amountPaid params) = true).
Proof.
  unfold grantRejected.
  destruct (grantExpiry params now) as [[t |] |]; try discriminate;
    (destruct (g_productIds params) as [| p r];
     [intros _; split; [reflexivity | left; reflexivity] |]);
    destruct (fits (g_amountPaid params)); try discriminate;
    intros _; split; try reflexivity; right; reflexivity.
Qed.

Lemma grantRejected_valid (params : GrantParams) (now : Z) expires :
  dbDateOf (grantExpiry params now) expires ->
  fits (g_amountPaid params) = true ->
  grantRejected params now = false
  /\ expiryValue (grantExpiry params now) = expires.
Proof.
  intros Hd Hfit. unfold grantRejected. rewrite Hd, Hfit.
  destruct expires, (g_productIds params); split; reflexivity.
Qed.

Lemma grantWrites_rows (params : GrantParams) expires now found :
  forall es n,
    (forall p e, In (p, Some e) found ->
                 exists x, In x es /\ ent_id x = ent_id e
                           /\ grantKey params p x = true) ->
    forall es0,
      (forall p, (exists x, In x es0 /\ grantedRow params expires p x) ->
                 exists x, In x es /\ grantedRow params expires p x) ->
      forall p,
        (In p (map fst found)
         \/ exists x, In x es0 /\ grantedRow params expires p x) ->
        exists x,
          In x (fst (grantWrites params expires now found es n))
          /\ grantedRow params expires p x.
Proof.
  induction found as [| [q [e |]] r IH]; intros es n Hinv es0 Hold p Hp.
  - cbn [grantWrites fst]. destruct Hp as [[] | Hp]. apply Hold, Hp.
  - cbn [grantWrites].
    set (es1 := map (fun x => if ent_id x =? ent_id e
                              then regranted params expires x else x) es).
    assert (Hkeep : forall p0 x, In x es -> grantedRow params expires p0 x ->
                      exists y, In y es1 /\ grantedRow params expires p0 y).
    { intros p0 x Hx [Hk [Hr [Hrr He]]].
      exists (if ent_id x =? ent_id e then regranted params expires x else x).
      split; [subst es1; apply in_map_iff; exists x; auto |].
      destruct (ent_id x =? ent_id e); repeat split; auto. }
    apply (IH es1 n) with (es0 := es1).
    + intros p0 e' Hin. destruct (Hinv p0 e' (or_intror Hin)) as [x [Hx [Hi Hk]]].
      exists (if ent_id x =? ent_id e then regranted params expires x else x).
      split; [subst es1; apply in_map_iff; exists x; auto |].
      destruct (ent_id x =? ent_id e); auto.
    + auto.
    + cbn [map fst] in Hp. destruct Hp as [[<- | Hp] | Hp].
      * right. destruct (Hinv q e (or_introl eq_refl)) as [x [Hx [Hi Hk]]].
        exists (regranted params expires x). split.
        -- subst es1. apply in_map_iff. exists x. split; [| exact Hx].
           rewrite Hi, Z.eqb_refl. reflexivity.
        -- repeat split. exact Hk.
      * left. exact Hp.
      * right. destruct (Hold p Hp) as [x [Hx Hg]]. apply (Hkeep p x Hx Hg).
  - cbn [grantWrites].
    set (row := granted params q (default_to "central" (g_sourceApp params))
                  expires now n).
    apply (IH (es ++ [row]) (n + 1)) with (es0 := es ++ [row]).
    + intros p0 e' Hin. destruct (Hinv p0 e' (or_intror Hin)) as [x [Hx H]].
      exists x. rewrite in_app_iff. auto.
    + auto.
    + cbn [map fst] in Hp. destruct Hp as [[<- | Hp] | Hp].
      * right. exists row. split; [rewrite in_app_iff; right; left; reflexivity |].
        repeat split. unfold grantKey, row, granted, sameKey. cbn.
        rewrite Z.eqb_refl, !String.eqb_refl. reflexivity.
      * left. exact Hp.
      * right. destruct (Hold p Hp) as [x [Hx Hg]]. exists x.
        rewrite in_app_iff. auto.
Qed.

Lemma grantTable_rows (params : GrantParams) expires now es n p :
  In p (g_productIds params) ->
  exists x,
    In x (fst (grantTable params expires now es n))
    /\ grantedRow params expires p x.
Proof.
  intros Hp. unfold grantTable.
  apply (grantWrites_rows params expires now (grantFound params es) es n)
    with (es0 := es).
  - intros q e Hin. apply grantFound_in in Hin. exists e. tauto.
  - auto.
  - left. unfold grantFound. rewrite map_map. cbn [fst]. rewrite map_id. exact Hp.
Qed.

(** ** Claim activation *)

Lemma awaitAll_None_app (l1 l2 : list (M unit)) :
  Forall neverFails l1 ->
  forall s,
    awaitAll None (l1 ++ l2) s = awaitAll None l2 (snd (awaitAll None l1 s)).
Proof.
  induction 1 as [| c r Hc Hr IH]; intros s; [reflexivity |].
  cbn [app awaitAll]. unfold bind. specialize (Hc s).
  destruct (c s) as [[[] | e] s1]; cbn [fst] in Hc; [| discriminate].
  apply IH.
Qed.

Lemma awaitAll_Some_app (l1 l2 : list (M unit)) :
  Forall neverFails l1 ->
  forall k s,
    awaitAll (Some (List.length l1 + k)%nat) (l1 ++ l2) s
    = awaitAll (Some k) l2 (snd (awaitAll None l1 s)).
Proof.
  induction 1 as [| c r Hc Hr IH]; intros k s; [reflexivity |].
  cbn [app awaitAll List.length Nat.add]. unfold bind. specialize (Hc s).
  destruct (c s) as [[[] | e] s1]; cbn [fst] in Hc; [| discriminate].
  apply IH.
Qed.

Lemma awaitAll_Some_prefix (l1 l2 : list (M unit)) :
  forall k s,
    (k < List.length l1)%nat ->
    isOk (fst (awaitAll (Some k) (l1 ++ l2) s)) = false
    /\ snd (awaitAll (Some k) (l1 ++ l2) s) = snd (awaitAll (Some k) l1 s).
Proof.
  induction l1 as [| c r IH]; intros k s Hk; [cbn in Hk; lia |].
  cbn [app awaitAll]. destruct k as [| k]; [split; reflexivity |].
  unfold bind. destruct (c s) as [[[] | e] s1]; [| split; reflexivity].
  apply IH. cbn in Hk. lia.
Qed.

Lemma claimPrep_neverFails pe ident pids : Forall neverFails (claimPrep pe ident pids).
Proof.
  unfold claimPrep. rewrite Forall_forall. intros c Hc.
  apply in_flat_map in Hc. destruct Hc as [p [_ Hc]].
  destruct (lookup p pe) as [pd |]; [| contradiction].
  apply in_app_iff in Hc. destruct Hc as [Hc | Hc].
  - destruct (truthy (pd_email pd)); [| contradiction].
    destruct Hc as [<- | []]. intros s. reflexivity.
  - destruct (pd_formData pd); [| contradiction].
    destruct Hc as [<- | []]. intros s. reflexivity.
Qed.

Lemma claimPrep_preserves {B : Type} (f : Store -> B) pe ident pids :
  (forall i e p, preserves f (linkEmailToIdentity i e p)) ->
  (forall row, preserves f (productSubmission_create row)) ->
  Forall (preserves f) (claimPrep pe ident pids).
Proof.
  intros Hl Hs. unfold claimPrep. rewrite Forall_forall. intros c Hc.
  apply in_flat_map in Hc. destruct Hc as [p [_ Hc]].
  destruct (lookup p pe) as [pd |]; [| contradiction].
  apply in_app_iff in Hc. destruct Hc as [Hc | Hc].
  - destruct (truthy (pd_email pd)); [| contradiction].
    destruct Hc as [<- | []]. apply Hl.
  - destruct (pd_formData pd); [| contradiction].
    destruct Hc as [<- | []]. apply Hs.
Qed.

Lemma link_keeps (i : Z) (email p : string) (s : Store) (row : IdentityEmail) :
  ie_identityId row = i ->
  In row (identityEmails s) ->
  In row (identityEmails (snd (linkEmailToIdentity i email p s))).
Proof.
  intros Hi Hin.
  unfold linkEmailToIdentity, identityEmail_upsert, modify. cbn [snd].
  destruct (existsb _ (identityEmails s)) eqn:E; store_simpl.
  - apply in_map_iff. exists row. split; [| exact Hin].
    destruct (sameBinding (toLowerCase email) p row); [| reflexivity].
    destruct row; cbn in *. subst. reflexivity.
  - rewrite in_app_iff. left. exact Hin.
Qed.

Lemma awaitAll_None_inv (Q : Store -> Prop) (calls : list (M unit)) :
  Forall neverFails calls ->
  (forall c, In c calls -> forall s, Q s -> Q (snd (c s))) ->
  forall s, Q s -> Q (snd (awaitAll None calls s)).
Proof.
  induction 1 as [| c r Hc Hr IH]; intros Hq s Hs; [exact Hs |].
  cbn [awaitAll]. unfold bind.
  pose proof (Hq c (or_introl eq_refl) s Hs) as H1. specialize (Hc s).
  destruct (c s) as [[[] | e] s1]; cbn [fst snd] in *; [| discriminate].
  apply IH; [| exact H1]. intros c' Hc'. apply Hq. right. exact Hc'.
Qed.

Lemma claimPrep_calls pe ident pids c :
  In c (claimPrep pe ident pids) ->
  (exists e p, c = linkEmailToIdentity (identity_id ident) e p)
  \/ (exists row, c = productSubmission_create row).
Proof.
  unfold claimPrep. intros Hc.
  apply in_flat_map in Hc. destruct Hc as [p [_ Hc]].
  destruct (lookup p pe) as [pd |]; [| contradiction].
  apply in_app_iff in Hc. destruct Hc as [Hc | Hc].
  - destruct (truthy (pd_email pd)); [| contradiction].
    destruct Hc as [<- | []]. left. eauto.
  - destruct (pd_formData pd); [| contradiction].
    destruct Hc as [<- | []]. right. eauto.
Qed.

Lemma Forall_app_r {A : Type} (Q : A -> Prop) (l1 l2 : list A) :
  Forall Q (l1 ++ l2) -> Forall Q l2.
Proof. rewrite Forall_app. tauto. Qed.

Lemma Forall_app_l {A : Type} (Q : A -> Prop) (l1 l2 : list A) :
  Forall Q (l1 ++ l2) -> Forall Q l1.
Proof. rewrite Forall_app. tauto. Qed.

Lemma awaitAll_prep_binds pe ident pids s p pd :
  In p pids -> lookup p pe = Some pd -> truthy (pd_email pd) = true ->
  In (mkIdentityEmail (toLowerCase (pd_email pd)) p (identity_id ident))
     (identityEmails (snd (awaitAll None (claimPrep pe ident pids) s))).
Proof.
  intros Hp Hl Ht.
  set (c0 := linkEmailToIdentity (identity_id ident) (pd_email pd) p).
  assert (Hin : In c0 (claimPrep pe ident pids)).
  { unfold claimPrep. apply in_flat_map. exists p. split; [exact Hp |].
    rewrite Hl, Ht. left. reflexivity. }
  pose proof (claimPrep_neverFails pe ident pids) as NF.
  assert (Hcalls : forall c, In c (claimPrep pe ident pids) ->
            forall s0,
              In (mkIdentityEmail (toLowerCase (pd_email pd)) p (identity_id ident))
                 (identityEmails s0) ->
              In (mkIdentityEmail (toLowerCase (pd_email pd)) p (identity_id ident))
                 (identityEmails (snd (c s0)))).
  { intros c Hc s0 H0. apply claimPrep_calls in Hc.
    destruct Hc as [[e [q ->]] | [row ->]].
    - apply link_keeps; [reflexivity | exact H0].
    - exact H0. }
  destruct (in_split _ _ Hin) as [l1 [l2 E]]. rewrite E in *.
  rewrite awaitAll_None_app by (apply (Forall_app_l _ _ _ NF)).
  cbn [awaitAll]. unfold bind.
  pose proof (link_adds (identity_id ident) (pd_email pd) p
                (snd (awaitAll None l1 s))) as Hadd.
  fold c0 in Hadd.
  assert (F0 : neverFails c0) by (intros s0; reflexivity).
  specialize (F0 (snd (awaitAll None l1 s))).
  destruct (c0 (snd (awaitAll None l1 s))) as [[[] | e] s1];
    cbn [fst snd] in *; [| discriminate].
  apply awaitAll_None_inv with
    (Q := fun s0 =>
            In (mkIdentityEmail (toLowerCase (pd_email pd)) p (identity_id ident))
               (identityEmails s0)).
  - apply Forall_app_r in NF. inversion NF; assumption.
  - intros c Hc. apply Hcalls. rewrite in_app_iff. right. right. exact Hc.
  - exact Hadd.
Qed.

Lemma claimPrep_cons pe ident q r :
  claimPrep pe ident (q :: r) = claimPrep pe ident [q] ++ claimPrep pe ident r.
Proof. unfold claimPrep. cbn [flat_map]. rewrite app_nil_r. reflexivity. Qed.

Lemma awaitAll_prep_submissions pe ident :
  forall pids s,
    productSubmissions (snd (awaitAll None (claimPrep pe ident pids) s))
    = productSubmissions s ++ submissionsOf pe ident pids.
Proof.
  induction pids as [| q r IH]; intros s; [cbn; rewrite app_nil_r; reflexivity |].
  rewrite claimPrep_cons, awaitAll_None_app by apply claimPrep_neverFails.
  rewrite IH. unfold submissionsOf at 2. cbn [flat_map].
  fold (submissionsOf pe ident r). rewrite app_assoc. f_equal.
  unfold claimPrep. cbn [flat_map]. rewrite app_nil_r.
  assert (L : forall e s0,
            productSubmissions (snd (linkEmailToIdentity (identity_id ident) e q s0))
            = productSubmissions s0).
  { intros e. assert (P : preserves productSubmissions
                            (linkEmailToIdentity (identity_id ident) e q))
      by frame. exact P. }
  assert (R : forall e s0,
            linkEmailToIdentity (identity_id ident) e q s0
            = (Ok tt, snd (linkEmailToIdentity (identity_id ident) e q s0)))
    by reflexivity.
  destruct (lookup q pe) as [pd |]; [| cbn; rewrite app_nil_r; reflexivity].
  destruct (truthy (pd_email pd)), (pd_formData pd); cbn [app awaitAll].
  - erewrite bind_ok; [| apply R]. cbv beta. cbn [awaitAll].
    unfold bind, productSubmission_create, modify, ret. cbn [snd fst].
    store_simpl. rewrite L. reflexivity.
  - erewrite bind_ok; [| apply R]. cbv beta. cbn [awaitAll].
    unfold ret. cbn [snd]. rewrite L, app_nil_r. reflexivity.
  - reflexivity.
  - cbn. rewrite app_nil_r. reflexivity.
Qed.

Lemma validate_pure (tok : string) (now : Z) (s : Store) :
  snd (processClaim_validate tok now s) = s.
Proof.
  assert (P : preserves (fun s => s) (processClaim_validate tok now)) by frame.
  apply P.
Qed.

Lemma validate_ok_inv (tok : string) (now : Z) (s : Store) c bundle ident :
  fst (processClaim_validate tok now s) = Ok (c, bundle, ident) ->
  find (fun x => (token x =? tok)%string) (claimTokens s) = Some c
  /\ find (fun x => bundle_id x =? ct_bundleId c) (bundles s) = Some bundle
  /\ find (fun x => identity_id x =? ct_identityId c) (identities s) = Some ident
  /\ claimed c = false
  /\ (ct_expiresAt c <? now) = false.
Proof.
  unfold processClaim_validate. rewrite bind_gets.
  destruct (find _ (claimTokens s)) as [c0 |] eqn:Ft; [| discriminate].
  rewrite !bind_gets.
  destruct (find _ (bundles s)) as [b |] eqn:Fb;
    [| destruct (find _ (identities s)); discriminate].
  destruct (find _ (identities s)) as [i |] eqn:Fi; [| discriminate].
  destruct (claimed c0) eqn:Hc; [discriminate |].
  destruct (ct_expiresAt c0 <? now) eqn:He; [discriminate |].
  cbn. intros E. inversion E; subst. auto.
Qed.

Lemma validate_claimed (tok : string) (now : Z) (s : Store) c bundle ident :
  find (fun x => (token x =? tok)%string) (claimTokens s) = Some c ->
  find (fun x => bundle_id x =? ct_bundleId c) (bundles s) = Some bundle ->
  find (fun x => identity_id x =? ct_identityId c) (identities s) = Some ident ->
  claimed c = true ->
  processClaim_validate tok now s = (Err "Token already claimed", s).
Proof.
  intros Ht Hb Hi Hc. unfold processClaim_validate.
  rewrite bind_gets, Ht, !bind_gets, Hb, Hi, Hc. reflexivity.
Qed.

Lemma markClaimed_run (tok : string) (now : Z) (s : Store) c :
  find (fun x => (token x =? tok)%string) (claimTokens s) = Some c ->
  claimToken_markClaimed tok now s
  = (Ok tt, with_claimTokens (markedClaimed tok now (claimTokens s)) s).
Proof.
  intros H. unfold claimToken_markClaimed. rewrite bind_gets, H. reflexivity.
Qed.

Lemma processClaim_calls_split tok pe bundle ident now :
  processClaim_calls tok pe bundle ident now
  = claimPrep pe ident (productIds bundle) ++ claimRest tok bundle ident now.
Proof. reflexivity. Qed.

Lemma claimRest_run (tok : string) (bundle : Bundle) (ident : Identity)
    (now : Z) (sp : Store) (c : ClaimToken) (failAt : option nat) :
  find (fun x => (token x =? tok)%string) (claimTokens sp) = Some c ->
  RestFacts tok bundle ident now sp
    (awaitAll failAt (claimRest tok bundle ident now) sp)
  /\ (failAt = None ->
      isOk (fst (awaitAll failAt (claimRest tok bundle ident now) sp))
      = negb (grantRejected (claimGrant bundle ident) now))
  /\ (forall j, failAt = Some j -> (j < 3)%nat ->
                isOk (fst (awaitAll failAt (claimRest tok bundle ident now) sp))
                = false).
Proof.
  intros Htok. set (P := claimGrant bundle ident).
  destruct (grantAccess_effect P now sp) as [Hok [Hent [Hnext Haud]]].
  assert (Htk : claimTokens (snd (grantAccess P now sp)) = claimTokens sp).
  { assert (F : preserves claimTokens (grantAccess P now)) by frame. apply F. }
  destruct (grantAccess P now sp) as [[rows | e] sg] eqn:G;
    cbn [fst snd isOk] in *.
  - (* the grant is applied *)
    assert (Hrej : grantRejected P now = false)
      by (destruct (grantRejected P now); [discriminate | reflexivity]).
    rewrite Hrej in *.
    assert (Hm : claimToken_markClaimed tok now sg
                 = (Ok tt, with_claimTokens
                             (markedClaimed tok now (claimTokens sp)) sg)).
    { rewrite <- Htk. apply (markClaimed_run tok now sg c). rewrite Htk.
      exact Htok. }
    assert (Run : forall fa,
              awaitAll fa (claimRest tok bundle ident now) sp
              = match fa with
                | Some O => (Err "Can't reach database server", sp)
                | Some (S O) => (Err "Can't reach database server", sg)
                | Some (S (S O)) =>
                    (Err "Can't reach database server",
                     with_claimTokens (markedClaimed tok now (claimTokens sp)) sg)
                | _ =>
                    (Ok tt,
                     with_auditLogs
                       (auditLogs sg ++ [claimAudit bundle ident])
                       (with_claimTokens
                          (markedClaimed tok now (claimTokens sp)) sg))
                end).
    { intros fa. unfold claimRest. fold P.
      destruct fa as [[| [| [| k]]] |]; cbn [awaitAll]; try reflexivity;
        rewrite bind_bind;
        (erewrite bind_ok; [| exact G]); rewrite bind_ret;
        try reflexivity;
        (erewrite bind_ok; [| exact Hm]); reflexivity. }
    rewrite Run. split; [| split].
    + destruct failAt as [[| [| [| k]]] |]; constructor; cbn [fst snd isOk];
        store_simpl; try discriminate; auto.
      all: intros _; rewrite Haud; rewrite <- app_assoc; auto.
    + intros ->. reflexivity.
    + intros j -> Hj. destruct j as [| [| [| j]]]; try reflexivity. lia.
  - (* the grant is rejected *)
    assert (Hrej : grantRejected P now = true)
      by (destruct (grantRejected P now); [reflexivity | discriminate]).
    assert (Run : forall fa,
              awaitAll fa (claimRest tok bundle ident now) sp
              = match fa with
                | Some O => (Err "Can't reach database server", sp)
                | _ => (Err e, sg)
                end).
    { intros fa. unfold claimRest. fold P.
      destruct fa as [[| k] |]; cbn [awaitAll]; try reflexivity;
        rewrite bind_bind; (erewrite bind_err; [| exact G]); reflexivity. }
    rewrite Run. split; [| split].
    + destruct failAt as [[| k] |]; constructor; cbn [fst snd isOk];
        try discriminate; auto.
    + intros ->. rewrite Hrej. reflexivity.
    + intros j -> Hj. destruct j as [| j]; reflexivity.
Qed.

Lemma claimRest_preserves {B : Type} (f : Store -> B) tok bundle ident now :
  (forall params, preserves f (grantAccess params now)) ->
  preserves f (claimToken_markClaimed tok now) ->
  (forall a, preserves f (auditLog_create a)) ->
  Forall (preserves f) (claimRest tok bundle ident now).
Proof.
  intros Hg Hm Ha. unfold claimRest. repeat constructor.
  - apply preserves_bind; [apply Hg | intros _; apply preserves_ret].
  - exact Hm.
  - apply Ha.
Qed.

Lemma awaitAll_None_ok (l : list (M unit)) :
  Forall neverFails l -> forall s, fst (awaitAll None l s) = Ok tt.
Proof.
  induction 1 as [| c r Hc Hr IH]; intros s; [reflexivity |].
  cbn [awaitAll]. unfold bind. specialize (Hc s).
  destruct (c s) as [[[] | e] s1]; cbn [fst] in Hc; [| discriminate].
  apply IH.
Qed.

Lemma awaitAll_Some_ge (l : list (M unit)) :
  forall k s, (List.length l <= k)%nat -> awaitAll (Some k) l s = awaitAll None l s.
Proof.
  induction l as [| c r IH]; intros k s Hk; [reflexivity |].
  cbn [List.length] in Hk. destruct k as [| k]; [lia |].
  cbn [awaitAll]. unfold bind. destruct (c s) as [[[] | e] s1]; [| reflexivity].
  apply IH. lia.
Qed.

Lemma grantAccess_failing_None (params : GrantParams) (now : Z) :
  grantAccess_failing None params now = grantAccess params now.
Proof. reflexivity. Qed.

Lemma grantAccess_failing_ge (params : GrantParams) (now : Z) (k : nat)
    (s : Store) :
  (List.length (g_productIds params) < k)%nat ->
  grantAccess_failing (Some k) params now s = grantAccess params now s.
Proof.
  intros Hk. unfold grantAccess_failing, grantAccess. cbv zeta.
  erewrite bind_ok; [| apply (grantFound_reads params)]. symmetry.
  erewrite bind_ok; [| apply (grantFound_reads params)]. symmetry.
  rewrite length_map.
  replace (k <? List.length (g_productIds params))%nat with false
    by (symmetry; apply Nat.ltb_ge; lia).
  replace (k =? List.length (g_productIds params))%nat with false
    by (symmetry; apply Nat.eqb_neq; lia).
  reflexivity.
Qed.

Lemma grantAccess_failing_le (params : GrantParams) (now : Z) (k : nat)
    (s : Store) :
  (k <= List.length (g_productIds params))%nat ->
  isOk (fst (grantAccess_failing (Some k) params now s)) = false.
Proof.
  intros Hk. unfold grantAccess_failing. cbv zeta.
  erewrite bind_ok; [| apply (grantFound_reads params)].
  rewrite length_map.
  destruct (Nat.ltb_spec k (List.length (g_productIds params))) as [Hlt | Hge].
  - unfold bind. destruct (mapM _ _ s) as [[rows | e] s1]; reflexivity.
  - replace (k =? List.length (g_productIds params))%nat with true
      by (symmetry; apply Nat.eqb_eq; lia).
    unfold bind. destruct (mapM _ _ s) as [[rows | e] s1]; reflexivity.
Qed.

(** With a database that rejects nothing, [processClaim] is the
    sequence of its awaited calls. *)
Lemma processClaim_run (tok : string)
    (productEmails : list (string * ProductData)) (now : Z) (s : Store) :
  processClaim tok productEmails now s
  = (v <- processClaim_validate tok now ;;
     let '(_, bundle, ident) := v in
     awaitAll None (processClaim_calls tok productEmails bundle ident now) ;;;
     ret (bundle, ident)) s.
Proof.
  unfold processClaim, processClaim_failing.
  destruct (processClaim_validate tok now s) as [[[[c bundle] ident] | e] sv] eqn:V.
  2: { erewrite bind_err; [| exact V]. symmetry.
       erewrite bind_err; [| exact V]. reflexivity. }
  erewrite bind_ok; [| exact V]. symmetry.
  erewrite bind_ok; [| exact V]. symmetry.
  cbv beta iota zeta.
  change (processClaim_bindings productEmails bundle ident)
    with (claimPrep productEmails ident (productIds bundle)).
  rewrite processClaim_calls_split.
  pose proof (claimPrep_neverFails productEmails ident (productIds bundle)) as NF.
  pose proof (awaitAll_None_ok _ NF sv) as Hok.
  assert (Hnone : awaitAll None (claimPrep productEmails ident (productIds bundle)) sv
                  = (Ok tt,
                     snd (awaitAll None
                            (claimPrep productEmails ident (productIds bundle)) sv))).
  { destruct (awaitAll None _ sv) as [[[] | e] sp]; cbn [fst snd] in *;
      [reflexivity | discriminate]. }
  erewrite bind_ok; [| exact Hnone]. symmetry.
  unfold bind at 1. rewrite (awaitAll_None_app _ _ NF).
  set (sp := snd (awaitAll None
                    (claimPrep productEmails ident (productIds bundle)) sv)).
  cbn [after option_map]. unfold claimRest. cbn [awaitAll].
  unfold claimGrant, claimAudit.
  change (grantAccess_failing None) with grantAccess.
  unfold bind.
  destruct (grantAccess _ now sp) as [[rows | e] sg]; reflexivity.
Qed.

(** The cases of an activation whose token passes the checks: a write
    before the grant is rejected, a write of the grant is rejected, or
    the grant is reached with a database that serves it. *)
Lemma processClaim_failing_cases (failAt : option nat) (tok : string)
    (productEmails : list (string * ProductData)) (now : Z) (s : Store)
    c bundle ident :
  processClaim_validate tok now s = (Ok (c, bundle, ident), s) ->
  let out := processClaim_failing failAt tok productEmails now s in
  let prep := claimPrep productEmails ident (productIds bundle) in
  let nb := List.length prep in
  let np := List.length (productIds bundle) in
  let sp := snd (awaitAll None prep s) in
  (exists k, failAt = Some k /\ (k < nb)%nat
             /\ isOk (fst out) = false
             /\ snd out = snd (awaitAll (Some k) prep s))
  \/ (exists k, failAt = Some k /\ (nb <= k <= nb + np)%nat
                /\ isOk (fst out) = false
                /\ snd out
                   = snd (grantAccess_failing (Some (k - nb)%nat)
                            (claimGrant bundle ident) now sp))
  \/ (exists fa,
         (failAt = None -> fa = None)
         /\ (forall k, failAt = Some k ->
                       (nb + np < k)%nat /\ fa = Some (k - nb - np)%nat)
         /\ out = (awaitAll fa (claimRest tok bundle ident now) ;;;
                   ret (bundle, ident)) sp).
Proof.
  intros V. cbv zeta. unfold processClaim_failing.
  erewrite bind_ok; [| exact V]. cbv beta iota zeta.
  change (processClaim_bindings productEmails bundle ident)
    with (claimPrep productEmails ident (productIds bundle)).
  set (prep := claimPrep productEmails ident (productIds bundle)).
  pose proof (claimPrep_neverFails productEmails ident (productIds bundle)) as NF.
  fold prep in NF.
  fold (claimGrant bundle ident). fold (claimAudit bundle ident).
  set (P := claimGrant bundle ident).
  set (np := List.length (productIds bundle)).
  assert (Hnone : awaitAll None prep s = (Ok tt, snd (awaitAll None prep s))).
  { pose proof (awaitAll_None_ok _ NF s) as H.
    destruct (awaitAll None prep s) as [[[] | e] sp]; cbn [fst snd] in *;
      [reflexivity | discriminate]. }
  assert (Htail : forall fa2 s0,
            (grantAccess P now ;;;
             awaitAll fa2
               [claimToken_markClaimed tok now;
                auditLog_create (claimAudit bundle ident)] ;;;
             ret (bundle, ident)) s0
            = (awaitAll (option_map S fa2) (claimRest tok bundle ident now) ;;;
               ret (bundle, ident)) s0).
  { intros fa2 s0. unfold claimRest. fold P.
    destruct fa2 as [j |]; cbn [option_map awaitAll]; unfold bind;
      destruct (grantAccess P now s0) as [[rows | e] sg]; reflexivity. }
  destruct failAt as [k |].
  - destruct (Nat.lt_ge_cases k (List.length prep)) as [Hlt | Hge].
    + left. exists k. split; [reflexivity |]. split; [exact Hlt |].
      destruct (awaitAll_Some_prefix prep [] k s Hlt) as [Hf _].
      rewrite app_nil_r in Hf. unfold bind.
      destruct (awaitAll (Some k) prep s) as [[[] | e] s1]; cbn [fst snd isOk] in *;
        [discriminate | split; reflexivity].
    + right.
      assert (Hrun : awaitAll (Some k) prep s
                     = (Ok tt, snd (awaitAll None prep s))).
      { rewrite awaitAll_Some_ge by exact Hge. exact Hnone. }
      erewrite bind_ok; [| exact Hrun]. cbn [after option_map].
      destruct (Nat.le_gt_cases (k - List.length prep) np) as [Hle | Hgt].
      * left. exists k. split; [reflexivity |]. split; [lia |].
        pose proof (grantAccess_failing_le P now (k - List.length prep)
                      (snd (awaitAll None prep s)) Hle) as Hf.
        unfold bind.
        destruct (grantAccess_failing (Some (k - List.length prep)%nat) P now
                    (snd (awaitAll None prep s)))
          as [[rows | e] sg]; cbn [fst snd isOk] in *;
          [discriminate | split; reflexivity].
      * right. exists (Some (k - List.length prep - np)%nat).
        split; [discriminate |].
        split; [intros k' E; inversion E; subst k'; split; [lia | reflexivity] |].
        assert (E : bind (grantAccess_failing (Some (k - List.length prep)%nat)
                            P now)
                      (fun _ =>
                         awaitAll (Some (k - (List.length prep + np + 1))%nat)
                           [claimToken_markClaimed tok now;
                            auditLog_create (claimAudit bundle ident)] ;;;
                         ret (bundle, ident))
                      (snd (awaitAll None prep s))
                    = bind (grantAccess P now)
                        (fun _ =>
                           awaitAll (Some (k - (List.length prep + np + 1))%nat)
                             [claimToken_markClaimed tok now;
                              auditLog_create (claimAudit bundle ident)] ;;;
                           ret (bundle, ident))
                        (snd (awaitAll None prep s))).
        { unfold bind at 1 3.
          rewrite (grantAccess_failing_ge P now _ _ Hgt). reflexivity. }
        rewrite E, Htail. cbn [option_map].
        replace (S (k - (List.length prep + np + 1)))
          with (k - List.length prep - np)%nat by lia.
        reflexivity.
  - right. right. exists None. split; [reflexivity |]. split; [discriminate |].
    erewrite bind_ok; [| exact Hnone]. cbn [after option_map].
    change (grantAccess_failing None) with grantAccess. apply (Htail None).
Qed.

(** C3, counterexample.  The database rejects the update of the token
    (the write after those of the grant): the activation fails; the email
    binding, the form submission and the grant of the calls before it stay
    in the store, and the token is still unclaimed.  And on a bundle of two
    products, a rejected write for the first product leaves the row of
    the second in the ledger, behind an unclaimed token. *)
Lemma processClaim_grant_without_claim :
  (let out := processClaim_failing (Some 4%nat) "tok" claimantData 1000
                activationStore in
   fst out = Err "Can't reach database server"
   /\ map ent_productId (entitlements (snd out)) = ["rezume"]
   /\ map revokedAt (entitlements (snd out)) = [None]
   /\ identityEmails (snd out)
      = [mkIdentityEmail "claimant@example.com" "rezume" 1]
   /\ List.length (productSubmissions (snd out)) = 1%nat
   /\ claimTokens (snd out) = [buyerToken; suiteToken]
   /\ claimed buyerToken = false)
  /\ (let out := processClaim_failing (Some 2%nat) "tok2" claimantData 1000
                   activationStore in
      fst out = Err "Can't reach database server"
      /\ map ent_productId (entitlements (snd out)) = ["aicoach"]
      /\ map claimed (claimTokens (snd out)) = [false; false]).
Proof. cbv zeta. repeat split; vm_compute; reflexivity. Qed.

(** C3, as amended.  [processClaim] is a sequence of separate writes.  A
    token that fails the checks (not found, already claimed, expired)
    changes nothing.  Otherwise, whichever write the database rejects, the
    activation fails, and the token is marked claimed only after the whole
    grant has been applied; a failure can still leave bindings,
    submissions and the grant, or a part of it, behind an unclaimed token.
    With no failure the activation succeeds unless the grant is rejected
    for its expiry, and a successful activation has bound every supplied
    product email, stored every supplied form, granted every product of
    the bundle in one [grantAccess], marked the token claimed and appended
    the grant's audit entry and one claim entry. *)
Theorem processClaim_failing_spec (failAt : option nat) (tok : string)
    (productEmails : list (string * ProductData)) (now : Z) (s : Store) :
  let out := processClaim_failing failAt tok productEmails now s in
  match fst (processClaim_validate tok now s) with
  | Err e => out = (Err e, s)
  | Ok (c, bundle, ident) =>
      let params := claimGrant bundle ident in
      let granted :=
        fst (grantEffect params now (entitlements s) (nextEntitlementId s)) in
      let writes :=
        (List.length (processClaim_bindings productEmails bundle ident)
         + List.length (productIds bundle) + 3)%nat in
      (claimTokens (snd out) = claimTokens s
       \/ (claimTokens (snd out) = markedClaimed tok now (claimTokens s)
           /\ grantRejected params now = false
           /\ entitlements (snd out) = granted
           /\ (forall p,
                 In p (productIds bundle) ->
                 exists x,
                   In x (entitlements (snd out))
                   /\ grantedRow params (expiryValue (grantExpiry params now)) p
                        x)))
      /\ (forall x, In x (markedClaimed tok now (claimTokens s)) ->
                    token x = tok ->
                    claimed x = true /\ claimedAt x = Some now)
      /\ (forall k, failAt = Some k -> (k < writes)%nat ->
                    isOk (fst out) = false)
      /\ (failAt = None -> isOk (fst out) = negb (grantRejected params now))
      /\ (isOk (fst out) = true ->
          fst out = Ok (bundle, ident)
          /\ grantRejected params now = false
          /\ (forall p pd,
                In p (productIds bundle) ->
                lookup p productEmails = Some pd ->
                truthy (pd_email pd) = true ->
                In (mkIdentityEmail (toLowerCase (pd_email pd)) p
                      (identity_id ident))
                   (identityEmails (snd out)))
          /\ productSubmissions (snd out)
             = productSubmissions s
               ++ submissionsOf productEmails ident (productIds bundle)
          /\ entitlements (snd out) = granted
          /\ (forall p,
                In p (productIds bundle) ->
                exists x,
                  In x (entitlements (snd out))
                  /\ grantedRow params (expiryValue (grantExpiry params now)) p x)
          /\ claimTokens (snd out) = markedClaimed tok now (claimTokens s)
          /\ auditLogs (snd out)
             = auditLogs s ++ [grantAudit params; claimAudit bundle ident])
  end.
Proof.
  cbv zeta.
  pose proof (validate_pure tok now s) as Hpure.
  destruct (processClaim_validate tok now s) as [[[[c bundle] ident] | e] sv] eqn:V;
    cbn [fst snd] in *; subst sv.
  2: { unfold processClaim_failing. erewrite bind_err; [reflexivity | exact V]. }
  assert (Hinv : fst (processClaim_validate tok now s) = Ok (c, bundle, ident))
    by (rewrite V; reflexivity).
  apply validate_ok_inv in Hinv. destruct Hinv as [Htok _].
  pose proof (processClaim_failing_cases failAt tok productEmails now s
                c bundle ident V) as Cases.
  cbv zeta in Cases.
  change (processClaim_bindings productEmails bundle ident)
    with (claimPrep productEmails ident (productIds bundle)).
  set (out := processClaim_failing failAt tok productEmails now s) in *.
  set (prep := claimPrep productEmails ident (productIds bundle)) in *.
  set (rest := claimRest tok bundle ident now) in *.
  set (P := claimGrant bundle ident) in *.
  set (sp := snd (awaitAll None prep s)) in *.
  pose proof (claimPrep_neverFails productEmails ident (productIds bundle)) as NF.
  fold prep in NF.
  assert (Fr : forall (B : Type) (f : Store -> B),
            (forall i e p, preserves f (linkEmailToIdentity i e p)) ->
            (forall row, preserves f (productSubmission_create row)) ->
            forall fa, f (snd (awaitAll fa prep s)) = f s).
  { intros B f Hl Hs fa.
    apply (preserves_awaitAll f prep
             (claimPrep_preserves f _ _ _ Hl Hs) fa s). }
  assert (Ftok : forall fa, claimTokens (snd (awaitAll fa prep s)) = claimTokens s)
    by (apply Fr; intros; frame).
  assert (Fent : forall fa, entitlements (snd (awaitAll fa prep s)) = entitlements s)
    by (apply Fr; intros; frame).
  assert (Fnext : forall fa, nextEntitlementId (snd (awaitAll fa prep s))
                             = nextEntitlementId s)
    by (apply Fr; intros; frame).
  assert (Faud : forall fa, auditLogs (snd (awaitAll fa prep s)) = auditLogs s)
    by (apply Fr; intros; frame).
  assert (Etok : claimTokens sp = claimTokens s) by apply Ftok.
  assert (Eent : entitlements sp = entitlements s) by apply Fent.
  assert (Enext : nextEntitlementId sp = nextEntitlementId s) by apply Fnext.
  assert (Eaud : auditLogs sp = auditLogs s) by apply Faud.
  assert (Hbind : forall p pd,
            In p (productIds bundle) ->
            lookup p productEmails = Some pd ->
            truthy (pd_email pd) = true ->
            In (mkIdentityEmail (toLowerCase (pd_email pd)) p
                  (identity_id ident))
               (identityEmails sp)).
  { intros p pd Hp Hl Htr. unfold sp, prep.
    apply awaitAll_prep_binds; assumption. }
  assert (Hsub : productSubmissions sp
                 = productSubmissions s
                   ++ submissionsOf productEmails ident (productIds bundle)).
  { unfold sp, prep. apply awaitAll_prep_submissions. }
  assert (Hrows : grantRejected P now = false ->
            forall p, In p (productIds bundle) ->
              exists x,
                In x (fst (grantEffect P now (entitlements s)
                             (nextEntitlementId s)))
                /\ grantedRow P (expiryValue (grantExpiry P now)) p x).
  { intros Hr p Hp. unfold grantEffect. rewrite Hr.
    apply grantTable_rows. exact Hp. }
  assert (Hmark : forall x, In x (markedClaimed tok now (claimTokens s)) ->
                            token x = tok ->
                            claimed x = true /\ claimedAt x = Some now).
  { intros x Hx Ht. unfold markedClaimed in Hx. apply in_map_iff in Hx.
    destruct Hx as [y [<- Hy]].
    destruct (token y =? tok)%string eqn:E; [split; reflexivity |].
    apply String.eqb_neq in E. contradiction. }
  split; [| split; [exact Hmark |]].
  - (* the token is claimed only behind the whole grant *)
    destruct Cases as [[k [-> [Hk [Hf Hs]]]] | [[k [-> [Hk [Hf Hs]]]] | [fa [H1 [H2 Ho]]]]].
    + left. rewrite Hs. apply Ftok.
    + left. rewrite Hs.
      assert (F : preserves claimTokens
                    (grantAccess_failing (Some (k - List.length prep)%nat) P now))
        by frame.
      rewrite F. exact Etok.
    + destruct (claimRest_run tok bundle ident now sp c fa) as [[Ht He Hok] _].
      { rewrite Etok. exact Htok. }
      fold rest in Ht. rewrite Etok, Eent, Enext in Ht.
      assert (Es : snd out = snd (awaitAll fa rest sp)).
      { rewrite Ho. unfold bind.
        destruct (awaitAll fa rest sp) as [[[] | e] s']; reflexivity. }
      rewrite Es. destruct Ht as [Ht | [Ht [Hr Hg]]]; [left; exact Ht |].
      right. split; [exact Ht |]. split; [exact Hr |]. split; [exact Hg |].
      intros p Hp. rewrite Hg. apply Hrows; assumption.
  - (* failures and success *)
    destruct Cases as [[k [-> [Hk [Hf Hs]]]] | [[k [-> [Hk [Hf Hs]]]] | [fa [H1 [H2 Ho]]]]].
    + split; [intros _ _ _; exact Hf |]. split; [discriminate |].
      rewrite Hf. discriminate.
    + split; [intros _ _ _; exact Hf |]. split; [discriminate |].
      rewrite Hf. discriminate.
    + destruct (claimRest_run tok bundle ident now sp c fa)
        as [[Ht He Hok] [Hnone Hlt]].
      { rewrite Etok. exact Htok. }
      fold rest in Ht, He, Hok, Hnone, Hlt.
      rewrite Etok in Hok. rewrite Eent, Enext in Hok. rewrite Eaud in Hok.
      assert (Es : snd out = snd (awaitAll fa rest sp)
                   /\ isOk (fst out) = isOk (fst (awaitAll fa rest sp))
                   /\ (isOk (fst out) = true -> fst out = Ok (bundle, ident))).
      { rewrite Ho. unfold bind.
        destruct (awaitAll fa rest sp) as [[[] | e] s']; cbn; auto.
        intuition discriminate. }
      destruct Es as [Es [Ei Eo]]. rewrite Es, Ei.
      split.
      { intros k E Hk. destruct (H2 k E) as [Hgt ->].
        apply (Hlt (k - List.length prep - List.length (productIds bundle))%nat);
          [reflexivity | lia]. }
      split; [intros E; apply Hnone, H1, E |].
      intros Hsucc. destruct (Hok Hsucc) as [Hr [Hc [Hg Ha]]].
      split; [apply Eo; rewrite Ei; exact Hsucc |].
      split; [exact Hr |].
      assert (Fie : identityEmails (snd (awaitAll fa rest sp)) = identityEmails sp).
      { apply (preserves_awaitAll identityEmails rest); unfold rest.
        apply claimRest_preserves; intros; frame. }
      assert (Fps : productSubmissions (snd (awaitAll fa rest sp))
                    = productSubmissions sp).
      { apply (preserves_awaitAll productSubmissions rest); unfold rest.
        apply claimRest_preserves; intros; frame. }
      split; [intros p pd Hp Hl Htr; rewrite Fie; apply Hbind; assumption |].
      split; [rewrite Fps; exact Hsub |].
      split; [exact Hg |].
      split; [intros p Hp; rewrite Hg; apply Hrows; assumption |].
      split; assumption.
Qed.

Lemma find_markedClaimed (tok : string) (now : Z) (cs : list ClaimToken) c :
  find (fun x => (token x =? tok)%string) cs = Some c ->
  find (fun x => (token x =? tok)%string) (markedClaimed tok now cs)
  = Some (mkClaimToken (token c) (ct_identityId c) (ct_bundleId c)
            (purchaseEmail c) (stripeSessionId c) (ct_expiresAt c)
            true (Some now)).
Proof.
  induction cs as [| x r IH]; intros H; [discriminate |].
  cbn [find markedClaimed map] in *.
  destruct (token x =? tok)%string eqn:E.
  - inversion H; subst. cbn [token]. rewrite E. reflexivity.
  - rewrite E. apply IH, H.
Qed.

(** C4, counterexample.  Two activations of one token whose reads both
    precede the writes: both succeed and both run the grant. *)
Lemma processClaim_race_two_successes :
  let out := processClaim_race "tok" [] [] 1000 claimStore in
  fst (fst out) = Ok (lifetimeBundle, buyer)
  /\ snd (fst out) = Ok (lifetimeBundle, buyer)
  /\ map action (auditLogs (snd out)) = ["grant"; "claim"; "grant"; "claim"].
Proof. cbv zeta. repeat split; vm_compute; reflexivity. Qed.

(** C4, as amended.  Activations that follow one another yield one
    success: once [processClaim] has succeeded the token is marked, and any
    later call on it fails with "Token already claimed" and changes
    nothing.  The mark itself is an update by token alone, which succeeds
    whatever the stored flag is; nothing arbitrates calls that read the
    token before either writes. *)
Theorem processClaim_second_attempt_rejected (tok : string)
    (productEmails1 productEmails2 : list (string * ProductData))
    (now1 now2 : Z) (s s1 : Store) (bundle : Bundle) (ident : Identity) :
  processClaim tok productEmails1 now1 s = (Ok (bundle, ident), s1) ->
  processClaim tok productEmails2 now2 s1 = (Err "Token already claimed", s1)
  /\ claimTokens s1 = markedClaimed tok now1 (claimTokens s)
  /\ (forall now3 s3 c,
        find (fun x => (token x =? tok)%string) (claimTokens s3) = Some c ->
        claimToken_markClaimed tok now3 s3
        = (Ok tt, with_claimTokens (markedClaimed tok now3 (claimTokens s3)) s3)).
Proof.
  intros H. rewrite processClaim_run in H.
  pose proof (validate_pure tok now1 s) as Hpure.
  destruct (processClaim_validate tok now1 s)
    as [[[[c b] i] | e] sv] eqn:V; cbn [fst snd] in *; subst sv.
  2: { erewrite bind_err in H; [discriminate | exact V]. }
  assert (Hinv : fst (processClaim_validate tok now1 s) = Ok (c, b, i))
    by (rewrite V; reflexivity).
  apply validate_ok_inv in Hinv. destruct Hinv as [Htok [Hb [Hi _]]].
  erewrite bind_ok in H; [| exact V]. cbv beta iota in H.
  rewrite processClaim_calls_split in H.
  pose proof (claimPrep_neverFails productEmails1 i (productIds b)) as NF.
  unfold bind in H. rewrite (awaitAll_None_app _ _ NF) in H.
  set (sp := snd (awaitAll None (claimPrep productEmails1 i (productIds b)) s))
    in *.
  assert (Fr : forall (B : Type) (f : Store -> B),
            (forall i e p, preserves f (linkEmailToIdentity i e p)) ->
            (forall row, preserves f (productSubmission_create row)) ->
            f sp = f s).
  { intros B f Hl Hs.
    apply (preserves_awaitAll f _ (claimPrep_preserves f _ _ _ Hl Hs) None s). }
  assert (Etok : claimTokens sp = claimTokens s) by (apply Fr; intros; frame).
  assert (Ebun : bundles sp = bundles s) by (apply Fr; intros; frame).
  assert (Eid : identities sp = identities s) by (apply Fr; intros; frame).
  clearbody sp.
  destruct (claimRest_run tok b i now1 sp c None) as [[_ _ Hok] _].
  { rewrite Etok. exact Htok. }
  assert (Fbun : bundles (snd (awaitAll None (claimRest tok b i now1) sp))
                 = bundles sp).
  { apply (preserves_awaitAll bundles).
    apply claimRest_preserves; intros; frame. }
  assert (Fid : identities (snd (awaitAll None (claimRest tok b i now1) sp))
                = identities sp).
  { apply (preserves_awaitAll identities).
    apply claimRest_preserves; intros; frame. }
  destruct (awaitAll None (claimRest tok b i now1) sp) as [[[] | e] s'] eqn:R;
    [| discriminate].
  cbn [fst snd isOk ret] in *. inversion H; subst b i s'. clear H.
  destruct (Hok eq_refl) as [_ [Hc _]]. rewrite Etok in Hc.
  split; [| split; [exact Hc |]].
  - unfold processClaim, processClaim_failing.
    erewrite bind_err; [reflexivity |].
    eapply validate_claimed.
    + rewrite Hc. apply find_markedClaimed. exact Htok.
    + cbn [ct_bundleId]. rewrite Fbun, Ebun. exact Hb.
    + cbn [ct_identityId]. rewrite Fid, Eid. exact Hi.
    + reflexivity.
  - intros now3 s3 c3 F. apply (markClaimed_run tok now3 s3 c3 F).
Qed.

(** ** Redelivery of a checkout event *)

Lemma find_map_same {A : Type} (p : A -> bool) (f : A -> A) (l : list A) :
  (forall x, p (f x) = p x) ->
  find p (map f l) = option_map f (find p l).
Proof.
  intros H. induction l as [| x r IH]; [reflexivity |].
  cbn [map find]. rewrite H. destruct (p x); [reflexivity | exact IH].
Qed.

Lemma find_app_none {A : Type} (p : A -> bool) (l1 l2 : list A) :
  find p l1 = None -> find p (l1 ++ l2) = find p l2.
Proof.
  induction l1 as [| x r IH]; intros H; [reflexivity |].
  cbn [find app] in *. destruct (p x); [discriminate | apply IH, H].
Qed.

Lemma find_app_some {A : Type} (p : A -> bool) (l1 l2 : list A) x :
  find p l1 = Some x -> find p (l1 ++ l2) = Some x.
Proof.
  induction l1 as [| y r IH]; intros H; [discriminate |].
  cbn [find app] in *. destruct (p y); [exact H | apply IH, H].
Qed.

Lemma getOrCreateIdentity_stable (email : string) (c : option string) (s : Store) :
  identityIdFor email (snd (getOrCreateIdentity email c s)) = identityIdFor email s.
Proof.
  unfold identityIdFor, getOrCreateIdentity. rewrite bind_gets.
  destruct (find _ (identities s)) as [i |] eqn:F.
  - destruct (truthy_opt c && negb (truthy_opt (stripeCustomerId i))).
    + rewrite bind_modify. cbn [ret snd]. store_simpl.
      rewrite find_map_same.
      * rewrite F. cbn [option_map].
        destruct (identity_id i =? identity_id i); reflexivity.
      * intros x. destruct (identity_id x =? identity_id i); reflexivity.
    + cbn [ret snd]. rewrite F. reflexivity.
  - rewrite bind_gets, bind_modify. cbn [ret snd]. store_simpl.
    rewrite (find_app_none _ _ _ F). cbn [find primaryEmail].
    rewrite String.eqb_refl. reflexivity.
Qed.

Lemma forEach_upsert_run (email : string) (i : Z) (pids : list string) (s : Store) :
  forEach (fun productId => identityEmail_upsert email productId i None) pids s
  = (Ok tt,
     snd (forEach (fun productId => identityEmail_upsert email productId i None)
            pids s)).
Proof.
  revert s. induction pids as [| p r IH]; intros s; [reflexivity |].
  cbn [forEach]. unfold identityEmail_upsert at 1 3. rewrite !bind_modify.
  apply IH.
Qed.

Lemma checkoutGrant_frame (session : Session) (s s' : Store) :
  bundles s' = bundles s -> products s' = products s ->
  (forall email, identityIdFor email s' = identityIdFor email s) ->
  checkoutGrant session s' = checkoutGrant session s.
Proof.
  intros Hb Hp Hi. unfold checkoutGrant. rewrite Hb, Hp.
  destruct (customer_email session) as [e |]; [| reflexivity].
  rewrite Hi. reflexivity.
Qed.

Lemma identityIdFor_frame (email : string) (s s' : Store) :
  identities s' = identities s -> nextIdentityId s' = nextIdentityId s ->
  identityIdFor email s' = identityIdFor email s.
Proof. unfold identityIdFor. intros -> ->. reflexivity. Qed.

Lemma same_facts (session : Session) (now : Z) (s : Store)
    (out : Result Handled * Store) :
  checkoutGrant session s = None ->
  entitlements (snd out) = entitlements s ->
  nextEntitlementId (snd out) = nextEntitlementId s ->
  checkoutGrant session (snd out) = checkoutGrant session s ->
  CheckoutFacts session now s out.
Proof.
  intros Hg He Hn Hs. constructor.
  - unfold checkoutEffect. rewrite Hg. exact He.
  - unfold checkoutEffect. rewrite Hg. exact Hn.
  - intros _ params C. rewrite Hg in C. discriminate.
  - exact Hs.
Qed.

Lemma same_store_facts (session : Session) (now : Z) (s : Store) (r : Result Handled) :
  checkoutGrant session s = None -> CheckoutFacts session now s (r, s).
Proof. intros H. apply same_facts; auto. Qed.

Lemma handleCheckoutCompleted_facts (session : Session) (tok : string) (now : Z)
    (s : Store) :
  CheckoutFacts session now s (handleCheckoutCompleted session tok now s).
Proof.
  unfold handleCheckoutCompleted.
  destruct (customer_email session) as [email |] eqn:Hemail;
    [| apply same_store_facts; unfold checkoutGrant; rewrite Hemail; reflexivity].
  destruct (truthy email) eqn:Ht; cbn [negb];
    [| apply same_store_facts; unfold checkoutGrant; rewrite Hemail, Ht; reflexivity].
  destruct (lineItems session) as [| [priceId |] items] eqn:Hitems;
    try (apply same_store_facts; unfold checkoutGrant;
         rewrite Hemail, Ht, Hitems; reflexivity).
  destruct (truthy priceId) eqn:Hp; cbn [negb];
    [| apply same_store_facts; unfold checkoutGrant;
       rewrite Hemail, Ht, Hitems, Hp; reflexivity].
  rewrite bind_gets.
  destruct (find _ (bundles s)) as [bundle |] eqn:Hb;
    [| apply same_store_facts; unfold checkoutGrant;
       rewrite Hemail, Ht, Hitems, Hp; cbn [negb]; rewrite Hb; reflexivity].
  set (cust := if truthy_opt (session_customer session)
               then session_customer session else None).
  destruct (getOrCreateIdentity_id email cust s) as [ident [s1 [G [Hid _]]]].
  pose proof (getOrCreateIdentity_stable email cust s) as Hst.
  rewrite G in Hst. cbn [snd] in Hst.
  assert (F1 : forall (B : Type) (f : Store -> B),
            preserves f (getOrCreateIdentity email cust) -> f s1 = f s).
  { intros B f P. specialize (P s). rewrite G in P. exact P. }
  assert (E1 : entitlements s1 = entitlements s) by (apply F1; frame).
  assert (N1 : nextEntitlementId s1 = nextEntitlementId s) by (apply F1; frame).
  assert (B1 : bundles s1 = bundles s) by (apply F1; frame).
  assert (P1 : products s1 = products s) by (apply F1; frame).
  assert (A1 : auditLogs s1 = auditLogs s) by (apply F1; frame).
  erewrite bind_ok; [| exact G]. rewrite bind_gets, P1.
  assert (Hcg : checkoutGrant session s
                = match filter (fun p => inb (product_id p) (productIds bundle)
                                         && hasFormSchema p) (products s) with
                  | [] => Some (claimGrant bundle ident)
                  | _ :: _ => None
                  end).
  { unfold checkoutGrant. rewrite Hemail, Ht, Hitems, Hp. cbn [negb].
    rewrite Hb. unfold claimGrant. rewrite Hid. reflexivity. }
  assert (Stable1 : forall s',
            bundles s' = bundles s1 -> products s' = products s1 ->
            identities s' = identities s1 ->
            nextIdentityId s' = nextIdentityId s1 ->
            checkoutGrant session s' = checkoutGrant session s).
  { intros s' Hb' Hp' Hi' Hn'.
    unfold checkoutGrant. rewrite Hemail, Hb', Hp', B1, P1.
    rewrite (identityIdFor_frame email s1 s' Hi' Hn'), Hst. reflexivity. }
  destruct (filter _ (products s)) as [| pf rest] eqn:Hforms.
  - (* the grant *)
    erewrite bind_ok; [| apply forEach_upsert_run].
    match goal with
    | |- context [ snd (forEach ?f ?l s1) ] => set (s2 := snd (forEach f l s1))
    end.
    assert (F2 : forall (B : Type) (f : Store -> B),
              (forall e p i u, preserves f (identityEmail_upsert e p i u)) ->
              f s2 = f s1).
    { intros B f P. apply (preserves_forEach f). intros x. apply P. }
    assert (E2 : entitlements s2 = entitlements s1) by (apply F2; intros; frame).
    assert (N2 : nextEntitlementId s2 = nextEntitlementId s1)
      by (apply F2; intros; frame).
    assert (B2 : bundles s2 = bundles s1) by (apply F2; intros; frame).
    assert (P2 : products s2 = products s1) by (apply F2; intros; frame).
    assert (I2 : identities s2 = identities s1) by (apply F2; intros; frame).
    assert (NI2 : nextIdentityId s2 = nextIdentityId s1)
      by (apply F2; intros; frame).
    assert (A2 : auditLogs s2 = auditLogs s1) by (apply F2; intros; frame).
    clearbody s2. cbv beta.
    fold (claimGrant bundle ident).
    destruct (grantAccess_effect (claimGrant bundle ident) now s2)
      as [Hok [Hent [Hnext Haud]]].
    assert (G3 : forall (B : Type) (f : Store -> B),
              preserves f (grantAccess (claimGrant bundle ident) now) ->
              f (snd (grantAccess (claimGrant bundle ident) now s2)) = f s2).
    { intros B f P. apply P. }
    pose proof (G3 _ bundles ltac:(frame)) as B3.
    pose proof (G3 _ products ltac:(frame)) as P3.
    pose proof (G3 _ identities ltac:(frame)) as I3.
    pose proof (G3 _ nextIdentityId ltac:(frame)) as NI3.
    rewrite E2, E1, N2, N1 in Hent, Hnext. rewrite A2, A1 in Haud.
    destruct (grantAccess (claimGrant bundle ident) now s2) as [[rows | e] sg]
      eqn:Grun; cbn [fst snd isOk] in *.
    + erewrite bind_ok; [| exact Grun].
      unfold sendBundlePurchaseEmail. rewrite bind_modify. unfold ret.
      constructor; unfold checkoutEffect; rewrite Hcg; cbn [fst snd]; store_simpl;
        auto.
      * intros _ params C. inversion C; subst params.
        destruct (grantRejected (claimGrant bundle ident) now);
          [discriminate | reflexivity].
      * rewrite <- Hcg. apply Stable1; store_simpl; congruence.
    + erewrite bind_err; [| exact Grun].
      constructor; unfold checkoutEffect; rewrite Hcg; cbn [fst snd]; auto.
      * discriminate.
      * rewrite <- Hcg. apply Stable1; congruence.
  - (* the claim token *)
    apply same_facts; [exact Hcg | | |].
    + rewrite <- E1.
      match goal with
      | |- _ (snd (?m s1)) = _ =>
          assert (P : preserves entitlements m) by frame; apply P
      end.
    + rewrite <- N1.
      match goal with
      | |- _ (snd (?m s1)) = _ =>
          assert (P : preserves nextEntitlementId m) by frame; apply P
      end.
    + match goal with
      | |- checkoutGrant session (snd (?m s1)) = _ =>
          apply Stable1;
          [ assert (P : preserves bundles m) by frame; apply P
          | assert (P : preserves products m) by frame; apply P
          | assert (P : preserves identities m) by frame; apply P
          | assert (P : preserves nextIdentityId m) by frame; apply P ]
      end.
Qed.

Lemma logWebhookEvent_run (id ty st : string) (m : option string) (s : Store) :
  logWebhookEvent id ty st m s = (Ok tt, snd (logWebhookEvent id ty st m s)).
Proof. reflexivity. Qed.

Lemma filter_map_same {A : Type} (p : A -> bool) (f : A -> A) (l : list A) :
  (forall x, p (f x) = p x) ->
  List.length (filter p (map f l)) = List.length (filter p l).
Proof.
  intros H. induction l as [| x r IH]; [reflexivity |].
  cbn [map filter]. rewrite H. destruct (p x); cbn [List.length]; lia.
Qed.

Lemma filter_none_length {A : Type} (p : A -> bool) (l : list A) :
  existsb p l = false -> List.length (filter p l) = 0%nat.
Proof.
  induction l as [| x r IH]; [reflexivity |].
  cbn [existsb filter]. destruct (p x); [discriminate | exact IH].
Qed.

Lemma filter_some_length {A : Type} (p : A -> bool) (l : list A) :
  existsb p l = true -> (1 <= List.length (filter p l))%nat.
Proof.
  induction l as [| x r IH]; [discriminate |].
  cbn [existsb filter]. destruct (p x); cbn [List.length orb]; [lia | exact IH].
Qed.

Lemma logWebhookEvent_count (id ty st : string) (m : option string) (s : Store) :
  logCount id (snd (logWebhookEvent id ty st m s)) = Nat.max 1 (logCount id s).
Proof.
  unfold logCount, logWebhookEvent, modify. cbn [snd].
  destruct (existsb _ (webhookLogs s)) eqn:E; store_simpl.
  - rewrite filter_map_same.
    + apply filter_some_length in E. lia.
    + intros x. destruct (eventId x =? id)%string eqn:Ex; cbn [eventId];
        rewrite Ex; reflexivity.
  - rewrite filter_app, length_app. apply filter_none_length in E. rewrite E.
    cbn [filter eventId]. rewrite String.eqb_refl. reflexivity.
Qed.

(** The webhook route on a checkout event: the handler runs, then the
    log entry is written, whatever the handler returned. *)
Lemma POST_checkout (id : string) (session : Session) (tok : string) (now : Z)
    (s : Store) :
  let out := handleCheckoutCompleted session tok now s in
  exists st m h,
    POST (mkEvent id (CheckoutSessionCompleted session)) tok now s
    = (Ok (mkResponse (if isOk (fst out) then 200 else 500) h),
       snd (logWebhookEvent id "checkout.session.completed" st m (snd out))).
Proof.
  cbv zeta. unfold POST, tryCatch. cbn [event_object event_id event_type].
  unfold bind at 1.
  destruct (handleCheckoutCompleted session tok now s) as [[r | e] s'];
    cbn [fst snd isOk].
  - do 3 eexists.
    erewrite bind_ok; [| apply logWebhookEvent_run]. reflexivity.
  - do 3 eexists.
    erewrite bind_ok; [| apply logWebhookEvent_run]. reflexivity.
Qed.

Lemma regranted_clear (params : GrantParams) (e1 e2 : option Z) (x : Entitlement) :
  clearExpiry (regranted params e2 (regranted params e1 x))
  = clearExpiry (regranted params e1 x).
Proof.
  unfold clearExpiry, regranted; cbn.
  destruct (g_bundleId params), (g_stripeSubscriptionId params),
    (g_stripePriceId params), (g_amountPaid params), (g_currency params);
    reflexivity.
Qed.

Lemma granted_settled (params : GrantParams) (p app : string) expires now n :
  regranted params expires (granted params p app expires now n)
  = granted params p app expires now n.
Proof.
  unfold regranted, granted; cbn.
  destruct (g_bundleId params), (g_stripeSubscriptionId params),
    (g_stripePriceId params), (g_amountPaid params), (g_currency params);
    reflexivity.
Qed.

Lemma grantCreated_settled (params : GrantParams) expires now found :
  forall n x,
    In x (grantCreated params expires now found n) ->
    regranted params expires x = x.
Proof.
  induction found as [| [p [e |]] r IH]; intros n x Hx; cbn [grantCreated] in Hx.
  - contradiction.
  - apply (IH n x Hx).
  - destruct Hx as [<- | Hx]; [apply granted_settled | apply (IH (n + 1) x Hx)].
Qed.

Lemma grantKey_regranted (params : GrantParams) expires p (q : Entitlement -> bool) x :
  grantKey params p (if q x then regranted params expires x else x)
  = grantKey params p x.
Proof. destruct (q x); reflexivity. Qed.

Lemma first_match_settled (params : GrantParams) expires now es n p e2 :
  In p (g_productIds params) ->
  find (grantKey params p)
       (map (fun x => if touched (grantFound params es) x
                      then regranted params expires x else x) es
          ++ grantCreated params expires now (grantFound params es) n)
  = Some e2 ->
  regranted params expires e2 = e2.
Proof.
  intros Hp F.
  destruct (find (grantKey params p) es) as [e |] eqn:Fe.
  - rewrite (find_app_some _ _ _ (if touched (grantFound params es) e
                                  then regranted params expires e else e)) in F.
    + inversion F; subst e2. clear F.
      assert (T : touched (grantFound params es) e = true).
      { unfold touched. apply existsb_exists. exists (p, Some e). split.
        - unfold grantFound. apply in_map_iff. exists p. rewrite Fe. auto.
        - unfold foundId. cbn. apply Z.eqb_refl. }
      rewrite T. apply regranted_idem.
    + rewrite find_map_same by (intros x; apply grantKey_regranted).
      rewrite Fe. reflexivity.
  - rewrite find_app_none in F.
    + apply find_some in F. destruct F as [Hin _].
      apply (grantCreated_settled _ _ _ _ _ _ Hin).
    + rewrite find_map_same by (intros x; apply grantKey_regranted).
      rewrite Fe. reflexivity.
Qed.

Lemma grantTable_twice (params : GrantParams) (exp1 exp2 : option Z)
    (now1 now2 : Z) (es : list Entitlement) (n : Z) :
  wf_entitlements es n ->
  let t1 := grantTable params exp1 now1 es n in
  let t2 := grantTable params exp2 now2 (fst t1) (snd t1) in
  snd t2 = snd t1
  /\ map clearExpiry (fst t2) = map clearExpiry (fst t1)
  /\ (exp2 = exp1 -> fst t2 = fst t1).
Proof.
  intros W. cbv zeta.
  pose proof (grantTable_wf params exp1 now1 es n W) as W1.
  assert (Hall : forall p, In p (g_productIds params) ->
            exists e, In e (fst (grantTable params exp1 now1 es n))
                      /\ grantKey params p e = true).
  { intros p Hp.
    destruct (grantTable_rows params exp1 now1 es n p Hp) as [x [Hx [Hk _]]].
    exists x. auto. }
  rewrite (grantTable_closed params exp2 now2 _ _ W1).
  rewrite (grantCreated_nil params exp2 now2 _ _ Hall).
  cbn [fst snd List.length Z.of_nat]. rewrite app_nil_r, Z.add_0_r.
  assert (Hset : forall x,
            In x (fst (grantTable params exp1 now1 es n)) ->
            touched (grantFound params (fst (grantTable params exp1 now1 es n))) x
            = true ->
            regranted params exp1 x = x).
  { intros x Hx T. unfold touched in T. apply existsb_exists in T.
    destruct T as [[p [e2 |]] [Hin Hid]]; unfold foundId in Hid; cbn in Hid;
      [| discriminate].
    apply Z.eqb_eq in Hid. apply grantFound_in in Hin.
    destruct Hin as [Hp [He2 [_ F]]].
    assert (x = e2).
    { destruct W1 as [N1 _].
      apply (NoDup_map_inj ent_id (fst (grantTable params exp1 now1 es n)));
        assumption. }
    subst e2. rewrite (grantTable_closed params exp1 now1 es n W) in F.
    cbn [fst] in F. apply (first_match_settled _ _ _ _ _ _ _ Hp F). }
  split; [reflexivity |]. split.
  - rewrite map_map. apply map_ext_in. intros x Hx.
    destruct (touched _ x) eqn:T; [| reflexivity].
    rewrite <- (Hset x Hx T). apply regranted_clear.
  - intros ->.
    transitivity (map (fun x => x) (fst (grantTable params exp1 now1 es n)));
      [| apply map_id].
    apply map_ext_in. intros x Hx.
    destruct (touched _ x) eqn:T; [| reflexivity].
    apply (Hset x Hx T).
Qed.

Lemma grantTable_no_products (params : GrantParams) expires now es n :
  g_productIds params = [] -> grantTable params expires now es n = (es, n).
Proof. intros H. unfold grantTable, grantFound. rewrite H. reflexivity. Qed.

Lemma grantEffect_twice (params : GrantParams) (now1 now2 : Z)
    (es : list Entitlement) (n : Z) :
  wf_entitlements es n ->
  grantRejected params now1 = false ->
  let t1 := grantEffect params now1 es n in
  let t2 := grantEffect params now2 (fst t1) (snd t1) in
  snd t2 = snd t1
  /\ map clearExpiry (fst t2) = map clearExpiry (fst t1)
  /\ (grantExpiry params now2 = grantExpiry params now1 -> fst t2 = fst t1).
Proof.
  intros W Hrej. cbv zeta. unfold grantEffect. rewrite Hrej.
  destruct (grantRejected params now2) eqn:R2.
  - cbn [fst snd]. repeat split.
  - destruct (grantTable_twice params (expiryValue (grantExpiry params now1))
                (expiryValue (grantExpiry params now2)) now1 now2 es n W)
      as [A [B C]].
    split; [exact A |]. split; [exact B |].
    intros E. apply C. rewrite E. reflexivity.
Qed.

Lemma grantEffect_wf (params : GrantParams) (now : Z) es n :
  wf_entitlements es n ->
  wf_entitlements (fst (grantEffect params now es n))
                  (snd (grantEffect params now es n)).
Proof.
  intros W. unfold grantEffect.
  destruct (grantRejected params now); cbn [fst snd];
    [exact W | apply grantTable_wf, W].
Qed.

(** C2, counterexample.  The same checkout event for a six-month bundle,
    delivered again a day later: both deliveries answer 200, the second
    rewrites [expiresAt] of both rows (August 1 instead of July 31), so the
    rows differ from those after the first, and [grantAccess] has run
    twice (two grant entries in the audit log). *)
Lemma checkout_redelivery_moves_expiry :
  let out1 := POST buyerEvent "t1" 1738324800000 shopStore in
  let out2 := POST buyerEvent "t2" 1738411200000 (snd out1) in
  fst out1 = Ok (mkResponse 200 (Some true))
  /\ fst out2 = Ok (mkResponse 200 (Some true))
  /\ map expiresAt (entitlements (snd out1))
     = [Some 1753963200000; Some 1753963200000]
  /\ map expiresAt (entitlements (snd out2))
     = [Some 1754049600000; Some 1754049600000]
  /\ entitlements (snd out2) <> entitlements (snd out1)
  /\ map action (auditLogs (snd out2)) = ["grant"; "grant"].
Proof.
  cbv zeta.
  split; [vm_compute; reflexivity |].
  split; [vm_compute; reflexivity |].
  split; [vm_compute; reflexivity |].
  split; [vm_compute; reflexivity |].
  split; [| vm_compute; reflexivity].
  intros E. apply (f_equal (map expiresAt)) in E. vm_compute in E. discriminate.
Qed.

(** C2, as amended.  After a checkout-completed delivery that was
    processed (status 200) on a table with unique ids, a second delivery
    of the same event inserts no Entitlement row and changes no column of
    any row but [expiresAt], which is recomputed from the time of the
    second delivery; the rows are equal when the recomputed expiry is the
    same (a lifetime bundle, or the same instant).  The webhook log keeps
    as many rows for the event id as after the first delivery: exactly
    one when the id had at most one row before. *)
Theorem checkout_redelivery (id : string) (session : Session)
    (tok1 tok2 : string) (now1 now2 : Z) (s : Store) :
  let event := mkEvent id (CheckoutSessionCompleted session) in
  let out1 := POST event tok1 now1 s in
  let out2 := POST event tok2 now2 (snd out1) in
  wf_entitlements (entitlements s) (nextEntitlementId s) ->
  (exists h, fst out1 = Ok (mkResponse 200 h)) ->
  List.length (entitlements (snd out2)) = List.length (entitlements (snd out1))
  /\ map clearExpiry (entitlements (snd out2))
     = map clearExpiry (entitlements (snd out1))
  /\ (match checkoutGrant session s with
      | Some params => grantExpiry params now2 = grantExpiry params now1
      | None => True
      end ->
      entitlements (snd out2) = entitlements (snd out1))
  /\ logCount id (snd out2) = logCount id (snd out1)
  /\ ((logCount id s <= 1)%nat ->
      logCount id (snd out1) = 1%nat /\ logCount id (snd out2) = 1%nat).
Proof.
  cbv zeta. intros W [h Hresp].
  destruct (POST_checkout id session tok1 now1 s) as [st1 [m1 [h1 P1]]].
  pose proof (handleCheckoutCompleted_facts session tok1 now1 s) as F1.
  set (o1 := handleCheckoutCompleted session tok1 now1 s) in *.
  rewrite P1 in *. cbn [fst snd] in *.
  assert (Hok1 : isOk (fst o1) = true).
  { destruct (isOk (fst o1)); [reflexivity |]. inversion Hresp. }
  set (s1 := snd (logWebhookEvent id "checkout.session.completed" st1 m1 (snd o1)))
    in *.
  assert (L1 : forall (B : Type) (f : Store -> B),
            preserves f (logWebhookEvent id "checkout.session.completed" st1 m1) ->
            f s1 = f (snd o1)).
  { intros B f Pf. apply Pf. }
  assert (E1 : entitlements s1 = fst (checkoutEffect session now1 s)).
  { rewrite (L1 _ entitlements) by frame. apply (co_entitlements _ _ _ _ F1). }
  assert (N1 : nextEntitlementId s1 = snd (checkoutEffect session now1 s)).
  { rewrite (L1 _ nextEntitlementId) by frame. apply (co_next _ _ _ _ F1). }
  assert (G1 : checkoutGrant session s1 = checkoutGrant session s).
  { rewrite <- (co_stable _ _ _ _ F1). apply checkoutGrant_frame.
    - apply L1. frame.
    - apply L1. frame.
    - intros email. apply identityIdFor_frame; apply L1; frame. }
  assert (C1 : logCount id s1 = Nat.max 1 (logCount id s)).
  { unfold s1. rewrite logWebhookEvent_count. f_equal. unfold logCount.
    assert (Pw : preserves webhookLogs (handleCheckoutCompleted session tok1 now1))
      by frame.
    unfold o1. rewrite Pw. reflexivity. }
  clearbody s1.
  destruct (POST_checkout id session tok2 now2 s1) as [st2 [m2 [h2 P2]]].
  pose proof (handleCheckoutCompleted_facts session tok2 now2 s1) as F2.
  set (o2 := handleCheckoutCompleted session tok2 now2 s1) in *.
  rewrite P2. cbn [fst snd].
  set (s2 := snd (logWebhookEvent id "checkout.session.completed" st2 m2 (snd o2))).
  assert (E2 : entitlements s2 = fst (checkoutEffect session now2 s1)).
  { unfold s2.
    assert (Pf : preserves entitlements
                   (logWebhookEvent id "checkout.session.completed" st2 m2))
      by frame.
    rewrite Pf. apply (co_entitlements _ _ _ _ F2). }
  assert (C2 : logCount id s2 = Nat.max 1 (logCount id s1)).
  { unfold s2. rewrite logWebhookEvent_count. f_equal. unfold logCount.
    assert (Pw : preserves webhookLogs (handleCheckoutCompleted session tok2 now2))
      by frame.
    unfold o2. rewrite Pw. reflexivity. }
  clearbody s2.
  assert (Hents : map clearExpiry (entitlements s2)
                  = map clearExpiry (entitlements s1)
                  /\ (match checkoutGrant session s with
                      | Some params =>
                          grantExpiry params now2 = grantExpiry params now1
                      | None => True
                      end -> entitlements s2 = entitlements s1)).
  { rewrite E2. unfold checkoutEffect at 1 2. rewrite G1.
    destruct (checkoutGrant session s) as [params |] eqn:Hg.
    - pose proof (co_ok _ _ _ _ F1 Hok1 params Hg) as Hrej.
      unfold checkoutEffect in E1, N1. rewrite Hg in E1, N1. rewrite E1, N1.
      destruct (grantEffect_twice params now1 now2 _ _ W Hrej) as [_ [A B]].
      split; assumption.
    - cbn [fst]. split; [reflexivity | intros _; reflexivity]. }
  destruct Hents as [Hclear Hsame].
  split.
  { rewrite <- (length_map clearExpiry (entitlements s2)), Hclear.
    apply length_map. }
  split; [exact Hclear |]. split; [exact Hsame |].
  split; [rewrite C2, C1; lia |].
  intros Hle. rewrite C2, C1. split; lia.
Qed.

(** ** Pushes after a grant, and instances *)

(** C6.  No grant path reaches the sync dispatcher: [grantAccess], the
    checkout handler and the webhook route leave the list of pushes as it
    is.  On the scenario of the claim (a form-free bundle of rezume and
    aicoach, API key configured) the checkout is answered 200 and both
    products are granted, yet no push has been attempted, where
    [grantAccessAndSync] on the same products would have sent two. *)
Theorem grant_paths_send_no_sync :
  (forall params now s,
      syncPushes (snd (grantAccess params now s)) = syncPushes s)
  /\ (forall session tok now s,
         syncPushes (snd (handleCheckoutCompleted session tok now s))
         = syncPushes s)
  /\ (forall event tok now s,
         syncPushes (snd (POST event tok now s)) = syncPushes s)
  /\ (let out := POST buyerEvent "t1" 1738324800000 shopStore in
      fst out = Ok (mkResponse 200 (Some true))
      /\ map ent_productId (entitlements (snd out)) = ["rezume"; "aicoach"]
      /\ map revokedAt (entitlements (snd out)) = [None; None]
      /\ syncPushes (snd out) = []
      /\ syncPushes
           (snd (grantAccessAndSync "buyer@example.com" ["rezume"; "aicoach"]
                   None (snd out)))
         = [mkSyncPush "rezume" "buyer@example.com" "pro" "bundle"
              "Bundle access granted via Central Dashboard";
            mkSyncPush "aicoach" "buyer@example.com" "pro" "bundle"
              "Bundle access granted via Central Dashboard"]).
Proof.
  split; [intros params now; apply grantAccess_no_sync |].
  split; [intros session tok now; apply handleCheckoutCompleted_no_sync |].
  split; [intros event tok now; apply POST_no_sync |].
  cbv zeta. repeat split; vm_compute; reflexivity.
Qed.

Lemma calculateExpiryDate_rollover_witness :
  calculateExpiryDate "days" (Some 30) 1738324800000
  = Some (TimeClip (1738324800000 + 30 * msPerDay)).
Proof.
  apply (proj1 (proj2 (proj2 (proj2 calculateExpiryDate_rollover)))).
  lia.
Defined.

Lemma checkout_redelivery_witness :
  let out1 := POST buyerEvent "t1" 1738324800000 shopStore in
  let out2 := POST buyerEvent "t2" 1738411200000 (snd out1) in
  List.length (entitlements (snd out2)) = List.length (entitlements (snd out1))
  /\ map clearExpiry (entitlements (snd out2))
     = map clearExpiry (entitlements (snd out1))
  /\ logCount "evt_1" (snd out2) = 1%nat.
Proof.
  cbv zeta.
  destruct (checkout_redelivery "evt_1" buyerSession "t1" "t2"
              1738324800000 1738411200000 shopStore)
    as [A [B [_ [_ C]]]].
  - split; constructor.
  - exists (Some true). vm_compute. reflexivity.
  - split; [exact A |]. split; [exact B |].
    apply C. vm_compute. lia.
Defined.

Lemma processClaim_failing_spec_witness :
  let out := processClaim_failing None "tok" claimantData 1000 activationStore in
  fst out = Ok (lifetimeBundle, buyer)
  /\ In (mkIdentityEmail "claimant@example.com" "rezume" 1)
        (identityEmails (snd out))
  /\ productSubmissions (snd out)
     = [mkProductSubmission 1 "rezume" [("name", "Ada")]]
  /\ claimTokens (snd out) = markedClaimed "tok" 1000 (claimTokens activationStore)
  /\ isOk (fst (processClaim_failing (Some 2%nat) "tok" claimantData 1000
                  activationStore)) = false.
Proof.
  cbv zeta.
  pose proof (processClaim_failing_spec None "tok" claimantData 1000
                activationStore) as H.
  pose proof (processClaim_failing_spec (Some 2%nat) "tok" claimantData 1000
                activationStore) as H2.
  cbv zeta in H, H2.
  change (fst (processClaim_validate "tok" 1000 activationStore))
    with (Ok (buyerToken, lifetimeBundle, buyer)) in H, H2.
  cbv iota in H, H2. destruct H as [_ [_ [_ [Hn Hs]]]].
  destruct H2 as [_ [_ [Hf _]]].
  assert (Hok : isOk (fst (processClaim_failing None "tok" claimantData 1000
                             activationStore)) = true).
  { rewrite (Hn eq_refl). vm_compute. reflexivity. }
  destruct (Hs Hok) as [A [_ [B [C [_ [_ [D _]]]]]]].
  split; [exact A |].
  split.
  { apply (B "rezume" (mkProductData "Claimant@Example.com"
                         (Some [("name", "Ada")])));
      [left; reflexivity | reflexivity | reflexivity]. }
  split; [rewrite C; reflexivity |].
  split; [exact D |].
  apply (Hf 2%nat eq_refl). vm_compute. lia.
Defined.

Lemma processClaim_second_attempt_rejected_witness :
  processClaim "tok" [] 1500
    (snd (processClaim "tok" [] 1000 claimStore))
  = (Err "Token already claimed", snd (processClaim "tok" [] 1000 claimStore)).
Proof.
  apply (processClaim_second_attempt_rejected "tok" [] [] 1000 1500 claimStore
           (snd (processClaim "tok" [] 1000 claimStore)) lifetimeBundle buyer).
  vm_compute. reflexivity.
Defined.

Lemma revokeEntitlementById_one_row_witness :
  (exists s',
      revokeEntitlementById 2 (Some "refund") None 1600 1601 catalogStore
      = (Ok (mkRevokeOneResult 2 1), s')
      /\ entitlements s' = [bundleRow; revoked 1600 (Some "refund") directRow]
      /\ syncPushes s' = [])
  /\ (exists s',
         revokeEntitlementById 2 (Some "refund") None 1600 1800 expiringStore
         = (Ok (mkRevokeOneResult 2 0), s')
         /\ syncPushes s'
            = [mkSyncPush "rezume" "buyer@example.com" "free" "revoked"
                 "refund"]).
Proof.
  split.
  - destruct (revokeEntitlementById_one_row 2 (Some "refund") None 1600 1601
                catalogStore [bundleRow] [] directRow buyer)
      as [s' [e' [remaining [A [B [C [D [E [G [_ [I _]]]]]]]]]]].
    + reflexivity.
    + reflexivity.
    + vm_compute. repeat constructor; cbn; intuition discriminate.
    + reflexivity.
    + vm_compute in G. subst remaining.
      exists s'. split; [exact A |]. split.
      * rewrite B. f_equal. f_equal.
        destruct e'; cbn in *. inversion E. subst. reflexivity.
      * apply I. discriminate.
  - destruct (revokeEntitlementById_one_row 2 (Some "refund") None 1600 1800
                expiringStore [expiringRow] [] directRow buyer)
      as [s' [e' [remaining [A [_ [_ [_ [_ [G [_ [_ [J _]]]]]]]]]]]].
    + reflexivity.
    + reflexivity.
    + vm_compute. repeat constructor; cbn; intuition discriminate.
    + reflexivity.
    + vm_compute in G. subst remaining.
      exists s'. split; [exact A |].
      apply (J eq_refl); [reflexivity | reflexivity | left; reflexivity].
Defined.

Lemma checkAccess_spec_witness :
  exists r,
    checkAccess "Buyer@Example.com" "rezume" 1600 1600 catalogStore
    = (Ok r, catalogStore)
    /\ hasAccess r = true
    /\ ar_source r = Some "direct"
    /\ ar_grantedAt r = Some 1500.
Proof.
  destruct (checkAccess_spec "Buyer@Example.com" "rezume" 1600 1600
              catalogStore) as [r [resolved [A [_ [C D]]]]].
  exists r. split; [exact A |].
  assert (Hb : In (mkIdentityEmail "buyer@example.com" "rezume" 1)
                  (identityEmails catalogStore)
               /\ ie_email (mkIdentityEmail "buyer@example.com" "rezume" 1)
                  = toLowerCase "Buyer@Example.com"
               /\ ie_productId (mkIdentityEmail "buyer@example.com" "rezume" 1)
                  = "rezume").
  { split; [left; reflexivity | split; reflexivity]. }
  assert (R : resolved = Some 1).
  { destruct resolved as [i |].
    - destruct C as [[row [[Hin _] Hi]] | [Hno _]].
      + destruct Hin as [<- | []]. rewrite <- Hi. reflexivity.
      + exfalso. exact (Hno _ Hb).
    - exfalso. exact (proj1 C _ Hb). }
  subst resolved. destruct D as [_ [_ [D3 D4]]].
  assert (Hacc : hasAccess r = true).
  { apply D4.
    - exists directRow. split; [right; left; reflexivity |].
      split; [reflexivity |]. split; [reflexivity |].
      split; [reflexivity | left; reflexivity].
    - intros e t [Hin _] Et.
      destruct Hin as [<- | [<- | []]]; discriminate. }
  split; [exact Hacc |].
  destruct (D3 Hacc) as [e [[Hin _] [Hmax [_ [Hs [_ [_ Hg]]]]]]].
  assert (Hd : grantedAt directRow <= grantedAt e).
  { apply Hmax. split; [right; left; reflexivity |].
    split; [reflexivity |]. split; [reflexivity |].
    split; [reflexivity | left; reflexivity]. }
  destruct Hin as [<- | [<- | []]].
  - cbn in Hd. lia.
  - split; assumption.
Defined.



(** C5.  A grant that lists one product twice leaves two rows with the
    same (identityId, productId, source, sourceApp).  The reads of both
    callbacks come back without a row before either inserts, so the
    [findFirst] that is to lead to an update finds nothing twice.  The
    admin's manual grant passes the product ids of the request on
    unchanged, so the request of an admin with ["rezume", "rezume"] for a
    buyer and a product that exist is answered 200 and breaks the
    uniqueness of the key on a table that had it. *)
Theorem grantAccess_repeated_product_two_rows :
  (let params :=
     mkGrantParams 1 ["rezume"; "rezume"] "manual" None None None None
                   None None None None in
   exists r1 r2 s',
     grantAccess params 0 catalogStore = (Ok [r1; r2], s')
     /\ uniqueKeys (entitlements catalogStore)
     /\ entitlements s' = entitlements catalogStore ++ [r1; r2]
     /\ ent_id r1 <> ent_id r2
     /\ entKey r1 = entKey r2
     /\ ~ uniqueKeys (entitlements s'))
  /\ (let out :=
        POST_grant (Admin "admin@example.com") (Some "buyer@example.com")
          (Some ["rezume"; "rezume"]) None None None 0 catalogStore in
      fst out = Ok (mkReply 200 (Ok tt))
      /\ map entKey (entitlements (snd out))
         = [(1, "rezume", "bundle", "central"); (1, "rezume", "direct", "rezume");
            (1, "rezume", "manual", "central"); (1, "rezume", "manual", "central")]
      /\ ~ uniqueKeys (entitlements (snd out))).
Proof.
  assert (D : forall a b c : Z * string * string * string,
            ~ NoDup [a; b; c; c]).
  { intros a b c N. inversion N as [| ? ? _ N1]; subst.
    inversion N1 as [| ? ? _ N2]; subst.
    inversion N2 as [| ? ? Hn _]; subst. apply Hn. left. reflexivity. }
  split; cbv zeta.
  - do 3 eexists. split; [vm_compute; reflexivity |].
    split; [vm_compute; repeat constructor; cbn; intuition discriminate |].
    split; [reflexivity |]. split; [discriminate |]. split; [reflexivity |].
    unfold uniqueKeys. cbn. apply D.
  - split; [vm_compute; reflexivity |]. split; [vm_compute; reflexivity |].
    unfold uniqueKeys.
    replace (map entKey _)
      with [(1, "rezume", "bundle", "central"); (1, "rezume", "direct", "rezume");
            (1, "rezume", "manual", "central"); (1, "rezume", "manual", "central")]
      by (vm_compute; reflexivity).
    apply D.
Qed.

Lemma grantAccess_upsert_witness :
  let params :=
    mkGrantParams 1 ["rezume"; "aicoach"] "bundle" None (Some 1) (Some "days")
                  (Some 30) None None None None in
  exists rows s',
    grantAccess params 1600 catalogStore = (Ok rows, s')
    /\ map entKey (entitlements s')
       = [(1, "rezume", "bundle", "central"); (1, "rezume", "direct", "rezume");
          (1, "aicoach", "bundle", "central")]
    /\ uniqueKeys (entitlements s').
Proof.
  cbv zeta.
  set (params := mkGrantParams 1 ["rezume"; "aicoach"] "bundle" None (Some 1)
                   (Some "days") (Some 30) None None None None).
  destruct (grantAccess params 1600 catalogStore) as [[rows | e] s'] eqn:E;
    [| vm_compute in E; discriminate].
  exists rows, s'. split; [reflexivity |].
  destruct (grantAccess_upsert params 1600 catalogStore s' rows)
    as [expires [_ [_ [_ [_ [_ [U _]]]]]]].
  - vm_compute. split; repeat constructor; cbn; intuition discriminate.
  - vm_compute. repeat constructor; cbn; intuition discriminate.
  - split; [vm_compute; discriminate |]. split; [| vm_compute; discriminate].
    intros p [<- | [<- | []]]; reflexivity.
  - repeat constructor; cbn; intuition discriminate.
  - exact E.
  - split; [| exact U]. vm_compute in E. inversion E. reflexivity.
Defined.

(** * Properties of the routes and the handlers *)

(** ** The pushes of the dispatcher *)

Lemma APP_CONFIG_keys (appKey : string) :
  APP_CONFIG appKey <> None <-> appKey = "rezume" \/ appKey = "aicoach".
Proof.
  unfold APP_CONFIG.
  destruct (String.eqb_spec appKey "rezume") as [E1 | N1].
  - split; [auto | discriminate].
  - destruct (String.eqb_spec appKey "aicoach") as [E2 | N2].
    + split; [auto | discriminate].
    + split; [congruence | intros [C | C]; contradiction].
Qed.

Lemma appsToSync_from_spec (productIds : list string) :
  forall seen,
    NoDup seen ->
    NoDup (appsToSync_from seen productIds)
    /\ forall app,
         In app (appsToSync_from seen productIds)
         <-> In app seen
             \/ (APP_CONFIG app <> None
                 /\ exists p, In p productIds /\ toLowerCase p = app).
Proof.
  induction productIds as [| p r IH]; intros seen ND; cbn [appsToSync_from].
  - split; [exact ND |]. intros app. split; [auto |].
    intros [H | [_ [q [[] _]]]]. exact H.
  - destruct (APP_CONFIG (toLowerCase p)) as [name |] eqn:C.
    + destruct (inb (toLowerCase p) seen) eqn:I.
      * destruct (IH seen ND) as [N1 M1]. split; [exact N1 |].
        intros app. rewrite M1. split.
        -- intros [H | [Ha [q [Hq E]]]]; [auto |].
           right. split; [exact Ha |]. exists q. split; [first [exact Hq | right; exact Hq] | exact E].
        -- intros [H | [Ha [q [[Hq | Hq] E]]]]; [auto | |].
           ++ subst q. left. rewrite <- E. apply inb_spec. exact I.
           ++ right. split; [exact Ha |]. exists q. split; [first [exact Hq | right; exact Hq] | exact E].
      * assert (ND' : NoDup (seen ++ [toLowerCase p])).
        { apply NoDup_app_intro; [exact ND | repeat constructor; intros [] |].
          intros x Hx [Hy | []]. subst x.
          apply inb_spec in Hx. congruence. }
        destruct (IH _ ND') as [N1 M1]. split; [exact N1 |].
        intros app. rewrite M1, in_app_iff. cbn [In]. split.
        -- intros [[H | [H | []]] | [Ha [q [Hq E]]]].
           ++ auto.
           ++ right. subst app. split; [congruence |]. exists p. split; [left; reflexivity | reflexivity].
           ++ right. split; [exact Ha |]. exists q. split; [first [exact Hq | right; exact Hq] | exact E].
        -- intros [H | [Ha [q [[Hq | Hq] E]]]].
           ++ auto.
           ++ subst q. left. right. left. exact E.
           ++ right. split; [exact Ha |]. exists q. split; [first [exact Hq | right; exact Hq] | exact E].
    + destruct (IH seen ND) as [N1 M1]. split; [exact N1 |].
      intros app. rewrite M1. split.
      * intros [H | [Ha [q [Hq E]]]]; [auto |].
        right. split; [exact Ha |]. exists q. split; [first [exact Hq | right; exact Hq] | exact E].
      * intros [H | [Ha [q [[Hq | Hq] E]]]]; [auto | |].
        -- subst q. rewrite E in C. contradiction.
        -- right. split; [exact Ha |]. exists q. split; [first [exact Hq | right; exact Hq] | exact E].
Qed.

Lemma appsToSync_spec (productIds : list string) :
  NoDup (appsToSync productIds)
  /\ forall app,
       In app (appsToSync productIds)
       <-> (app = "rezume" \/ app = "aicoach")
           /\ exists p, In p productIds /\ toLowerCase p = app.
Proof.
  unfold appsToSync.
  destruct (appsToSync_from_spec productIds [] (NoDup_nil _)) as [N1 M1].
  split; [exact N1 |]. intros app. rewrite M1, APP_CONFIG_keys. cbn [In].
  tauto.
Qed.

(** X1.  One call of [syncToApps] sends at most one push to each app,
    however often and in whatever letter case its product id is listed:
    the pushes go to distinct apps among rezume and aicoach, an app gets
    one exactly when the API key is configured and some listed product
    id is its key up to letter case, and each push carries the email,
    tier, source and reason of the call.  The call never fails. *)
Theorem syncToApps_once_per_app (productIds : list string)
    (email tier source reason : string) (s : Store) :
  exists pushes,
    syncToApps productIds email tier source reason s
    = (Ok tt, with_syncPushes (syncPushes s ++ pushes) s)
    /\ NoDup (map push_app pushes)
    /\ (List.length pushes <= 2)%nat
    /\ (forall app,
           In app (map push_app pushes)
           <-> truthy_opt (ADMIN_API_KEY s) = true
               /\ (app = "rezume" \/ app = "aicoach")
               /\ exists p, In p productIds /\ toLowerCase p = app)
    /\ (forall q, In q pushes ->
                  q = mkSyncPush (push_app q) email tier source reason).
Proof.
  exists (pushesFor (ADMIN_API_KEY s) productIds email tier source reason).
  split; [apply syncToApps_run |].
  destruct (appsToSync_spec productIds) as [ND M].
  unfold pushesFor. destruct (truthy_opt (ADMIN_API_KEY s)).
  - assert (E : map push_app
                  (map (fun appKey => mkSyncPush appKey email tier source reason)
                       (appsToSync productIds))
                = appsToSync productIds).
    { rewrite map_map. cbn [push_app]. apply map_id. }
    rewrite E. split; [exact ND |]. split.
    + rewrite length_map.
      change 2%nat with (List.length ["rezume"; "aicoach"]).
      apply NoDup_incl_length; [exact ND |].
      intros app Happ. apply M in Happ. destruct Happ as [[-> | ->] _];
        cbn [In]; auto.
    + split.
      * intros app. rewrite M. tauto.
      * intros q Hq. apply in_map_iff in Hq. destruct Hq as [a [<- _]].
        reflexivity.
  - cbn [map List.length]. split; [constructor |]. split; [lia |]. split.
    + intros app. cbn [In]. split; [contradiction | intros [C _]; discriminate].
    + intros q [].
Qed.

(** ** Identities *)

Lemma getOrCreateIdentity_cases (email : string) (c : option string) (s : Store) :
  match find (fun i => (primaryEmail i =? toLowerCase email)%string)
             (identities s) with
  | None =>
      getOrCreateIdentity email c s
      = (Ok (mkIdentity (nextIdentityId s) (toLowerCase email) c),
         with_nextIdentityId (nextIdentityId s + 1)
           (with_identities
              (identities s
                 ++ [mkIdentity (nextIdentityId s) (toLowerCase email) c]) s))
  | Some i =>
      if truthy_opt c && negb (truthy_opt (stripeCustomerId i))
      then
        getOrCreateIdentity email c s
        = (Ok (mkIdentity (identity_id i) (primaryEmail i) c),
           with_identities
             (map (fun x => if identity_id x =? identity_id i
                            then mkIdentity (identity_id x) (primaryEmail x) c
                            else x)
                  (identities s)) s)
      else getOrCreateIdentity email c s = (Ok i, s)
  end.
Proof.
  unfold getOrCreateIdentity. rewrite bind_gets.
  destruct (find _ (identities s)) as [i |].
  - destruct (truthy_opt c && negb (truthy_opt (stripeCustomerId i)));
      reflexivity.
  - reflexivity.
Qed.

(** X2.  [getOrCreateIdentity] is a lookup after the first call: two
    calls for emails that differ in letter case only return the same
    identity id, the second call adds no row, and the first adds at most
    one. *)
Theorem getOrCreateIdentity_same_identity (email1 email2 : string)
    (c1 c2 : option string) (s : Store)
    (Hcase : toLowerCase email1 = toLowerCase email2) :
  let o1 := getOrCreateIdentity email1 c1 s in
  let o2 := getOrCreateIdentity email2 c2 (snd o1) in
  exists i1 i2,
    fst o1 = Ok i1 /\ fst o2 = Ok i2
    /\ identity_id i2 = identity_id i1
    /\ primaryEmail i2 = toLowerCase email1
    /\ map identity_id (identities (snd o2))
       = map identity_id (identities (snd o1))
    /\ (List.length (identities (snd o1))
        <= S (List.length (identities s)))%nat.
Proof.
  cbv zeta.
  assert (Hmap : forall (l : list Identity) k c,
             map identity_id
               (map (fun x => if identity_id x =? k
                              then mkIdentity (identity_id x) (primaryEmail x) c
                              else x) l)
             = map identity_id l).
  { intros l k c. rewrite map_map. apply map_ext. intros x.
    destruct (identity_id x =? k); reflexivity. }
  pose proof (getOrCreateIdentity_cases email1 c1 s) as H1.
  destruct (find _ (identities s)) as [i |] eqn:F.
  - (* the identity exists *)
    assert (Hi : primaryEmail i = toLowerCase email1).
    { apply find_some in F. destruct F as [_ F]. apply String.eqb_eq in F.
      exact F. }
    destruct (truthy_opt c1 && negb (truthy_opt (stripeCustomerId i))) eqn:B1.
    + rewrite H1. cbn [fst snd].
      pose proof (getOrCreateIdentity_cases email2 c2
                    (with_identities
                       (map (fun x => if identity_id x =? identity_id i
                                      then mkIdentity (identity_id x)
                                             (primaryEmail x) c1
                                      else x) (identities s)) s)) as H2.
      store_simpl. rewrite <- Hcase in H2.
      rewrite find_map_same in H2
        by (intros x; destruct (identity_id x =? identity_id i); reflexivity).
      rewrite F in H2. cbn [option_map] in H2.
      rewrite Z.eqb_refl in H2. cbn [stripeCustomerId identity_id primaryEmail] in H2.
      destruct (truthy_opt c2 && negb (truthy_opt c1)).
      * rewrite H2. cbn [fst snd]. store_simpl.
        do 2 eexists. repeat split; try reflexivity.
        -- exact Hi.
        -- rewrite Hmap. reflexivity.
        -- rewrite length_map. lia.
      * rewrite H2. cbn [fst snd]. store_simpl.
        do 2 eexists. repeat split; try reflexivity.
        -- exact Hi.
        -- rewrite length_map. lia.
    + rewrite H1. cbn [fst snd].
      pose proof (getOrCreateIdentity_cases email2 c2 s) as H2.
      rewrite <- Hcase, F in H2.
      destruct (truthy_opt c2 && negb (truthy_opt (stripeCustomerId i))).
      * rewrite H2. cbn [fst snd]. store_simpl.
        do 2 eexists. repeat split; try reflexivity.
        -- exact Hi.
        -- apply Hmap.
        -- lia.
      * rewrite H2. cbn [fst snd].
        do 2 eexists. repeat split; try reflexivity.
        -- exact Hi.
        -- lia.
  - (* the identity is created *)
    rewrite H1. cbn [fst snd].
    set (new := mkIdentity (nextIdentityId s) (toLowerCase email1) c1).
    pose proof (getOrCreateIdentity_cases email2 c2
                  (with_nextIdentityId (nextIdentityId s + 1)
                     (with_identities (identities s ++ [new]) s))) as H2.
    store_simpl. rewrite <- Hcase in H2.
    rewrite find_app_none in H2 by exact F.
    cbn [find] in H2. unfold new in H2 at 1.
    cbn [primaryEmail] in H2. rewrite String.eqb_refl in H2.
    fold new in H2.
    destruct (truthy_opt c2 && negb (truthy_opt (stripeCustomerId new))).
    + rewrite H2. cbn [fst snd]. store_simpl.
      do 2 eexists. repeat split; try reflexivity.
      * apply Hmap.
      * rewrite length_app. cbn [List.length]. lia.
    + rewrite H2. cbn [fst snd]. store_simpl.
      do 2 eexists. repeat split; try reflexivity.
      rewrite length_app. cbn [List.length]. lia.
Qed.

(** X3.  On a table with unique ids, [getOrCreateIdentity] keeps every
    row at its place with its id and primary email, and changes no other
    table; the one column it may write on an existing row is an empty
    [stripeCustomerId] of the identity of the email: a row of another
    email, or one that has a customer id, stays as it is. *)
Theorem getOrCreateIdentity_keeps_rows (email : string) (c : option string)
    (s : Store) (Hids : NoDup (map identity_id (identities s))) :
  let s' := snd (getOrCreateIdentity email c s) in
  (forall k i,
      nth_error (identities s) k = Some i ->
      exists i',
        nth_error (identities s') k = Some i'
        /\ identity_id i' = identity_id i
        /\ primaryEmail i' = primaryEmail i
        /\ (i' = i \/ stripeCustomerId i' = c)
        /\ (primaryEmail i <> toLowerCase email -> i' = i)
        /\ (truthy_opt (stripeCustomerId i) = true -> i' = i))
  /\ identityEmails s' = identityEmails s
  /\ entitlements s' = entitlements s
  /\ claimTokens s' = claimTokens s
  /\ auditLogs s' = auditLogs s
  /\ syncPushes s' = syncPushes s.
Proof.
  cbv zeta. split.
  - intros k i Hk.
    pose proof (getOrCreateIdentity_cases email c s) as H.
    destruct (find _ (identities s)) as [i0 |] eqn:F.
    + destruct (truthy_opt c && negb (truthy_opt (stripeCustomerId i0))) eqn:B.
      * rewrite H. cbn [snd]. store_simpl.
        rewrite nth_error_map, Hk. cbn [option_map].
        destruct (Z.eqb_spec (identity_id i) (identity_id i0)) as [E | N].
        -- assert (i = i0).
           { apply (NoDup_map_inj identity_id (identities s)); auto.
             - eapply nth_error_In; eauto.
             - apply find_some in F. tauto. }
           subst i0. apply andb_true_iff in B. destruct B as [_ B].
           apply negb_true_iff in B.
           apply find_some in F. destruct F as [_ F]. apply String.eqb_eq in F.
           eexists. split; [reflexivity |]. cbn [identity_id primaryEmail
                                                  stripeCustomerId].
           repeat split; auto; intros; congruence.
        -- exists i. repeat split; auto.
      * rewrite H. cbn [snd]. exists i. repeat split; auto.
    + rewrite H. cbn [snd]. store_simpl. exists i.
      rewrite nth_error_app1 by (apply nth_error_Some; congruence).
      repeat split; auto.
  - assert (P1 : preserves identityEmails (getOrCreateIdentity email c)) by frame.
    assert (P2 : preserves entitlements (getOrCreateIdentity email c)) by frame.
    assert (P3 : preserves claimTokens (getOrCreateIdentity email c)) by frame.
    assert (P4 : preserves auditLogs (getOrCreateIdentity email c)) by frame.
    assert (P5 : preserves syncPushes (getOrCreateIdentity email c)) by frame.
    repeat split; [apply P1 | apply P2 | apply P3 | apply P4 | apply P5].
Qed.

(** ** Email bindings *)

Lemma sameBinding_eq (email p : string) (row : IdentityEmail) :
  sameBinding email p row = true <-> ie_email row = email /\ ie_productId row = p.
Proof.
  unfold sameBinding. rewrite andb_true_iff, !String.eqb_eq. tauto.
Qed.

Lemma find_all_same {A : Type} (q : A -> bool) (l : list A) (v : A) :
  existsb q l = true ->
  (forall x, In x l -> q x = true -> x = v) ->
  find q l = Some v.
Proof.
  induction l as [| a r IH]; cbn [existsb find]; [discriminate |].
  intros E H. destruct (q a) eqn:Q.
  - rewrite (H a (or_introl eq_refl) Q). reflexivity.
  - cbn [orb] in E. apply IH; [exact E |].
    intros x Hx. apply H. right. exact Hx.
Qed.

Lemma identityEmail_upsert_run (email p : string) (i : Z) (u : option Z)
    (s : Store) :
  identityEmail_upsert email p i u s
  = (Ok tt,
     if existsb (sameBinding email p) (identityEmails s)
     then match u with
          | None => s
          | Some j =>
              with_identityEmails
                (map (fun ie => if sameBinding email p ie
                                then mkIdentityEmail (ie_email ie)
                                       (ie_productId ie) j
                                else ie) (identityEmails s)) s
          end
     else with_identityEmails
            (identityEmails s ++ [mkIdentityEmail email p i]) s).
Proof. reflexivity. Qed.

(** X4.  [linkEmailToIdentity] binds the email to the identity whatever
    it was bound to before: afterwards [checkAccess] resolves the email,
    in any letter case, to that identity for the product; every row of
    the pair (lower-cased email, product) is the new binding; the rows of
    other pairs are the ones there were; and a row is added only when
    the pair had none. *)
Theorem linkEmailToIdentity_rebinds (identityId : Z) (email productId : string)
    (s : Store) :
  let out := linkEmailToIdentity identityId email productId s in
  let bound := sameBinding (toLowerCase email) productId in
  fst out = Ok tt
  /\ (forall email',
         toLowerCase email' = toLowerCase email ->
         resolveIdentity email' productId (snd out) = Some identityId)
  /\ (forall row,
         In row (identityEmails (snd out)) -> bound row = true ->
         row = mkIdentityEmail (toLowerCase email) productId identityId)
  /\ (forall row,
         bound row = false ->
         (In row (identityEmails (snd out)) <-> In row (identityEmails s)))
  /\ List.length (identityEmails (snd out))
     = (List.length (identityEmails s)
        + if existsb bound (identityEmails s) then 0 else 1)%nat
  /\ identities (snd out) = identities s
  /\ entitlements (snd out) = entitlements s.
Proof.
  cbv zeta. unfold linkEmailToIdentity.
  rewrite identityEmail_upsert_run. cbn [fst snd].
  set (em := toLowerCase email).
  set (f := fun ie => if sameBinding em productId ie
                      then mkIdentityEmail (ie_email ie) (ie_productId ie)
                             identityId
                      else ie).
  assert (Hf : forall x, sameBinding em productId (f x) = sameBinding em productId x).
  { intros x. unfold f. destruct (sameBinding em productId x) eqn:Q; auto. }
  assert (Hrow : forall x, sameBinding em productId x = true ->
                           f x = mkIdentityEmail em productId identityId).
  { intros x Q. unfold f. rewrite Q. apply sameBinding_eq in Q.
    destruct Q as [-> ->]. reflexivity. }
  split; [reflexivity |].
  assert (Hall : forall row,
             In row (identityEmails
                       (if existsb (sameBinding em productId) (identityEmails s)
                        then with_identityEmails (map f (identityEmails s)) s
                        else with_identityEmails
                               (identityEmails s
                                  ++ [mkIdentityEmail em productId identityId])
                               s)) ->
             sameBinding em productId row = true ->
             row = mkIdentityEmail em productId identityId).
  { intros row Hin Q.
    destruct (existsb _ (identityEmails s)) eqn:Ex; store_simpl.
    - apply in_map_iff in Hin. destruct Hin as [x [<- Hx]].
      apply Hrow. rewrite <- Hf. exact Q.
    - apply in_app_iff in Hin. destruct Hin as [Hin | [<- | []]]; [| reflexivity].
      exfalso. assert (existsb (sameBinding em productId) (identityEmails s) = true)
        by (apply existsb_exists; exists row; auto).
      congruence. }
  assert (Hex : existsb (sameBinding em productId)
                  (identityEmails
                     (if existsb (sameBinding em productId) (identityEmails s)
                      then with_identityEmails (map f (identityEmails s)) s
                      else with_identityEmails
                             (identityEmails s
                                ++ [mkIdentityEmail em productId identityId])
                             s)) = true).
  { destruct (existsb _ (identityEmails s)) eqn:Ex; store_simpl.
    - apply existsb_exists in Ex. destruct Ex as [x [Hx Q]].
      apply existsb_exists. exists (f x). split; [apply in_map; exact Hx |].
      rewrite Hf. exact Q.
    - rewrite existsb_app. cbn [existsb]. unfold sameBinding at 2.
      cbn [ie_email ie_productId]. rewrite !String.eqb_refl.
      rewrite orb_true_r. reflexivity. }
  split.
  { intros email' Ecase. unfold resolveIdentity. rewrite Ecase. fold em.
    change (fun ie => (ie_email ie =? em)%string
                      && (ie_productId ie =? productId)%string)
      with (sameBinding em productId).
    rewrite (find_all_same _ _ _ Hex Hall). reflexivity. }
  split; [exact Hall |].
  destruct (existsb _ (identityEmails s)) eqn:Ex; store_simpl.
  - split.
    + intros row Q. rewrite in_map_iff. split.
      * intros [x [E Hx]]. unfold f in E.
        destruct (sameBinding em productId x) eqn:Qx.
        -- exfalso. rewrite <- E in Q.
           assert (sameBinding em productId (f x) = true) by (rewrite Hf; exact Qx).
           unfold f in H. rewrite Qx in H. congruence.
        -- subst x. exact Hx.
      * intros Hx. exists row. split; [| exact Hx]. unfold f. rewrite Q.
        reflexivity.
    + rewrite length_map. repeat split. lia.
  - split.
    + intros row Q. rewrite in_app_iff. cbn [In]. split.
      * intros [H | [<- | []]]; [exact H |].
        exfalso. unfold sameBinding in Q. cbn [ie_email ie_productId] in Q.
        rewrite !String.eqb_refl in Q. discriminate.
      * auto.
    + rewrite length_app. cbn [List.length]. repeat split.
Qed.

(** ** The access query *)

Lemma checkAccess_run (email productId : string) (now now' : Z) (s : Store) :
  checkAccess email productId now now' s
  = (Ok (accessAnswer email productId now now' s), s).
Proof.
  unfold checkAccess, accessAnswer, resolveIdentity. rewrite bind_gets.
  destruct (find _ (identityEmails s)) as [ie |].
  - rewrite bind_gets. destruct (activeEntitlements _ _ _ s); reflexivity.
  - rewrite bind_gets. destruct (find _ (identities s)) as [i |];
      cbn [option_map]; [| reflexivity].
    rewrite bind_gets. destruct (activeEntitlements _ _ _ s); reflexivity.
Qed.

Lemma accessAnswer_none (email productId : string) (now now' : Z) (s : Store) i :
  resolveIdentity email productId s = Some i ->
  activeRows i productId now (entitlements s) = [] ->
  accessAnswer email productId now now' s = noAccess productId.
Proof.
  intros R A. unfold accessAnswer. rewrite R.
  pose proof (activeEntitlements_spec i productId now s) as H.
  destruct (activeEntitlements i productId now s) as [| e r]; [reflexivity |].
  destruct H as [H _]. rewrite A in H. contradiction.
Qed.

Lemma accessAnswer_active (email productId : string) (n : Z) (s : Store) i :
  resolveIdentity email productId s = Some i ->
  activeRows i productId n (entitlements s) <> [] ->
  hasAccess (accessAnswer email productId n n s) = true.
Proof.
  intros R A. unfold accessAnswer. rewrite R.
  pose proof (activeEntitlements_spec i productId n s) as H.
  destruct (activeEntitlements i productId n s) as [| e r]; [contradiction |].
  destruct H as [H _]. apply activeRows_In in H.
  destruct H as [_ [_ [_ [Hr Hx]]]].
  unfold checkEntitlementAccess. rewrite Hr.
  destruct Hx as [-> | [x [-> Hx]]]; [reflexivity |].
  destruct (Z.ltb_spec x n); [lia | reflexivity].
Qed.

Lemma hasAccessAt_active (email productId : string) (n : Z) (s : Store) i e :
  resolveIdentity email productId s = Some i ->
  In e (entitlements s) ->
  ent_identityId e = i -> ent_productId e = productId ->
  revokedAt e = None -> validAt n (expiresAt e) ->
  hasAccessAt email productId n s = true.
Proof.
  intros R Hin Hi Hp Hr Hv. unfold hasAccessAt. rewrite checkAccess_run.
  cbn [fst]. apply (accessAnswer_active _ _ _ _ i R).
  intros C.
  assert (Ha : In e (activeRows i productId n (entitlements s))).
  { apply activeRows_In. repeat split; auto.
    unfold validAt in Hv. destruct (expiresAt e) as [x |]; [right | left; auto].
    exists x. auto. }
  rewrite C in Ha. contradiction.
Qed.

(** ** The blanket revocation *)

Lemma forEach_updateMany (i : Z) (f : Entitlement -> Entitlement)
    (Hkey : forall e, ent_identityId (f e) = ent_identityId e
                      /\ ent_productId (f e) = ent_productId e)
    (Hidem : forall e, f (f e) = f e) :
  forall (pids : list string) (s : Store),
    forEach (fun productId =>
               entitlement_updateMany
                 (fun e => (ent_identityId e =? i)
                           && (ent_productId e =? productId)%string) f)
            pids s
    = (Ok tt,
       with_entitlements
         (map (fun e => if (ent_identityId e =? i)
                           && inb (ent_productId e) pids
                        then f e else e) (entitlements s)) s).
Proof.
  induction pids as [| p r IH]; intros s.
  - cbn [forEach]. unfold ret. f_equal.
    replace (map _ (entitlements s)) with (entitlements s).
    + destruct s; reflexivity.
    + symmetry. rewrite <- (map_id (entitlements s)) at 2. apply map_ext.
      intros e. unfold inb. cbn [existsb]. rewrite andb_false_r. reflexivity.
  - cbn [forEach]. unfold entitlement_updateMany at 1. rewrite bind_modify.
    rewrite IH. store_simpl. f_equal.
    replace (map _ (map _ (entitlements s)))
      with (map (fun e => if (ent_identityId e =? i)
                             && inb (ent_productId e) (p :: r)
                          then f e else e) (entitlements s)).
    + destruct s; reflexivity.
    + rewrite map_map. apply map_ext. intros e.
      unfold inb. cbn [existsb]. fold (inb (ent_productId e) r).
      rewrite (String.eqb_sym p).
      destruct (ent_identityId e =? i) eqn:Ei; cbn [andb].
      * destruct (ent_productId e =? p)%string eqn:Ep; cbn [orb].
        -- destruct (Hkey e) as [K1 K2]. rewrite K1, K2, Ei. cbn [andb].
           match goal with
           | |- context [ if ?c then _ else _ ] => destruct c
           end; [first [apply Hidem | symmetry; apply Hidem] | reflexivity].
        -- rewrite Ei. cbn [andb]. reflexivity.
      * rewrite Ei. cbn [andb]. reflexivity.
Qed.

Lemma revoked_idem (now : Z) (reason : option string) (e : Entitlement) :
  revoked now reason (revoked now reason e) = revoked now reason e.
Proof.
  unfold revoked. cbn. destruct reason; reflexivity.
Qed.

(** X5.  [revokeAccess] never fails and revokes every row of the
    identity for each listed product, whatever its source: afterwards
    no such row is active at any time, and [checkAccess] answers no
    access for every email it resolves to the identity.  Rows of other
    identities and of products not listed are unchanged.  When the
    identity has a primary email, the apps among the listed products are
    each sent one push with tier free, whether or not a row was active,
    and the audit log gets a revoke and an app_sync_revoke entry;
    otherwise nothing is sent and only the revoke entry is logged. *)
Theorem revokeAccess_revokes_all (identityId : Z) (productIds : list string)
    (reason adminEmail : option string) (now : Z) (s : Store) :
  let out := revokeAccess identityId productIds reason adminEmail now s in
  let owner :=
    match find (fun i => identity_id i =? identityId) (identities s) with
    | Some i => present (Some (primaryEmail i))
    | None => None
    end in
  fst out = Ok tt
  /\ entitlements (snd out)
     = map (fun e => if (ent_identityId e =? identityId)
                        && inb (ent_productId e) productIds
                     then revoked now reason e else e) (entitlements s)
  /\ (forall p n, In p productIds ->
                  activeRows identityId p n (entitlements (snd out)) = [])
  /\ (forall email p n n',
         In p productIds ->
         resolveIdentity email p s = Some identityId ->
         checkAccess email p n n' (snd out) = (Ok (noAccess p), snd out))
  /\ syncPushes (snd out)
     = syncPushes s
       ++ match owner with
          | Some to =>
              pushesFor (ADMIN_API_KEY s) productIds to "free" "revoked"
                (revokeReason reason adminEmail)
          | None => []
          end
  /\ auditLogs (snd out)
     = auditLogs s
       ++ mkAuditLog "revoke" identityId productIds adminEmail
          :: match owner with
             | Some _ =>
                 [mkAuditLog "app_sync_revoke" identityId productIds adminEmail]
             | None => []
             end.
Proof.
  cbv zeta.
  assert (Hrun :
    revokeAccess identityId productIds reason adminEmail now s
    = (Ok tt,
       let s1 :=
         with_auditLogs
           (auditLogs s ++ [mkAuditLog "revoke" identityId productIds adminEmail])
           (with_entitlements
              (map (fun e => if (ent_identityId e =? identityId)
                                && inb (ent_productId e) productIds
                             then revoked now reason e else e)
                   (entitlements s)) s) in
       match match find (fun i => identity_id i =? identityId) (identities s) with
             | Some i => present (Some (primaryEmail i))
             | None => None
             end with
       | Some to =>
           with_auditLogs
             (auditLogs s1
                ++ [mkAuditLog "app_sync_revoke" identityId productIds adminEmail])
             (with_syncPushes
                (syncPushes s1
                   ++ pushesFor (ADMIN_API_KEY s1) productIds to "free" "revoked"
                        (revokeReason reason adminEmail)) s1)
       | None => s1
       end)).
  { unfold revokeAccess. rewrite bind_gets.
    rewrite (bind_ok _ _ s _ tt
               (forEach_updateMany identityId (revoked now reason)
                  (fun e => conj eq_refl eq_refl) (revoked_idem now reason)
                  productIds s)).
    unfold auditLog_create at 1. rewrite bind_modify. store_simpl.
    cbv zeta.
    destruct (find _ (identities s)) as [i |]; [| reflexivity].
    unfold present. destruct (truthy (primaryEmail i)) eqn:T; [| reflexivity].
    unfold revokeAccessAndSync.
    rewrite (or_else_truthy _ _ (revokeReason_truthy reason adminEmail)).
    erewrite bind_ok; [| apply syncToApps_run].
    reflexivity. }
  rewrite Hrun. cbn [fst snd]. cbv zeta.
  set (owner := match find _ (identities s) with
                | Some i => present (Some (primaryEmail i))
                | None => None
                end).
  set (es' := map _ (entitlements s)).
  assert (He : entitlements
                 (match owner with
                  | Some to =>
                      with_auditLogs
                        (auditLogs
                           (with_auditLogs
                              (auditLogs s
                                 ++ [mkAuditLog "revoke" identityId productIds
                                       adminEmail])
                              (with_entitlements es' s))
                           ++ [mkAuditLog "app_sync_revoke" identityId productIds
                                 adminEmail])
                        (with_syncPushes
                           (syncPushes
                              (with_auditLogs
                                 (auditLogs s
                                    ++ [mkAuditLog "revoke" identityId productIds
                                          adminEmail])
                                 (with_entitlements es' s))
                              ++ pushesFor
                                   (ADMIN_API_KEY
                                      (with_auditLogs
                                         (auditLogs s
                                            ++ [mkAuditLog "revoke" identityId
                                                  productIds adminEmail])
                                         (with_entitlements es' s)))
                                   productIds to "free" "revoked"
                                   (revokeReason reason adminEmail))
                           (with_auditLogs
                              (auditLogs s
                                 ++ [mkAuditLog "revoke" identityId productIds
                                       adminEmail])
                              (with_entitlements es' s)))
                  | None =>
                      with_auditLogs
                        (auditLogs s
                           ++ [mkAuditLog "revoke" identityId productIds adminEmail])
                        (with_entitlements es' s)
                  end) = es').
  { destruct owner; reflexivity. }
  split; [reflexivity |]. split; [exact He |].
  assert (Hact : forall p n, In p productIds -> activeRows identityId p n es' = []).
  { intros p n Hp.
    destruct (activeRows identityId p n es') as [| a l] eqn:A; [reflexivity |].
    exfalso.
    assert (Ha : In a (activeRows identityId p n es')) by (rewrite A; left; auto).
    apply activeRows_In in Ha. destruct Ha as [Hin [Hi [Hq [Hr _]]]].
    unfold es' in Hin. apply in_map_iff in Hin. destruct Hin as [x [E Hx]].
    destruct ((ent_identityId x =? identityId)
              && inb (ent_productId x) productIds) eqn:B.
    - subst a. discriminate Hr.
    - subst a. apply andb_false_iff in B. destruct B as [B | B].
      + apply Z.eqb_neq in B. contradiction.
      + apply inb_spec in Hp. rewrite Hq in B. congruence. }
  split; [rewrite He; exact Hact |]. split.
  - intros email p n n' Hp R. rewrite checkAccess_run. f_equal. f_equal.
    apply (accessAnswer_none _ _ _ _ _ identityId).
    + unfold resolveIdentity in *. destruct owner; exact R.
    + rewrite He. apply Hact. exact Hp.
  - destruct owner; store_simpl; [| rewrite app_nil_r]; split;
      try reflexivity.
    rewrite <- app_assoc. reflexivity.
Qed.

(** ** The webhook route *)

Lemma POST_run (event : Event) (tok : string) (now : Z) (s : Store) :
  POST event tok now s
  = let out := dispatch event tok now s in
    match fst out with
    | Ok r =>
        (Ok (mkResponse 200 (Some (handled r))),
         snd (logWebhookEvent (event_id event) (event_type event)
                (if handled r then "success" else "ignored") None (snd out)))
    | Err e =>
        (Ok (mkResponse 500 None),
         snd (logWebhookEvent (event_id event) (event_type event) "failed"
                (Some e) (snd out)))
    end.
Proof.
  cbv zeta. unfold POST, dispatch, tryCatch.
  destruct (event_object event) as [session | sub | sub | sub | ty].
  - unfold bind at 1.
    destruct (handleCheckoutCompleted session tok now s) as [[r | e] s'];
      cbn [fst snd]; reflexivity.
  - unfold bind at 1.
    destruct (handleSubscriptionUpdated sub now s) as [[r | e] s'];
      cbn [fst snd]; reflexivity.
  - unfold bind at 1.
    destruct (handleSubscriptionUpdated sub now s) as [[r | e] s'];
      cbn [fst snd]; reflexivity.
  - unfold bind at 1.
    destruct (handleSubscriptionDeleted sub now s) as [[r | e] s'];
      cbn [fst snd]; reflexivity.
  - reflexivity.
Qed.

Lemma dispatch_keeps_log (event : Event) (tok : string) (now : Z) :
  preserves webhookLogs (dispatch event tok now).
Proof.
  unfold dispatch. destruct (event_object event); frame.
Qed.

Lemma filter_map_fixed {A : Type} (p : A -> bool) (f : A -> A) (l : list A) :
  (forall x, p (f x) = p x) ->
  (forall x, p x = true -> f x = x) ->
  filter p (map f l) = filter p l.
Proof.
  intros H1 H2. induction l as [| a r IH]; [reflexivity |].
  cbn [map filter]. rewrite H1. destruct (p a) eqn:Pa.
  - rewrite (H2 a Pa), IH. reflexivity.
  - exact IH.
Qed.

Lemma logWebhookEvent_rows (id ty st : string) (m : option string) (s : Store) :
  let s' := snd (logWebhookEvent id ty st m s) in
  (forall w, In w (webhookLogs s') -> eventId w = id -> status w = st)
  /\ filter (fun w => negb (eventId w =? id)%string) (webhookLogs s')
     = filter (fun w => negb (eventId w =? id)%string) (webhookLogs s).
Proof.
  cbv zeta. unfold logWebhookEvent, modify. cbn [snd].
  destruct (existsb _ (webhookLogs s)) eqn:E; store_simpl.
  - split.
    + intros w Hw Hid. apply in_map_iff in Hw. destruct Hw as [x [<- Hx]].
      destruct (eventId x =? id)%string eqn:Ex; [reflexivity |].
      apply String.eqb_neq in Ex. contradiction.
    + apply filter_map_fixed.
      * intros x. destruct (eventId x =? id)%string eqn:Ex; cbn [eventId];
          rewrite Ex; reflexivity.
      * intros x Hx. destruct (eventId x =? id)%string; [discriminate |].
        reflexivity.
  - split.
    + intros w Hw Hid. apply in_app_iff in Hw. destruct Hw as [Hw | [<- | []]].
      * exfalso.
        assert (existsb (fun w => (eventId w =? id)%string) (webhookLogs s) = true).
        { apply existsb_exists. exists w. split; [exact Hw |].
          apply String.eqb_eq. exact Hid. }
        congruence.
      * reflexivity.
    + rewrite filter_app. cbn [filter eventId]. rewrite String.eqb_refl.
      cbn [negb]. apply app_nil_r.
Qed.

(** X6.  The webhook route answers every verified event and never
    rejects: the status is 200, or 500 when the handler threw.  Either
    way the event is logged: afterwards the log holds a row for the
    event id (exactly one when it held at most one before), every row of
    that id has the status of this delivery (success, ignored or failed),
    and the rows of other events are untouched. *)
Theorem POST_always_logs (event : Event) (newToken : string) (now : Z)
    (s : Store) :
  let out := POST event newToken now s in
  let other := fun w => negb (eventId w =? event_id event)%string in
  exists resp,
    fst out = Ok resp
    /\ (response_status resp = 200 /\ response_handled resp <> None
        \/ response_status resp = 500 /\ response_handled resp = None)
    /\ logCount (event_id event) (snd out)
       = Nat.max 1 (logCount (event_id event) s)
    /\ (forall w, In w (webhookLogs (snd out)) ->
                  eventId w = event_id event ->
                  status w = loggedStatus resp)
    /\ filter other (webhookLogs (snd out)) = filter other (webhookLogs s).
Proof.
  cbv zeta. rewrite POST_run. cbv zeta.
  pose proof (dispatch_keeps_log event newToken now s) as K.
  destruct (dispatch event newToken now s) as [[r | e] s1]; cbn [fst snd] in *.
  - eexists. split; [reflexivity |]. cbn [response_status response_handled].
    split; [left; split; [reflexivity | discriminate] |].
    rewrite logWebhookEvent_count.
    destruct (logWebhookEvent_rows (event_id event) (event_type event)
                (if handled r then "success" else "ignored") None s1) as [R1 R2].
    unfold logCount. rewrite K. split; [reflexivity |].
    unfold loggedStatus. cbn [response_handled].
    split; [| rewrite R2, K; reflexivity].
    intros w Hw Hid. rewrite (R1 w Hw Hid). destruct (handled r); reflexivity.
  - eexists. split; [reflexivity |]. cbn [response_status response_handled].
    split; [right; split; reflexivity |].
    rewrite logWebhookEvent_count.
    destruct (logWebhookEvent_rows (event_id event) (event_type event)
                "failed" (Some e) s1) as [R1 R2].
    unfold logCount. rewrite K. split; [reflexivity |].
    split; [exact R1 | rewrite R2, K; reflexivity].
Qed.

Lemma logWebhookEvent_sameButLog (id ty st : string) (m : option string)
    (s : Store) :
  sameButLog s (snd (logWebhookEvent id ty st m s)).
Proof.
  unfold sameButLog, logWebhookEvent, modify. cbn [snd].
  destruct (existsb _ (webhookLogs s)); destruct s; reflexivity.
Qed.

Lemma dispatch_ignorable (event : Event) (tok : string) (now : Z) (s : Store) :
  ignorable event s ->
  snd (dispatch event tok now s) = s
  /\ match fst (dispatch event tok now s) with
     | Ok r => handled r = false
     | Err _ => True
     end.
Proof.
  unfold ignorable, dispatch, customerIdentity, checkoutBundle.
  destruct (event_object event) as [session | sub | sub | sub | ty]; intros H.
  - unfold handleCheckoutCompleted, present in *.
    destruct (customer_email session) as [em |]; [| split; [reflexivity | exact I]].
    destruct (truthy em); cbn [negb]; [| split; [reflexivity | exact I]].
    destruct (lineItems session) as [| [priceId |] rest];
      [split; [reflexivity | exact I] | | split; [reflexivity | exact I]].
    destruct (truthy priceId); cbn [negb]; [| split; [reflexivity | exact I]].
    rewrite bind_gets, H. split; reflexivity.
  - unfold handleSubscriptionUpdated. rewrite bind_gets, H. split; reflexivity.
  - unfold handleSubscriptionUpdated. rewrite bind_gets, H. split; reflexivity.
  - unfold handleSubscriptionDeleted. rewrite bind_gets, H. split; reflexivity.
  - split; reflexivity.
Qed.

(** X7.  An event the ledger has nothing to do for (a type without
    handler, a checkout session without email, line item or price or
    whose price is not that of a bundle, a subscription event of a
    customer that no identity has) changes nothing but the webhook log,
    creates no identity, and is never answered as handled. *)
Theorem POST_ignorable_writes_only_log (event : Event) (newToken : string)
    (now : Z) (s : Store) (Hign : ignorable event s) :
  let out := POST event newToken now s in
  sameButLog s (snd out)
  /\ exists resp, fst out = Ok resp /\ response_handled resp <> Some true.
Proof.
  cbv zeta. rewrite POST_run. cbv zeta.
  destruct (dispatch_ignorable event newToken now s Hign) as [E H].
  destruct (dispatch event newToken now s) as [[r | e] s1]; cbn [fst snd] in *;
    subst s1.
  - split; [apply logWebhookEvent_sameButLog |].
    eexists. split; [reflexivity |]. cbn [response_handled]. rewrite H.
    discriminate.
  - split; [apply logWebhookEvent_sameButLog |].
    eexists. split; [reflexivity |]. discriminate.
Qed.

(** ** Claim tokens *)

Lemma createClaimToken_run (identityId bundleId : Z) (email : string)
    (sid : option string) (tok : string) (now : Z) (s : Store) :
  Z.abs (now + 30 * msPerDay) <= maxTime ->
  createClaimToken identityId bundleId email sid tok now s
  = (Ok (mkClaimToken tok identityId bundleId email sid (now + 30 * msPerDay)
           false None),
     with_claimTokens
       (claimTokens s
          ++ [mkClaimToken tok identityId bundleId email sid
                (now + 30 * msPerDay) false None]) s).
Proof.
  intros H. unfold createClaimToken. rewrite setDate_getDate. unfold TimeClip.
  destruct (Z.leb_spec (Z.abs (now + 30 * msPerDay)) maxTime); [| lia].
  reflexivity.
Qed.

(** X8.  A checkout for a bundle with a product that asks for a form
    grants nothing: it stores one unclaimed claim token for the buyer's
    identity and the bundle, expiring 30 days (of 86400000 ms) after the
    checkout and holding the purchase email as the session gives it; no
    entitlement, email binding, audit entry, mail or push is written. *)
Theorem handleCheckoutCompleted_claim_token (session : Session)
    (newToken : string) (now : Z) (s : Store) (bundle : Bundle)
    (customerEmail : string)
    (Hbundle : checkoutBundle session s = Some bundle)
    (Hemail : customer_email session = Some customerEmail)
    (Hforms : formProducts bundle s <> [])
    (Hrange : Z.abs (now + 30 * msPerDay) <= maxTime) :
  let out := handleCheckoutCompleted session newToken now s in
  fst out = Ok (mkHandled true (Some "claim_token_created"))
  /\ claimTokens (snd out)
     = claimTokens s
       ++ [mkClaimToken newToken (identityIdFor customerEmail s)
             (bundle_id bundle) customerEmail (Some (session_id session))
             (now + 30 * msPerDay) false None]
  /\ entitlements (snd out) = entitlements s
  /\ identityEmails (snd out) = identityEmails s
  /\ auditLogs (snd out) = auditLogs s
  /\ sentEmails (snd out) = sentEmails s
  /\ syncPushes (snd out) = syncPushes s.
Proof.
  cbv zeta. unfold checkoutBundle, present in Hbundle.
  unfold handleCheckoutCompleted. rewrite Hemail in *.
  destruct (truthy customerEmail); [| discriminate]. cbn [negb].
  destruct (lineItems session) as [| [priceId |] rest]; try discriminate.
  destruct (truthy priceId); [| discriminate]. cbn [negb].
  rewrite bind_gets, Hbundle.
  destruct (getOrCreateIdentity_id customerEmail
              (if truthy_opt (session_customer session)
               then session_customer session else None) s)
    as [ident [s1 [G [Hid _]]]].
  erewrite bind_ok; [| exact G].
  assert (P1 : preserves products (getOrCreateIdentity customerEmail
              (if truthy_opt (session_customer session)
               then session_customer session else None))) by frame.
  assert (P2 : preserves claimTokens (getOrCreateIdentity customerEmail
              (if truthy_opt (session_customer session)
               then session_customer session else None))) by frame.
  assert (P3 : preserves entitlements (getOrCreateIdentity customerEmail
              (if truthy_opt (session_customer session)
               then session_customer session else None))) by frame.
  assert (P4 : preserves identityEmails (getOrCreateIdentity customerEmail
              (if truthy_opt (session_customer session)
               then session_customer session else None))) by frame.
  assert (P5 : preserves auditLogs (getOrCreateIdentity customerEmail
              (if truthy_opt (session_customer session)
               then session_customer session else None))) by frame.
  assert (P6 : preserves sentEmails (getOrCreateIdentity customerEmail
              (if truthy_opt (session_customer session)
               then session_customer session else None))) by frame.
  assert (P7 : preserves syncPushes (getOrCreateIdentity customerEmail
              (if truthy_opt (session_customer session)
               then session_customer session else None))) by frame.
  specialize (P1 s). specialize (P2 s). specialize (P3 s). specialize (P4 s).
  specialize (P5 s). specialize (P6 s). specialize (P7 s).
  rewrite G in P1, P2, P3, P4, P5, P6, P7. cbn [snd] in *.
  rewrite bind_gets. rewrite P1. fold (formProducts bundle s).
  destruct (formProducts bundle s) as [| fp rest']; [contradiction |].
  erewrite bind_ok; [| apply createClaimToken_run; exact Hrange].
  unfold ret. cbn [fst snd]. store_simpl. rewrite Hid, P2.
  repeat split; assumption.
Qed.

(** X9.  A claim token is good for 30 days: after [createClaimToken] at
    [now] with a token string no row has yet, the checks of
    [processClaim] pass at every time up to and including
    [now + 30 * 86400000] and fail from the next millisecond on. *)
Theorem claimToken_valid_for_30_days (identityId bundleId : Z) (email : string)
    (sid : option string) (tok : string) (now n : Z) (s : Store)
    (Hfresh : find (fun c => (token c =? tok)%string) (claimTokens s) = None)
    (Hbundle : find (fun b => bundle_id b =? bundleId) (bundles s) <> None)
    (Hident : find (fun i => identity_id i =? identityId) (identities s) <> None)
    (Hrange : Z.abs (now + 30 * msPerDay) <= maxTime) :
  let s' := snd (createClaimToken identityId bundleId email sid tok now s) in
  isOk (fst (processClaim_validate tok n s')) = (n <=? now + 30 * msPerDay)
  /\ (now + 30 * msPerDay < n ->
      fst (processClaim_validate tok n s') = Err "Token expired").
Proof.
  cbv zeta. rewrite (createClaimToken_run _ _ _ _ _ _ _ Hrange). cbn [snd].
  unfold processClaim_validate. rewrite bind_gets. store_simpl.
  rewrite (find_app_none _ _ _ Hfresh). cbn [find token].
  rewrite String.eqb_refl. rewrite !bind_gets. store_simpl.
  cbn [ct_bundleId ct_identityId claimed ct_expiresAt].
  destruct (find _ (bundles s)) as [b |]; [| contradiction].
  destruct (find _ (identities s)) as [i |]; [| contradiction].
  destruct (Z.ltb_spec (now + 30 * msPerDay) n);
    destruct (Z.leb_spec n (now + 30 * msPerDay)); try lia;
    split; try reflexivity; intros; try reflexivity; lia.
Qed.

(** ** Grants and the access they give *)

Lemma grantAccess_unchanged (params : GrantParams) (now : Z) (s : Store) :
  grantRejected params now = true -> snd (grantAccess params now s) = s.
Proof.
  unfold grantRejected. intros H.
  destruct (expiry_cases (grantExpiry params now)) as [[expires Hd] | Hinv].
  - destruct (g_productIds params) as [| p r] eqn:P.
    + rewrite Hd in H. destruct expires; discriminate.
    + assert (Hfit : fits (g_amountPaid params) = false).
      { rewrite Hd in H. destruct expires, (fits (g_amountPaid params));
          try discriminate; reflexivity. }
      destruct (grantAccess_unfit params now s) as [msg R];
        [rewrite P; discriminate | exact Hfit |].
      rewrite R. reflexivity.
  - destruct (grantAccess_invalid params now s Hinv) as [msg R].
    rewrite R. reflexivity.
Qed.

(** X10.  [grantAccess] is all or nothing.  For a grant whose identity,
    products and bundle exist it fails in two cases only: the computed
    expiry is an Invalid Date, whether or not a product is listed, or a
    product is listed and the amount is beyond the 32 bits of its
    column.  A failed grant writes nothing at all; a grant that succeeds
    appends exactly one audit entry.  A lifetime grant and a grant
    without duration value have no expiry, so they fail for the amount
    only; and no grant touches the identities, the bindings, the tokens
    or the outbound traffic. *)
Theorem grantAccess_all_or_nothing (params : GrantParams) (now : Z) (s : Store)
    (Hrefs : grantRefs params s) :
  let out := grantAccess params now s in
  let unfit :=
    exists v, g_amountPaid params = Some v
              /\ (v < -2147483648 \/ 2147483647 < v) in
  (isOk (fst out) = false
   <-> grantExpiry params now = Some InvalidDate
       \/ (g_productIds params <> [] /\ unfit))
  /\ (isOk (fst out) = false -> snd out = s)
  /\ (isOk (fst out) = true ->
      auditLogs (snd out) = auditLogs s ++ [grantAudit params])
  /\ (default_to "lifetime" (g_durationType params) = "lifetime"
      \/ g_durationValue params = None \/ g_durationValue params = Some 0 ->
      grantExpiry params now = None
      /\ (~ unfit -> isOk (fst out) = true))
  /\ identities (snd out) = identities s
  /\ identityEmails (snd out) = identityEmails s
  /\ claimTokens (snd out) = claimTokens s
  /\ syncPushes (snd out) = syncPushes s
  /\ sentEmails (snd out) = sentEmails s.
Proof.
  cbv zeta. clear Hrefs.
  destruct (grantAccess_effect params now s) as [Hok [_ [_ Haud]]].
  assert (Hfit : fits (g_amountPaid params) = false
                 <-> exists v, g_amountPaid params = Some v
                               /\ (v < -2147483648 \/ 2147483647 < v)).
  { unfold fits, int4. destruct (g_amountPaid params) as [v |].
    - rewrite andb_false_iff, !Z.leb_gt. split.
      + intros H. exists v. split; [reflexivity | lia].
      + intros [w [E H]]. inversion E; subst. lia.
    - split; [discriminate | intros [w [E _]]; discriminate]. }
  assert (Hrej : grantRejected params now = true
                 <-> grantExpiry params now = Some InvalidDate
                     \/ (g_productIds params <> []
                         /\ exists v, g_amountPaid params = Some v
                                      /\ (v < -2147483648 \/ 2147483647 < v))).
  { rewrite <- Hfit. unfold grantRejected.
    destruct (grantExpiry params now) as [[t |] |];
      destruct (g_productIds params) as [| p r];
      destruct (fits (g_amountPaid params)); cbn [negb];
      split; try discriminate; try (intros _; auto; fail);
      try (intros [C | [C1 C2]]; try discriminate; try contradiction; fail).
    all: try (intros _; right; split; [discriminate | reflexivity]). }
  split.
  { rewrite Hok, negb_false_iff. exact Hrej. }
  split.
  { rewrite Hok, negb_false_iff. apply grantAccess_unchanged. }
  split.
  { rewrite Hok, negb_true_iff. intros R. rewrite R in Haud. exact Haud. }
  split.
  { intros H.
    assert (E : grantExpiry params now = None).
    { unfold grantExpiry, calculateExpiryDate.
      destruct H as [-> | [-> | ->]]; [reflexivity | |];
        destruct (_ =? "lifetime")%string; reflexivity. }
    split; [exact E |]. intros Hun. rewrite Hok.
    assert (R : grantRejected params now <> true).
    { intros R. apply Hrej in R. destruct R as [R | [_ R]];
        [congruence | contradiction]. }
    destruct (grantRejected params now); [contradiction | reflexivity]. }
  assert (P1 : preserves identities (grantAccess params now)) by frame.
  assert (P2 : preserves identityEmails (grantAccess params now)) by frame.
  assert (P3 : preserves claimTokens (grantAccess params now)) by frame.
  assert (P4 : preserves syncPushes (grantAccess params now)) by frame.
  assert (P5 : preserves sentEmails (grantAccess params now)) by frame.
  repeat split; [apply P1 | apply P2 | apply P3 | apply P4 | apply P5].
Qed.

Lemma grantAccess_rows (params : GrantParams) (now : Z) (s : Store)
    (expires : option Z) (p : string) :
  dbDateOf (grantExpiry params now) expires ->
  fits (g_amountPaid params) = true ->
  In p (g_productIds params) ->
  exists rows x,
    fst (grantAccess params now s) = Ok rows
    /\ In x (entitlements (snd (grantAccess params now s)))
    /\ ent_identityId x = g_identityId params
    /\ ent_productId x = p
    /\ ent_source x = g_source params
    /\ revokedAt x = None /\ expiresAt x = expires.
Proof.
  intros Hd Hfit Hp.
  destruct (grantAccess_ok params now expires s Hd Hfit) as [rows R].
  rewrite R. cbn [fst snd]. store_simpl.
  destruct (grantTable_rows params expires now (entitlements s)
              (nextEntitlementId s) p Hp) as [x [Hx [K [Hr [_ He]]]]].
  exists rows, x. split; [reflexivity |]. split; [exact Hx |].
  unfold grantKey in K. apply sameKey_spec in K. unfold entKey in K.
  inversion K. auto.
Qed.

(** *** Bindings made by the upserts that leave an existing row alone *)

Lemma upsert_onlyTo (em p q : string) (i : Z) (s : Store) :
  onlyTo em p i s ->
  onlyTo em p i (snd (identityEmail_upsert em q i None s)).
Proof.
  intros H. rewrite identityEmail_upsert_run. cbn [snd].
  destruct (existsb _ (identityEmails s)); [exact H |].
  intros row Hin Q. store_simpl. apply in_app_iff in Hin.
  destruct Hin as [Hin | [<- | []]]; [apply H; assumption | reflexivity].
Qed.

Lemma upsert_exists (em p q : string) (i : Z) (s : Store) :
  existsb (sameBinding em p) (identityEmails s) = true ->
  existsb (sameBinding em p)
    (identityEmails (snd (identityEmail_upsert em q i None s))) = true.
Proof.
  intros H. rewrite identityEmail_upsert_run. cbn [snd].
  destruct (existsb (sameBinding em q) (identityEmails s)); [exact H |].
  store_simpl. rewrite existsb_app, H. reflexivity.
Qed.

Lemma upsert_binds (em p : string) (i : Z) (s : Store) :
  existsb (sameBinding em p)
    (identityEmails (snd (identityEmail_upsert em p i None s))) = true.
Proof.
  rewrite identityEmail_upsert_run. cbn [snd].
  destruct (existsb (sameBinding em p) (identityEmails s)) eqn:E; [exact E |].
  store_simpl. rewrite existsb_app. cbn [existsb]. unfold sameBinding at 2.
  cbn [ie_email ie_productId]. rewrite !String.eqb_refl.
  rewrite orb_true_r. reflexivity.
Qed.

Lemma forEach_upsert_boundTo (em p : string) (i : Z) (pids : list string) :
  In p pids ->
  forall s,
    onlyTo em p i s ->
    boundTo em p i
      (snd (forEach (fun productId => identityEmail_upsert em productId i None)
              pids s)).
Proof.
  assert (Hkeep : forall l s, boundTo em p i s ->
            boundTo em p i
              (snd (forEach (fun productId =>
                               identityEmail_upsert em productId i None) l s))).
  { induction l as [| q r IH]; intros s [E O]; [split; assumption |].
    cbn [forEach]. unfold bind.
    assert (U : identityEmail_upsert em q i None s
                = (Ok tt, snd (identityEmail_upsert em q i None s)))
      by reflexivity.
    rewrite U. apply IH. split; [apply upsert_exists, E | apply upsert_onlyTo, O]. }
  induction pids as [| q r IH]; intros Hp s O; [contradiction |].
  cbn [forEach]. unfold bind.
  assert (U : identityEmail_upsert em q i None s
              = (Ok tt, snd (identityEmail_upsert em q i None s)))
    by reflexivity.
  rewrite U. clear U.
  destruct Hp as [-> | Hp].
  - apply Hkeep. split; [apply upsert_binds | apply upsert_onlyTo, O].
  - apply IH; [exact Hp | apply upsert_onlyTo, O].
Qed.

Lemma boundTo_resolve (email p : string) (i : Z) (s : Store) :
  boundTo (toLowerCase email) p i s -> resolveIdentity email p s = Some i.
Proof.
  intros [E O]. unfold resolveIdentity.
  change (fun ie => (ie_email ie =? toLowerCase email)%string
                    && (ie_productId ie =? p)%string)
    with (sameBinding (toLowerCase email) p).
  destruct (find _ (identityEmails s)) as [row |] eqn:F.
  - apply find_some in F. destruct F as [Hin Q]. rewrite (O row Hin Q).
    reflexivity.
  - exfalso. apply existsb_exists in E. destruct E as [x [Hx Q]].
    pose proof (find_none _ _ F x Hx) as C. congruence.
Qed.

Lemma boundTo_frame (em p : string) (i : Z) (s s' : Store) :
  identityEmails s' = identityEmails s -> boundTo em p i s -> boundTo em p i s'.
Proof. unfold boundTo, onlyTo. intros ->. auto. Qed.

Lemma onlyTo_frame (em p : string) (i : Z) (s s' : Store) :
  identityEmails s' = identityEmails s -> onlyTo em p i s -> onlyTo em p i s'.
Proof. unfold onlyTo. intros ->. auto. Qed.

(** The sequence shared by the manual grant and the checkout: the
    identity of the email, its bindings, the grant. *)
Lemma identity_bindings_grant (email : string) (c : option string)
    (pids : list string) (mk : Z -> GrantParams) (now n : Z) (s : Store)
    (expires : option Z) (p : string) :
  (forall i, g_identityId (mk i) = i /\ g_productIds (mk i) = pids) ->
  (forall i, dbDateOf (grantExpiry (mk i) now) expires) ->
  (forall i, fits (g_amountPaid (mk i)) = true) ->
  In p pids ->
  onlyTo (toLowerCase email) p (identityIdFor email s) s ->
  exists ident s1 s2 rows s3,
    getOrCreateIdentity email c s = (Ok ident, s1)
    /\ forEach (fun productId =>
                  identityEmail_upsert (toLowerCase email) productId
                    (identity_id ident) None) pids s1 = (Ok tt, s2)
    /\ grantAccess (mk (identity_id ident)) now s2 = (Ok rows, s3)
    /\ identity_id ident = identityIdFor email s
    /\ boundTo (toLowerCase email) p (identity_id ident) s3
    /\ exists x, In x (entitlements s3)
                 /\ ent_identityId x = identity_id ident
                 /\ ent_productId x = p
                 /\ ent_source x = g_source (mk (identity_id ident))
                 /\ revokedAt x = None /\ expiresAt x = expires.
Proof.
  intros Hmk Hd Hfit Hp Honly.
  destruct (getOrCreateIdentity_id email c s) as [ident [s1 [G [Hid _]]]].
  assert (P1 : preserves identityEmails (getOrCreateIdentity email c)) by frame.
  specialize (P1 s). rewrite G in P1. cbn [snd] in P1.
  set (up := forEach (fun productId =>
                        identityEmail_upsert (toLowerCase email) productId
                          (identity_id ident) None) pids).
  assert (Hup : up s1 = (Ok tt, snd (up s1))) by apply forEach_upsert_run.
  assert (B : boundTo (toLowerCase email) p (identity_id ident) (snd (up s1))).
  { apply forEach_upsert_boundTo; [exact Hp |]. rewrite Hid.
    apply (onlyTo_frame _ _ _ s); [exact P1 | exact Honly]. }
  destruct (Hmk (identity_id ident)) as [M1 M2].
  assert (Hp' : In p (g_productIds (mk (identity_id ident))))
    by (rewrite M2; exact Hp).
  destruct (grantAccess_rows (mk (identity_id ident)) now (snd (up s1)) expires p
              (Hd _) (Hfit _) Hp') as [rows [x [R [Hx [X1 [X2 [X3 [X4 X5]]]]]]]].
  assert (P2 : preserves identityEmails
                 (grantAccess (mk (identity_id ident)) now)) by frame.
  specialize (P2 (snd (up s1))).
  destruct (grantAccess (mk (identity_id ident)) now (snd (up s1)))
    as [r s3] eqn:G2. cbn [fst snd] in *. subst r.
  exists ident, s1, (snd (up s1)), rows, s3.
  split; [exact G |]. split; [exact Hup |]. split; [exact G2 |].
  split; [exact Hid |].
  split; [apply (boundTo_frame _ _ _ (snd (up s1))); assumption |].
  exists x. rewrite M1 in X1. repeat split; assumption.
Qed.

Lemma tryCatch_ok {A : Type} (m : M A) (h : string -> M A) (s s' : Store) (a : A) :
  m s = (Ok a, s') -> tryCatch m h s = (Ok a, s').
Proof. intros H. unfold tryCatch. rewrite H. reflexivity. Qed.

Lemma tryCatch_err {A : Type} (m : M A) (h : string -> M A) (s s' : Store) e :
  m s = (Err e, s') -> tryCatch m h s = h e s'.
Proof. intros H. unfold tryCatch. rewrite H. reflexivity. Qed.

Lemma hasAccessAt_bound (email p : string) (n : Z) (s : Store) (i : Z) x :
  boundTo (toLowerCase email) p i s ->
  In x (entitlements s) ->
  ent_identityId x = i -> ent_productId x = p ->
  revokedAt x = None -> validAt n (expiresAt x) ->
  hasAccessAt email p n s = true.
Proof.
  intros B. apply hasAccessAt_active. apply boundTo_resolve. exact B.
Qed.

(** X11.  The manual grant of the admin gives what it says: when the
    request names an email and products that exist, the expiry computed
    from the duration is a valid date that lies after [n] (or there is
    none), and any binding the email already has for the product points
    to the identity of the email, the route answers 200 and
    [checkAccess] reports access for the email and each granted product
    at [n].  The audit log gets the grant entry of the ledger followed
    by the manual_grant entry of the admin. *)
Theorem POST_grant_gives_access (adminEmail : string) (email : option string)
    (productIds : option (list string)) (source durationType : option string)
    (durationValue : option Z) (now n : Z) (s : Store)
    (e p : string) (pids : list string) (expires : option Z)
    (Hemail : present email = Some e)
    (Hpids : someProducts productIds = Some pids)
    (Hknown : knownProducts pids s)
    (Hp : In p pids)
    (Hexpiry : dbDateOf (calculateExpiryDate (default_to "lifetime" durationType)
                           durationValue now) expires)
    (Hlater : validAt n expires)
    (Hbound : onlyTo (toLowerCase e) p (identityIdFor e s) s) :
  let out := POST_grant (Admin adminEmail) email productIds source durationType
               durationValue now s in
  fst out = Ok (mkReply 200 (Ok tt))
  /\ hasAccessAt e p n (snd out) = true
  /\ auditLogs (snd out)
     = auditLogs s
       ++ [mkAuditLog "grant" (identityIdFor e s) pids None;
           mkAuditLog "manual_grant" (identityIdFor e s) pids (Some adminEmail)].
Proof.
  cbv zeta. unfold POST_grant. rewrite Hemail, Hpids.
  set (mk := fun i => mkGrantParams i pids (default_to "manual" source) None None
                        (Some (default_to "lifetime" durationType))
                        durationValue None None None None).
  destruct (identity_bindings_grant e None pids mk now n s expires p)
    as [ident [s1 [s2 [rows [s3 [G [U [Gr [Hid [B [x [Hx [X1 [X2 [_ [X4 X5]]]]]]]]]]]]]]]];
    [intros i; split; reflexivity | intros i; exact Hexpiry
     | intros i; reflexivity | exact Hp | exact Hbound |].
  erewrite tryCatch_ok;
    [| erewrite bind_ok; [| exact G];
       erewrite bind_ok; [| exact U];
       fold (mk (identity_id ident));
       erewrite bind_ok; [| exact Gr];
       unfold auditLog_create; rewrite bind_modify; reflexivity].
  cbn [fst snd].
  split; [reflexivity |]. split.
  - apply (hasAccessAt_bound e p n _ (identity_id ident) x).
    + apply (boundTo_frame _ _ _ s3); [reflexivity | exact B].
    + exact Hx.
    + exact X1.
    + exact X2.
    + exact X4.
    + rewrite X5. exact Hlater.
  - store_simpl.
    destruct (grantAccess_effect (mk (identity_id ident)) now s2)
      as [Hok [_ [_ Haud]]].
    rewrite Gr in Hok, Haud. cbn [fst snd isOk] in Hok, Haud.
    destruct (grantRejected (mk (identity_id ident)) now); [discriminate |].
    rewrite Haud.
    assert (A1 : auditLogs s1 = auditLogs s).
    { assert (P : preserves auditLogs (getOrCreateIdentity e None)) by frame.
      specialize (P s). rewrite G in P. exact P. }
    assert (A2 : auditLogs s2 = auditLogs s1).
    { assert (P : preserves auditLogs
                    (forEach (fun productId =>
                       identityEmail_upsert (toLowerCase e) productId
                         (identity_id ident) None) pids)) by frame.
      specialize (P s1). rewrite U in P. exact P. }
    rewrite A2, A1, <- app_assoc, Hid. reflexivity.
Qed.

(** X12.  A checkout of a bundle without form products gives access at
    once: when the session names the bundle, the expiry computed from
    the bundle's duration is a valid date after [n] (or there is none),
    and any binding the buyer's email already has for the product points
    to the buyer's identity, the handler reports access_granted,
    [checkAccess] reports access for the buyer's email and each product
    of the bundle at [n], one confirmation mail is handed over, no claim
    token is created and no push is sent. *)
Theorem handleCheckoutCompleted_gives_access (session : Session)
    (newToken : string) (now n : Z) (s : Store) (bundle : Bundle)
    (customerEmail p : string) (expires : option Z)
    (Hbundle : checkoutBundle session s = Some bundle)
    (Hemail : customer_email session = Some customerEmail)
    (Hforms : formProducts bundle s = [])
    (Hp : In p (productIds bundle))
    (Hexpiry : dbDateOf (calculateExpiryDate (durationType bundle)
                           (durationValue bundle) now) expires)
    (Hlater : validAt n expires)
    (Hbound : onlyTo (toLowerCase customerEmail) p
                (identityIdFor customerEmail s) s) :
  let out := handleCheckoutCompleted session newToken now s in
  fst out = Ok (mkHandled true (Some "access_granted"))
  /\ hasAccessAt customerEmail p n (snd out) = true
  /\ sentEmails (snd out)
     = sentEmails s
       ++ [mkPurchaseEmail customerEmail (bundle_name bundle) (productIds bundle)]
  /\ claimTokens (snd out) = claimTokens s
  /\ syncPushes (snd out) = syncPushes s.
Proof.
  cbv zeta. unfold checkoutBundle, present in Hbundle.
  unfold handleCheckoutCompleted. rewrite Hemail in *.
  destruct (truthy customerEmail); [| discriminate]. cbn [negb].
  destruct (lineItems session) as [| [priceId |] rest]; try discriminate.
  destruct (truthy priceId); [| discriminate]. cbn [negb].
  rewrite bind_gets, Hbundle.
  set (c := if truthy_opt (session_customer session)
            then session_customer session else None).
  set (mk := fun i => mkGrantParams i (productIds bundle) "bundle" None
                        (Some (bundle_id bundle)) (Some (durationType bundle))
                        (durationValue bundle) None None None None).
  destruct (identity_bindings_grant customerEmail c (productIds bundle) mk now n
              s expires p)
    as [ident [s1 [s2 [rows [s3 [G [U [Gr [Hid [B [x [Hx [X1 [X2 [_ [X4 X5]]]]]]]]]]]]]]]];
    [intros i; split; reflexivity | intros i; exact Hexpiry
     | intros i; reflexivity | exact Hp | exact Hbound |].
  assert (F1 : products s1 = products s
               /\ claimTokens s1 = claimTokens s
               /\ syncPushes s1 = syncPushes s
               /\ sentEmails s1 = sentEmails s).
  { assert (P1 : preserves products (getOrCreateIdentity customerEmail c))
      by frame.
    assert (P2 : preserves claimTokens (getOrCreateIdentity customerEmail c))
      by frame.
    assert (P3 : preserves syncPushes (getOrCreateIdentity customerEmail c))
      by frame.
    assert (P4 : preserves sentEmails (getOrCreateIdentity customerEmail c))
      by frame.
    specialize (P1 s). specialize (P2 s). specialize (P3 s). specialize (P4 s).
    rewrite G in P1, P2, P3, P4. auto. }
  assert (F2 : claimTokens s2 = claimTokens s1
               /\ syncPushes s2 = syncPushes s1
               /\ sentEmails s2 = sentEmails s1).
  { set (up := forEach (fun productId =>
                 identityEmail_upsert (toLowerCase customerEmail) productId
                   (identity_id ident) None) (productIds bundle)) in *.
    assert (P2 : preserves claimTokens up) by (unfold up; frame).
    assert (P3 : preserves syncPushes up) by (unfold up; frame).
    assert (P4 : preserves sentEmails up) by (unfold up; frame).
    specialize (P2 s1). specialize (P3 s1). specialize (P4 s1).
    rewrite U in P2, P3, P4. auto. }
  assert (F3 : claimTokens s3 = claimTokens s2
               /\ syncPushes s3 = syncPushes s2
               /\ sentEmails s3 = sentEmails s2).
  { assert (P2 : preserves claimTokens (grantAccess (mk (identity_id ident)) now))
      by frame.
    assert (P3 : preserves syncPushes (grantAccess (mk (identity_id ident)) now))
      by frame.
    assert (P4 : preserves sentEmails (grantAccess (mk (identity_id ident)) now))
      by frame.
    specialize (P2 s2). specialize (P3 s2). specialize (P4 s2).
    rewrite Gr in P2, P3, P4. auto. }
  destruct F1 as [Fp [Fa1 [Fb1 Fc1]]]. destruct F2 as [Fa2 [Fb2 Fc2]].
  destruct F3 as [Fa3 [Fb3 Fc3]].
  erewrite bind_ok; [| exact G].
  rewrite bind_gets, Fp. fold (formProducts bundle s). rewrite Hforms.
  erewrite bind_ok; [| exact U].
  fold (mk (identity_id ident)).
  erewrite bind_ok; [| exact Gr].
  unfold sendBundlePurchaseEmail. rewrite bind_modify. unfold ret.
  cbn [fst snd]. store_simpl.
  split; [reflexivity |]. split.
  - apply (hasAccessAt_bound customerEmail p n _ (identity_id ident) x).
    + apply (boundTo_frame _ _ _ s3); [reflexivity | exact B].
    + exact Hx.
    + exact X1.
    + exact X2.
    + exact X4.
    + rewrite X5. exact Hlater.
  - rewrite Fa3, Fa2, Fa1, Fb3, Fb2, Fb1, Fc3, Fc2, Fc1. repeat split.
Qed.

(** ** Reports of the apps and the access query *)

Lemma identityIdFor_lower (email : string) (s : Store) :
  identityIdFor (toLowerCase email) s = identityIdFor email s.
Proof. unfold identityIdFor. rewrite toLowerCase_idem. reflexivity. Qed.

Lemma report_prefix (params : ReportParams) (s : Store) :
  let em := toLowerCase (r_email params) in
  let i := identityIdFor (r_email params) s in
  exists ident s1 s2,
    getOrCreateIdentity em None s = (Ok ident, s1)
    /\ identityEmail_upsert em (r_productId params) (identity_id ident) None s1
       = (Ok tt, s2)
    /\ identity_id ident = i
    /\ entitlements s2 = entitlements s
    /\ nextEntitlementId s2 = nextEntitlementId s
    /\ (onlyTo em (r_productId params) i s ->
        boundTo em (r_productId params) i s2).
Proof.
  cbv zeta.
  destruct (getOrCreateIdentity_id (toLowerCase (r_email params)) None s)
    as [ident [s1 [G [Hid _]]]].
  rewrite identityIdFor_lower in Hid.
  assert (P1 : preserves identityEmails
                 (getOrCreateIdentity (toLowerCase (r_email params)) None))
    by frame.
  assert (P2 : preserves entitlements
                 (getOrCreateIdentity (toLowerCase (r_email params)) None))
    by frame.
  assert (P3 : preserves nextEntitlementId
                 (getOrCreateIdentity (toLowerCase (r_email params)) None))
    by frame.
  specialize (P1 s). specialize (P2 s). specialize (P3 s).
  rewrite G in P1, P2, P3. cbn [snd] in *.
  set (up := identityEmail_upsert (toLowerCase (r_email params))
               (r_productId params) (identity_id ident) None).
  assert (Q2 : preserves entitlements up) by (unfold up; frame).
  assert (Q3 : preserves nextEntitlementId up) by (unfold up; frame).
  exists ident, s1, (snd (up s1)).
  split; [exact G |]. split; [reflexivity |]. split; [exact Hid |].
  split; [rewrite Q2; exact P2 |]. split; [rewrite Q3; exact P3 |].
  intros O. rewrite <- Hid. split.
  - apply upsert_binds.
  - apply upsert_onlyTo. rewrite Hid.
    apply (onlyTo_frame _ _ _ s); [exact P1 | exact O].
Qed.

Lemma report_grant_access (params : ReportParams)
    (now n : Z) (s : Store) (expires : option Z)
    (Haction : r_action params = grant)
    (Hexpiry : dbDateOf (r_expiresAt params) expires)
    (Hfit : fits (r_amountPaid params) = true)
    (Hlater : validAt n (reportedExpiry params expires s))
    (Hbound : onlyTo (toLowerCase (r_email params)) (r_productId params)
                (identityIdFor (r_email params) s) s) :
  let out := reportExternalSubscription params now s in
  fst out = Ok ("granted", r_sourceApp params)
  /\ hasAccessAt (r_email params) (r_productId params) n (snd out) = true.
Proof.
  cbv zeta.
  destruct (report_prefix params s)
    as [ident [s1 [s2 [G [U [Hid [He [Hn B]]]]]]]].
  specialize (B Hbound).
  unfold reportExternalSubscription. cbv zeta.
  erewrite bind_ok; [| exact G].
  erewrite bind_ok; [| exact U].
  rewrite Haction. unfold entitlement_findFirst. rewrite bind_gets.
  rewrite (bind_ok _ _ _ _ _ (dbDate_ok _ _ Hexpiry s2)).
  rewrite (bind_ok _ _ _ _ _ (dbInt_ok _ s2 Hfit)).
  rewrite Hid, He. unfold reportedExpiry in Hlater.
  destruct (find _ (entitlements s)) as [e0 |] eqn:F.
  - (* the row exists *)
    pose proof (find_some _ _ F) as [Hin K].
    apply sameKey_spec in K. unfold entKey in K. injection K as K1 K2 K3 K4.
    destruct (find_id_present (entitlements s2) (ent_id e0)) as [e1 [F1 E1]].
    { rewrite He. apply in_map. exact Hin. }
    rewrite bind_bind.
    rewrite (bind_ok _ _ _ _ _
               (entitlement_update_run _ (reported_update params expires) _ _ F1)).
    rewrite bind_ret. unfold auditLog_create. rewrite bind_modify.
    unfold ret. cbn [fst snd]. split; [reflexivity |].
    apply (hasAccessAt_bound _ _ n _ (identityIdFor (r_email params) s)
             (reported_update params expires e0)).
    + apply (boundTo_frame _ _ _ s2); [reflexivity | exact B].
    + store_simpl. rewrite He. apply in_map_iff. exists e0.
      rewrite Z.eqb_refl. auto.
    + exact K1.
    + exact K2.
    + reflexivity.
    + cbn [reported_update expiresAt]. destruct expires; exact Hlater.
  - (* the row is created *)
    rewrite bind_bind.
    rewrite (bind_ok _ _ _ _ _ (entitlement_create_run _ _)).
    rewrite bind_ret. unfold auditLog_create. rewrite bind_modify.
    unfold ret. cbn [fst snd]. split; [reflexivity |].
    apply (hasAccessAt_bound _ _ n _ (identityIdFor (r_email params) s)
             (reported_create params (identityIdFor (r_email params) s)
                expires now (nextEntitlementId s2))).
    + apply (boundTo_frame _ _ _ s2); [reflexivity | exact B].
    + store_simpl. apply in_app_iff. right. left. reflexivity.
    + reflexivity.
    + reflexivity.
    + reflexivity.
    + cbn [reported_create expiresAt]. destruct expires; exact Hlater.
Qed.

(** X13.  A reported grant gives access: when the product exists, the
    reported expiry is a valid date or absent, the reported amount is
    absent or fits the 32-bit column, the expiry the direct row ends up
    with (the reported one, else the one the row had, else none) lies
    after [n], and any binding the email already has for the product
    points to the identity of the email, [reportExternalSubscription]
    answers granted and [checkAccess] reports access for the email and
    the product at [n], also after an earlier revocation of the row. *)
Theorem reportExternalSubscription_grant_gives_access (params : ReportParams)
    (now n : Z) (s : Store) (expires : option Z)
    (Haction : r_action params = grant)
    (Hknown : knownProducts [r_productId params] s)
    (Hexpiry : dbDateOf (r_expiresAt params) expires)
    (Hfit : fits (r_amountPaid params) = true)
    (Hlater : validAt n (reportedExpiry params expires s))
    (Hbound : onlyTo (toLowerCase (r_email params)) (r_productId params)
                (identityIdFor (r_email params) s) s) :
  let out := reportExternalSubscription params now s in
  fst out = Ok ("granted", r_sourceApp params)
  /\ hasAccessAt (r_email params) (r_productId params) n (snd out) = true.
Proof.
  exact (report_grant_access params now n s expires Haction Hexpiry Hfit Hlater
           Hbound).
Qed.


(** ** The routes of the apps *)

Lemma truthy_lower (x : string) : truthy (toLowerCase x) = truthy x.
Proof. destruct x; reflexivity. Qed.

Lemma present_some (o : option string) (x : string) :
  present o = Some x -> o = Some x /\ truthy x = true.
Proof.
  unfold present. destruct o as [y |]; [| discriminate].
  destruct (truthy y) eqn:T; [| discriminate].
  intros E. inversion E. subst. auto.
Qed.

(** X15.  What an app reports it can read back through the check
    endpoint.  When the report route is called with the configured key
    and a body for a grant by rezume or aicoach of a product that
    exists, whose expiry is absent or a valid date and whose amount is
    absent, zero or fits the 32-bit column, the expiry the direct row
    ends up with lies after [n] (or is none), and any binding of the
    email for the product points to the identity of the email, then the
    report is answered
    200 with action granted, and a following call of the check endpoint
    for the product and the same email, in any letter case, is answered
    200 with [hasAccess] true and writes nothing. *)
Theorem report_then_check (apiKey : option string) (body : ReportBody)
    (now n : Z) (s : Store) (email productId sourceApp email' : string)
    (expires : option Z)
    (Hkey : truthy_opt (ADMIN_API_KEY s) = true)
    (Hheader : apiKey = ADMIN_API_KEY s)
    (Hemail : present (b_email body) = Some email)
    (Hproduct : present (b_productId body) = Some productId)
    (Haction : b_action body = Some "grant")
    (Happ : b_sourceApp body = Some sourceApp)
    (Happs : sourceApp = "rezume" \/ sourceApp = "aicoach")
    (Hknown : knownProducts [productId] s)
    (Hexpiry : dbDateOf (b_expiresAt body) expires)
    (Hfit : fits (parseAmount (b_amountPaid body)) = true)
    (Hlater : validAt n (reportedExpiry
                           (reportOf body email productId grant sourceApp)
                           expires s))
    (Hbound : onlyTo (toLowerCase email) productId (identityIdFor email s) s)
    (Hcase : toLowerCase email' = toLowerCase email) :
  let out := POST_report apiKey body now s in
  fst out = Ok (mkReply 200 (Ok ("granted", sourceApp)))
  /\ exists r,
       GET_check (Some email') (Some productId) n n (snd out)
       = (Ok (mkReply 200 (Ok r)), snd out)
       /\ hasAccess r = true
       /\ ar_product r = productId.
Proof.
  cbv zeta.
  destruct (present_some _ _ Hemail) as [_ Te].
  destruct (present_some _ _ Hproduct) as [_ Tp].
  set (params := reportOf body email productId grant sourceApp).
  destruct (report_grant_access params now n s expires eq_refl Hexpiry Hfit
              Hlater Hbound) as [R A].
  unfold POST_report. rewrite bind_gets, Hkey. cbn [negb].
  rewrite Hheader, Hkey. cbn [negb orb].
  assert (Ek : eqb_opt_string (ADMIN_API_KEY s) (ADMIN_API_KEY s) = true).
  { destruct (ADMIN_API_KEY s); cbn [eqb_opt_string];
      [apply String.eqb_refl | reflexivity]. }
  rewrite Ek. cbn [negb].
  rewrite Hemail, Hproduct, Haction, Happ.
  assert (Pa : present (Some "grant") = Some "grant") by reflexivity.
  rewrite Pa. cbn [parseAction String.eqb Ascii.eqb Bool.eqb].
  assert (Ps : present (Some sourceApp) = Some sourceApp).
  { destruct Happs as [-> | ->]; reflexivity. }
  rewrite Ps.
  assert (Pi : inb sourceApp ["rezume"; "aicoach"] = true).
  { destruct Happs as [-> | ->]; reflexivity. }
  rewrite Pi. cbn [negb]. fold (reportOf body email productId grant sourceApp).
  fold params.
  destruct (reportExternalSubscription params now s) as [r1 s1] eqn:Rep.
  cbn [fst snd] in R, A. subst r1.
  erewrite tryCatch_ok; [| erewrite bind_ok; [| exact Rep]; reflexivity].
  cbn [fst snd]. split; [reflexivity |].
  unfold GET_check.
  assert (Pe : present (Some email') = Some email').
  { unfold present. rewrite <- truthy_lower, Hcase, truthy_lower, Te.
    reflexivity. }
  assert (Pp : present (Some productId) = Some productId).
  { unfold present. rewrite Tp. reflexivity. }
  rewrite Pe, Pp.
  assert (E : checkAccess (toLowerCase email') productId n n s1
              = checkAccess email productId n n s1).
  { unfold checkAccess. rewrite toLowerCase_idem, Hcase. reflexivity. }
  unfold hasAccessAt in A. cbn [r_email r_productId params reportOf] in A.
  rewrite checkAccess_run in A. cbn [fst] in A.
  exists (accessAnswer email productId n n s1).
  split.
  - erewrite tryCatch_ok;
      [| erewrite bind_ok; [| rewrite E; apply checkAccess_run]; reflexivity].
    reflexivity.
  - split; [exact A |].
    unfold accessAnswer. destruct (resolveIdentity email productId s1);
      [| reflexivity].
    destruct (activeEntitlements _ _ _ s1) as [| e0 r0]; [reflexivity |].
    unfold checkEntitlementAccess.
    destruct (revokedAt e0); [reflexivity |].
    destruct (match expiresAt e0 with Some x => x <? n | None => false end);
      reflexivity.
Qed.

Lemma eqb_opt_string_eq (a b : option string) :
  eqb_opt_string a b = true <-> a = b.
Proof.
  destruct a as [x |], b as [y |]; cbn [eqb_opt_string].
  - rewrite String.eqb_eq. split; [intros ->; reflexivity | congruence].
  - split; discriminate.
  - split; discriminate.
  - tauto.
Qed.

(** X16.  The report endpoint acts only for the configured API key and
    a well-formed body.  It never rejects.  Without a configured key, or
    with a header that is not the key, it refuses and writes nothing;
    every answer other than 200 and 500 leaves the store as it was; and
    an answer 200 means that the header was the key, email and product
    were present, the action was grant or revoke, the reporting app was
    rezume or aicoach, and the store is the one
    [reportExternalSubscription] leaves for these values, with the
    amount dropped when it is zero. *)
Theorem POST_report_guards (apiKey : option string) (body : ReportBody)
    (now : Z) (s : Store) :
  let out := POST_report apiKey body now s in
  exists reply,
    fst out = Ok reply
    /\ (truthy_opt (ADMIN_API_KEY s) = false ->
        reply = mkReply 500 (Err "Server configuration error") /\ snd out = s)
    /\ (truthy_opt (ADMIN_API_KEY s) = true -> apiKey <> ADMIN_API_KEY s ->
        reply = mkReply 401 (Err "Unauthorized") /\ snd out = s)
    /\ (reply_status reply <> 200 -> reply_status reply <> 500 -> snd out = s)
    /\ (reply_status reply = 200 ->
        exists email productId action sourceApp,
          apiKey = ADMIN_API_KEY s
          /\ present (b_email body) = Some email
          /\ present (b_productId body) = Some productId
          /\ b_action body
             = Some (match action with grant => "grant" | revoke => "revoke" end)
          /\ b_sourceApp body = Some sourceApp
          /\ (sourceApp = "rezume" \/ sourceApp = "aicoach")
          /\ let params :=
               mkReportParams email productId action sourceApp
                 (b_stripeSubscriptionId body) (b_stripePriceId body)
                 (parseAmount (b_amountPaid body)) (b_currency body)
                 (b_expiresAt body) (b_reason body) in
             reply_body reply = fst (reportExternalSubscription params now s)
             /\ snd out = snd (reportExternalSubscription params now s)).
Proof.
  cbv zeta. unfold POST_report. rewrite bind_gets.
  destruct (truthy_opt (ADMIN_API_KEY s)) eqn:K; cbn [negb].
  2:{ eexists. split; [reflexivity |]. cbn [fst snd reply_status].
      repeat split; try discriminate; try (intros; congruence). }
  destruct (truthy_opt apiKey) eqn:T; cbn [negb orb].
  2:{ eexists. split; [reflexivity |]. cbn [fst snd reply_status].
      repeat split; try discriminate; try (intros; congruence). }
  destruct (eqb_opt_string apiKey (ADMIN_API_KEY s)) eqn:E; cbn [negb].
  2:{ eexists. split; [reflexivity |]. cbn [fst snd reply_status].
      repeat split; try discriminate; try (intros; congruence). }
  apply eqb_opt_string_eq in E.
  assert (Hpresent : forall o x, present o = Some x -> o = Some x).
  { intros o x. unfold present. destruct o as [y |]; [| discriminate].
    destruct (truthy y); [congruence | discriminate]. }
  destruct (present (b_email body)) as [email |] eqn:P1.
  2:{ eexists. split; [reflexivity |]. cbn [fst snd reply_status].
      repeat split; try discriminate; try congruence; intros; lia. }
  destruct (present (b_productId body)) as [productId |] eqn:P2.
  2:{ eexists. split; [reflexivity |]. cbn [fst snd reply_status].
      repeat split; try discriminate; try congruence; intros; lia. }
  destruct (present (b_action body)) as [a |] eqn:P3.
  2:{ eexists. split; [reflexivity |]. cbn [fst snd reply_status].
      repeat split; try discriminate; try congruence; intros; lia. }
  destruct (parseAction a) as [action |] eqn:P4.
  2:{ eexists. split; [reflexivity |]. cbn [fst snd reply_status].
      repeat split; try discriminate; try congruence; intros; lia. }
  destruct (present (b_sourceApp body)) as [sourceApp |] eqn:P5.
  2:{ eexists. split; [reflexivity |]. cbn [fst snd reply_status].
      repeat split; try discriminate; try congruence; intros; lia. }
  destruct (inb sourceApp ["rezume"; "aicoach"]) eqn:P6; cbn [negb].
  2:{ eexists. split; [reflexivity |]. cbn [fst snd reply_status].
      repeat split; try discriminate; try congruence; intros; lia. }
  set (params := mkReportParams email productId action sourceApp
                   (b_stripeSubscriptionId body) (b_stripePriceId body)
                   (parseAmount (b_amountPaid body)) (b_currency body)
                   (b_expiresAt body) (b_reason body)).
  unfold tryCatch, bind.
  destruct (reportExternalSubscription params now s) as [[r | e] s'] eqn:R;
    cbn [fst snd].
  - eexists. split; [reflexivity |]. cbn [reply_status reply_body].
    split; [discriminate |]. split; [congruence |].
    split; [intros C; contradiction |]. intros _.
    exists email, productId, action, sourceApp.
    split; [exact E |]. split; [reflexivity |]. split; [reflexivity |].
    split.
    { rewrite (Hpresent _ _ P3). f_equal. unfold parseAction in P4.
      destruct (String.eqb_spec a "grant") as [-> | _].
      - inversion P4. reflexivity.
      - destruct (String.eqb_spec a "revoke") as [-> | _]; [| discriminate].
        inversion P4. reflexivity. }
    split; [apply Hpresent; exact P5 |].
    split.
    { apply inb_spec in P6. destruct P6 as [<- | [<- | []]]; auto. }
    cbv zeta. fold params. rewrite R. split; reflexivity.
  - eexists. split; [reflexivity |]. cbn [reply_status reply_body].
    split; [discriminate |]. split; [congruence |].
    split; [intros _ C; contradiction |]. discriminate.
Qed.

(** ** The routes of the admin *)

Lemma revokeEntitlementById_missing (id : Z) (reason adminEmail : option string)
    (now now' : Z) (s : Store) :
  find (fun e => ent_id e =? id) (entitlements s) = None ->
  revokeEntitlementById id reason adminEmail now now' s
  = if int4 id then (Err "Entitlement not found", s)
    else (Err "Unable to fit integer value into an INT4", s).
Proof.
  intros F. unfold revokeEntitlementById, entitlement_findUnique.
  rewrite bind_bind, bind_gets, F. cbn [dbInt].
  destruct (int4 id); reflexivity.
Qed.

(** X17.  No admin route writes for a request it refuses.  Each of the
    five routes answers 401 with the error of the authentication and
    leaves the store alone when the caller is no admin.  For an admin,
    revoke, extend and both grants answer 400 without writing when no
    product is listed (the manual grant also when the email is missing);
    the grant to an identity answers 404 without writing when the
    identity does not exist; and the revocation of one entitlement
    answers 400 for an id that is no number and, for an id no row has,
    404 when the id fits the 32-bit column and 500 when it does not,
    without writing. *)
Theorem admin_routes_refuse_without_writing (s : Store) :
  (forall error id reasons1 reasons2 now now',
      DELETE_entitlement (AuthError error) id reasons1 reasons2 now now' s
      = (Ok (mkReply 401 (Err error)), s))
  /\ (forall error id productIds reason now,
         POST_revoke (AuthError error) id productIds reason now s
         = (Ok (mkReply 401 (Err error)), s))
  /\ (forall error id productIds newExpiresAt,
         PUT_extend (AuthError error) id productIds newExpiresAt s
         = (Ok (mkReply 401 (Err error)), s))
  /\ (forall error id productIds durationType durationValue source now,
         PATCH_grant (AuthError error) id productIds durationType durationValue
           source now s
         = (Ok (mkReply 401 (Err error)), s))
  /\ (forall error email productIds source durationType durationValue now,
         POST_grant (AuthError error) email productIds source durationType
           durationValue now s
         = (Ok (mkReply 401 (Err error)), s))
  /\ (forall admin id productIds reason now,
         someProducts productIds = None ->
         POST_revoke (Admin admin) id productIds reason now s
         = (Ok (mkReply 400 (Err "At least one product is required")), s))
  /\ (forall admin id productIds newExpiresAt,
         someProducts productIds = None ->
         PUT_extend (Admin admin) id productIds newExpiresAt s
         = (Ok (mkReply 400 (Err "At least one product is required")), s))
  /\ (forall admin id productIds durationType durationValue source now,
         someProducts productIds = None ->
         PATCH_grant (Admin admin) id productIds durationType durationValue
           source now s
         = (Ok (mkReply 400 (Err "At least one product is required")), s))
  /\ (forall admin email productIds source durationType durationValue now,
         present email = None \/ someProducts productIds = None ->
         POST_grant (Admin admin) email productIds source durationType
           durationValue now s
         = (Ok (mkReply 400
                  (Err "Email and at least one product are required")), s))
  /\ (forall admin id productIds durationType durationValue source now,
         someProducts productIds <> None ->
         find (fun i => identity_id i =? id) (identities s) = None ->
         PATCH_grant (Admin admin) id productIds durationType durationValue
           source now s
         = (Ok (mkReply 404 (Err "User not found")), s))
  /\ (forall admin reasons1 reasons2 now now',
         DELETE_entitlement (Admin admin) None reasons1 reasons2 now now' s
         = (Ok (mkReply 400 (Err "Invalid entitlement ID")), s))
  /\ (forall admin id reasons1 reasons2 now now',
         find (fun e => ent_id e =? id) (entitlements s) = None ->
         let out := DELETE_entitlement (Admin admin) (Some id) reasons1
                      reasons2 now now' s in
         snd out = s
         /\ (-2147483648 <= id <= 2147483647 ->
             fst out = Ok (mkReply 404 (Err "Entitlement not found")))
         /\ (id < -2147483648 \/ 2147483647 < id ->
             exists message, fst out = Ok (mkReply 500 (Err message)))).
Proof.
  split; [reflexivity |]. split; [reflexivity |]. split; [reflexivity |].
  split; [reflexivity |]. split; [reflexivity |].
  split.
  { intros admin id productIds reason now H. unfold POST_revoke. rewrite H.
    reflexivity. }
  split.
  { intros admin id productIds newExpiresAt H. unfold PUT_extend. rewrite H.
    reflexivity. }
  split.
  { intros admin id productIds dt dv src now H. unfold PATCH_grant. rewrite H.
    reflexivity. }
  split.
  { intros admin email productIds src dt dv now H. unfold POST_grant.
    destruct H as [H | H]; rewrite H; [reflexivity |].
    destruct (present email); reflexivity. }
  split.
  { intros admin id productIds dt dv src now H F. unfold PATCH_grant.
    destruct (someProducts productIds) as [pids |]; [| contradiction].
    erewrite tryCatch_ok; [reflexivity |]. rewrite bind_gets, F. reflexivity. }
  split; [reflexivity |].
  intros admin id r1 r2 now now' F. cbv zeta. unfold DELETE_entitlement.
  destruct (int4 id) eqn:I.
  - erewrite tryCatch_err;
      [| erewrite bind_err; [reflexivity |];
         rewrite revokeEntitlementById_missing, I; [reflexivity | exact F]].
    cbn [String.eqb Ascii.eqb Bool.eqb ret fst snd].
    split; [reflexivity |]. split; [reflexivity |].
    unfold int4 in I. lia.
  - erewrite tryCatch_err;
      [| erewrite bind_err; [reflexivity |];
         rewrite revokeEntitlementById_missing, I; [reflexivity | exact F]].
    cbn [String.eqb Ascii.eqb Bool.eqb ret fst snd].
    split; [reflexivity |]. split; [| intros _; eexists; reflexivity].
    unfold int4 in I. lia.
Qed.

Lemma forEach_ext {A : Type} (g g' : A -> M unit) (l : list A) :
  (forall x s, g x s = g' x s) ->
  forall s, forEach g l s = forEach g' l s.
Proof.
  intros H. induction l as [| a r IH]; intros s; [reflexivity |].
  cbn [forEach]. unfold bind. rewrite H.
  destruct (g' a s) as [[[] | e] s1]; [apply IH | reflexivity].
Qed.

(** X18.  Extending access rewrites one column.  For an admin, listed
    products and a date that parses, the route answers 200 and every
    entitlement of the identity for a listed product, of whatever source
    and revoked or not, gets the new expiry, none when the request gives
    no date; every other column of every row is as before, so a revoked
    row stays revoked; rows of other identities and products are
    untouched; one extend_access entry is logged and nothing is pushed.
    For a date that does not parse the route answers 500 and writes
    nothing. *)
Theorem PUT_extend_rewrites_expiry (admin : string) (id : Z)
    (productIds : option (list string)) (newExpiresAt : option Date)
    (s : Store) (pids : list string)
    (Hpids : someProducts productIds = Some pids) :
  let out := PUT_extend (Admin admin) id productIds newExpiresAt s in
  (forall expires,
      dbDateOf newExpiresAt expires ->
      fst out = Ok (mkReply 200 (Ok tt))
      /\ entitlements (snd out)
         = map (fun e => if (ent_identityId e =? id)
                            && inb (ent_productId e) pids
                         then extended expires e else e) (entitlements s)
      /\ map clearExpiry (entitlements (snd out))
         = map clearExpiry (entitlements s)
      /\ auditLogs (snd out)
         = auditLogs s ++ [mkAuditLog "extend_access" id pids (Some admin)]
      /\ syncPushes (snd out) = syncPushes s)
  /\ (newExpiresAt = Some InvalidDate ->
      fst out = Ok (mkReply 500 (Err "Internal server error"))
      /\ snd out = s).
Proof.
  cbv zeta. unfold PUT_extend. rewrite Hpids. split.
  - intros expires Hd.
    assert (Hrun :
      forEach (fun productId =>
                 expiresAt <- dbDate newExpiresAt ;;
                 entitlement_updateMany
                   (fun e => (ent_identityId e =? id)
                             && (ent_productId e =? productId)%string)
                   (extended expiresAt)) pids s
      = (Ok tt,
         with_entitlements
           (map (fun e => if (ent_identityId e =? id)
                             && inb (ent_productId e) pids
                          then extended expires e else e) (entitlements s)) s)).
    { rewrite <- (forEach_updateMany id (extended expires)
                    (fun e => conj eq_refl eq_refl)
                    (fun e => eq_refl) pids s).
      apply forEach_ext. intros p s0.
      rewrite (bind_ok _ _ _ _ _ (dbDate_ok _ _ Hd s0)). reflexivity. }
    erewrite tryCatch_ok;
      [| erewrite bind_ok; [| exact Hrun];
         unfold auditLog_create; rewrite bind_modify; reflexivity].
    cbn [fst snd]. store_simpl.
    split; [reflexivity |]. split; [reflexivity |].
    split; [| split; reflexivity].
    rewrite map_map. apply map_ext. intros e.
    destruct ((ent_identityId e =? id) && inb (ent_productId e) pids);
      reflexivity.
  - intros ->. destruct pids as [| p r].
    { unfold someProducts in Hpids.
      destruct productIds as [[| ? ?] |]; discriminate. }
    match goal with
    | |- context [ tryCatch ?m _ s ] =>
        assert (Hrun : m s
                       = (Err "Invalid value for argument: Provided Date object is invalid", s))
    end.
    { reflexivity. }
    rewrite (tryCatch_err _ _ _ _ _ Hrun). split; reflexivity.
Qed.

(** X19.  The grant to an existing identity is all or nothing when the
    products the request lists exist: the route never rejects, an answer
    other than 200 leaves the store as it was, and an answer 200 means
    that products were listed, the identity exists, the ledger holds the
    effect of one [grantAccess] (source manual, lifetime and no value
    unless the request says otherwise) and the audit log its grant entry
    followed by the admin_grant entry.  No email binding is created and
    nothing is pushed. *)
Theorem PATCH_grant_all_or_nothing (admin : string) (id : Z)
    (productIds : option (list string)) (durationType : option string)
    (durationValue : option Z) (source : option string) (now : Z) (s : Store)
    (Hknown : forall pids,
        someProducts productIds = Some pids -> knownProducts pids s) :
  let out := PATCH_grant (Admin admin) id productIds durationType durationValue
               source now s in
  let params := fun pids =>
    mkGrantParams id pids (or_else source "manual") None None
      (Some (or_else durationType "lifetime")) (nonzero durationValue)
      None None None None in
  exists reply,
    fst out = Ok reply
    /\ (reply_status reply <> 200 -> snd out = s)
    /\ (reply_status reply = 200 ->
        exists pids,
          someProducts productIds = Some pids
          /\ find (fun i => identity_id i =? id) (identities s) <> None
          /\ grantRejected (params pids) now = false
          /\ entitlements (snd out)
             = fst (grantEffect (params pids) now (entitlements s)
                      (nextEntitlementId s))
          /\ auditLogs (snd out)
             = auditLogs s
               ++ [grantAudit (params pids);
                   mkAuditLog "admin_grant" id pids (Some admin)])
    /\ identities (snd out) = identities s
    /\ identityEmails (snd out) = identityEmails s
    /\ syncPushes (snd out) = syncPushes s.
Proof.
  cbv zeta.
  assert (Pi : preserves identities
                 (PATCH_grant (Admin admin) id productIds durationType
                    durationValue source now)).
  { unfold PATCH_grant. frame. }
  assert (Pe : preserves identityEmails
                 (PATCH_grant (Admin admin) id productIds durationType
                    durationValue source now)).
  { unfold PATCH_grant. frame. }
  assert (Pp : preserves syncPushes
                 (PATCH_grant (Admin admin) id productIds durationType
                    durationValue source now)).
  { unfold PATCH_grant. frame. }
  specialize (Pi s). specialize (Pe s). specialize (Pp s).
  revert Pi Pe Pp. unfold PATCH_grant.
  destruct (someProducts productIds) as [pids |].
  2:{ intros. eexists. split; [reflexivity |]. cbn [fst snd reply_status].
      repeat split; try assumption; intros; try reflexivity; lia. }
  set (params := mkGrantParams id pids (or_else source "manual") None None
                   (Some (or_else durationType "lifetime"))
                   (nonzero durationValue) None None None None).
  destruct (find (fun i => identity_id i =? id) (identities s)) as [i |] eqn:F.
  2:{ erewrite tryCatch_ok; [| rewrite bind_gets, F; reflexivity].
      intros. eexists. split; [reflexivity |]. cbn [fst snd reply_status].
      repeat split; intros; try reflexivity; lia. }
  destruct (grantAccess_effect params now s) as [Hok [Hent [_ Haud]]].
  pose proof (grantAccess_unchanged params now s) as Hun.
  destruct (grantAccess params now s) as [[rows | e] s1] eqn:G;
    cbn [fst snd isOk] in *.
  - erewrite tryCatch_ok;
      [| rewrite bind_gets, F; erewrite bind_ok; [| exact G];
         unfold auditLog_create; rewrite bind_modify; reflexivity].
    intros Pi Pe Pp. eexists. split; [reflexivity |].
    cbn [fst snd reply_status] in *. store_simpl.
    split; [intros C; contradiction |].
    split; [| repeat split; assumption].
    intros _. exists pids. split; [reflexivity |]. split; [discriminate |].
    assert (Hrej : grantRejected params now = false)
      by (destruct (grantRejected params now); [discriminate | reflexivity]).
    rewrite Hrej in Haud.
    split; [exact Hrej |]. split; [exact Hent |].
    rewrite Haud, <- app_assoc. reflexivity.
  - erewrite tryCatch_err;
      [| rewrite bind_gets, F; erewrite bind_err; [reflexivity | exact G]].
    intros Pi Pe Pp. eexists. split; [reflexivity |].
    cbn [fst snd reply_status] in *.
    assert (Hrej : grantRejected params now = true)
      by (destruct (grantRejected params now); [reflexivity | discriminate]).
    rewrite (Hun Hrej) in *.
    repeat split; intros; try reflexivity; lia.
Qed.

(** ** Activation and access *)

Lemma link_boundTo (i : Z) (email p : string) (s : Store) :
  boundTo (toLowerCase email) p i (snd (linkEmailToIdentity i email p s)).
Proof.
  unfold linkEmailToIdentity. rewrite identityEmail_upsert_run. cbn [snd].
  set (em := toLowerCase email).
  destruct (existsb (sameBinding em p) (identityEmails s)) eqn:E; store_simpl.
  - split.
    + store_simpl. apply existsb_exists in E. destruct E as [x [Hx Q]].
      apply existsb_exists.
      exists (mkIdentityEmail (ie_email x) (ie_productId x) i).
      split.
      * apply in_map_iff. exists x. rewrite Q. auto.
      * exact Q.
    + intros row Hin Q. store_simpl. apply in_map_iff in Hin.
      destruct Hin as [x [<- Hx]].
      destruct (sameBinding em p x) eqn:Qx; [reflexivity |].
      congruence.
  - split.
    + store_simpl. rewrite existsb_app. cbn [existsb]. unfold sameBinding at 2.
      cbn [ie_email ie_productId]. rewrite !String.eqb_refl.
      rewrite orb_true_r. reflexivity.
    + intros row Hin Q. store_simpl. apply in_app_iff in Hin.
      destruct Hin as [Hin | [<- | []]]; [| reflexivity].
      exfalso.
      assert (existsb (sameBinding em p) (identityEmails s) = true)
        by (apply existsb_exists; exists row; auto).
      congruence.
Qed.

Lemma link_keeps_boundTo (i : Z) (em p email q : string) (s : Store) :
  boundTo em p i s ->
  boundTo em p i (snd (linkEmailToIdentity i email q s)).
Proof.
  intros [E O]. unfold linkEmailToIdentity. rewrite identityEmail_upsert_run.
  cbn [snd].
  destruct (existsb (sameBinding (toLowerCase email) q) (identityEmails s));
    store_simpl.
  - split.
    + store_simpl. apply existsb_exists in E. destruct E as [x [Hx Q]].
      apply existsb_exists.
      exists (if sameBinding (toLowerCase email) q x
              then mkIdentityEmail (ie_email x) (ie_productId x) i else x).
      split.
      * apply in_map_iff. exists x. auto.
      * destruct (sameBinding (toLowerCase email) q x); exact Q.
    + intros row Hin Q. store_simpl. apply in_map_iff in Hin.
      destruct Hin as [x [<- Hx]].
      destruct (sameBinding (toLowerCase email) q x); [reflexivity |].
      apply O; assumption.
  - split.
    + store_simpl. rewrite existsb_app, E. reflexivity.
    + intros row Hin Q. store_simpl. apply in_app_iff in Hin.
      destruct Hin as [Hin | [<- | []]]; [apply O; assumption | reflexivity].
Qed.

Lemma prep_boundTo pe ident pids s p pd :
  In p pids -> lookup p pe = Some pd -> truthy (pd_email pd) = true ->
  boundTo (toLowerCase (pd_email pd)) p (identity_id ident)
    (snd (awaitAll None (claimPrep pe ident pids) s)).
Proof.
  intros Hp Hl Ht.
  set (c0 := linkEmailToIdentity (identity_id ident) (pd_email pd) p).
  assert (Hin : In c0 (claimPrep pe ident pids)).
  { unfold claimPrep. apply in_flat_map. exists p. split; [exact Hp |].
    rewrite Hl, Ht. left. reflexivity. }
  pose proof (claimPrep_neverFails pe ident pids) as NF.
  destruct (in_split _ _ Hin) as [l1 [l2 E]]. rewrite E in *.
  rewrite awaitAll_None_app by (apply (Forall_app_l _ _ _ NF)).
  cbn [awaitAll]. unfold bind.
  pose proof (link_boundTo (identity_id ident) (pd_email pd) p
                (snd (awaitAll None l1 s))) as Hadd.
  fold c0 in Hadd.
  assert (F0 : neverFails c0) by (intros s0; reflexivity).
  specialize (F0 (snd (awaitAll None l1 s))).
  destruct (c0 (snd (awaitAll None l1 s))) as [[[] | e] s1];
    cbn [fst snd] in *; [| discriminate].
  apply awaitAll_None_inv with
    (Q := boundTo (toLowerCase (pd_email pd)) p (identity_id ident)).
  - apply Forall_app_r in NF. inversion NF; assumption.
  - intros c Hc s0 H0.
    assert (Hc' : In c (l1 ++ c0 :: l2))
      by (rewrite in_app_iff; right; right; exact Hc).
    rewrite <- E in Hc'. apply claimPrep_calls in Hc'.
    destruct Hc' as [[e [q ->]] | [row ->]].
    + apply link_keeps_boundTo. exact H0.
    + exact H0.
  - exact Hadd.
Qed.

(** X20.  A successful activation gives each supplied email access to
    its product: when [processClaim] succeeds for a bundle whose expiry
    lies after [n] (or is none), [checkAccess] reports access at [n]
    for every product of the bundle and the email the claimant gave for
    it, whatever identity that email was bound to before. *)
Theorem processClaim_gives_access (tok : string)
    (productEmails : list (string * ProductData)) (now n : Z) (s : Store)
    (bundle : Bundle) (ident : Identity) (p : string) (pd : ProductData)
    (Hok : fst (processClaim tok productEmails now s) = Ok (bundle, ident))
    (Hp : In p (productIds bundle))
    (Hgiven : lookup p productEmails = Some pd)
    (Hemail : truthy (pd_email pd) = true)
    (Hlater : validAt n (expiryValue (calculateExpiryDate (durationType bundle)
                                        (durationValue bundle) now))) :
  hasAccessAt (pd_email pd) p n (snd (processClaim tok productEmails now s))
  = true.
Proof.
  rewrite processClaim_run in Hok. rewrite processClaim_run.
  pose proof (validate_pure tok now s) as Hpure.
  destruct (processClaim_validate tok now s)
    as [[[[c b] i] | e] sv] eqn:V; cbn [fst snd] in *; subst sv.
  2: { erewrite bind_err in Hok; [discriminate | exact V]. }
  assert (Hinv : fst (processClaim_validate tok now s) = Ok (c, b, i))
    by (rewrite V; reflexivity).
  apply validate_ok_inv in Hinv. destruct Hinv as [Htok _].
  erewrite bind_ok in Hok; [| exact V]. erewrite bind_ok; [| exact V].
  cbv beta iota in *.
  rewrite processClaim_calls_split in *.
  pose proof (claimPrep_neverFails productEmails i (productIds b)) as NF.
  unfold bind in *. rewrite (awaitAll_None_app _ _ NF) in *.
  set (sp := snd (awaitAll None (claimPrep productEmails i (productIds b)) s))
    in *.
  assert (Etok : claimTokens sp = claimTokens s).
  { apply (preserves_awaitAll claimTokens _
             (claimPrep_preserves claimTokens _ _ _
                ltac:(intros; frame) ltac:(intros; frame)) None s). }
  assert (Ebind : forall q qd,
             In q (productIds b) -> lookup q productEmails = Some qd ->
             truthy (pd_email qd) = true ->
             boundTo (toLowerCase (pd_email qd)) q (identity_id i) sp).
  { intros q qd Hq Hl Ht. apply prep_boundTo; assumption. }
  clearbody sp.
  destruct (claimRest_run tok b i now sp c None) as [[_ _ Hrest] _].
  { rewrite Etok. exact Htok. }
  assert (Fbind : identityEmails (snd (awaitAll None (claimRest tok b i now) sp))
                  = identityEmails sp).
  { apply (preserves_awaitAll identityEmails).
    apply claimRest_preserves; intros; frame. }
  destruct (awaitAll None (claimRest tok b i now) sp) as [[[] | e] s'] eqn:R;
    [| discriminate].
  cbn [fst snd isOk ret] in *. inversion Hok; subst b i. clear Hok.
  destruct (Hrest eq_refl) as [Hrej [_ [Hent _]]].
  assert (Hrow : exists x,
             In x (entitlements s')
             /\ grantedRow (claimGrant bundle ident)
                  (expiryValue (calculateExpiryDate (durationType bundle)
                                  (durationValue bundle) now)) p x).
  { rewrite Hent. unfold grantEffect. rewrite Hrej.
    apply grantTable_rows. exact Hp. }
  destruct Hrow as [x [Hx [K [Hr [_ He]]]]].
  unfold grantKey in K. apply sameKey_spec in K. unfold entKey in K.
  injection K as K1 K2 K3 K4.
  apply (hasAccessAt_bound _ _ n _ (identity_id ident) x).
  - apply (boundTo_frame _ _ _ sp); [exact Fbind |].
    apply Ebind; assumption.
  - exact Hx.
  - exact K1.
  - exact K2.
  - exact Hr.
  - rewrite He. exact Hlater.
Qed.

(** ** Subscriptions *)

Lemma handleSubscriptionUpdated_run (subscription : Subscription) (now : Z)
    (s : Store) (ident : Identity) (bundle : Bundle) :
  customerIdentity (subscription_customer subscription) s = Some ident ->
  subscriptionBundle subscription s = Some bundle ->
  handleSubscriptionUpdated subscription now s
  = (let st := subscription_status subscription in
     (if (st =? "active")%string || (st =? "trialing")%string
      then grantAccess (subscriptionGrant subscription ident bundle) now ;;; ret tt
      else if (st =? "canceled")%string || (st =? "unpaid")%string
              || (st =? "past_due")%string
      then
        forEach
          (fun productId =>
             entitlement_updateMany
               (fun e =>
                  (ent_identityId e =? identity_id ident)
                  && (ent_productId e =? productId)%string
                  && eqb_opt_string (ent_stripeSubscriptionId e)
                       (Some (subscription_id subscription)))
               (revoked now (Some ("Subscription " ++ st)%string)))
          (productIds bundle)
      else ret tt) ;;;
     ret (mkHandled true None)) s.
Proof.
  unfold customerIdentity, subscriptionBundle. intros Hi Hb.
  unfold handleSubscriptionUpdated. rewrite bind_gets, Hi.
  destruct (subscription_prices subscription) as [| priceId rest];
    [discriminate |].
  destruct (truthy priceId); [| discriminate]. cbn [negb].
  rewrite bind_gets, Hb. reflexivity.
Qed.

(** X21.  A subscription that is active or trialing gives access to the
    products of its bundle: for a customer an identity has, a price that
    is a bundle's, and an expiry that is a valid date after [n] (or
    none), the handler reports the event handled and [checkAccess]
    reports access at [n] for every product of the bundle and every
    email it resolves to the customer's identity.  The handler binds no
    email, sends no mail and pushes nothing. *)
Theorem handleSubscriptionUpdated_active_gives_access
    (subscription : Subscription) (now n : Z) (s : Store) (ident : Identity)
    (bundle : Bundle) (expires : option Z) (email p : string)
    (Hcustomer : customerIdentity (subscription_customer subscription) s
                 = Some ident)
    (Hbundle : subscriptionBundle subscription s = Some bundle)
    (Hstatus : subscription_status subscription = "active"
               \/ subscription_status subscription = "trialing")
    (Hexpiry : dbDateOf (calculateExpiryDate (durationType bundle)
                           (durationValue bundle) now) expires)
    (Hlater : validAt n expires)
    (Hp : In p (productIds bundle))
    (Hresolve : resolveIdentity email p s = Some (identity_id ident)) :
  let out := handleSubscriptionUpdated subscription now s in
  fst out = Ok (mkHandled true None)
  /\ hasAccessAt email p n (snd out) = true
  /\ identityEmails (snd out) = identityEmails s
  /\ sentEmails (snd out) = sentEmails s
  /\ syncPushes (snd out) = syncPushes s.
Proof.
  cbv zeta.
  rewrite (handleSubscriptionUpdated_run _ _ _ _ _ Hcustomer Hbundle).
  cbv zeta.
  assert (St : ((subscription_status subscription =? "active")%string
                || (subscription_status subscription =? "trialing")%string)
               = true).
  { destruct Hstatus as [-> | ->]; reflexivity. }
  rewrite St.
  set (params := subscriptionGrant subscription ident bundle).
  destruct (grantAccess_rows params now s expires p Hexpiry eq_refl Hp)
    as [rows [x [R [Hx [X1 [X2 [_ [X4 X5]]]]]]]].
  assert (P1 : preserves identityEmails (grantAccess params now)) by frame.
  assert (P2 : preserves identities (grantAccess params now)) by frame.
  assert (P3 : preserves sentEmails (grantAccess params now)) by frame.
  assert (P4 : preserves syncPushes (grantAccess params now)) by frame.
  specialize (P1 s). specialize (P2 s). specialize (P3 s). specialize (P4 s).
  destruct (grantAccess params now s) as [r s1] eqn:G. cbn [fst snd] in *.
  subst r.
  rewrite bind_bind. erewrite bind_ok; [| exact G].
  rewrite bind_ret. unfold ret. cbn [fst snd].
  split; [reflexivity |]. split; [| auto].
  apply (hasAccessAt_active email p n s1 (identity_id ident) x); auto.
  - unfold resolveIdentity in *. rewrite P1, P2. exact Hresolve.
  - rewrite X5. exact Hlater.
Qed.

Lemma forEach_updateMany_sub (i : Z) (sid : option string)
    (f : Entitlement -> Entitlement)
    (Hkey : forall e, ent_identityId (f e) = ent_identityId e
                      /\ ent_productId (f e) = ent_productId e
                      /\ ent_stripeSubscriptionId (f e)
                         = ent_stripeSubscriptionId e)
    (Hidem : forall e, f (f e) = f e) :
  forall (pids : list string) (s : Store),
    forEach (fun productId =>
               entitlement_updateMany
                 (fun e => (ent_identityId e =? i)
                           && (ent_productId e =? productId)%string
                           && eqb_opt_string (ent_stripeSubscriptionId e) sid) f)
            pids s
    = (Ok tt,
       with_entitlements
         (map (fun e => if (ent_identityId e =? i)
                           && inb (ent_productId e) pids
                           && eqb_opt_string (ent_stripeSubscriptionId e) sid
                        then f e else e) (entitlements s)) s).
Proof.
  induction pids as [| p r IH]; intros s.
  - cbn [forEach]. unfold ret. f_equal.
    replace (map _ (entitlements s)) with (entitlements s).
    + destruct s; reflexivity.
    + symmetry. rewrite <- (map_id (entitlements s)) at 2. apply map_ext.
      intros e. unfold inb. cbn [existsb]. rewrite andb_false_r. reflexivity.
  - cbn [forEach]. unfold entitlement_updateMany at 1. rewrite bind_modify.
    rewrite IH. store_simpl. f_equal.
    replace (map _ (map _ (entitlements s)))
      with (map (fun e => if (ent_identityId e =? i)
                             && inb (ent_productId e) (p :: r)
                             && eqb_opt_string (ent_stripeSubscriptionId e) sid
                          then f e else e) (entitlements s)).
    + destruct s; reflexivity.
    + rewrite map_map. apply map_ext. intros e. cbv beta.
      unfold inb. cbn [existsb]. rewrite (String.eqb_sym p).
      destruct (Hkey e) as [K1 [K2 K3]].
      destruct (existsb (fun y => (y =? ent_productId e)%string) r) eqn:Er;
        destruct (ent_identityId e =? i) eqn:Ei;
        destruct (ent_productId e =? p)%string eqn:Ep;
        destruct (eqb_opt_string (ent_stripeSubscriptionId e) sid) eqn:Es;
        cbn [andb orb];
        rewrite ?K1, ?K2, ?K3, ?Ei, ?Es, ?Er; cbn [andb orb];
        rewrite ?Hidem; reflexivity.
Qed.

(** X22.  What an update of a subscription with another status does,
    for a customer an identity has and a price that is a bundle's.  With
    status canceled, unpaid or past_due it revokes, with the reason
    "Subscription " followed by the status, exactly the rows of the
    identity for a product of the bundle that carry the id of the
    subscription: each gets [revokedAt], the time of the event, and the
    reason, and keeps its other columns; rows without that id, of other
    identities or of other products stay as they are, and no row is
    added or moved.  With any status other than these three,
    active and trialing, it changes nothing.  In both cases the event is
    reported as handled, no audit entry is written and nothing is
    pushed. *)
Theorem handleSubscriptionUpdated_lapsed (subscription : Subscription)
    (now : Z) (s : Store) (ident : Identity) (bundle : Bundle)
    (Hcustomer : customerIdentity (subscription_customer subscription) s
                 = Some ident)
    (Hbundle : subscriptionBundle subscription s = Some bundle)
    (Hstatus : subscription_status subscription <> "active"
               /\ subscription_status subscription <> "trialing") :
  let out := handleSubscriptionUpdated subscription now s in
  let st := subscription_status subscription in
  let carries := fun e =>
    ent_identityId e = identity_id ident
    /\ In (ent_productId e) (productIds bundle)
    /\ ent_stripeSubscriptionId e = Some (subscription_id subscription) in
  fst out = Ok (mkHandled true None)
  /\ (st = "canceled" \/ st = "unpaid" \/ st = "past_due" ->
      entitlements (snd out)
      = map (fun e => if lapsedRows subscription ident bundle e
                      then revoked now (Some ("Subscription " ++ st)%string) e
                      else e) (entitlements s))
  /\ (st = "canceled" \/ st = "unpaid" \/ st = "past_due" ->
      forall k e,
        nth_error (entitlements s) k = Some e ->
        exists e',
          nth_error (entitlements (snd out)) k = Some e'
          /\ (carries e ->
              revokedAt e' = Some now
              /\ revokedReason e' = Some ("Subscription " ++ st)%string
              /\ clearRevocation e' = clearRevocation e)
          /\ (~ carries e -> e' = e))
  /\ (st <> "canceled" -> st <> "unpaid" -> st <> "past_due" -> snd out = s)
  /\ auditLogs (snd out) = auditLogs s
  /\ syncPushes (snd out) = syncPushes s.
Proof.
  cbv zeta.
  rewrite (handleSubscriptionUpdated_run _ _ _ _ _ Hcustomer Hbundle).
  cbv zeta. destruct Hstatus as [N1 N2].
  apply String.eqb_neq in N1, N2. rewrite N1, N2. cbn [orb].
  set (st := subscription_status subscription) in *.
  destruct ((st =? "canceled")%string || (st =? "unpaid")%string
            || (st =? "past_due")%string) eqn:L.
  - rewrite (bind_ok _ _ _ _ _
               (forEach_updateMany_sub (identity_id ident)
                  (Some (subscription_id subscription))
                  (revoked now (Some ("Subscription " ++ st)%string))
                  (fun e => conj eq_refl (conj eq_refl eq_refl))
                  (revoked_idem now _) (productIds bundle) s)).
    unfold ret. cbn [fst snd]. store_simpl.
    split; [reflexivity |]. split; [intros _; reflexivity |].
    split.
    { intros _ k e Hk. rewrite nth_error_map, Hk. cbn [option_map].
      eexists. split; [reflexivity |].
      fold (lapsedRows subscription ident bundle e).
      assert (Hrows : lapsedRows subscription ident bundle e = true
                      <-> ent_identityId e = identity_id ident
                          /\ In (ent_productId e) (productIds bundle)
                          /\ ent_stripeSubscriptionId e
                             = Some (subscription_id subscription)).
      { unfold lapsedRows. rewrite !andb_true_iff, Z.eqb_eq, inb_spec,
          eqb_opt_string_eq. tauto. }
      destruct (lapsedRows subscription ident bundle e) eqn:R.
      - split; [intros _; repeat split |].
        intros C. exfalso. apply C, Hrows. reflexivity.
      - split; [| reflexivity].
        intros C. apply Hrows in C. discriminate. }
    split; [| split; reflexivity].
    intros C1 C2 C3. apply String.eqb_neq in C1, C2, C3.
    rewrite C1, C2, C3 in L. discriminate.
  - rewrite bind_ret. unfold ret. cbn [fst snd].
    split; [reflexivity |].
    split; [intros [C | [C | C]]; rewrite C in L; discriminate |].
    split; [intros [C | [C | C]]; rewrite C in L; discriminate |].
    repeat split.
Qed.

Lemma grantCreated_subscription (params : GrantParams) expires now found :
  forall n x,
    In x (grantCreated params expires now found n) ->
    ent_stripeSubscriptionId x = g_stripeSubscriptionId params
    /\ ent_identityId x = g_identityId params.
Proof.
  induction found as [| [q [e |]] r IH]; intros n x Hx; cbn [grantCreated] in Hx.
  - contradiction.
  - apply (IH n x Hx).
  - destruct Hx as [<- | Hx]; [split; reflexivity | apply (IH _ x Hx)].
Qed.

(** X23.  A subscription that was active and is then deleted leaves no
    bundle access behind.  On a table with unique ids and at most one
    row per (identity, product, source, sourceApp): after the update of
    an active or trialing subscription, whose grant succeeded, and the
    deletion of the subscription with the same id and customer, every
    bundle row of the customer's identity for a product of the bundle is
    revoked at the time of the deletion, with the reason
    "Subscription deleted". *)
Theorem subscription_deleted_after_active (created deleted : Subscription)
    (now1 now2 : Z) (s : Store) (ident : Identity) (bundle : Bundle)
    (expires : option Z)
    (Hwf : wf_entitlements (entitlements s) (nextEntitlementId s))
    (Hkeys : uniqueKeys (entitlements s))
    (Hcustomer : customerIdentity (subscription_customer created) s = Some ident)
    (Hbundle : subscriptionBundle created s = Some bundle)
    (Hstatus : subscription_status created = "active"
               \/ subscription_status created = "trialing")
    (Hexpiry : dbDateOf (calculateExpiryDate (durationType bundle)
                           (durationValue bundle) now1) expires)
    (Hsame : subscription_id deleted = subscription_id created
             /\ subscription_customer deleted = subscription_customer created) :
  let s1 := snd (handleSubscriptionUpdated created now1 s) in
  let out := handleSubscriptionDeleted deleted now2 s1 in
  fst out = Ok (mkHandled true None)
  /\ forall x,
       In x (entitlements (snd out)) ->
       ent_identityId x = identity_id ident ->
       In (ent_productId x) (productIds bundle) ->
       ent_source x = "bundle" -> ent_sourceApp x = "central" ->
       revokedAt x = Some now2
       /\ revokedReason x = Some "Subscription deleted".
Proof.
  cbv zeta.
  rewrite (handleSubscriptionUpdated_run _ _ _ _ _ Hcustomer Hbundle).
  cbv zeta.
  assert (St : ((subscription_status created =? "active")%string
                || (subscription_status created =? "trialing")%string) = true).
  { destruct Hstatus as [-> | ->]; reflexivity. }
  rewrite St.
  set (params := subscriptionGrant created ident bundle).
  destruct (grantAccess_ok params now1 expires s Hexpiry eq_refl) as [rows G].
  rewrite bind_bind. erewrite bind_ok; [| exact G].
  rewrite bind_ret. unfold ret. cbn [snd].
  destruct Hsame as [Sid Scu].
  unfold handleSubscriptionDeleted. rewrite bind_gets. store_simpl.
  unfold customerIdentity in Hcustomer. rewrite Scu, Hcustomer.
  unfold entitlement_updateMany. rewrite bind_modify. unfold ret.
  cbn [fst snd]. store_simpl. split; [reflexivity |].
  rewrite (grantTable_closed _ _ _ _ _ Hwf). cbn [fst].
  destruct Hwf as [Hids _].
  intros x Hx Hi Hp Hs Ha.
  apply in_map_iff in Hx. destruct Hx as [y [<- Hy]].
  assert (Hcarries :
            (ent_identityId y =? identity_id ident)
            && eqb_opt_string (ent_stripeSubscriptionId y)
                 (Some (subscription_id deleted)) = true
            \/ ~ (ent_identityId y = identity_id ident
                  /\ In (ent_productId y) (productIds bundle)
                  /\ ent_source y = "bundle" /\ ent_sourceApp y = "central")).
  { apply in_app_iff in Hy. destruct Hy as [Hy | Hy].
    - apply in_map_iff in Hy. destruct Hy as [z [<- Hz]].
      rewrite (touched_isGranted params _ z Hids Hkeys Hz).
      destruct (isGranted params z) eqn:Gz.
      + left. unfold isGranted, grantKey in Gz. apply andb_true_iff in Gz.
        destruct Gz as [Gz _]. apply sameKey_spec in Gz. unfold entKey in Gz.
        pose proof (f_equal (fun t => fst (fst (fst t))) Gz) as K1.
        cbn [fst] in K1.
        cbn [regranted ent_identityId ent_stripeSubscriptionId].
        cbn [params subscriptionGrant g_stripeSubscriptionId g_identityId upd]
          in *.
        rewrite K1, Z.eqb_refl, Sid. cbn [eqb_opt_string andb].
        apply String.eqb_refl.
      + right. intros [C1 [C2 [C3 C4]]].
        unfold isGranted, grantKey in Gz.
        assert (sameKey (g_identityId params) (ent_productId z)
                  (g_source params) (default_to "central" (g_sourceApp params)) z
                = true).
        { apply sameKey_spec. unfold entKey. rewrite C1, C3, C4. reflexivity. }
        rewrite H in Gz. cbn [andb] in Gz.
        apply inb_spec in C2. cbn [params subscriptionGrant g_productIds] in Gz.
        congruence.
    - left. apply grantCreated_subscription in Hy. destruct Hy as [Y1 Y2].
      rewrite Y1, Y2. cbn [params subscriptionGrant g_stripeSubscriptionId
                             g_identityId].
      rewrite Z.eqb_refl, Sid. cbn [eqb_opt_string andb]. apply String.eqb_refl. }
  destruct Hcarries as [C | C].
  - rewrite C in *. split; reflexivity.
  - exfalso. apply C.
    destruct ((ent_identityId y =? identity_id ident)
              && eqb_opt_string (ent_stripeSubscriptionId y)
                   (Some (subscription_id deleted)));
      repeat split; assumption.
Qed.

Lemma getOrCreateIdentity_found (email : string) (c : option string) (s : Store) :
  exists ident s1 found,
    getOrCreateIdentity email c s = (Ok ident, s1)
    /\ find (fun i => (primaryEmail i =? toLowerCase email)%string)
            (identities s1) = Some found
    /\ identity_id found = identityIdFor email s
    /\ (List.length (identities s1) <= S (List.length (identities s)))%nat.
Proof.
  pose proof (getOrCreateIdentity_cases email c s) as H.
  unfold identityIdFor.
  destruct (find _ (identities s)) as [i |] eqn:F.
  - destruct (truthy_opt c && negb (truthy_opt (stripeCustomerId i))).
    + rewrite H. do 3 eexists. split; [reflexivity |]. store_simpl.
      rewrite find_map_same
        by (intros x; destruct (identity_id x =? identity_id i); reflexivity).
      rewrite F. cbn [option_map]. rewrite Z.eqb_refl.
      split; [reflexivity |]. split; [reflexivity |].
      rewrite length_map. lia.
    + rewrite H. do 3 eexists. split; [reflexivity |].
      split; [exact F |]. split; [reflexivity | lia].
  - rewrite H. do 3 eexists. split; [reflexivity |]. store_simpl.
    rewrite (find_app_none _ _ _ F). cbn [find primaryEmail].
    rewrite String.eqb_refl. split; [reflexivity |]. split; [reflexivity |].
    rewrite length_app. cbn [List.length]. lia.
Qed.

(** X24.  The bookkeeping of a report for a product that exists.
    Whatever the action, and even when the report fails,
    [reportExternalSubscription] leaves an identity whose primary email
    is the lower-cased email and a binding of that email for the
    product, creating each when it is missing (so a revocation for an
    unknown email creates both), and adds at most one row to either
    table.  It fails in two cases only, a grant whose expiry is an
    Invalid Date and a grant whose amount does not fit the 32-bit
    column; then the identity and the binding are written all the same,
    but no entitlement and no audit entry.  A report that succeeds
    appends exactly one audit entry, external_grant or external_revoke,
    for the identity and the product.  No report pushes to the apps or
    sends mail. *)
Theorem reportExternalSubscription_bookkeeping (params : ReportParams)
    (now : Z) (s : Store)
    (Hknown : knownProducts [r_productId params] s) :
  let out := reportExternalSubscription params now s in
  let em := toLowerCase (r_email params) in
  let i := identityIdFor (r_email params) s in
  (exists ident,
      find (fun x => (primaryEmail x =? em)%string) (identities (snd out))
      = Some ident
      /\ identity_id ident = i)
  /\ existsb (sameBinding em (r_productId params)) (identityEmails (snd out))
     = true
  /\ (List.length (identities (snd out)) <= S (List.length (identities s)))%nat
  /\ (List.length (identityEmails (snd out))
      <= S (List.length (identityEmails s)))%nat
  /\ (isOk (fst out) = false
      <-> r_action params = grant
          /\ (r_expiresAt params = Some InvalidDate
              \/ exists v, r_amountPaid params = Some v
                           /\ (v < -2147483648 \/ 2147483647 < v)))
  /\ (isOk (fst out) = false ->
      entitlements (snd out) = entitlements s
      /\ auditLogs (snd out) = auditLogs s)
  /\ (isOk (fst out) = true ->
      auditLogs (snd out)
      = auditLogs s
        ++ [mkAuditLog (match r_action params with
                        | grant => "external_grant"
                        | revoke => "external_revoke"
                        end) i [r_productId params] None])
  /\ syncPushes (snd out) = syncPushes s
  /\ sentEmails (snd out) = sentEmails s.
Proof.
  cbv zeta.
  set (em := toLowerCase (r_email params)).
  destruct (getOrCreateIdentity_found em None s)
    as [ident [s1 [found [G [Ff [Fid Flen]]]]]].
  unfold em in Ff, Fid. rewrite toLowerCase_idem in Ff.
  rewrite identityIdFor_lower in Fid. fold em in Ff.
  destruct (getOrCreateIdentity_id em None s) as [ident' [s1' [G' [Hid _]]]].
  rewrite G in G'. inversion G'; subst ident' s1'. clear G'.
  unfold em in Hid. rewrite identityIdFor_lower in Hid.
  set (up := identityEmail_upsert em (r_productId params) (identity_id ident)
               None).
  assert (U : up s1 = (Ok tt, snd (up s1))) by reflexivity.
  assert (Hex : existsb (sameBinding em (r_productId params))
                  (identityEmails (snd (up s1))) = true)
    by apply upsert_binds.
  assert (Hlen : (List.length (identityEmails (snd (up s1)))
                  <= S (List.length (identityEmails s)))%nat).
  { assert (P : preserves identityEmails (getOrCreateIdentity em None)) by frame.
    specialize (P s). rewrite G in P. cbn [snd] in P. rewrite <- P.
    unfold up. rewrite identityEmail_upsert_run. cbn [snd].
    destruct (existsb _ (identityEmails s1)); store_simpl; [lia |].
    rewrite length_app. cbn [List.length]. lia. }
  assert (Fr : forall (B : Type) (f : Store -> B),
            preserves f (getOrCreateIdentity em None) ->
            preserves f up -> f (snd (up s1)) = f s).
  { intros B f P1 P2. rewrite P2. specialize (P1 s). rewrite G in P1. exact P1. }
  assert (Fi : identities (snd (up s1)) = identities s1)
    by (assert (P : preserves identities up) by (unfold up; frame); apply P).
  assert (Fe : entitlements (snd (up s1)) = entitlements s)
    by (apply Fr; [| unfold up]; frame).
  assert (Fa : auditLogs (snd (up s1)) = auditLogs s)
    by (apply Fr; [| unfold up]; frame).
  assert (Fp : syncPushes (snd (up s1)) = syncPushes s)
    by (apply Fr; [| unfold up]; frame).
  assert (Fm : sentEmails (snd (up s1)) = sentEmails s)
    by (apply Fr; [| unfold up]; frame).
  set (s2 := snd (up s1)) in *. clearbody s2.
  unfold reportExternalSubscription. cbv zeta. fold em.
  erewrite bind_ok; [| exact G].
  fold up. erewrite bind_ok; [| exact U].
  destruct (r_action params).
  - (* grant *)
    unfold entitlement_findFirst. rewrite bind_gets.
    destruct (expiry_cases (r_expiresAt params)) as [[expires Hd] | Hinv].
    + rewrite (bind_ok _ _ _ _ _ (dbDate_ok _ _ Hd s2)).
      assert (Hne : r_expiresAt params <> Some InvalidDate).
      { rewrite Hd. destruct expires; discriminate. }
      assert (Hunfit : fits (r_amountPaid params) = false
                       <-> exists v, r_amountPaid params = Some v
                                     /\ (v < -2147483648 \/ 2147483647 < v)).
      { unfold fits, int4. destruct (r_amountPaid params) as [v |].
        - split.
          + intros C. exists v. split; [reflexivity | lia].
          + intros [w [E C]]. inversion E; subst w. lia.
        - split; [discriminate | intros [w [E _]]; discriminate]. }
      destruct (fits (r_amountPaid params)) eqn:Hfit.
      2:{ destruct (dbInt_err _ s2 Hfit) as [msg E].
          erewrite bind_err; [| exact E]. cbn [fst snd isOk].
          rewrite Fi, Fa, Fp, Fm, Fe.
          split; [exists found; auto |]. split; [exact Hex |].
          split; [exact Flen |]. split; [exact Hlen |].
          split.
          { split; [intros _ | reflexivity].
            split; [reflexivity |]. right. apply Hunfit. reflexivity. }
          split; [auto |]. split; [discriminate |]. split; reflexivity. }
      assert (Hin4 : ~ exists v, r_amountPaid params = Some v
                                 /\ (v < -2147483648 \/ 2147483647 < v)).
      { intros C. apply Hunfit in C. discriminate. }
      rewrite (bind_ok _ _ _ _ _ (dbInt_ok _ s2 Hfit)).
      destruct (find _ (entitlements s2)) as [e0 |] eqn:F.
      * destruct (find_id_present (entitlements s2) (ent_id e0)) as [e1 [F1 _]].
        { apply in_map. apply find_some in F. tauto. }
        rewrite bind_bind.
        rewrite (bind_ok _ _ _ _ _
                   (entitlement_update_run _ (reported_update params expires)
                      _ _ F1)).
        rewrite bind_ret. unfold auditLog_create. rewrite bind_modify.
        unfold ret. cbn [fst snd isOk]. store_simpl.
        rewrite Fi, Fa, Fp, Fm, Hid.
        split; [exists found; auto |]. split; [exact Hex |].
        split; [exact Flen |]. split; [exact Hlen |].
        split; [split; [discriminate | intros [_ [C | C]]; contradiction] |].
        split; [discriminate |]. repeat split.
      * rewrite bind_bind.
        rewrite (bind_ok _ _ _ _ _ (entitlement_create_run _ _)).
        rewrite bind_ret. unfold auditLog_create. rewrite bind_modify.
        unfold ret. cbn [fst snd isOk]. store_simpl.
        rewrite Fi, Fa, Fp, Fm, Hid.
        split; [exists found; auto |]. split; [exact Hex |].
        split; [exact Flen |]. split; [exact Hlen |].
        split; [split; [discriminate | intros [_ [C | C]]; contradiction] |].
        split; [discriminate |]. repeat split.
    + rewrite Hinv. unfold dbDate. rewrite bind_throw. cbn [fst snd isOk].
      rewrite Fi, Fa, Fp, Fm, Fe.
      split; [exists found; auto |]. split; [exact Hex |].
      split; [exact Flen |]. split; [exact Hlen |].
      split; [split; auto |].
      split; [auto |]. split; [discriminate |]. split; reflexivity.
  - (* revoke *)
    unfold entitlement_updateMany. rewrite bind_modify.
    unfold auditLog_create. rewrite bind_modify. unfold ret.
    cbn [fst snd isOk]. store_simpl.
    rewrite Fi, Fa, Fp, Fm, Hid.
    split; [exists found; auto |]. split; [exact Hex |].
    split; [exact Flen |]. split; [exact Hlen |].
    split; [split; [discriminate | intros [C _]; discriminate] |].
    split; [discriminate |]. repeat split.
Qed.

Lemma deleteReason_spec (queryReason bodyReason : option string) :
  or_else (if truthy_opt queryReason then queryReason else bodyReason)
    "Revoked by admin"
  = deleteReason queryReason bodyReason
  /\ truthy (deleteReason queryReason bodyReason) = true.
Proof.
  unfold deleteReason, present, or_else, truthy_opt.
  destruct queryReason as [q |].
  - destruct (truthy q) eqn:Tq.
    + rewrite Tq. auto.
    + destruct bodyReason as [b |]; [| auto].
      destruct (truthy b) eqn:Tb; auto.
  - destruct bodyReason as [b |]; [| auto].
    destruct (truthy b) eqn:Tb; auto.
Qed.

(** X25.  A revocation through the admin route always records who and
    why.  For an admin and the id of an existing entitlement whose
    identity exists, the route answers 200 with the number of rows still
    active; the row is revoked at the time of the call with a reason
    that is never empty (that of the query string, else that of the
    body, else "Revoked by admin"); the audit entry revoke_single names
    the admin; and every push the revocation sends carries that same
    reason, the primary email of the identity and the tier free. *)
Theorem DELETE_entitlement_records_reason (admin : string) (id : Z)
    (queryReason bodyReason : option string) (now now' : Z) (s : Store)
    (e : Entitlement) (owner : Identity)
    (Hrow : find (fun x => ent_id x =? id) (entitlements s) = Some e)
    (Howner : find (fun i => identity_id i =? ent_identityId e) (identities s)
              = Some owner) :
  let out := DELETE_entitlement (Admin admin) (Some id) queryReason bodyReason
               now now' s in
  let reason := deleteReason queryReason bodyReason in
  (exists remaining, fst out = Ok (mkReply 200 (Ok remaining)))
  /\ truthy reason = true
  /\ entitlements (snd out)
     = map (fun x => if ent_id x =? id then revoked now (Some reason) x else x)
           (entitlements s)
  /\ (forall x, In x (entitlements (snd out)) -> ent_id x = id ->
                revokedAt x = Some now /\ revokedReason x = Some reason)
  /\ auditLogs (snd out)
     = auditLogs s
       ++ [mkAuditLog "revoke_single" (ent_identityId e) [ent_productId e]
             (Some admin)]
  /\ exists pushes,
       syncPushes (snd out) = syncPushes s ++ pushes
       /\ forall q, In q pushes ->
                    q = mkSyncPush (push_app q) (primaryEmail owner) "free"
                          "revoked" reason.
Proof.
  cbv zeta. unfold DELETE_entitlement. cbv zeta.
  destruct (deleteReason_spec queryReason bodyReason) as [E T].
  rewrite E.
  pose proof (revokeEntitlementById_run id
                (Some (deleteReason queryReason bodyReason)) (Some admin) now
                now' s e owner Hrow Howner) as R.
  cbv zeta in R.
  erewrite tryCatch_ok; [| erewrite bind_ok; [| exact R]; reflexivity].
  cbn [fst snd]. store_simpl.
  split; [eexists; reflexivity |]. split; [exact T |].
  split; [reflexivity |]. split.
  - intros x Hx Hid. apply in_map_iff in Hx. destruct Hx as [y [<- Hy]].
    destruct (Z.eqb_spec (ent_id y) id) as [_ | N]; [split; reflexivity |].
    contradiction.
  - split; [reflexivity |]. eexists. split; [reflexivity |].
    intros q Hq.
    destruct (activeRows (ent_identityId e) (ent_productId e) now' _);
      [| contradiction].
    destruct (truthy (primaryEmail owner)); [| contradiction].
    unfold pushesFor in Hq.
    destruct (truthy_opt (ADMIN_API_KEY s)); [| contradiction].
    apply in_map_iff in Hq. destruct Hq as [a [<- _]]. cbn [push_app].
    unfold revokeReason. rewrite (or_else_truthy _ _ T). reflexivity.
Qed.

(** ** Instances *)

Lemma syncToApps_once_per_app_witness :
  exists pushes,
    syncToApps ["Rezume"; "rezume"; "career"] "buyer@example.com" "free"
      "revoked" "Refund" emptyStore
    = (Ok tt, with_syncPushes (syncPushes emptyStore ++ pushes) emptyStore)
    /\ (List.length pushes <= 2)%nat.
Proof.
  destruct (syncToApps_once_per_app ["Rezume"; "rezume"; "career"]
              "buyer@example.com" "free" "revoked" "Refund" emptyStore)
    as [pushes [A [_ [B _]]]].
  exists pushes. split; assumption.
Defined.

Lemma getOrCreateIdentity_same_identity_witness :
  exists i1 i2,
    fst (getOrCreateIdentity "Buyer@Example.com" None emptyStore) = Ok i1
    /\ fst (getOrCreateIdentity "buyer@example.com" (Some "cus_1")
              (snd (getOrCreateIdentity "Buyer@Example.com" None emptyStore)))
       = Ok i2
    /\ identity_id i2 = identity_id i1.
Proof.
  destruct (getOrCreateIdentity_same_identity "Buyer@Example.com"
              "buyer@example.com" None (Some "cus_1") emptyStore eq_refl)
    as [i1 [i2 [A [B [C _]]]]].
  exists i1, i2. repeat split; assumption.
Defined.

Lemma getOrCreateIdentity_keeps_rows_witness :
  entitlements (snd (getOrCreateIdentity "Buyer@Example.com" (Some "cus_1")
                       twoSourceStore))
  = entitlements twoSourceStore.
Proof.
  apply (getOrCreateIdentity_keeps_rows "Buyer@Example.com" (Some "cus_1")
           twoSourceStore).
  simpl. constructor; [intros [] | constructor].
Defined.

Lemma linkEmailToIdentity_rebinds_witness :
  resolveIdentity "BUYER@example.com" "rezume"
    (snd (linkEmailToIdentity 7 "Buyer@Example.com" "rezume" twoSourceStore))
  = Some 7.
Proof.
  apply (linkEmailToIdentity_rebinds 7 "Buyer@Example.com" "rezume"
           twoSourceStore).
  reflexivity.
Defined.

Lemma revokeAccess_revokes_all_witness :
  activeRows 1 "rezume" 5000
    (entitlements (snd (revokeAccess 1 ["rezume"] None (Some "admin@example.com")
                          1600 twoSourceStore)))
  = [].
Proof.
  apply (revokeAccess_revokes_all 1 ["rezume"] None (Some "admin@example.com")
           1600 twoSourceStore).
  simpl. left. reflexivity.
Defined.

Lemma POST_always_logs_witness :
  exists resp,
    fst (POST buyerEvent "t1" 1738324800000 shopStore) = Ok resp
    /\ logCount "evt_1" (snd (POST buyerEvent "t1" 1738324800000 shopStore))
       = Nat.max 1 (logCount "evt_1" shopStore).
Proof.
  destruct (POST_always_logs buyerEvent "t1" 1738324800000 shopStore)
    as [resp [A [_ [B _]]]].
  exists resp. split; assumption.
Defined.

Lemma POST_ignorable_writes_only_log_witness :
  sameButLog shopStore
    (snd (POST (mkEvent "evt_9" (OtherEvent "invoice.paid")) "t1" 1000
            shopStore)).
Proof.
  apply (POST_ignorable_writes_only_log
           (mkEvent "evt_9" (OtherEvent "invoice.paid")) "t1" 1000 shopStore).
  simpl. exact I.
Defined.

Lemma handleCheckoutCompleted_claim_token_witness :
  fst (handleCheckoutCompleted buyerSession "t1" 1738324800000 formStore)
  = Ok (mkHandled true (Some "claim_token_created")).
Proof.
  apply (handleCheckoutCompleted_claim_token buyerSession "t1" 1738324800000
           formStore proSuite "buyer@example.com").
  - reflexivity.
  - reflexivity.
  - vm_compute. discriminate.
  - vm_compute. discriminate.
Defined.

Lemma claimToken_valid_for_30_days_witness :
  isOk (fst (processClaim_validate "tok2" 1600
               (snd (createClaimToken 1 1 "buyer@example.com" None "tok2" 1500
                       claimStore))))
  = (1600 <=? 1500 + 30 * msPerDay).
Proof.
  apply (claimToken_valid_for_30_days 1 1 "buyer@example.com" None "tok2" 1500
           1600 claimStore).
  - reflexivity.
  - vm_compute. discriminate.
  - vm_compute. discriminate.
  - vm_compute. discriminate.
Defined.

Lemma grantAccess_all_or_nothing_witness :
  isOk (fst (grantAccess costlyGrant 1000 catalogStore)) = false
  /\ snd (grantAccess costlyGrant 1000 catalogStore) = catalogStore.
Proof.
  assert (Hrefs : grantRefs costlyGrant catalogStore).
  { split; [vm_compute; discriminate |].
    split; [intros p [<- | []]; reflexivity | exact I]. }
  destruct (grantAccess_all_or_nothing costlyGrant 1000 catalogStore Hrefs)
    as [[_ A] [B _]].
  assert (H : isOk (fst (grantAccess costlyGrant 1000 catalogStore)) = false).
  { apply A. right. split; [discriminate |].
    exists 3000000000. split; [reflexivity | lia]. }
  split; [exact H | exact (B H)].
Defined.

Lemma POST_grant_gives_access_witness :
  hasAccessAt "New@Example.com" "aicoach" 5000
    (snd (POST_grant (Admin "admin@example.com") (Some "New@Example.com")
            (Some ["aicoach"]) None None None 1000 catalogStore))
  = true.
Proof.
  apply (POST_grant_gives_access "admin@example.com" (Some "New@Example.com")
           (Some ["aicoach"]) None None None 1000 5000 catalogStore
           "New@Example.com" "aicoach" ["aicoach"] None).
  - reflexivity.
  - reflexivity.
  - intros p [<- | []]. reflexivity.
  - simpl. left. reflexivity.
  - reflexivity.
  - simpl. exact I.
  - intros row H Q. vm_compute in H.
    destruct H as [H | H]; [subst row; vm_compute in Q; discriminate
                           | contradiction].
Defined.

Lemma handleCheckoutCompleted_gives_access_witness :
  hasAccessAt "buyer@example.com" "aicoach" 1738324800001
    (snd (handleCheckoutCompleted buyerSession "t1" 1738324800000 shopStore))
  = true.
Proof.
  apply (handleCheckoutCompleted_gives_access buyerSession "t1" 1738324800000
           1738324800001 shopStore proSuite "buyer@example.com" "aicoach"
           (Some 1753963200000)).
  - reflexivity.
  - reflexivity.
  - reflexivity.
  - simpl. right. left. reflexivity.
  - vm_compute. reflexivity.
  - simpl. lia.
  - intros row H. simpl in H. contradiction.
Defined.

Lemma reportExternalSubscription_grant_gives_access_witness :
  hasAccessAt "New@Example.com" "rezume" 5000
    (snd (reportExternalSubscription
            (reportOf grantReport "New@Example.com" "rezume" grant "rezume")
            1000 catalogStore))
  = true.
Proof.
  apply (reportExternalSubscription_grant_gives_access
           (reportOf grantReport "New@Example.com" "rezume" grant "rezume")
           1000 5000 catalogStore None).
  - reflexivity.
  - intros p [<- | []]. reflexivity.
  - reflexivity.
  - reflexivity.
  - simpl. exact I.
  - intros row H Q. vm_compute in H.
    destruct H as [H | H]; [subst row; vm_compute in Q; discriminate
                           | contradiction].
Defined.


Lemma report_then_check_witness :
  fst (POST_report (Some "secret") grantReport 1000 catalogStore)
  = Ok (mkReply 200 (Ok ("granted", "rezume")))
  /\ exists r,
       GET_check (Some "NEW@example.com") (Some "rezume") 5000 5000
         (snd (POST_report (Some "secret") grantReport 1000 catalogStore))
       = (Ok (mkReply 200 (Ok r)),
          snd (POST_report (Some "secret") grantReport 1000 catalogStore))
       /\ hasAccess r = true
       /\ ar_product r = "rezume".
Proof.
  apply (report_then_check (Some "secret") grantReport 1000 5000 catalogStore
           "New@Example.com" "rezume" "rezume" "NEW@example.com" None).
  - reflexivity.
  - reflexivity.
  - reflexivity.
  - reflexivity.
  - reflexivity.
  - reflexivity.
  - left. reflexivity.
  - intros p [<- | []]. reflexivity.
  - reflexivity.
  - reflexivity.
  - simpl. exact I.
  - intros row H Q. vm_compute in H.
    destruct H as [H | H]; [subst row; vm_compute in Q; discriminate
                           | contradiction].
  - reflexivity.
Defined.

Lemma POST_report_guards_witness :
  snd (POST_report (Some "guess") grantReport 1000 emptyStore) = emptyStore.
Proof.
  destruct (POST_report_guards (Some "guess") grantReport 1000 emptyStore)
    as [reply [_ [_ [H _]]]].
  apply H; [reflexivity | simpl; discriminate].
Defined.

Lemma admin_routes_refuse_without_writing_witness :
  (fst (DELETE_entitlement (Admin "admin@example.com") (Some 9) None None
          1600 1601 catalogStore)
   = Ok (mkReply 404 (Err "Entitlement not found"))
   /\ snd (DELETE_entitlement (Admin "admin@example.com") (Some 9) None None
             1600 1601 catalogStore)
      = catalogStore)
  /\ (exists message,
        fst (DELETE_entitlement (Admin "admin@example.com") (Some 3000000000)
               None None 1600 1601 catalogStore)
        = Ok (mkReply 500 (Err message)))
  /\ snd (DELETE_entitlement (Admin "admin@example.com") (Some 3000000000)
            None None 1600 1601 catalogStore)
     = catalogStore.
Proof.
  destruct (admin_routes_refuse_without_writing catalogStore)
    as [_ [_ [_ [_ [_ [_ [_ [_ [_ [_ [_ H]]]]]]]]]]].
  destruct (H "admin@example.com" 9 None None 1600 1601 eq_refl)
    as [A [B _]].
  destruct (H "admin@example.com" 3000000000 None None 1600 1601 eq_refl)
    as [C [_ D]].
  split; [split; [apply B; lia | exact A] |].
  split; [apply D; lia | exact C].
Defined.

Lemma PUT_extend_rewrites_expiry_witness :
  map clearExpiry
    (entitlements
       (snd (PUT_extend (Admin "admin@example.com") 1 (Some ["rezume"])
               (Some (DateOf 9999)) twoSourceStore)))
  = map clearExpiry (entitlements twoSourceStore).
Proof.
  destruct (PUT_extend_rewrites_expiry "admin@example.com" 1 (Some ["rezume"])
              (Some (DateOf 9999)) twoSourceStore ["rezume"] eq_refl)
    as [H _].
  destruct (H (Some 9999) eq_refl) as [_ [_ [A _]]].
  exact A.
Defined.

Lemma PATCH_grant_all_or_nothing_witness :
  exists reply,
    fst (PATCH_grant (Admin "admin@example.com") 1 (Some ["aicoach"]) None None
           None 1000 catalogStore) = Ok reply
    /\ reply_status reply = 200
    /\ entitlements
         (snd (PATCH_grant (Admin "admin@example.com") 1 (Some ["aicoach"]) None
                 None None 1000 catalogStore))
       = [bundleRow; directRow;
          mkEntitlement 3 1 "aicoach" "manual" "central" None 1000 None None
            None None None None None].
Proof.
  destruct (PATCH_grant_all_or_nothing "admin@example.com" 1 (Some ["aicoach"])
              None None None 1000 catalogStore) as [reply [A [_ [B _]]]].
  { intros pids E p Hp. inversion E; subst pids.
    destruct Hp as [<- | []]. reflexivity. }
  exists reply. split; [exact A |].
  assert (S200 : reply_status reply = 200).
  { vm_compute in A. inversion A. reflexivity. }
  split; [exact S200 |].
  destruct (B S200) as [pids [E [_ [_ [T _]]]]].
  inversion E; subst pids. rewrite T. reflexivity.
Defined.

Lemma processClaim_gives_access_witness :
  hasAccessAt "Claimant@Example.com" "rezume" 1600
    (snd (processClaim "tok"
            [("rezume", mkProductData "Claimant@Example.com" None)] 1500
            claimStore))
  = true.
Proof.
  apply (processClaim_gives_access "tok"
           [("rezume", mkProductData "Claimant@Example.com" None)] 1500 1600
           claimStore lifetimeBundle buyer "rezume"
           (mkProductData "Claimant@Example.com" None)).
  - vm_compute. reflexivity.
  - simpl. left. reflexivity.
  - reflexivity.
  - reflexivity.
  - simpl. exact I.
Defined.

Lemma handleSubscriptionUpdated_active_gives_access_witness :
  hasAccessAt "Buyer@Example.com" "rezume" 5000
    (snd (handleSubscriptionUpdated activeSubscription 1000 subscriberStore))
  = true.
Proof.
  apply (handleSubscriptionUpdated_active_gives_access activeSubscription 1000
           5000 subscriberStore subscriber lifetimeBundle None
           "Buyer@Example.com" "rezume").
  - reflexivity.
  - reflexivity.
  - left. reflexivity.
  - reflexivity.
  - simpl. exact I.
  - simpl. left. reflexivity.
  - reflexivity.
Defined.

Lemma handleSubscriptionUpdated_lapsed_witness :
  (exists e',
      nth_error
        (entitlements
           (snd (handleSubscriptionUpdated canceledSubscription 1600
                   subscribedStore))) 0
      = Some e'
      /\ revokedAt e' = Some 1600
      /\ revokedReason e' = Some "Subscription canceled"
      /\ clearRevocation e' = clearRevocation subscriptionRow)
  /\ nth_error
       (entitlements
          (snd (handleSubscriptionUpdated canceledSubscription 1600
                  subscribedStore))) 1
     = Some otherRow.
Proof.
  destruct (handleSubscriptionUpdated_lapsed canceledSubscription 1600
              subscribedStore subscriber lifetimeBundle)
    as [_ [_ [H _]]].
  - reflexivity.
  - reflexivity.
  - simpl. split; discriminate.
  - specialize (H (or_introl eq_refl)).
    destruct (H 0%nat subscriptionRow eq_refl) as [e0 [E0 [R0 _]]].
    destruct (H 1%nat otherRow eq_refl) as [e1 [E1 [_ R1]]].
    split.
    + exists e0. split; [exact E0 |]. apply R0.
      split; [reflexivity |]. split; [left; reflexivity | reflexivity].
    + rewrite E1. f_equal. apply R1. intros [_ [_ C]]. discriminate C.
Defined.

Lemma subscription_deleted_after_active_witness :
  fst (handleSubscriptionDeleted canceledSubscription 2000
         (snd (handleSubscriptionUpdated activeSubscription 1000
                 subscriberStore)))
  = Ok (mkHandled true None).
Proof.
  apply (subscription_deleted_after_active activeSubscription
           canceledSubscription 1000 2000 subscriberStore subscriber
           lifetimeBundle None).
  - simpl. split; constructor.
  - simpl. constructor.
  - reflexivity.
  - reflexivity.
  - left. reflexivity.
  - reflexivity.
  - simpl. split; reflexivity.
Defined.

Lemma reportExternalSubscription_bookkeeping_witness :
  isOk (fst (reportExternalSubscription costlyReport 1000 catalogStore)) = false
  /\ existsb (sameBinding "new@example.com" "rezume")
       (identityEmails
          (snd (reportExternalSubscription costlyReport 1000 catalogStore)))
     = true
  /\ entitlements (snd (reportExternalSubscription costlyReport 1000 catalogStore))
     = entitlements catalogStore
  /\ auditLogs (snd (reportExternalSubscription costlyReport 1000 catalogStore))
     = auditLogs catalogStore.
Proof.
  destruct (reportExternalSubscription_bookkeeping costlyReport 1000
              catalogStore) as [_ [A [_ [_ [[_ B] [C _]]]]]].
  { intros p [<- | []]. reflexivity. }
  assert (H : isOk (fst (reportExternalSubscription costlyReport 1000
                           catalogStore)) = false).
  { apply B. split; [reflexivity |]. right.
    exists 3000000000. split; [reflexivity | lia]. }
  split; [exact H |]. split; [exact A |]. exact (C H).
Defined.

Lemma DELETE_entitlement_records_reason_witness :
  truthy (deleteReason (Some "") None) = true
  /\ entitlements
       (snd (DELETE_entitlement (Admin "admin@example.com") (Some 2) (Some "")
               None 1600 1601 twoSourceStore))
     = map (fun x => if ent_id x =? 2
                     then revoked 1600 (Some (deleteReason (Some "") None)) x
                     else x)
           (entitlements twoSourceStore).
Proof.
  destruct (DELETE_entitlement_records_reason "admin@example.com" 2 (Some "")
              None 1600 1601 twoSourceStore directRow buyer eq_refl eq_refl)
    as [_ [A [B _]]].
  split; assumption.
Defined.
